(* ===== verification/_CoqProject ===== *)
-Q . S2P
Prelude.v
Bitmap.v
LinkedList.v
HashTable.v
Machine.v
Mips.v
FileTable.v
AddrSpace.v
Threads.v
ThreadsProofs.v
Synch.v
Interrupt.v
Disk.v
Coff.v
Network.v
Post.v
ConsoleTest.v
CommandLine.v
SelfTests.v
FileSys.v
FileSysProofs.v
FileSysSpec.v
Main.v
ProcTable.v
Syscalls.v
SyscallsProofs.v
Process.v
Confine.v
System.v
Isolation.v
