(* ===== verification/Prelude.v ===== *)
(** * Nachos 4.0: kernel, machine emulation and file system, verified

    The repository is the instructional operating system Nachos 4.0 with
    the system calls, the process table and the file descriptors of a
    course project.  One Unix process runs a MIPS machine simulator and a
    kernel in C++ under it; this library models both.  Paths below are
    under src/Nachos4.0/code/; the configuration is the one of the build
    files (-DFILESYS_STUB -DRDATA -DSIM_FIX -DCHANGED, 32-bit x86 host, no
    USE_TLB).

    ** The program, part by part

    - lib/: [Bitmap.v] bitmap.{h,cc}; [LinkedList.v] list.{h,cc};
      [HashTable.v] hash.{h,cc}; of sysdep.cc what the parts below call.
    - machine/: [Machine.v] machine.{h,cc} and translate.{h,cc} (registers,
      memory, address translation); [Mips.v] mipssim.{h,cc} (decoding and
      every instruction); [Interrupt.v] interrupt.{h,cc}, timer.{h,cc},
      stats.h, console.{h,cc}, and threads/alarm.{h,cc}; [Disk.v]
      disk.{h,cc}; [Network.v] network.{h,cc} with the sockets of
      lib/sysdep.cc.
    - threads/: [Threads.v] thread.{h,cc}, scheduler.{h,cc}, and the
      semaphores and locks of synch.{h,cc}; [Synch.v] condition variables
      and synchlist.{h,cc}; [SelfTests.v] lib/libtest.cc and the self tests
      of threads, semaphores and lists; [ProcTable.v] pcb, ptable, sem,
      stable; [Process.v] what of these blocks, and how kernel.cc and
      main.cc start a program; [CommandLine.v] the options of main.cc and
      of the constructor in kernel.cc, with lib/debug.cc and the atoi and
      atof they call.
    - userprog/: [FileTable.v] FileDescriptors.h over the stub
      filesys/{openfile,filesys}.h; [AddrSpace.v] addrspace.{h,cc}, noff.h;
      [Syscalls.v] ksyscall.h and exception.cc; [Process.v]
      synchconsole.{h,cc} and the calls that block; [ConsoleTest.v]
      synchconsole.{h,cc} over the device of Interrupt.v, and ConsoleTest of
      threads/kernel.cc.
    - filesys/: [Disk.v] synchdisk.{h,cc}; [FileSys.v] filehdr, openfile,
      pbitmap, directory and filesys in the build without the stub;
      [Main.v] their Print and List routines, and Copy, Print and the
      options on files of threads/main.cc.
    - network/: [Post.v] post.{h,cc}, and NetworkTest of threads/kernel.cc.
    - ../coff2noff/: [Coff.v] coff2noff.c, coff.h and noff.h, the program
      that makes the executables the kernel loads.

    The [*Proofs.v] and [*Spec.v] files hold the proofs about the file
    they are named after.  Three files are about all of the kernel and
    model nothing new: [Confine.v] (what an instruction and a system call
    can touch), [System.v] (an invariant of threads, page tables and
    frames) and [Isolation.v] (the programs of Process.v satisfy it).

    ** How the parts interact

    A user instruction ([Mips.OneInstruction]) reads and writes memory
    through [Machine.Translate] and the page table its [AddrSpace] set up.
    A trap raises an exception: a system call becomes a program of the
    kernel thread that runs the process ([Process.ExceptionHandler_syscall]),
    any other exception stops the machine ([Syscalls.handle]).  The calls
    on files go to the descriptor table ([FileTable.Table]), those on
    processes and semaphores to [PTable] and [STable] through the
    semaphores of [Threads.v].  A thread runs [Code], functions on the
    machine and the kernel's data, between two calls of the primitives; a
    context switch happens only in the primitives or by a [Yield] the
    timer asks for, and these are the steps of the kernel's machine
    ([Threads.step]).  Devices put interrupts on the list of pending ones
    (Interrupt.v); for Threads.v they are events that may happen whenever
    interrupts are enabled, so its theorems hold for every timing.

    Interfaces: [BitmapContract] (Bitmap.v) is what page frames, process
    and semaphore tables and the free map of the disk need of a bitmap;
    [ListSpec] (LinkedList.v) are the lists the rest of the kernel works
    with, which the linked cells refine; [SectorDisk] with [SectorLaws]
    (Disk.v) is the disk of the file system; [Kernel] (Machine.v) is what
    the machine needs of the kernel; [Handlers] (Interrupt.v) is what
    interrupt handlers may do; [Procs] (Threads.v) gives the loops of
    programs.  [Host] with [HostLaws] (FileTable.v) stands for the calls of
    the host's operating system, with what POSIX and the Linux manual
    document about them; [OneFileHost] is a concrete host that satisfies
    the laws.  [HostDevices] (Interrupt.v) is the rest of the host: polling
    and random numbers; [Datagrams] with [NetworkLaws] (Network.v) are its
    datagram sockets, which several machines share ([Sea] is a concrete
    one); [DiskOnHost] (Main.v) is a machine with the host's files beside a
    Nachos disk ([host_disk_beside] makes one of any host and the disk of
    Disk.v); [Terminal] (ConsoleTest.v) is what read(2), write(2) and
    select(2) do on a terminal ([Tty.tty_terminal]); [ToolHost] with [ToolLaws] (Coff.v) are the calls of coff2noff
    ([TwoFileHost]).

    ** Conventions

    A C++ function is a function on explicit state with result [outcome]:
    a value, a failed ASSERT, undefined behaviour (an array index out of
    bounds, NULL, a division that overflows), or the halt of the machine.
    An [int] is a [Z] in its range, with the wrap-around of [s32] and [u32]
    where the code computes; a [char] buffer is a list of [Z].  Pointers
    that are shared are addresses in a store (list cells, page tables,
    threads, semaphores, PCBs); objects with one owner are values.  The
    [value] of a semaphore is a [Z] that does not wrap: an [int] would after
    2^31 calls of V with no P between them.  Memory is always granted to
    [new].

    ** What the theorems show

    - Data structures (C1, C3, C6): bitmap, lists and hash table refine
      sets, lists and maps, on every branch; the self tests of the library
      pass, for any test vectors (no claims, but proved beside them).
    - The network (C2, C4, C5): any number of devices on one host are a
      network that loses packets and does nothing else to them; mail comes
      out as it went in; the two-machine test runs to its end.
    - The whole kernel (C7): from boot, over every interleaving, processes
      never see each other's memory or registers change.  (A concrete run of
      two programs through Exec, Join, Exit and Halt is checked beside it.)
    - The machine (C8-C12, C14): translation refines the reference one,
      memory gives back what is written, every instruction keeps the
      invariant of the CPU and fails no ASSERT (one division excepted),
      multiplication, overflow traps and delay slots compute what they
      should; the logical right shift does not.  (Unaligned loads: no claim,
      but proved beside them.)
    - The program's options (C15, C26, C27): the command line is understood
      as documented, an option without its argument stops the program; a
      file that -cp copies to the Nachos disk is the file that -p prints;
      the console test echoes what is typed, for every timing of keyboard,
      display and timer, and comes to its end.
    - Files of processes (C16-C18): the descriptor table refines a map of
      open files, holds at most 18, and returns what was written.
    - Address spaces (C19-C22): loading gives every page a frame of its own
      with the program's contents, and these are the contents of the COFF
      file that coff2noff converted; frames are given back; where
      the two translations agree, and where they do not.
    - Threads (C13, C23-C25, C28, C29): the invariant of scheduler,
      semaphores and locks over every interleaving; user registers across
      context switches; no lost wakeup; mutual exclusion; no starvation; what
      synchronised lists and condition variables promise.  (The order of the
      ready list, and runs of the self tests to their end: no claims, but
      proved beside them.)
    - Processes and system calls (C30-C35): copies from and to user memory,
      the semaphore table as a map, how processes are identified, the
      invariants every file call keeps for any arguments, what unopened ids
      do.
    - Simulated time (C36-C38): interrupts fire when due and in order; the
      clock's accounts; a time slice is bounded.
    - The file system (C39, C40): a file on disk is a byte sequence; the
      file system refines a map from names to files.

    ** Bounds and fuel

    Loops over an array or a range are folds over it.  Loops over linked
    cells take the number of cells as fuel, the loop of [CheckIfDue] the
    number of pending interrupts, [Broadcast] the length of its queue, the
    copy and print loops of main.cc the length of the file and one more; the
    ten tries of [SendToSocket] are counted down.
    The refinement theorems show that [NoFuel] is never the result.  The
    loop of [Machine::Run] and those of the kernel's threads are labels of
    the step function, which has no bound.

    ** Not modelled

    The interactive debugger, DumpState, the Print routines of threads,
    scheduler, interrupts and statistics, and the texts of debug output
    (the Print routines of the file system are modelled, and so is whether
    a debug flag is on); thread stacks as memory (their allocation and the
    overflow check) and the assembly of SWITCH, whose effect is in
    Threads.v; most destructors at shutdown (those of the consoles, the
    network and the address spaces are modelled) and Cleanup at a signal;
    what coff2noff prints; the user programs of test/ (the machine's
    theorems hold for any program), and the vendored headers and cross
    compiler under src/usr/.  The post office's worker is not among the
    threads of the console test, nor the consoles among those of the network
    test: the kernel starts both, and each only waits in the other's test.

    This file: results of code, machine integers, arrays, loops, and the
    tactics all files use. *)

From Stdlib Require Export ZArith Lia.
From stdpp Require Export base tactics numbers strings gmap list.

#[global] Open Scope Z_scope.

(** ** Results of C++ code

    A C++ function either returns, or control leaves it for good:
    - [AssertFail]: an [ASSERT] of debug.h fails ([Abort()]);
    - [Undefined]: the code does something C++ gives no meaning to (an
      array index out of bounds, a NULL dereference, a division overflow);
    - [Halted]: [Interrupt::Halt] deletes the kernel and exits;
    - [NoFuel]: not an exit of the code; a loop of the model that walks a
      pointer chain used up its bound.  Each such loop has a theorem that
      this never happens on a well-formed structure. *)

Inductive trap := AssertFail | Undefined | Halted | NoFuel.

Inductive outcome (A : Type) :=
| Ok (a : A)
| Trap (t : trap).

Arguments Ok {A} a.
Arguments Trap {A} t.

#[export] Instance trap_eq_dec : EqDecision trap.
Proof. solve_decision. Defined.

#[export] Instance outcome_eq_dec {A} `{EqDecision A} : EqDecision (outcome A).
Proof. solve_decision. Defined.

Definition obind {A B} (m : outcome A) (k : A -> outcome B) : outcome B :=
  match m with
  | Ok a => k a
  | Trap t => Trap t
  end.

(** [m] behaves like [s]: same trap, or results related by [R]. *)
Definition orel {A B} (R : A -> B -> Prop) (m : outcome A) (s : outcome B) : Prop :=
  match m, s with
  | Ok a, Ok b => R a b
  | Trap t, Trap t' => t = t'
  | _, _ => False
  end.

(** [ASSERT(b)]. *)
Definition assert_ (b : bool) : outcome unit :=
  if b then Ok tt else Trap AssertFail.

Declare Scope cpp_scope.
Delimit Scope cpp_scope with cpp.

Notation "'let!' x := m 'in' k" := (obind m (fun x => k))
  (at level 10, x name, m at level 100, k at level 200,
   format "'let!'  x  :=  m  'in' '//' k") : cpp_scope.
Notation "'let!' ' p := m 'in' k" := (obind m (fun p => k))
  (at level 10, p pattern, m at level 100, k at level 200,
   format "'let!'  ' p  :=  m  'in' '//' k") : cpp_scope.
Notation "'assert!' b ; k" := (obind (assert_ b) (fun _ => k))
  (at level 10, b at level 100, k at level 200,
   format "'assert!'  b ; '//' k") : cpp_scope.

#[global] Open Scope cpp_scope.

Lemma obind_Ok {A B} (m : outcome A) (k : A -> outcome B) b :
  obind m k = Ok b <-> exists a, m = Ok a /\ k a = Ok b.
Proof.
  destruct m; simpl; split; [eauto | | discriminate |].
  - by intros (?&[= ->]&?).
  - by intros (?&?&?).
Qed.

Lemma assert_Ok b u : assert_ b = Ok u <-> b = true.
Proof. destruct b, u; simpl; naive_solver. Qed.

Lemma obind_assoc {A B C} (m : outcome A) (f : A -> outcome B) (g : B -> outcome C) :
  obind (obind m f) g = obind m (fun a => obind (f a) g).
Proof. by destruct m. Qed.

(** ** Machine integers

    An [int] is a [Z] in [[-2^31, 2^31)], an [unsigned] a [Z] in
    [[0, 2^32)].  [s32] and [u32] are the conversions to them (wrap-around
    of two's complement, what the compiler of the build does). *)

Definition u32 (z : Z) : Z := z mod 2 ^ 32.
Definition s32 (z : Z) : Z := (z + 2 ^ 31) mod 2 ^ 32 - 2 ^ 31.
Definition s8 (z : Z) : Z := (z + 2 ^ 7) mod 2 ^ 8 - 2 ^ 7.
Definition u8 (z : Z) : Z := z mod 2 ^ 8.
Definition u16 (z : Z) : Z := z mod 2 ^ 16.

Definition is_s32 (z : Z) : Prop := - 2 ^ 31 <= z < 2 ^ 31.
Definition is_u32 (z : Z) : Prop := 0 <= z < 2 ^ 32.
Definition is_byte (z : Z) : Prop := 0 <= z < 2 ^ 8.

Lemma u32_range z : is_u32 (u32 z).
Proof. unfold is_u32, u32. apply Z.mod_pos_bound. lia. Qed.

Lemma s32_range z : is_s32 (s32 z).
Proof. unfold is_s32, s32. pose proof (Z.mod_pos_bound (z + 2 ^ 31) (2 ^ 32)). lia. Qed.

Lemma u32_id z : is_u32 z -> u32 z = z.
Proof. apply Z.mod_small. Qed.

Lemma s32_id z : is_s32 z -> s32 z = z.
Proof. unfold is_s32, s32. intros. rewrite Z.mod_small; lia. Qed.

Lemma s32_cong z : exists k, s32 z = z + k * 2 ^ 32.
Proof.
  unfold s32. exists (- ((z + 2 ^ 31) / 2 ^ 32)).
  pose proof (Z.div_mod (z + 2 ^ 31) (2 ^ 32)). lia.
Qed.

Lemma u32_cong z : exists k, u32 z = z + k * 2 ^ 32.
Proof.
  unfold u32. exists (- (z / 2 ^ 32)).
  pose proof (Z.div_mod z (2 ^ 32)). lia.
Qed.

Lemma u32_s32 z : u32 (s32 z) = u32 z.
Proof. destruct (s32_cong z) as [k ->]. unfold u32. apply Z.mod_add. lia. Qed.

Lemma s32_u32 z : s32 (u32 z) = s32 z.
Proof.
  destruct (u32_cong z) as [k ->]. unfold s32.
  replace (z + k * 2 ^ 32 + 2 ^ 31) with (z + 2 ^ 31 + k * 2 ^ 32) by lia.
  by rewrite Z.mod_add.
Qed.

(** Bit fields: a mask of [k] bits at [n], and joining disjoint fields. *)
Lemma land_mask x k n : 0 <= k -> 0 <= n ->
  Z.land x (Z.shiftl (Z.ones k) n) = (x / 2 ^ n) mod 2 ^ k * 2 ^ n.
Proof.
  intros Hk Hn. rewrite <- Z.land_ones, <- Z.shiftr_div_pow2, <- Z.shiftl_mul_pow2 by lia.
  apply Z.bits_inj'. intros i Hi. rewrite Z.land_spec.
  destruct (Z.lt_ge_cases i n); [rewrite !Z.shiftl_spec_low by lia; apply andb_false_r |].
  rewrite !Z.shiftl_spec, Z.land_spec, Z.shiftr_spec by lia. do 2 f_equal. lia.
Qed.

Lemma lor_add a b n : 0 <= n -> 0 <= a < 2 ^ n -> Z.lor a (b * 2 ^ n) = a + b * 2 ^ n.
Proof.
  intros Hn Ha. assert (Z.land a (b * 2 ^ n) = 0) as Hd.
  { apply Z.bits_inj'. intros i Hi. rewrite Z.land_spec, Z.bits_0, <- Z.shiftl_mul_pow2 by lia.
    destruct (Z.lt_ge_cases i n); [rewrite Z.shiftl_spec_low by lia; apply andb_false_r |].
    rewrite <- (Z.mod_small a (2 ^ n)), Z.mod_pow2_bits_high by lia. done. }
  by rewrite <- Z.lxor_lor, <- Z.add_nocarry_lxor.
Qed.

Lemma lor_add' a b n : 0 <= n -> 0 <= a < 2 ^ n -> Z.lor (b * 2 ^ n) a = b * 2 ^ n + a.
Proof. intros. rewrite Z.lor_comm, lor_add by done. lia. Qed.

Create HintDb cint.
#[export] Hint Resolve u32_range s32_range : cint.

(** ** Arrays

    Reading or writing outside the array is undefined behaviour in C++. *)

Definition arr_get {A} (l : list A) (i : Z) : outcome A :=
  if i <? 0 then Trap Undefined
  else match l !! Z.to_nat i with
       | Some a => Ok a
       | None => Trap Undefined
       end.

Definition arr_set {A} (l : list A) (i : Z) (a : A) : outcome (list A) :=
  if (0 <=? i) && (i <? Z.of_nat (length l)) then Ok (<[Z.to_nat i := a]> l)
  else Trap Undefined.

Lemma arr_get_Ok {A} (l : list A) i a :
  arr_get l i = Ok a <-> 0 <= i /\ l !! Z.to_nat i = Some a.
Proof.
  unfold arr_get. destruct (Z.ltb_spec i 0); [split; [done | lia] |].
  destruct (l !! Z.to_nat i); naive_solver.
Qed.

Lemma arr_get_lookup {A} (l : list A) i a :
  0 <= i -> l !! Z.to_nat i = Some a -> arr_get l i = Ok a.
Proof. intros. by apply arr_get_Ok. Qed.

Lemma arr_get_nat {A} (l : list A) (i : nat) a :
  l !! i = Some a -> arr_get l (Z.of_nat i) = Ok a.
Proof. intros. apply arr_get_Ok. rewrite Nat2Z.id. split; [lia | done]. Qed.

Lemma arr_get_in_range {A} (l : list A) i :
  0 <= i < Z.of_nat (length l) -> exists a, arr_get l i = Ok a /\ l !! Z.to_nat i = Some a.
Proof.
  intros. destruct (lookup_lt_is_Some_2 l (Z.to_nat i)) as [a Ha]; [lia |].
  exists a. split; [apply arr_get_lookup; [lia | done] | done].
Qed.

Lemma arr_set_Ok {A} (l : list A) i a :
  0 <= i < Z.of_nat (length l) -> arr_set l i a = Ok (<[Z.to_nat i := a]> l).
Proof. intros. unfold arr_set. by rewrite (proj2 (Z.leb_le _ _)), (proj2 (Z.ltb_lt _ _)) by lia. Qed.

Lemma arr_set_inv {A} (l l' : list A) i a :
  arr_set l i a = Ok l' -> 0 <= i < Z.of_nat (length l) /\ l' = <[Z.to_nat i := a]> l.
Proof.
  unfold arr_set. destruct (Z.leb_spec 0 i), (Z.ltb_spec i (Z.of_nat (length l)));
    simpl; intros [=]; auto with lia.
Qed.

Lemma Forall_elem {A} (P : A -> Prop) (l : list A) x : Forall P l -> x ∈ l -> P x.
Proof. intros H Hx. induction H; set_solver. Qed.

Lemma alter_insert_Some {A} (m : gmap nat A) (f : A -> A) i a :
  m !! i = Some a -> alter f i m = <[i := f a]> m.
Proof.
  intros Hi. apply map_eq. intros j. destruct (decide (i = j)) as [<-|Hne].
  - by rewrite lookup_alter_eq, lookup_insert_eq, Hi.
  - by rewrite lookup_alter_ne, lookup_insert_ne.
Qed.

(** ** Loops

    [for (i = lo; i < hi; i++) body] is a fold over [seqZ lo (hi - lo)];
    [oloop] is the loop whose body may leave it early ([return], [break])
    with a value, [ofold] the one that always runs to the end. *)

Fixpoint ofold {A S} (f : S -> A -> outcome S) (s : S) (l : list A) : outcome S :=
  match l with
  | [] => Ok s
  | a :: l' => let! s' := f s a in ofold f s' l'
  end.

Inductive ctl (R S : Type) :=
| Break (r : R)
| Next (s : S).
Arguments Break {R S} r.
Arguments Next {R S} s.

Fixpoint oloop {A R S} (f : S -> A -> outcome (ctl R S)) (s : S) (l : list A)
    : outcome (ctl R S) :=
  match l with
  | [] => Ok (Next s)
  | a :: l' =>
      let! c := f s a in
      match c with
      | Break r => Ok (Break r)
      | Next s' => oloop f s' l'
      end
  end.

Lemma ofold_app {A S} (f : S -> A -> outcome S) s l1 l2 :
  ofold f s (l1 ++ l2) = let! s' := ofold f s l1 in ofold f s' l2.
Proof.
  revert s. induction l1 as [|a l1 IH]; intros s; simpl; [done |].
  destruct (f s a); simpl; [apply IH | done].
Qed.

(** Loop rule: an indexed invariant established before the loop and kept
    by each iteration holds after it, and the loop returns. *)
Lemma ofold_seqZ {S} (I : Z -> S -> Prop) (f : S -> Z -> outcome S) lo n s :
  0 <= n -> I lo s ->
  (forall i s, lo <= i < lo + n -> I i s -> exists s', f s i = Ok s' /\ I (i + 1) s') ->
  exists s', ofold f s (seqZ lo n) = Ok s' /\ I (lo + n) s'.
Proof.
  intros Hn. remember (Z.to_nat n) as k eqn:Hk.
  assert (n = Z.of_nat k) as -> by lia. clear Hk Hn.
  revert lo s. induction k as [|k IH]; intros lo s HI Hstep.
  - exists s. simpl. by rewrite Z.add_0_r.
  - rewrite seqZ_cons by lia. simpl.
    destruct (Hstep lo s) as (s1 & -> & H1); [lia | done |]. simpl.
    replace (Z.pred (Z.of_nat (Datatypes.S k))) with (Z.of_nat k) by lia.
    destruct (IH (Z.succ lo) s1) as (s2 & -> & H2); [done | |].
    + intros i s' Hi HI'. apply Hstep; [lia | done].
    + exists s2. split; [done |]. by replace (lo + Z.of_nat (Datatypes.S k)) with (Z.succ lo + Z.of_nat k) by lia.
Qed.

Lemma oloop_seqZ {R S} (I : Z -> S -> Prop) (Q : R -> Prop)
    (f : S -> Z -> outcome (ctl R S)) lo n s :
  0 <= n -> I lo s ->
  (forall i s, lo <= i < lo + n -> I i s ->
     (exists s', f s i = Ok (Next s') /\ I (i + 1) s') \/
     (exists r, f s i = Ok (Break r) /\ Q r)) ->
  (exists s', oloop f s (seqZ lo n) = Ok (Next s') /\ I (lo + n) s') \/
  (exists r, oloop f s (seqZ lo n) = Ok (Break r) /\ Q r).
Proof.
  intros Hn. remember (Z.to_nat n) as k eqn:Hk.
  assert (n = Z.of_nat k) as -> by lia. clear Hk Hn.
  revert lo s. induction k as [|k IH]; intros lo s HI Hstep.
  - left. exists s. simpl. by rewrite Z.add_0_r.
  - rewrite seqZ_cons by lia. simpl.
    destruct (Hstep lo s) as [(s1 & -> & H1)|(r & -> & HQ)]; [lia | done | |]; simpl; [|by eauto].
    replace (Z.pred (Z.of_nat (Datatypes.S k))) with (Z.of_nat k) by lia.
    replace (lo + Z.of_nat (Datatypes.S k)) with (Z.succ lo + Z.of_nat k) by lia.
    apply (IH (Z.succ lo) s1); [done |].
    intros i s' Hi HI'. apply Hstep; [lia | done].
Qed.

(** ** C division

    [/] and [%] truncate towards zero on [int]: [Z.quot], [Z.rem]. *)

Definition divRoundDown (n s : Z) : Z := n `quot` s.
Definition divRoundUp (n s : Z) : Z :=
  n `quot` s + (if n `rem` s >? 0 then 1 else 0).

Lemma divRoundUp_spec n s :
  0 <= n -> 0 < s -> n <= divRoundUp n s * s < n + s.
Proof.
  intros. unfold divRoundUp.
  rewrite Z.quot_div_nonneg, Z.rem_mod_nonneg by lia.
  pose proof (Z.div_mod n s). pose proof (Z.mod_pos_bound n s).
  destruct (Z.gtb_spec (n `mod` s) 0); nia.
Qed.

(** ** Tactics *)

(** [lia] with [/], [mod], [quot] and [rem] by constants. *)
Ltac dlia := zify; Z.to_euclidean_division_equations; lia.

(** Run the monad over steps whose results are known. *)
Ltac run := cbn [obind assert_ negb andb Z.eqb Z.ltb Z.leb Z.compare Pos.eqb Pos.compare Pos.compare_cont].

(** Split a successful monadic run into its steps. *)
Ltac ok_inv :=
  repeat match goal with
  | H : obind _ _ = Ok _ |- _ => apply obind_Ok in H; destruct H as (? & ? & ?)
  | H : assert_ _ = Ok _ |- _ => apply assert_Ok in H
  | H : Ok _ = Ok _ |- _ => injection H as H
  | H : Trap _ = Ok _ |- _ => discriminate H
  | H : _ && _ = true |- _ => apply andb_true_iff in H; destruct H
  | H : (_ <=? _) = true |- _ => apply Z.leb_le in H
  | H : (_ <? _) = true |- _ => apply Z.ltb_lt in H
  | H : (_ =? _) = true |- _ => apply Z.eqb_eq in H
  | H : negb _ = true |- _ => apply negb_true_iff in H
  end; simpl in *; simplify_eq.
