(* ===== verification/Bitmap.v ===== *)
(** * lib/bitmap.{h,cc}: the bitmap

    The bitmap is an array of 32-bit words.  The operations follow
    bitmap.cc word by word; [bm_rep b n s] relates a bitmap to the number
    of its bits and the finite set of the bits that are on.  The class
    [BitmapContract] is what the clients (page frames, process and
    semaphore tables, disk sectors) rely on. *)

From S2P Require Import Prelude.

Module Bitmap.

Definition BitsInByte : Z := 8.
Definition BitsInWord : Z := 4 * BitsInByte.

Record Bitmap := mkBitmap {
  numBits : Z;
  numWords : Z;
  map : list Z
}.

Definition set_map (b : Bitmap) (m : list Z) : Bitmap :=
  mkBitmap (numBits b) (numWords b) m.

(** [1 << k] is an [int]; the word array makes it [unsigned]. *)
Definition bit_mask (k : Z) : Z := u32 (Z.shiftl 1 k).

Definition Test (b : Bitmap) (which : Z) : outcome bool :=
  assert! (0 <=? which) && (which <? numBits b);
  let! w := arr_get (map b) (which `quot` BitsInWord) in
  Ok (negb (Z.land w (bit_mask (which `rem` BitsInWord)) =? 0)).

Definition Mark (b : Bitmap) (which : Z) : outcome Bitmap :=
  assert! (0 <=? which) && (which <? numBits b);
  let! w := arr_get (map b) (which `quot` BitsInWord) in
  let! m := arr_set (map b) (which `quot` BitsInWord)
              (Z.lor w (bit_mask (which `rem` BitsInWord))) in
  let b' := set_map b m in
  let! t := Test b' which in
  assert! t;
  Ok b'.

Definition Clear (b : Bitmap) (which : Z) : outcome Bitmap :=
  assert! (0 <=? which) && (which <? numBits b);
  let! w := arr_get (map b) (which `quot` BitsInWord) in
  let! m := arr_set (map b) (which `quot` BitsInWord)
              (Z.land w (u32 (Z.lnot (bit_mask (which `rem` BitsInWord))))) in
  let b' := set_map b m in
  let! t := Test b' which in
  assert! (negb t);
  Ok b'.

(** The constructor [Bitmap::Bitmap(int numItems)]. *)
Definition new_Bitmap (numItems : Z) : outcome Bitmap :=
  assert! (0 <? numItems);
  let numWords := divRoundUp numItems BitsInWord in
  ofold Clear (mkBitmap numItems numWords (replicate (Z.to_nat numWords) 0))
        (seqZ 0 numItems).

Definition FindAndSet (b : Bitmap) : outcome (Z * Bitmap) :=
  let! c := oloop (fun _ i =>
              let! t := Test b i in
              if negb t then let! b' := Mark b i in Ok (Break (i, b'))
              else Ok (Next tt)) tt (seqZ 0 (numBits b)) in
  match c with
  | Break r => Ok r
  | Next _ => Ok (-1, b)
  end.

Definition NumClear (b : Bitmap) : outcome Z :=
  ofold (fun count i =>
           let! t := Test b i in
           Ok (if negb t then count + 1 else count)) 0 (seqZ 0 (numBits b)).

(** [Print]: the numbers written to [cout], in order. *)
Definition Print (b : Bitmap) : outcome (list Z) :=
  ofold (fun out i =>
           let! t := Test b i in
           Ok (if t then out ++ [i] else out)) [] (seqZ 0 (numBits b)).

Definition SelfTest (b : Bitmap) : outcome Bitmap :=
  assert! (BitsInWord <=? numBits b);
  let! c := NumClear b in
  assert! (c =? numBits b);
  let! '(r, b) := FindAndSet b in
  assert! (r =? 0);
  let! b := Mark b 31 in
  let! t0 := Test b 0 in
  let! t31 := Test b 31 in
  assert! (t0 && t31);
  let! '(r, b) := FindAndSet b in
  assert! (r =? 1);
  let! b := Clear b 0 in
  let! b := Clear b 1 in
  let! b := Clear b 31 in
  let! b := ofold Mark b (seqZ 0 (numBits b)) in
  let! '(r, b) := FindAndSet b in
  assert! (r =? -1);
  ofold Clear b (seqZ 0 (numBits b)).

(** ** The contract *)

(** [i] is the first number of [[0,n)] outside [s]. *)
Definition least_clear (n : Z) (s : gset Z) (i : Z) : Prop :=
  0 <= i < n /\ i ∉ s /\ forall j, 0 <= j < i -> j ∈ s.

Class BitmapContract (rep : Bitmap -> Z -> gset Z -> Prop) : Prop := {
  bm_size b n s : rep b n s -> numBits b = n;
  bm_pos b n s : rep b n s -> 0 < n;
  bm_bound b n s i : rep b n s -> i ∈ s -> 0 <= i < n;
  bm_fun b n s s' : rep b n s -> rep b n s' -> s = s';
  bm_new n : 0 < n -> exists b, new_Bitmap n = Ok b /\ rep b n ∅;
  bm_Test b n s i :
    rep b n s -> 0 <= i < n -> Test b i = Ok (bool_decide (i ∈ s));
  bm_Mark b n s i :
    rep b n s -> 0 <= i < n -> exists b', Mark b i = Ok b' /\ rep b' n ({[i]} ∪ s);
  bm_Clear b n s i :
    rep b n s -> 0 <= i < n -> exists b', Clear b i = Ok b' /\ rep b' n (s ∖ {[i]});
  bm_range b n s i :
    rep b n s -> ~ (0 <= i < n) ->
    Test b i = Trap AssertFail /\ Mark b i = Trap AssertFail /\ Clear b i = Trap AssertFail;
  bm_FindAndSet b n s :
    rep b n s ->
    (exists i b', FindAndSet b = Ok (i, b') /\ least_clear n s i /\ rep b' n ({[i]} ∪ s))
    \/ (FindAndSet b = Ok (-1, b) /\ forall i, 0 <= i < n -> i ∈ s);
  bm_NumClear b n s :
    rep b n s -> NumClear b = Ok (n - Z.of_nat (size s))
}.

(** ** The representation *)

Definition bit (b : Bitmap) (i : Z) : bool :=
  match map b !! Z.to_nat (i / 32) with
  | Some w => Z.testbit w (i mod 32)
  | None => false
  end.

Record bm_wf (b : Bitmap) : Prop := {
  wf_pos : 0 < numBits b;
  wf_words : numWords b = divRoundUp (numBits b) 32;
  wf_len : Z.of_nat (length (map b)) = numWords b;
  wf_word : Forall is_u32 (map b)
}.

Definition bm_rep (b : Bitmap) (n : Z) (s : gset Z) : Prop :=
  bm_wf b /\ numBits b = n /\ forall i, i ∈ s <-> 0 <= i < n /\ bit b i = true.

Lemma mask_bits k j : 0 <= k < 32 -> 0 <= j -> Z.testbit (bit_mask k) j = (k =? j).
Proof.
  intros. unfold bit_mask, u32.
  destruct (Z.ltb_spec j 32).
  - rewrite Z.mod_pow2_bits_low by lia. rewrite Z.shiftl_1_l.
    apply Z.pow2_bits_eqb. lia.
  - rewrite Z.mod_pow2_bits_high by lia. symmetry. apply Z.eqb_neq. lia.
Qed.

Lemma land_mask_test w k :
  0 <= k < 32 -> negb (Z.land w (bit_mask k) =? 0) = Z.testbit w k.
Proof.
  intros Hk. destruct (Z.testbit w k) eqn:E.
  - apply negb_true_iff, Z.eqb_neq. intros H0.
    assert (Z.testbit (Z.land w (bit_mask k)) k = false) as H1 by (rewrite H0; apply Z.bits_0).
    rewrite Z.land_spec, E, mask_bits, Z.eqb_refl in H1 by lia. done.
  - apply negb_false_iff, Z.eqb_eq. apply Z.bits_inj'. intros j Hj.
    rewrite Z.land_spec, mask_bits, Z.bits_0 by lia.
    destruct (Z.eqb_spec k j); [subst; by rewrite E | by rewrite andb_false_r].
Qed.

Lemma is_u32_bits w : is_u32 w <-> 0 <= w /\ forall j, 32 <= j -> Z.testbit w j = false.
Proof.
  unfold is_u32. split.
  - intros. split; [lia |]. intros j Hj.
    rewrite <- (Z.mod_small w (2 ^ 32)) by lia. apply Z.mod_pow2_bits_high. lia.
  - intros [H0 H]. split; [done |].
    destruct (Z.eq_dec w 0); [lia |].
    apply Z.log2_lt_pow2; [lia |].
    destruct (Z.ltb_spec (Z.log2 w) 32); [done |].
    pose proof (Z.bit_log2 w). rewrite H in * by lia. naive_solver lia.
Qed.

Lemma lor_mask_u32 w k : is_u32 w -> 0 <= k < 32 -> is_u32 (Z.lor w (bit_mask k)).
Proof.
  rewrite !is_u32_bits. intros [H0 H] Hk. split.
  - apply Z.lor_nonneg. split; [done |]. unfold bit_mask. apply u32_range.
  - intros j Hj. rewrite Z.lor_spec, H, mask_bits by lia. apply Z.eqb_neq. lia.
Qed.

Lemma land_u32 w m : is_u32 w -> is_u32 (Z.land w m).
Proof.
  rewrite !is_u32_bits. intros [H0 H]. split.
  - apply Z.land_nonneg. by left.
  - intros j Hj. by rewrite Z.land_spec, H.
Qed.

Lemma lnot_mask_bits k j :
  0 <= k < 32 -> 0 <= j < 32 -> Z.testbit (u32 (Z.lnot (bit_mask k))) j = negb (k =? j).
Proof.
  intros. unfold u32. rewrite Z.mod_pow2_bits_low by lia.
  by rewrite Z.lnot_spec, mask_bits by lia.
Qed.

Section Rep.
Variables (b : Bitmap).
Hypothesis Hwf : bm_wf b.

Lemma word_index i : 0 <= i < numBits b ->
  0 <= i / 32 < Z.of_nat (length (map b)) /\ 0 <= i mod 32 < 32.
Proof.
  intros. pose proof (wf_len b Hwf). pose proof (wf_words b Hwf).
  pose proof (divRoundUp_spec (numBits b) 32). dlia.
Qed.

Lemma word_get i : 0 <= i < numBits b ->
  exists w, arr_get (map b) (i `quot` BitsInWord) = Ok w /\
            map b !! Z.to_nat (i / 32) = Some w /\ is_u32 w.
Proof.
  intros Hi. destruct (word_index i Hi) as [H1 _].
  destruct (arr_get_in_range (map b) (i / 32) H1) as (w & Hw & Hl).
  exists w. rewrite Z.quot_div_nonneg by (unfold BitsInWord, BitsInByte; lia).
  split; [done |]. split; [done |].
  pose proof (wf_word b Hwf) as Hf. rewrite Forall_lookup in Hf. eauto.
Qed.

Lemma Test_bit i : 0 <= i < numBits b -> Test b i = Ok (bit b i).
Proof.
  intros Hi. unfold Test. rewrite (proj2 (Z.leb_le _ _)), (proj2 (Z.ltb_lt _ _)) by lia. simpl.
  destruct (word_get i Hi) as (w & -> & Hl & _). simpl.
  unfold bit. rewrite Hl. rewrite Z.rem_mod_nonneg by (unfold BitsInWord, BitsInByte; lia).
  change BitsInWord with 32. rewrite land_mask_test by dlia. done.
Qed.

(** Writing one word changes the bits of that word only. *)
Lemma bit_set_word i w' j :
  0 <= i < numBits b -> 0 <= j < numBits b ->
  bit (set_map b (<[Z.to_nat (i / 32) := w']> (map b))) j =
  if j / 32 =? i / 32 then Z.testbit w' (j mod 32) else bit b j.
Proof.
  intros Hi Hj. unfold bit. simpl.
  destruct (word_index i Hi), (word_index j Hj).
  destruct (Z.eqb_spec (j / 32) (i / 32)) as [->|Hne].
  - rewrite list_lookup_insert_eq by lia. done.
  - rewrite list_lookup_insert_ne by lia. done.
Qed.

Lemma wf_set_word k w' : is_u32 w' -> bm_wf (set_map b (<[k := w']> (map b))).
Proof.
  intros Hw. destruct Hwf as [H1 H2 H3 H4]. split; simpl; [done | done | |].
  - by rewrite length_insert.
  - by apply Forall_insert.
Qed.

Lemma same_word_bit i j :
  (j =? i) = (j / 32 =? i / 32) && (j mod 32 =? i mod 32).
Proof.
  pose proof (Z.div_mod i 32). pose proof (Z.div_mod j 32).
  destruct (Z.eqb_spec j i) as [->|]; [by rewrite !Z.eqb_refl |].
  destruct (Z.eqb_spec (j / 32) (i / 32)), (Z.eqb_spec (j mod 32) (i mod 32)); simpl; lia.
Qed.

Lemma update_step i w' :
  0 <= i < numBits b ->
  arr_set (map b) (i `quot` BitsInWord) w' = Ok (<[Z.to_nat (i / 32) := w']> (map b)).
Proof.
  intros Hi. destruct (word_index i Hi).
  rewrite Z.quot_div_nonneg by (unfold BitsInWord, BitsInByte; lia).
  by apply arr_set_Ok.
Qed.

End Rep.

Lemma Mark_bit b i : bm_wf b -> 0 <= i < numBits b ->
  exists b', Mark b i = Ok b' /\ bm_wf b' /\ numBits b' = numBits b /\
             forall j, 0 <= j < numBits b -> bit b' j = (j =? i) || bit b j.
Proof.
  intros Hwf Hi. unfold Mark. rewrite (proj2 (Z.leb_le _ _)), (proj2 (Z.ltb_lt _ _)) by lia. simpl.
  destruct (word_get b Hwf i Hi) as (w & -> & Hl & Hw). simpl.
  rewrite (update_step b Hwf i) by done. simpl.
  rewrite Z.rem_mod_nonneg by (unfold BitsInWord, BitsInByte; lia). change BitsInWord with 32.
  assert (0 <= i mod 32 < 32) as Hk by (apply Z.mod_pos_bound; lia).
  set (w' := Z.lor w (bit_mask (i mod 32))).
  assert (is_u32 w') as Hw' by (by apply lor_mask_u32).
  pose proof (wf_set_word b Hwf (Z.to_nat (i / 32)) w' Hw') as Hwf'.
  assert (forall j, 0 <= j < numBits b ->
    bit (set_map b (<[Z.to_nat (i / 32) := w']> (map b))) j = (j =? i) || bit b j) as Hb.
  { intros j Hj. rewrite (bit_set_word b Hwf) by done. rewrite (same_word_bit i j).
    destruct (Z.eqb_spec (j / 32) (i / 32)) as [E|]; simpl; [| done].
    unfold w'. rewrite Z.lor_spec, mask_bits by dlia.
    unfold bit. rewrite E, Hl. rewrite (Z.eqb_sym (j mod 32)). apply orb_comm. }
  rewrite (Test_bit _ Hwf') by done. rewrite Hb, Z.eqb_refl by done. simpl. eauto.
Qed.

Lemma Clear_bit b i : bm_wf b -> 0 <= i < numBits b ->
  exists b', Clear b i = Ok b' /\ bm_wf b' /\ numBits b' = numBits b /\
             forall j, 0 <= j < numBits b -> bit b' j = negb (j =? i) && bit b j.
Proof.
  intros Hwf Hi. unfold Clear. rewrite (proj2 (Z.leb_le _ _)), (proj2 (Z.ltb_lt _ _)) by lia. simpl.
  destruct (word_get b Hwf i Hi) as (w & -> & Hl & Hw). simpl.
  rewrite (update_step b Hwf i) by done. simpl.
  rewrite Z.rem_mod_nonneg by (unfold BitsInWord, BitsInByte; lia). change BitsInWord with 32.
  assert (0 <= i mod 32 < 32) as Hk by (apply Z.mod_pos_bound; lia).
  set (w' := Z.land w (u32 (Z.lnot (bit_mask (i mod 32))))).
  assert (is_u32 w') as Hw' by (by apply land_u32).
  pose proof (wf_set_word b Hwf (Z.to_nat (i / 32)) w' Hw') as Hwf'.
  assert (forall j, 0 <= j < numBits b ->
    bit (set_map b (<[Z.to_nat (i / 32) := w']> (map b))) j = negb (j =? i) && bit b j) as Hb.
  { intros j Hj. rewrite (bit_set_word b Hwf) by done. rewrite (same_word_bit i j).
    destruct (Z.eqb_spec (j / 32) (i / 32)) as [E|]; simpl; [| done].
    unfold w'. rewrite Z.land_spec, lnot_mask_bits by dlia.
    unfold bit. rewrite E, Hl. rewrite (Z.eqb_sym (j mod 32)). apply andb_comm. }
  rewrite (Test_bit _ Hwf') by done. rewrite Hb, Z.eqb_refl by done. simpl. eauto.
Qed.

(** ** The contract holds of the word array *)

Lemma rep_bit b n s i : bm_rep b n s -> 0 <= i < n -> bit b i = bool_decide (i ∈ s).
Proof.
  intros (_ & _ & H) Hi. symmetry. destruct (bit b i) eqn:E.
  - apply bool_decide_eq_true. by apply H.
  - apply bool_decide_eq_false. rewrite H, E. naive_solver.
Qed.

Lemma rep_Test b n s i :
  bm_rep b n s -> 0 <= i < n -> Test b i = Ok (bool_decide (i ∈ s)).
Proof.
  intros Hr Hi. pose proof Hr as (Hwf & Hn & _). rewrite Test_bit by (auto; lia).
  by rewrite (rep_bit _ _ _ _ Hr).
Qed.

Lemma rep_Mark b n s i :
  bm_rep b n s -> 0 <= i < n -> exists b', Mark b i = Ok b' /\ bm_rep b' n ({[i]} ∪ s).
Proof.
  intros Hr Hi. pose proof Hr as (Hwf & Hn & Hs). subst n.
  destruct (Mark_bit b i Hwf Hi) as (b' & HM & Hwf' & Hn' & Hb).
  exists b'. split; [done |]. split; [done |]. split; [done |].
  intros j. rewrite elem_of_union, elem_of_singleton, Hs.
  split.
  - intros [->|[? Hj]]; (split; [lia |]); rewrite Hb by lia;
      [by rewrite Z.eqb_refl | by rewrite Hj, orb_true_r].
  - intros [Hj Hbj]. rewrite Hb in Hbj by lia. apply orb_true_iff in Hbj as [E|E].
    + apply Z.eqb_eq in E. by left.
    + by right.
Qed.

Lemma rep_Clear b n s i :
  bm_rep b n s -> 0 <= i < n -> exists b', Clear b i = Ok b' /\ bm_rep b' n (s ∖ {[i]}).
Proof.
  intros Hr Hi. pose proof Hr as (Hwf & Hn & Hs). subst n.
  destruct (Clear_bit b i Hwf Hi) as (b' & HM & Hwf' & Hn' & Hb).
  exists b'. split; [done |]. split; [done |]. split; [done |].
  intros j. rewrite elem_of_difference, elem_of_singleton, Hs.
  split.
  - intros [[Hj Hbj] Hne]. split; [done |]. rewrite Hb, Hbj, andb_true_r by lia.
    by apply negb_true_iff, Z.eqb_neq.
  - intros [Hj Hbj]. rewrite Hb in Hbj by lia. apply andb_true_iff in Hbj as [E ?].
    apply negb_true_iff, Z.eqb_neq in E. done.
Qed.

Lemma out_of_range b i : ~ (0 <= i < numBits b) ->
  Test b i = Trap AssertFail /\ Mark b i = Trap AssertFail /\ Clear b i = Trap AssertFail.
Proof.
  intros Hi. unfold Test, Mark, Clear.
  assert ((0 <=? i) && (i <? numBits b) = false) as ->; [| done].
  apply andb_false_iff. rewrite Z.leb_gt, Z.ltb_ge. lia.
Qed.

Lemma rep_new n : 0 < n -> exists b, new_Bitmap n = Ok b /\ bm_rep b n ∅.
Proof.
  intros Hn. unfold new_Bitmap. rewrite (proj2 (Z.ltb_lt _ _)) by done. simpl.
  change BitsInWord with 32.
  destruct (ofold_seqZ (fun _ b => bm_rep b n ∅) Clear 0 n
    (mkBitmap n (divRoundUp n 32) (replicate (Z.to_nat (divRoundUp n 32)) 0)))
    as (b & Hb & Hr); [lia | | | eauto].
  - split; [split; simpl; [done | done | |] |].
    + pose proof (divRoundUp_spec n 32). rewrite length_replicate. lia.
    + apply Forall_replicate. unfold is_u32. lia.
    + split; [done |]. intros i. unfold bit. simpl.
      destruct (replicate _ 0 !! _) as [w|] eqn:E.
      * apply lookup_replicate in E as [-> _]. rewrite Z.bits_0. set_solver.
      * set_solver.
  - intros i b Hi Hr. destruct (rep_Clear b n ∅ i Hr) as (b' & ? & Hr'); [lia |].
    exists b'. split; [done |]. by replace (∅ ∖ {[i]}) with (∅ : gset Z) in Hr' by set_solver.
Qed.

Lemma rep_FindAndSet b n s :
  bm_rep b n s ->
  (exists i b', FindAndSet b = Ok (i, b') /\ least_clear n s i /\ bm_rep b' n ({[i]} ∪ s))
  \/ (FindAndSet b = Ok (-1, b) /\ forall i, 0 <= i < n -> i ∈ s).
Proof.
  intros Hr. pose proof Hr as (Hwf & Hn & _). pose proof (wf_pos b Hwf).
  unfold FindAndSet. rewrite Hn.
  set (body := fun (_ : unit) i => _).
  destruct (oloop_seqZ (fun i (_ : unit) => forall j, 0 <= j < i -> j ∈ s)
    (fun '(i, b') => least_clear n s i /\ bm_rep b' n ({[i]} ∪ s)) body 0 n tt)
    as [([] & -> & Hall)|([i b'] & -> & HQ)]; simpl; [lia | intros; lia | | |].
  - intros i [] Hi HI. subst body. simpl.
    rewrite (rep_Test b n s) by (auto; lia). simpl.
    destruct (decide (i ∈ s)) as [Hin|Hout].
    + rewrite bool_decide_true by done. left. exists tt. split; [done |].
      intros j Hj. destruct (Z.eq_dec j i) as [->|]; [done | apply HI; lia].
    + rewrite bool_decide_false by done. right. simpl.
      destruct (rep_Mark b n s i Hr) as (b' & -> & Hr'); [lia |].
      exists (i, b'). split; [done |]. split; [|done]. split; [lia |]. split; [done |].
      intros; apply HI; lia.
  - right. split; [done |]. intros; apply Hall; lia.
  - left. exists i, b'. tauto.
Qed.

(** The elements of [s] below [i]. *)
Definition below (s : gset Z) (i : Z) : gset Z := filter (fun x => x < i) s.

Lemma below_succ s i :
  size (below s (i + 1)) = (size (below s i) + if bool_decide (i ∈ s) then 1 else 0)%nat.
Proof.
  case_bool_decide as Hi.
  - assert (below s (i + 1) = {[i]} ∪ below s i) as ->.
    { apply set_eq. intros x. unfold below.
      rewrite elem_of_union, !elem_of_filter, elem_of_singleton.
      split; [intros [? ?]; destruct (Z.eq_dec x i); [left; lia | right; split; [lia | done]]
             | intros [->|[? ?]]; split; try done; lia]. }
    rewrite size_union, size_singleton; [lia |].
    unfold below. intros x. rewrite elem_of_filter, elem_of_singleton. lia.
  - assert (below s (i + 1) = below s i) as ->; [| lia].
    apply set_eq. intros x. unfold below. rewrite !elem_of_filter.
    split; intros [? ?]; split; try done; [| lia].
    destruct (Z.eq_dec x i) as [->|]; [done | lia].
Qed.

Lemma below_all s n : (forall i, i ∈ s -> 0 <= i < n) -> below s n = s.
Proof.
  intros H. apply set_eq. intros x. unfold below. rewrite elem_of_filter.
  split; [by intros [] | intros Hx; split; [apply H in Hx; lia | done]].
Qed.

Lemma rep_NumClear b n s : bm_rep b n s -> NumClear b = Ok (n - Z.of_nat (size s)).
Proof.
  intros Hr. pose proof Hr as (Hwf & Hn & Hs). pose proof (wf_pos b Hwf).
  unfold NumClear. rewrite Hn. set (body := fun count i => _).
  destruct (ofold_seqZ (fun i c => c = i - Z.of_nat (size (below s i))) body 0 n 0)
    as (c & -> & Hc); [lia | | |].
  - assert (below s 0 = ∅) as ->; [| done].
    apply set_eq. intros x. unfold below. rewrite elem_of_filter, Hs.
    split; [intros (? & ? & ?); lia | set_solver].
  - intros i c Hi ->. subst body. simpl. rewrite (rep_Test b n s) by (auto; lia). simpl.
    eexists. split; [done |]. rewrite below_succ. case_bool_decide; simpl; lia.
  - rewrite below_all in Hc; [f_equal; lia |]. intros i. rewrite Hs. naive_solver.
Qed.

#[export] Instance bitmap_contract : BitmapContract bm_rep.
Proof.
  split.
  - by intros b n s (_ & ? & _).
  - intros b n s (Hwf & <- & _). by apply wf_pos.
  - intros b n s i (_ & _ & H). rewrite H. naive_solver.
  - intros b n s s' (_ & _ & H) (_ & _ & H'). apply set_eq. intros i. by rewrite H, H'.
  - exact rep_new.
  - exact rep_Test.
  - exact rep_Mark.
  - exact rep_Clear.
  - intros b n s i (_ & <- & _). apply out_of_range.
  - exact rep_FindAndSet.
  - exact rep_NumClear.
Qed.

(** ** Properties, proved from the contract *)

Section Clients.
Context {rep : Bitmap -> Z -> gset Z -> Prop} `{!BitmapContract rep}.

Lemma mark_all b n s : rep b n s ->
  exists b', ofold Mark b (seqZ 0 n) = Ok b' /\ exists s', rep b' n s' /\
             forall i, 0 <= i < n -> i ∈ s'.
Proof.
  intros Hr. pose proof (bm_pos _ _ _ Hr).
  destruct (ofold_seqZ (fun i b => exists s', rep b n s' /\ forall j, 0 <= j < i -> j ∈ s')
    Mark 0 n b) as (b' & Hb & s' & Hr' & Hs'); [lia | | | eauto 10].
  - exists s. split; [done | lia].
  - intros i b1 Hi (s1 & Hr1 & Hs1).
    destruct (bm_Mark b1 n s1 i Hr1) as (b2 & HM & Hr2); [lia |].
    exists b2. split; [done |]. eexists. split; [done |].
    intros j Hj. destruct (Z.eq_dec j i); [set_solver |].
    apply elem_of_union_r, Hs1. lia.
Qed.

Lemma clear_all b n s : rep b n s ->
  exists b', ofold Clear b (seqZ 0 n) = Ok b' /\ rep b' n ∅.
Proof.
  intros Hr. pose proof (bm_pos _ _ _ Hr).
  destruct (ofold_seqZ (fun i b => exists s', rep b n s' /\ forall j, j ∈ s' -> i <= j)
    Clear 0 n b) as (b' & Hb & s' & Hr' & Hs'); [lia | | |].
  - exists s. split; [done |]. intros j Hj. apply (bm_bound b n s) in Hj; [lia | done].
  - intros i b1 Hi (s1 & Hr1 & Hs1).
    destruct (bm_Clear b1 n s1 i Hr1) as (b2 & HM & Hr2); [lia |].
    exists b2. split; [done |]. eexists. split; [done |].
    intros j [Hj Hne]%elem_of_difference. apply Hs1 in Hj.
    rewrite elem_of_singleton in Hne. lia.
  - exists b'. split; [done |]. replace s' with (∅ : gset Z) in Hr'; [done |].
    symmetry. apply set_eq. intros j. split; [| set_solver].
    intros Hj. pose proof (bm_bound _ _ _ _ Hr' Hj). apply Hs' in Hj. lia.
Qed.

End Clients.

(** What [Print] shows. *)
Lemma rep_Print b n s : bm_rep b n s -> Print b = Ok (filter (.∈ s) (seqZ 0 n)).
Proof.
  intros Hr. pose proof Hr as (Hwf & Hn & _). pose proof (wf_pos b Hwf). unfold Print. rewrite Hn.
  set (body := fun out i => _).
  destruct (ofold_seqZ (fun i out => out = filter (.∈ s) (seqZ 0 i)) body 0 n []) as (out & -> & ->); [lia | done | |].
  - intros i out Hi ->. subst body. simpl. rewrite (rep_Test b n s) by (auto; lia). simpl. eexists. split; [done |].
    rewrite (seqZ_app 0 i 1), filter_app by lia. replace (seqZ (0 + i) 1) with [i] by (unfold seqZ; simpl; do 2 f_equal; lia).
    case_bool_decide as Hin; [rewrite filter_cons_True | rewrite filter_cons_False, app_nil_r]; try done.
  - done.
Qed.

(** C1.  The word array implements a finite set of bit numbers.  With
    [s] the marked bits of an [n]-bit bitmap: [Test] decides membership,
    [Mark] adds the bit, [Clear] removes it, [NumClear] counts the
    complement, [Print] shows exactly the marked bits in order, and
    [FindAndSet] takes the lowest clear bit and marks it, or returns -1 and
    changes nothing when every bit is marked.  A new bitmap is the empty
    set, and a size that is not positive fails its ASSERT.  An index
    out of range fails the ASSERT of the operation. *)
Theorem bitmap_refines_set b n s :
  bm_rep b n s ->
  (forall i, 0 <= i < n ->
     Test b i = Ok (bool_decide (i ∈ s)) /\
     (exists b', Mark b i = Ok b' /\ bm_rep b' n ({[i]} ∪ s)) /\
     (exists b', Clear b i = Ok b' /\ bm_rep b' n (s ∖ {[i]}))) /\
  (forall i, ~ (0 <= i < n) ->
     Test b i = Trap AssertFail /\ Mark b i = Trap AssertFail /\ Clear b i = Trap AssertFail) /\
  NumClear b = Ok (n - Z.of_nat (size s)) /\
  Print b = Ok (filter (.∈ s) (seqZ 0 n)) /\
  (forall m, if 0 <? m then exists b0, new_Bitmap m = Ok b0 /\ bm_rep b0 m ∅ else new_Bitmap m = Trap AssertFail) /\
  match FindAndSet b with
  | Ok (i, b') =>
      (least_clear n s i /\ bm_rep b' n ({[i]} ∪ s)) \/
      (i = -1 /\ b' = b /\ forall j, 0 <= j < n -> j ∈ s)
  | Trap _ => False
  end.
Proof.
  intros Hr. split; [| split; [| split; [| split; [| split]]]].
  - intros i Hi. split; [by apply (rep_Test b n) | split; [by apply rep_Mark | by apply rep_Clear]].
  - intros i Hi. by apply (bm_range b n s).
  - by apply rep_NumClear.
  - by apply rep_Print.
  - intros m. destruct (Z.ltb_spec 0 m); [by apply rep_new |].
    unfold new_Bitmap. by rewrite (proj2 (Z.ltb_ge 0 m)).
  - destruct (rep_FindAndSet b n s Hr) as [(i & b' & -> & H)|[-> H]]; auto.
Qed.

Lemma bitmap_refines_set_witness :
  exists b, bm_rep b 40 ∅ /\ Test b 35 = Ok (bool_decide (35 ∈ (∅ : gset Z))).
Proof.
  destruct (rep_new 40) as (b & _ & Hr); [lia |].
  exists b. split; [exact Hr |].
  apply (proj1 (bitmap_refines_set b 40 ∅ Hr) 35). lia.
Defined.

(** [Bitmap::SelfTest] on a freshly built bitmap of at least one word
    passes every ASSERT and leaves the bitmap empty again. *)
Theorem bitmap_SelfTest_passes n :
  BitsInWord <= n ->
  exists b b', new_Bitmap n = Ok b /\ SelfTest b = Ok b' /\ bm_rep b' n ∅.
Proof.
  intros Hn. change BitsInWord with 32 in Hn.
  destruct (rep_new n) as (b & Hb & Hr); [lia |]. exists b. unfold SelfTest.
  rewrite (bm_size b n ∅ Hr), (rep_NumClear b n ∅ Hr), size_empty, Z.sub_0_r.
  rewrite (proj2 (Z.leb_le _ _)) by done. run. rewrite Z.eqb_refl. run.
  destruct (rep_FindAndSet b n ∅ Hr) as [(i & b1 & -> & [? [_ Hl]] & Hr1)|[_ Hf]];
    [| exfalso; specialize (Hf 0 ltac:(lia)); set_solver].
  assert (i = 0) as ->.
  { destruct (Z.ltb_spec 0 i); [specialize (Hl 0 ltac:(lia)); set_solver | lia]. }
  run. destruct (rep_Mark b1 n _ 31 Hr1) as (b2 & -> & Hr2); [lia |]. run.
  rewrite (rep_Test b2 n _ 0 Hr2), (rep_Test b2 n _ 31 Hr2) by lia. run.
  rewrite !bool_decide_true by set_solver. run.
  destruct (rep_FindAndSet b2 n _ Hr2) as [(i & b3 & -> & (? & Hout & Hl2) & Hr3)|[_ Hf]];
    [| exfalso; specialize (Hf 1 ltac:(lia)); set_solver by lia].
  assert (i = 1) as ->.
  { destruct (Z.ltb_spec 1 i); [specialize (Hl2 1 ltac:(lia)); set_solver by lia |].
    destruct (Z.eq_dec i 0) as [->|]; [set_solver | lia]. }
  run. destruct (rep_Clear b3 n _ 0 Hr3) as (b4 & -> & Hr4); [lia |]. run.
  destruct (rep_Clear b4 n _ 1 Hr4) as (b5 & -> & Hr5); [lia |]. run.
  destruct (rep_Clear b5 n _ 31 Hr5) as (b6 & -> & Hr6); [lia |]. run.
  rewrite (bm_size b6 n _ Hr6).
  destruct (mark_all b6 n _ Hr6) as (b7 & -> & s7 & Hr7 & Hall). run.
  destruct (rep_FindAndSet b7 n _ Hr7) as [(i & b8 & -> & (? & Hout' & _) & _)|[-> _]];
    [exfalso; auto |]. run.
  rewrite (bm_size b7 n _ Hr7).
  destruct (clear_all b7 n _ Hr7) as (b8 & -> & Hr8). eauto.
Qed.

Lemma bitmap_SelfTest_passes_witness :
  32 <= 33 /\
  exists b b', new_Bitmap 33 = Ok b /\ SelfTest b = Ok b' /\ bm_rep b' 33 ∅.
Proof. split; [lia | apply (bitmap_SelfTest_passes 33); vm_compute; discriminate]. Defined.

End Bitmap.
