(* ===== verification/LinkedList.v ===== *)
(** * lib/list.{h,cc}: List, SortedList, ListIterator

    The lists are modelled at the level of list.cc: cells with [next]
    pointers in a store, the [first]/[last] pointers and the element
    count.  A cell that was deleted is no longer in the store, and reading
    through a NULL or dangling pointer is [Undefined].  [ListSpec] is the
    abstract list the rest of the kernel works with; [list_rep] relates the
    two and every operation is shown to refine its specification. *)

From Stdlib Require Import Sorted.
From S2P Require Import Prelude.

(** ** What a [List<T>] promises *)

Module ListSpec.
Section Spec.
Context {T : Type} `{EqDecision T}.

Definition IsInList (xs : list T) (x : T) : bool := bool_decide (x ∈ xs).

Definition Append (xs : list T) (x : T) : outcome (list T) :=
  if decide (x ∈ xs) then Trap AssertFail else Ok (xs ++ [x]).

Definition Prepend (xs : list T) (x : T) : outcome (list T) :=
  if decide (x ∈ xs) then Trap AssertFail else Ok (x :: xs).

Definition RemoveFront (xs : list T) : outcome (T * list T) :=
  match xs with
  | [] => Trap AssertFail
  | x :: xs' => Ok (x, xs')
  end.

Definition Front (xs : list T) : outcome T :=
  match xs with
  | [] => Trap Undefined
  | x :: _ => Ok x
  end.

(** The first occurrence goes. *)
Fixpoint remove_first (x : T) (xs : list T) : list T :=
  match xs with
  | [] => []
  | y :: xs' => if decide (x = y) then xs' else y :: remove_first x xs'
  end.

Definition Remove (xs : list T) (x : T) : outcome (list T) :=
  if decide (x ∈ xs) then
    let xs' := remove_first x xs in
    if decide (x ∈ xs') then Trap AssertFail else Ok xs'
  else Trap AssertFail.

(** Before the first element that is bigger. *)
Fixpoint sorted_insert (compare : T -> T -> Z) (x : T) (xs : list T) : list T :=
  match xs with
  | [] => [x]
  | y :: xs' => if compare x y <? 0 then x :: xs else y :: sorted_insert compare x xs'
  end.

Definition Insert (compare : T -> T -> Z) (xs : list T) (x : T) : outcome (list T) :=
  if decide (x ∈ xs) then Trap AssertFail else Ok (sorted_insert compare x xs).

Definition Apply {S} (xs : list T) (func : T -> S -> S) (s : S) : S := foldl (fun s x => func x s) s xs.

(** No item is followed by a smaller one. *)
Fixpoint ordered (compare : T -> T -> Z) (xs : list T) : bool :=
  match xs with
  | x :: ((y :: _) as xs') => (compare x y <=? 0) && ordered compare xs'
  | _ => true
  end.

End Spec.
End ListSpec.

Module LinkedList.
Section LinkedList.
Context {T : Type} `{EqDecision T}.

(** ** Data *)

Record ListElement := mkElem {
  next : option positive;
  item : T
}.

Record List := mkList {
  first : option positive;
  last : option positive;
  numInList : Z;
  cells : gmap positive ListElement;   (* the ListElements that are allocated *)
  brk : positive                       (* [new] takes this address *)
}.

Definition new_List : List := mkList None None 0 ∅ 1.

Definition set_first (l : List) p := mkList p (last l) (numInList l) (cells l) (brk l).
Definition set_last (l : List) p := mkList (first l) p (numInList l) (cells l) (brk l).
Definition set_num (l : List) n := mkList (first l) (last l) n (cells l) (brk l).
Definition set_cells (l : List) c := mkList (first l) (last l) (numInList l) c (brk l).

(** [new ListElement<T>(itm)]: [next] is NULL. *)
Definition new_ListElement (l : List) (itm : T) : positive * List :=
  (brk l, mkList (first l) (last l) (numInList l)
            (<[brk l := mkElem None itm]> (cells l)) (Pos.succ (brk l))).

Definition deref (l : List) (p : option positive) : outcome ListElement :=
  match p with
  | None => Trap Undefined
  | Some a =>
      match cells l !! a with
      | Some e => Ok e
      | None => Trap Undefined
      end
  end.

(** [p->next = q] *)
Definition set_next (l : List) (p : option positive) (q : option positive) : outcome List :=
  let! e := deref l p in
  match p with
  | Some a => Ok (set_cells l (<[a := mkElem q (item e)]> (cells l)))
  | None => Trap Undefined
  end.

(** [delete p] *)
Definition free (l : List) (p : option positive) : outcome List :=
  let! e := deref l p in
  match p with
  | Some a => Ok (set_cells l (delete a (cells l)))
  | None => Trap Undefined
  end.

Definition IsEmpty (l : List) : bool := numInList l =? 0.
Definition NumInList (l : List) : Z := numInList l.
Definition Front (l : List) : outcome T :=
  let! e := deref l (first l) in Ok (item e).

(** ** Operations

    The loops walk the [next] chain; [chain_fuel] is one more than the
    number of allocated cells. *)

Definition chain_fuel (l : List) : nat := S (size (cells l)).

Fixpoint IsInList_loop (fuel : nat) (l : List) (x : T) (ptr : option positive) : outcome bool :=
  match ptr with
  | None => Ok false
  | Some _ =>
      match fuel with
      | O => Trap NoFuel
      | S fuel' =>
          let! e := deref l ptr in
          if decide (x = item e) then Ok true else IsInList_loop fuel' l x (next e)
      end
  end.

Definition IsInList (l : List) (x : T) : outcome bool :=
  IsInList_loop (chain_fuel l) l x (first l).

Definition Append (l : List) (x : T) : outcome List :=
  let (element, l) := new_ListElement l x in
  let! found := IsInList l x in
  assert! (negb found);
  let! l :=
    (if IsEmpty l then Ok (set_last (set_first l (Some element)) (Some element))
     else let! l := set_next l (last l) (Some element) in
          Ok (set_last l (Some element))) in
  let l := set_num l (numInList l + 1) in
  let! found := IsInList l x in
  assert! found;
  Ok l.

Definition Prepend (l : List) (x : T) : outcome List :=
  let (element, l) := new_ListElement l x in
  let! found := IsInList l x in
  assert! (negb found);
  let! l :=
    (if IsEmpty l then Ok (set_last (set_first l (Some element)) (Some element))
     else let! l := set_next l (Some element) (first l) in
          Ok (set_first l (Some element))) in
  let l := set_num l (numInList l + 1) in
  let! found := IsInList l x in
  assert! found;
  Ok l.

Definition RemoveFront (l : List) : outcome (T * List) :=
  let element := first l in
  assert! (negb (IsEmpty l));
  let! e := deref l (first l) in
  let thing := item e in
  let! l :=
    (if decide (first l = last l) then Ok (set_last (set_first l None) None)
     else let! e := deref l element in Ok (set_first l (next e))) in
  let l := set_num l (numInList l - 1) in
  let! l := free l element in
  Ok (thing, l).

(** The [for] loop of [Remove]; the result tells whether [ptr] stopped on
    the item ([ptr != NULL] after the loop). *)
Fixpoint Remove_loop (fuel : nat) (l : List) (x : T) (prev ptr : option positive)
    : outcome (bool * List) :=
  match ptr with
  | None => Ok (false, l)
  | Some _ =>
      match fuel with
      | O => Trap NoFuel
      | S fuel' =>
          let! e := deref l ptr in
          if decide (x = item e) then
            let! l := set_next l prev (next e) in
            let! pe := deref l prev in
            let l := if decide (next pe = None) then set_last l prev else l in
            let! l := free l ptr in
            Ok (true, set_num l (numInList l - 1))
          else Remove_loop fuel' l x ptr (next e)
      end
  end.

Definition Remove (l : List) (x : T) : outcome List :=
  let! found := IsInList l x in
  assert! found;
  let! f := deref l (first l) in
  let! l :=
    (if decide (x = item f) then
       let! '(removed, l) := RemoveFront l in
       assert! (bool_decide (x = removed));
       Ok l
     else
       let! '(found, l) := Remove_loop (chain_fuel l) l x (first l) (next f) in
       assert! found;
       Ok l) in
  let! found := IsInList l x in
  assert! (negb found);
  Ok l.

(** [Apply]: [func] acts on a state of the caller. *)
Fixpoint Apply_loop {S} (fuel : nat) (l : List) (func : T -> S -> S) (s : S)
    (ptr : option positive) : outcome S :=
  match ptr with
  | None => Ok s
  | Some _ =>
      match fuel with
      | O => Trap NoFuel
      | Datatypes.S fuel' =>
          let! e := deref l ptr in
          Apply_loop fuel' l func (func (item e) s) (next e)
      end
  end.

Definition Apply {S} (l : List) (func : T -> S -> S) (s : S) : outcome S :=
  Apply_loop (chain_fuel l) l func s (first l).

(** The [for] loop of [SortedList::Insert]; [false]: it reached the end. *)
Fixpoint Insert_loop (fuel : nat) (compare : T -> T -> Z) (l : List) (x : T)
    (element : positive) (ptr : option positive) : outcome (bool * List) :=
  match fuel with
  | O => Trap NoFuel
  | S fuel' =>
      let! e := deref l ptr in
      match next e with
      | None => Ok (false, l)
      | Some _ =>
          let! n := deref l (next e) in
          if compare x (item n) <? 0 then
            let! l := set_next l (Some element) (next e) in
            let! l := set_next l ptr (Some element) in
            Ok (true, set_num l (numInList l + 1))
          else Insert_loop fuel' compare l x element (next e)
      end
  end.

Definition Insert (compare : T -> T -> Z) (l : List) (x : T) : outcome List :=
  let (element, l) := new_ListElement l x in
  let! found := IsInList l x in
  assert! (negb found);
  let finish (l : List) :=
    let l := set_num l (numInList l + 1) in
    let! found := IsInList l x in
    assert! found;
    Ok l in
  if IsEmpty l then finish (set_last (set_first l (Some element)) (Some element))
  else
    let! f := deref l (first l) in
    if compare x (item f) <? 0 then
      let! l := set_next l (Some element) (first l) in
      finish (set_first l (Some element))
    else
      let! '(done, l) := Insert_loop (chain_fuel l) compare l x element (first l) in
      if (done : bool) then Ok l
      else
        let! l := set_next l (last l) (Some element) in
        finish (set_last l (Some element)).

(** [SanityCheck]: the loop stops at [last] or when an ASSERT fails. *)
Fixpoint SanityCheck_loop (fuel : nat) (l : List) (numFound : Z) (ptr : option positive)
    : outcome Z :=
  if decide (ptr = last l) then Ok numFound
  else
    match fuel with
    | O => Trap NoFuel
    | S fuel' =>
        assert! (numFound + 1 <=? numInList l);
        let! e := deref l ptr in
        SanityCheck_loop fuel' l (numFound + 1) (next e)
    end.

Definition SanityCheck (l : List) : outcome unit :=
  match first l with
  | None => assert! (numInList l =? 0) && bool_decide (last l = None); Ok tt
  | Some _ =>
      if decide (first l = last l) then
        assert! (numInList l =? 1);
        let! e := deref l (last l) in
        assert! (bool_decide (next e = None));
        Ok tt
      else
        let! n := SanityCheck_loop (chain_fuel l) l 1 (first l) in
        assert! (n =? numInList l);
        let! e := deref l (last l) in
        assert! (bool_decide (next e = None));
        Ok tt
  end.

Fixpoint Sorted_loop (fuel : nat) (compare : T -> T -> Z) (l : List) (prev ptr : option positive)
    : outcome unit :=
  match ptr with
  | None => Ok tt
  | Some _ =>
      match fuel with
      | O => Trap NoFuel
      | S fuel' =>
          let! p := deref l prev in
          let! e := deref l ptr in
          assert! (compare (item p) (item e) <=? 0);
          Sorted_loop fuel' compare l ptr (next e)
      end
  end.

Definition Sorted_SanityCheck (compare : T -> T -> Z) (l : List) : outcome unit :=
  let! _ := SanityCheck l in
  if decide (first l = last l) then Ok tt
  else let! f := deref l (first l) in
       Sorted_loop (chain_fuel l) compare l (first l) (next f).

(** ** ListIterator *)

Record ListIterator := mkIter { current : option positive }.

Definition new_ListIterator (l : List) : ListIterator := mkIter (first l).
Definition IsDone (it : ListIterator) : bool := bool_decide (current it = None).
Definition Item (l : List) (it : ListIterator) : outcome T :=
  assert! (negb (IsDone it));
  let! e := deref l (current it) in Ok (item e).
Definition Next (l : List) (it : ListIterator) : outcome ListIterator :=
  let! e := deref l (current it) in Ok (mkIter (next e)).

(** ** Self tests

    [Append] and [SanityCheck] are virtual: the test of the base class runs
    the overriding ones of the object it is called on. *)

Definition SelfTest (vAppend : List -> T -> outcome List) (vSanityCheck : List -> outcome unit)
    (l : List) (p : list T) : outcome List :=
  let iterator := new_ListIterator l in
  let! _ := vSanityCheck l in
  assert! (IsEmpty l && bool_decide (first l = None));
  assert! (IsDone iterator);
  let! l := ofold (fun l x =>
              let! l := vAppend l x in
              let! found := IsInList l x in
              assert! found;
              assert! (negb (IsEmpty l));
              Ok l) l p in
  let! _ := vSanityCheck l in
  let! l := ofold (fun l x =>
              let! l := Remove l x in
              let! found := IsInList l x in
              assert! (negb found);
              Ok l) l p in
  assert! (IsEmpty l);
  let! _ := vSanityCheck l in
  Ok l.

(** [SortedList::SelfTest]: the items come out in [q] in order. *)
Definition Sorted_SelfTest (compare : T -> T -> Z) (l : List) (p : list T) : outcome List :=
  let! l := SelfTest (Insert compare) (Sorted_SanityCheck compare) l p in
  let! l := ofold (fun l x =>
              let! l := Insert compare l x in
              let! found := IsInList l x in
              assert! found;
              Ok l) l p in
  let! _ := Sorted_SanityCheck compare l in
  let! '(q, l) := ofold (fun '(q, l) _ =>
              let! '(x, l) := RemoveFront l in
              let! found := IsInList l x in
              assert! (negb found);
              Ok (q ++ [x], l)) ([], l) p in
  assert! (IsEmpty l);
  let! _ := ofold (fun _ i =>
              let! x := arr_get q i in
              let! y := arr_get q (i + 1) in
              assert! (compare x y <=? 0);
              Ok tt) tt (seqZ 0 (Z.of_nat (length p) - 1)) in
  let! _ := Sorted_SanityCheck compare l in
  Ok l.

(** ** Representation *)

(** The cells at [ps] hold [xs] and link [p] to [q]. *)
Fixpoint lseg (c : gmap positive ListElement) (p : option positive) (ps : list positive)
    (xs : list T) (q : option positive) : Prop :=
  match ps, xs with
  | [], [] => p = q
  | a :: ps', x :: xs' =>
      p = Some a /\ exists nx, c !! a = Some (mkElem nx x) /\ lseg c nx ps' xs' q
  | _, _ => False
  end.

Fixpoint last_loc (ps : list positive) : option positive :=
  match ps with
  | [] => None
  | [a] => Some a
  | _ :: ps' => last_loc ps'
  end.

(** [l] holds exactly [xs]: the chain from [first] ends in NULL, [last] is
    its last cell, the count is right and no other cell is allocated. *)
Definition list_rep (l : List) (xs : list T) : Prop :=
  exists ps, lseg (cells l) (first l) ps xs None /\ NoDup ps /\
    last l = last_loc ps /\ numInList l = Z.of_nat (length xs) /\
    dom (cells l) = list_to_set ps /\ Forall (fun a => (a < brk l)%positive) ps.

Lemma lseg_length c p ps xs q : lseg c p ps xs q -> length ps = length xs.
Proof.
  revert p xs. induction ps as [|a ps IH]; intros p [|x xs]; simpl; try done.
  intros (_ & nx & _ & H). f_equal. eauto.
Qed.

Lemma lseg_dom c p ps xs q a : lseg c p ps xs q -> a ∈ ps -> is_Some (c !! a).
Proof.
  revert p xs. induction ps as [|b ps IH]; intros p [|x xs]; simpl; try done.
  - by intros _ ?%elem_of_nil.
  - intros (_ & nx & Hb & H) [->|Hin]%elem_of_cons; eauto.
Qed.

Lemma lseg_ext c c' p ps xs q :
  (forall a, a ∈ ps -> c !! a = c' !! a) -> lseg c p ps xs q -> lseg c' p ps xs q.
Proof.
  revert p xs. induction ps as [|b ps IH]; intros p [|x xs] Hext; simpl; try done.
  intros (-> & nx & Hb & H). split; [done |]. exists nx. split.
  - by rewrite <- Hext by set_solver.
  - eapply IH; [| done]. intros a Ha. apply Hext. set_solver.
Qed.

Lemma lseg_app c p ps1 xs1 ps2 xs2 m q :
  lseg c p ps1 xs1 m -> lseg c m ps2 xs2 q -> lseg c p (ps1 ++ ps2) (xs1 ++ xs2) q.
Proof.
  revert p xs1. induction ps1 as [|b ps IH]; intros p [|x xs]; simpl; try done.
  - by intros ->.
  - intros (-> & nx & Hb & H) H2. split; [done |]. eauto.
Qed.

Lemma lseg_app_inv c p ps1 ps2 xs q :
  lseg c p (ps1 ++ ps2) xs q ->
  exists xs1 xs2 m, xs = xs1 ++ xs2 /\ lseg c p ps1 xs1 m /\ lseg c m ps2 xs2 q.
Proof.
  revert p xs. induction ps1 as [|b ps IH]; intros p xs; simpl.
  - intros H. exists [], xs, p. done.
  - destruct xs as [|x xs]; [done |]. intros (-> & nx & Hb & H).
    destruct (IH nx xs H) as (xs1 & xs2 & m & -> & H1 & H2).
    exists (x :: xs1), xs2, m. simpl. eauto 10.
Qed.

Lemma lseg_size c p ps xs q : lseg c p ps xs q -> NoDup ps -> (length ps <= size c)%nat.
Proof.
  intros H Hnd. rewrite <- (size_list_to_set (C := gset positive)) by done.
  rewrite <- size_dom. apply subseteq_size. intros a Ha.
  apply elem_of_list_to_set in Ha. apply elem_of_dom. by eapply lseg_dom.
Qed.

Lemma last_loc_snoc ps a : last_loc (ps ++ [a]) = Some a.
Proof. induction ps as [|b [|b' ps] IH]; done. Qed.

Lemma last_loc_In ps a : last_loc ps = Some a -> a ∈ ps.
Proof.
  induction ps as [|b [|b' ps] IH]; simpl; [done | intros [= ->]; set_solver |].
  intros H. apply elem_of_cons. right. by apply IH.
Qed.

(** ** The loops on a chain *)

Lemma IsInList_loop_spec l x ps xs p fuel :
  lseg (cells l) p ps xs None -> (length ps < fuel)%nat ->
  IsInList_loop fuel l x p = Ok (bool_decide (x ∈ xs)).
Proof.
  revert p xs fuel. induction ps as [|a ps IH]; intros p [|y xs] fuel; cbn [lseg length]; try done.
  - intros -> Hf. destruct fuel; [lia |]. by rewrite bool_decide_false by set_solver.
  - intros (-> & nx & Ha & H) Hf. destruct fuel; [lia |].
    cbn [IsInList_loop deref]. rewrite Ha. cbn [obind item next].
    destruct (decide (x = y)) as [->|Hne].
    + by rewrite bool_decide_true by set_solver.
    + rewrite (IH nx xs) by (done || lia). f_equal. apply bool_decide_ext. set_solver.
Qed.

Lemma IsInList_spec l x ps xs :
  lseg (cells l) (first l) ps xs None -> NoDup ps ->
  IsInList l x = Ok (bool_decide (x ∈ xs)).
Proof.
  intros H Hnd. apply (IsInList_loop_spec l x ps); [done |].
  pose proof (lseg_size _ _ _ _ _ H Hnd). unfold chain_fuel. lia.
Qed.

Lemma Apply_loop_spec {S} (func : T -> S -> S) l ps xs p fuel s :
  lseg (cells l) p ps xs None -> (length ps < fuel)%nat ->
  Apply_loop fuel l func s p = Ok (fold_left (fun s x => func x s) xs s).
Proof.
  revert p xs fuel s. induction ps as [|a ps IH]; intros p [|y xs] fuel s; simpl; try done.
  - intros -> Hf. destruct fuel; [lia | done].
  - intros (-> & nx & Ha & H) Hf. destruct fuel; [lia |]. simpl. rewrite Ha. simpl.
    apply IH; [done | lia].
Qed.

Lemma rep_IsInList l xs x : list_rep l xs -> IsInList l x = Ok (bool_decide (x ∈ xs)).
Proof. intros (ps & H & Hnd & _). eauto using IsInList_spec. Qed.

Lemma rep_IsEmpty l xs : list_rep l xs -> IsEmpty l = bool_decide (xs = []).
Proof.
  intros (ps & _ & _ & _ & Hn & _). unfold IsEmpty. rewrite Hn.
  destruct xs; [done |]. rewrite bool_decide_false by done. apply Z.eqb_neq. simpl. lia.
Qed.

Lemma rep_new_List : list_rep new_List [].
Proof. exists []. simpl. split_and!; [done | apply NoDup_nil_2 | done | done | set_solver | constructor]. Qed.

(** A fresh cell next to a well-formed list. *)
Lemma alloc_fresh l ps :
  dom (cells l) = list_to_set ps -> Forall (fun a => (a < brk l)%positive) ps ->
  brk l ∉ ps /\ cells l !! brk l = None.
Proof.
  intros Hd Hf. assert (brk l ∉ ps) as Hn.
  { intros Hin. pose proof (Forall_elem _ _ _ Hf Hin). simpl in *. lia. }
  split; [done |]. apply not_elem_of_dom. rewrite Hd. by rewrite elem_of_list_to_set.
Qed.

Lemma Forall_brk_succ b ps :
  Forall (fun a => (a < b)%positive) ps -> Forall (fun a => (a < Pos.succ b)%positive) ps.
Proof. intros H. eapply Forall_impl; [exact H | simpl; lia]. Qed.

Ltac cells_simpl := unfold set_next, free, set_first, set_last, set_num, set_cells; cbn [cells first last numInList brk next item set_first set_last set_num
  set_cells set_next new_ListElement deref obind assert_ negb fst snd].

(** ** Refinement of the operations *)

(** The store after [new]: the list is unchanged and the new cell is off
    the chain. *)
Lemma alloc_chain l ps xs x :
  lseg (cells l) (first l) ps xs None -> dom (cells l) = list_to_set ps ->
  Forall (fun a => (a < brk l)%positive) ps ->
  let l1 := (new_ListElement l x).2 in
  brk l ∉ ps /\ lseg (cells l1) (first l) ps xs None /\
  cells l1 !! brk l = Some (mkElem None x) /\
  dom (cells l1) = {[brk l]} ∪ list_to_set ps.
Proof.
  intros H Hd Hf. destruct (alloc_fresh l ps Hd Hf) as [Hn _]. cells_simpl.
  split; [done |]. split; [| split].
  - eapply lseg_ext; [| done]. intros a Ha. rewrite lookup_insert_ne; [done |]. by intros <-.
  - by rewrite lookup_insert_eq.
  - by rewrite dom_insert_L, Hd.
Qed.

(** Writing [next] of the last cell extends a chain by one cell. *)
Lemma lseg_extend c p ps xs a y e x :
  lseg c p (ps ++ [a]) (xs ++ [y]) None -> NoDup (ps ++ [a]) -> e ∉ ps ++ [a] ->
  c !! e = Some (mkElem None x) ->
  lseg (<[a := mkElem (Some e) y]> c) p ((ps ++ [a]) ++ [e]) ((xs ++ [y]) ++ [x]) None.
Proof.
  intros H Hnd He Hc.
  destruct (lseg_app_inv _ _ _ _ _ _ H) as (xs1 & xs2 & m & Heq & H1 & H2).
  destruct xs2 as [|z [|? ?]]; simpl in H2; [done | | by destruct H2 as (_ & ? & _ & ?)].
  apply app_inj_tail in Heq as [<- <-]. destruct H2 as (-> & nx & Ha & ->).
  apply NoDup_app in Hnd as (Hnd & Hdis & _).
  apply lseg_app with (Some e); [apply lseg_app with (Some a) |].
  - eapply lseg_ext; [| done]. intros b Hb. rewrite lookup_insert_ne; [done |].
    intros <-. apply (Hdis a Hb). set_solver.
  - cbn [lseg]. split; [done |]. exists (Some e). by rewrite lookup_insert_eq.
  - cbn [lseg]. split; [done |]. exists None. rewrite lookup_insert_ne; [done |]. set_solver.
Qed.

Lemma rep_nonempty_last l ps xs :
  lseg (cells l) (first l) ps xs None -> xs <> [] ->
  exists ps' a xs' y, ps = ps' ++ [a] /\ xs = xs' ++ [y] /\ cells l !! a = Some (mkElem None y).
Proof.
  intros H Hne. pose proof (lseg_length _ _ _ _ _ H) as Hlen.
  destruct (exists_last Hne) as (xs' & y & ->).
  assert (ps <> []) as Hp by (intros ->; rewrite length_app in Hlen; simpl in Hlen; lia).
  destruct (exists_last Hp) as (ps' & a & ->).
  exists ps', a, xs', y. split; [done |]. split; [done |].
  destruct (lseg_app_inv _ _ _ _ _ _ H) as (xs1 & xs2 & m & Heq & H1 & H2).
  destruct xs2 as [|z [|? ?]]; simpl in H2; [done | | by destruct H2 as (_ & ? & _ & ?)].
  apply app_inj_tail in Heq as [<- <-]. by destruct H2 as (-> & nx & Ha & ->).
Qed.

Lemma rep_Append l xs x :
  list_rep l xs -> orel list_rep (Append l x) (ListSpec.Append xs x).
Proof.
  intros Hr. pose proof (rep_IsEmpty l xs Hr) as HE.
  destruct Hr as (ps & H & Hnd & Hlast & Hnum & Hdom & Hbrk).
  destruct (alloc_chain l ps xs x H Hdom Hbrk) as (Hn & Hc & Hcell & Hd).
  unfold Append, ListSpec.Append. cells_simpl.
  rewrite IsInList_spec with (ps := ps) (xs := xs) by done. cells_simpl.
  destruct (decide (x ∈ xs)) as [Hin|Hout];
    [by rewrite bool_decide_true | rewrite bool_decide_false by done]. cells_simpl.
  change (IsEmpty (mkList _ _ _ _ _)) with (IsEmpty l). rewrite HE.
  destruct (decide (xs = [])) as [->|Hne].
  - rewrite bool_decide_true by done. cells_simpl.
    pose proof (lseg_length _ _ _ _ _ H). destruct ps; [| done].
    assert (lseg (<[brk l:=mkElem None x]> (cells l)) (Some (brk l)) [brk l] [x] None) as Hs.
    { cbn [lseg]. split; [done |]. exists None. by rewrite lookup_insert_eq. }
    rewrite IsInList_spec with (ps := [brk l]) (xs := [x]) by (done || apply NoDup_singleton).
    rewrite bool_decide_true by set_solver. simpl.
    exists [brk l]. cells_simpl. split_and!; try done.
    + apply NoDup_singleton.
    + simpl in *. lia.
    + constructor; [simpl; lia | constructor].
  - rewrite bool_decide_false by done. cells_simpl.
    destruct (rep_nonempty_last l ps xs H Hne) as (ps' & a & xs' & y & -> & -> & Ha).
    rewrite Hlast, last_loc_snoc. cells_simpl.
    assert (a <> brk l) as Hab by (intros ->; set_solver).
    rewrite lookup_insert_ne, Ha by done. cells_simpl.
    pose proof (lseg_extend _ _ _ _ _ _ _ _ Hc Hnd Hn Hcell) as Hs.
    assert (NoDup ((ps' ++ [a]) ++ [brk l])) as Hnd'.
    { apply NoDup_app. split; [done |]. split; [set_solver | apply NoDup_singleton]. }
    rewrite IsInList_spec with (ps := (ps' ++ [a]) ++ [brk l]) (xs := (xs' ++ [y]) ++ [x]) by done.
    rewrite bool_decide_true by set_solver. simpl.
    exists ((ps' ++ [a]) ++ [brk l]). cells_simpl. split_and!; try done.
    + by rewrite last_loc_snoc.
    + rewrite Hnum, !length_app. simpl. lia.
    + rewrite !dom_insert_L, Hdom. set_solver.
    + apply Forall_app. split; [by apply Forall_brk_succ | constructor; [simpl; lia | constructor]].
Qed.

Lemma rep_Prepend l xs x :
  list_rep l xs -> orel list_rep (Prepend l x) (ListSpec.Prepend xs x).
Proof.
  intros Hr. pose proof (rep_IsEmpty l xs Hr) as HE.
  destruct Hr as (ps & H & Hnd & Hlast & Hnum & Hdom & Hbrk).
  destruct (alloc_chain l ps xs x H Hdom Hbrk) as (Hn & Hc & Hcell & Hd).
  unfold Prepend, ListSpec.Prepend. cells_simpl.
  rewrite IsInList_spec with (ps := ps) (xs := xs) by done. cells_simpl.
  destruct (decide (x ∈ xs)) as [Hin|Hout];
    [by rewrite bool_decide_true | rewrite bool_decide_false by done]. cells_simpl.
  change (IsEmpty (mkList _ _ _ _ _)) with (IsEmpty l). rewrite HE.
  assert (NoDup (brk l :: ps)) as Hnd' by (by apply NoDup_cons).
  assert (let l' := mkList (Some (brk l)) (last_loc (brk l :: ps)) (numInList l + 1)
            (<[brk l := mkElem (first l) x]> (cells l)) (Pos.succ (brk l)) in
          IsInList l' x = Ok true /\ list_rep l' (x :: xs)) as [Hin' Hrep'].
  { assert (lseg (<[brk l:=mkElem (first l) x]> (cells l)) (Some (brk l))
              (brk l :: ps) (x :: xs) None) as Hs.
    { cbn [lseg]. split; [done |]. exists (first l). rewrite lookup_insert_eq. split; [done |].
      eapply lseg_ext; [| exact H]. intros b Hb. rewrite lookup_insert_ne; [done |]. by intros <-. }
    split.
    - rewrite IsInList_spec with (ps := brk l :: ps) (xs := x :: xs) by done.
      by rewrite bool_decide_true by set_solver.
    - exists (brk l :: ps). cells_simpl. split_and!; try done.
      + cbn [length]. lia.
      + rewrite dom_insert_L, Hdom. set_solver.
      + constructor; [simpl; lia | by apply Forall_brk_succ]. }
  pose proof (lseg_length _ _ _ _ _ H) as Hlen.
  destruct (decide (xs = [])) as [->|Hne].
  - rewrite bool_decide_true by done. cells_simpl.
    destruct ps; [| done]. cbn [lseg] in H. rewrite H in *.
    cbn [last_loc] in Hin'. rewrite Hin'. done.
  - rewrite bool_decide_false by done. cells_simpl. rewrite lookup_insert_eq. cells_simpl.
    rewrite insert_insert_eq. destruct ps as [|b ps]; [by destruct xs |].
    change (last_loc (brk l :: b :: ps)) with (last_loc (b :: ps)) in Hin', Hrep'.
    rewrite <- Hlast in Hin', Hrep'. rewrite Hin'. done.
Qed.

Lemma rep_RemoveFront l xs :
  list_rep l xs ->
  orel (fun r s => r.1 = s.1 /\ list_rep r.2 s.2) (RemoveFront l) (ListSpec.RemoveFront xs).
Proof.
  intros Hr. pose proof (rep_IsEmpty l xs Hr) as HE.
  destruct Hr as (ps & H & Hnd & Hlast & Hnum & Hdom & Hbrk).
  unfold RemoveFront. rewrite HE. destruct xs as [|x xs]; [done |].
  rewrite bool_decide_false by done. cells_simpl.
  destruct ps as [|a ps]; [done |]. destruct H as (Hf & nx & Ha & H).
  rewrite Hf. cells_simpl. rewrite Ha. cells_simpl.
  apply NoDup_cons in Hnd as [Hn Hnd]. apply Forall_cons in Hbrk as [_ Hbrk].
  assert (lseg (delete a (cells l)) nx ps xs None) as Hs.
  { eapply lseg_ext; [| exact H]. intros b Hb. rewrite lookup_delete_ne; [done |]. by intros <-. }
  assert (dom (delete a (cells l)) = list_to_set ps) as Hd.
  { rewrite dom_delete_L, Hdom. set_solver. }
  rewrite Hlast. destruct ps as [|b ps].
  - simpl. rewrite decide_True by done. cells_simpl. rewrite Ha. cells_simpl.
    split; [done |]. destruct xs; [| done]. exists []. cells_simpl. split_and!; try done.
    simpl in *. lia.
  - change (last_loc (a :: b :: ps)) with (last_loc (b :: ps)) in *.
    rewrite decide_False; cycle 1.
    { intros Heq. symmetry in Heq. apply last_loc_In in Heq. by apply Hn. }
    cells_simpl. rewrite Ha. cells_simpl.
    split; [done |]. exists (b :: ps). cells_simpl. split_and!; try done.
    simpl in *. lia.
Qed.

(** A chain through [a]: the part before, the cell, the part after. *)
Lemma lseg_split c p ps1 a ps2 xs1 y xs2 q :
  length ps1 = length xs1 ->
  lseg c p (ps1 ++ a :: ps2) (xs1 ++ y :: xs2) q ->
  exists nx, lseg c p ps1 xs1 (Some a) /\ c !! a = Some (mkElem nx y) /\ lseg c nx ps2 xs2 q.
Proof.
  revert p xs1. induction ps1 as [|b ps IH]; intros p [|x xs1] Hlen; simpl; try done.
  - intros (-> & nx & Ha & H). eauto.
  - intros (-> & nx & Hb & H). injection Hlen as Hlen.
    destruct (IH nx xs1 Hlen H) as (nx' & H1 & H2 & H3). eauto 10.
Qed.

(** Redirecting the cell [a] of a chain. *)
Lemma lseg_relink c p ps1 a ps2 xs1 y xs2 nx :
  lseg c p ps1 xs1 (Some a) -> lseg c nx ps2 xs2 None -> a ∉ ps1 -> a ∉ ps2 ->
  lseg (<[a := mkElem nx y]> c) p (ps1 ++ a :: ps2) (xs1 ++ y :: xs2) None.
Proof.
  intros H1 H2 Hn1 Hn2. eapply lseg_app.
  - eapply lseg_ext; [| exact H1]. intros b Hb. rewrite lookup_insert_ne; [done |]. by intros <-.
  - cbn [lseg]. split; [done |]. exists nx. rewrite lookup_insert_eq. split; [done |].
    eapply lseg_ext; [| exact H2]. intros b Hb. rewrite lookup_insert_ne; [done |]. by intros <-.
Qed.

Lemma last_loc_mid ps1 a b ps2 : last_loc (ps1 ++ a :: b :: ps2) = last_loc (b :: ps2).
Proof. induction ps1 as [|c [|c' ps1] IH]; done. Qed.

Lemma last_loc_app ps1 b ps2 : last_loc (ps1 ++ b :: ps2) = last_loc (b :: ps2).
Proof. induction ps1 as [|c [|c' ps1] IH]; done. Qed.

Lemma lseg_head c p ps xs q : lseg c p ps xs q -> p = match ps with [] => q | a :: _ => Some a end.
Proof. destruct ps, xs; simpl; try done. by intros [-> _]. Qed.

Definition list_facts (l : List) (ps : list positive) (xs : list T) : Prop :=
  lseg (cells l) (first l) ps xs None /\ NoDup ps /\
  last l = last_loc ps /\ numInList l = Z.of_nat (length xs) /\
  dom (cells l) = list_to_set ps /\ Forall (fun a => (a < brk l)%positive) ps.

Lemma Remove_loop_spec x ps2 xs2 : forall l ps1 a xs1 y nx fuel,
  list_facts l (ps1 ++ a :: ps2) (xs1 ++ y :: xs2) -> length ps1 = length xs1 ->
  cells l !! a = Some (mkElem nx y) -> (length ps2 < fuel)%nat -> x ∈ xs2 ->
  exists l', Remove_loop fuel l x (Some a) nx = Ok (true, l') /\
             list_rep l' (xs1 ++ y :: ListSpec.remove_first x xs2).
Proof.
  revert xs2. induction ps2 as [|b ps2 IH]; intros xs2 l ps1 a xs1 y nx fuel Hf Hlen Ha Hfuel Hx;
    pose proof Hf as (H & Hnd & Hlast & Hnum & Hdom & Hbrk);
    destruct (lseg_split _ _ _ _ _ _ _ _ _ Hlen H) as (nx' & H1 & Ha' & H2);
    rewrite Ha' in Ha; injection Ha as ->;
    (destruct xs2 as [|z xs2]; [by apply elem_of_nil in Hx |]); [done |].
  destruct H2 as (-> & nx2 & Hb & H2). destruct fuel as [|fuel]; [simpl in Hfuel; lia |].
  cbn [Remove_loop deref]. rewrite Hb. cells_simpl. cbn [ListSpec.remove_first].
  destruct (decide (x = z)) as [<-|Hne].
  - rewrite Ha'. cells_simpl. rewrite lookup_insert_eq. cells_simpl.
    assert (a <> b /\ a ∉ ps1 /\ a ∉ ps2 /\ b ∉ ps1 /\ b ∉ ps2 /\ NoDup (ps1 ++ a :: ps2)) as
      (Hab & Ha1 & Ha2 & Hb1 & Hb2 & Hnd').
    { rewrite !NoDup_app, !NoDup_cons in *. set_solver. }
    exists (mkList (first l) (if decide (nx2 = None) then Some a else last l) (numInList l - 1)
              (delete b (<[a := mkElem nx2 y]> (cells l))) (brk l)). split.
    { case_decide; cells_simpl; rewrite lookup_insert_ne, Hb by done; cells_simpl; reflexivity. }
    assert (lseg (delete b (<[a := mkElem nx2 y]> (cells l))) (first l) (ps1 ++ a :: ps2)
              (xs1 ++ y :: xs2) None) as Hs.
    { eapply lseg_ext; [| apply lseg_relink; eassumption].
      intros d Hd. rewrite lookup_delete_ne; [done |]. set_solver. }
    assert (dom (delete b (<[a := mkElem nx2 y]> (cells l))) = list_to_set (ps1 ++ a :: ps2)) as Hd.
    { rewrite dom_delete_L, dom_insert_L, Hdom. set_solver. }
    exists (ps1 ++ a :: ps2). pose proof (lseg_head _ _ _ _ _ H2) as ->.
    case_decide; destruct ps2 as [|d ps2]; try done; cells_simpl; split_and!; try done;
      try (rewrite length_app in *; simpl in *; lia);
      try (rewrite Forall_app, !Forall_cons in *; tauto).
    + by rewrite last_loc_snoc.
    + by rewrite Hlast, !last_loc_mid.
  - replace (ps1 ++ a :: b :: ps2) with ((ps1 ++ [a]) ++ b :: ps2) in Hf by (by rewrite <- app_assoc).
    replace (xs1 ++ y :: z :: xs2) with ((xs1 ++ [y]) ++ z :: xs2) in Hf by (by rewrite <- app_assoc).
    destruct (IH xs2 l (ps1 ++ [a]) b (xs1 ++ [y]) z nx2 fuel Hf) as (l' & Hl & Hr);
      [by rewrite !length_app, Hlen | done | simpl in Hfuel; lia | set_solver |].
    exists l'. split; [done |]. by rewrite <- app_assoc in Hr.
Qed.

Lemma remove_first_head (x : T) xs :
  ListSpec.remove_first x (x :: xs) = xs.
Proof. simpl. by rewrite decide_True. Qed.

Lemma rep_Remove l xs x :
  list_rep l xs -> orel list_rep (Remove l x) (ListSpec.Remove xs x).
Proof.
  intros Hr. unfold Remove, ListSpec.Remove. rewrite (rep_IsInList l xs x Hr). cells_simpl.
  destruct (decide (x ∈ xs)) as [Hin|Hout];
    [rewrite bool_decide_true by done | by rewrite bool_decide_false]. cells_simpl.
  destruct xs as [|y xs]; [by apply elem_of_nil in Hin |].
  pose proof Hr as (ps & Hf). pose proof Hf as (H & Hnd & _).
  destruct ps as [|a ps]; [done |]. destruct H as (Hfst & nx & Ha & H).
  rewrite Hfst. cells_simpl. rewrite Ha. cells_simpl. cbn [ListSpec.remove_first].
  assert (exists l', (if decide (x = y)
      then let! '(removed, l0) := RemoveFront l in assert! bool_decide (x = removed); Ok l0
      else let! '(found, l0) := Remove_loop (chain_fuel l) l x (Some a) nx in assert! found; Ok l0)
    = Ok l' /\ list_rep l' (if decide (x = y) then xs else y :: ListSpec.remove_first x xs))
    as (l' & -> & Hr').
  { destruct (decide (x = y)) as [<-|Hne].
    - pose proof (rep_RemoveFront l (x :: xs) Hr) as HF. simpl in HF.
      destruct (RemoveFront l) as [[r l']|]; [| done]. destruct HF as [Heq HF]. simpl in *. subst r.
      exists l'. rewrite bool_decide_true by done. done.
    - destruct (Remove_loop_spec x ps xs l [] a [] y nx (chain_fuel l)) as (l' & -> & Hr'); try done.
      + pose proof (lseg_size _ _ _ _ _ (proj1 Hf) Hnd). unfold chain_fuel. simpl in *. lia.
      + set_solver.
      + exists l'. done. }
  cells_simpl. rewrite (rep_IsInList _ _ x Hr').
  destruct (decide (x ∈ _)) as [Hi|Ho]; cells_simpl.
  - rewrite bool_decide_true by done. done.
  - rewrite bool_decide_false by done. done.
Qed.

(** A well-formed list with one freshly allocated cell off the chain. *)
Definition pre_rep (l : List) (e : positive) (x : T) (ps : list positive) (xs : list T) : Prop :=
  lseg (cells l) (first l) ps xs None /\ NoDup ps /\ e ∉ ps /\
  cells l !! e = Some (mkElem None x) /\ last l = last_loc ps /\
  numInList l = Z.of_nat (length xs) /\ dom (cells l) = {[e]} ∪ list_to_set ps /\
  Forall (fun a => (a < brk l)%positive) (e :: ps).

Lemma pre_rep_alloc l ps xs x :
  list_facts l ps xs -> pre_rep (new_ListElement l x).2 (brk l) x ps xs.
Proof.
  intros (H & Hnd & Hlast & Hnum & Hdom & Hbrk).
  destruct (alloc_chain l ps xs x H Hdom Hbrk) as (Hn & Hc & Hcell & Hd).
  split_and!; try done. cells_simpl. constructor; [simpl; lia | by apply Forall_brk_succ].
Qed.

(** Linking the new cell in front of the list. *)
Lemma pre_rep_front l e x ps xs :
  pre_rep l e x ps xs -> xs <> [] ->
  exists l1, set_next l (Some e) (first l) = Ok l1 /\
    list_rep (set_num (set_first l1 (Some e)) (numInList l1 + 1)) (x :: xs).
Proof.
  intros (H & Hnd & Hn & He & Hlast & Hnum & Hdom & Hbrk) Hne.
  cells_simpl. rewrite He. cells_simpl. eexists. split; [done |].
  pose proof (lseg_length _ _ _ _ _ H). destruct ps as [|b ps]; [by destruct xs |].
  exists (e :: b :: ps). cells_simpl. split_and!; try done.
  - cbn [lseg]. split; [done |]. exists (first l). rewrite lookup_insert_eq. split; [done |].
    change (lseg (<[e:=mkElem (first l) x]> (cells l)) (first l) (b :: ps) xs None).
    eapply lseg_ext; [| exact H]. intros c Hc. rewrite lookup_insert_ne; [done |]. by intros <-.
  - by apply NoDup_cons.
  - cbn [length]. lia.
  - rewrite dom_insert_L, Hdom. set_solver.
Qed.

(** Linking it after the cell [a]. *)
Lemma pre_rep_after l e x ps1 a ps2 xs1 y xs2 nx :
  pre_rep l e x (ps1 ++ a :: ps2) (xs1 ++ y :: xs2) -> length ps1 = length xs1 ->
  cells l !! a = Some (mkElem nx y) -> xs2 <> [] ->
  exists l1 l2, set_next l (Some e) nx = Ok l1 /\ set_next l1 (Some a) (Some e) = Ok l2 /\
    list_rep (set_num l2 (numInList l2 + 1)) (xs1 ++ y :: x :: xs2).
Proof.
  intros (H & Hnd & Hn & He & Hlast & Hnum & Hdom & Hbrk) Hlen Ha Hne.
  destruct (lseg_split _ _ _ _ _ _ _ _ _ Hlen H) as (nx' & H1 & Ha' & H2).
  rewrite Ha' in Ha. injection Ha as ->.
  assert (a <> e /\ a ∉ ps1 /\ a ∉ ps2 /\ e ∉ ps1 /\ e ∉ ps2 /\ NoDup (ps1 ++ a :: e :: ps2)) as
    (Hae & Ha1 & Ha2 & He1 & He2 & Hnd').
  { rewrite !NoDup_app, !NoDup_cons in *. set_solver. }
  cells_simpl. rewrite He. cells_simpl. eexists _, _. split; [done |]. cells_simpl.
  rewrite lookup_insert_ne, Ha' by done. cells_simpl. split; [done |].
  exists (ps1 ++ a :: e :: ps2). cells_simpl. split_and!; try done.
  - apply lseg_relink; [| | done | set_solver].
    + eapply lseg_ext; [| exact H1]. intros b Hb. rewrite lookup_insert_ne; [done |]. set_solver.
    + cbn [lseg]. split; [done |]. exists nx. rewrite lookup_insert_eq. split; [done |].
      eapply lseg_ext; [| exact H2]. intros b Hb. rewrite lookup_insert_ne; [done |]. set_solver.
  - pose proof (lseg_length _ _ _ _ _ H2). destruct ps2 as [|b ps2]; [by destruct xs2 |].
    rewrite Hlast, !last_loc_mid. done.
  - rewrite Hnum, !length_app. simpl. lia.
  - rewrite !dom_insert_L, Hdom. set_solver.
  - rewrite ?Forall_cons, ?Forall_app, ?Forall_cons in *. tauto.
Qed.

Lemma Insert_loop_spec compare e x ps2 xs2 : forall l ps1 a xs1 y fuel,
  pre_rep l e x (ps1 ++ a :: ps2) (xs1 ++ y :: xs2) -> length ps1 = length xs1 ->
  (length ps2 < fuel)%nat ->
  (Insert_loop fuel compare l x e (Some a) = Ok (false, l) /\
   ListSpec.sorted_insert compare x xs2 = xs2 ++ [x]) \/
  (exists l', Insert_loop fuel compare l x e (Some a) = Ok (true, l') /\
     list_rep l' (xs1 ++ y :: ListSpec.sorted_insert compare x xs2)).
Proof.
  revert xs2. induction ps2 as [|b ps2 IH]; intros xs2 l ps1 a xs1 y fuel Hp Hlen Hfuel;
    pose proof Hp as (H & Hnd & Hn & He & Hlast & Hnum & Hdom & Hbrk);
    destruct (lseg_split _ _ _ _ _ _ _ _ _ Hlen H) as (nx & H1 & Ha & H2);
    (destruct fuel as [|fuel]; [simpl in Hfuel; lia |]);
    cbn [Insert_loop deref]; rewrite Ha; cbn [obind next item].
  - left. destruct xs2; [| done]. cbn [lseg] in H2. by subst nx.
  - destruct xs2 as [|z xs2]; [done |]. pose proof H2 as (-> & nx2 & Hb & H3).
    cbn [deref]. rewrite Hb. cbn [obind item next]. cbn [ListSpec.sorted_insert].
    destruct (compare x z <? 0) eqn:E.
    + right. destruct (pre_rep_after _ _ _ _ _ _ _ _ _ _ Hp Hlen Ha) as (l1 & l2 & E1 & E2 & Hr);
        [done |]. rewrite E1. cbn [obind]. rewrite E2. cbn [obind]. eauto.
    + replace (ps1 ++ a :: b :: ps2) with ((ps1 ++ [a]) ++ b :: ps2) in Hp by (by rewrite <- app_assoc).
      replace (xs1 ++ y :: z :: xs2) with ((xs1 ++ [y]) ++ z :: xs2) in Hp by (by rewrite <- app_assoc).
      destruct (IH xs2 l (ps1 ++ [a]) b (xs1 ++ [y]) z fuel Hp) as [[E1 E2]|(l' & E1 & Hr)];
        [by rewrite !length_app, Hlen | simpl in Hfuel; lia | left | right].
      * rewrite E2. done.
      * exists l'. rewrite <- app_assoc in Hr. done.
Qed.

Lemma finish_ok l xs x : list_rep l xs -> x ∈ xs ->
  orel list_rep (let! found := IsInList l x in assert! found; Ok l) (Ok xs).
Proof. intros Hr Hx. rewrite (rep_IsInList l xs x Hr), bool_decide_true by done. done. Qed.

Lemma sorted_insert_In (compare : T -> T -> Z) x xs y :
  y ∈ ListSpec.sorted_insert compare x xs <-> y = x \/ y ∈ xs.
Proof.
  induction xs as [|z xs IH]; simpl; [set_solver |].
  destruct (compare x z <? 0); [set_solver |]. rewrite !elem_of_cons, IH. tauto.
Qed.

(** Linking the new cell behind [last]. *)
Lemma pre_rep_back l e x ps xs :
  pre_rep l e x ps xs -> xs <> [] ->
  exists l1, set_next l (last l) (Some e) = Ok l1 /\
    list_rep (set_num (set_last l1 (Some e)) (numInList l1 + 1)) (xs ++ [x]).
Proof.
  intros (H & Hnd & Hn & He & Hlast & Hnum & Hdom & Hbrk) Hne.
  destruct (rep_nonempty_last l ps xs H Hne) as (ps' & a & xs' & y & -> & -> & Ha).
  rewrite Hlast, last_loc_snoc. cells_simpl. rewrite Ha. cells_simpl.
  eexists. split; [done |]. exists ((ps' ++ [a]) ++ [e]). cells_simpl. split_and!.
  - by apply lseg_extend.
  - apply NoDup_app. split; [done |]. split; [set_solver | apply NoDup_singleton].
  - by rewrite last_loc_snoc.
  - rewrite Hnum, !length_app. simpl. lia.
  - rewrite !dom_insert_L, Hdom. set_solver.
  - apply Forall_cons in Hbrk as [? ?]. apply Forall_app. split; [done | by constructor].
Qed.

Lemma pre_rep_only l e x :
  pre_rep l e x [] [] ->
  list_rep (set_num (set_last (set_first l (Some e)) (Some e)) (numInList l + 1)) [x].
Proof.
  intros (H & Hnd & Hn & He & Hlast & Hnum & Hdom & Hbrk).
  exists [e]. cells_simpl. split_and!; try done.
  - cbn [lseg]. eauto.
  - apply NoDup_singleton.
  - cbn [length] in *. lia.
Qed.

Lemma rep_Insert compare l xs x :
  list_rep l xs -> orel list_rep (Insert compare l x) (ListSpec.Insert compare xs x).
Proof.
  intros Hr. pose proof (rep_IsEmpty l xs Hr) as HE. destruct Hr as (ps & Hf).
  pose proof (pre_rep_alloc l ps xs x Hf) as Hp. unfold Insert, ListSpec.Insert.
  destruct (new_ListElement l x) as [e l1] eqn:En.
  assert (brk l = e) as Hbe by (by injection En). rewrite Hbe in Hp. cbn [snd] in Hp.
  pose proof Hp as (Hc & Hnd & _). rewrite IsInList_spec with (ps := ps) (xs := xs) by done.
  assert (IsEmpty l1 = IsEmpty l) as -> by (by injection En as _ <-). rewrite HE.
  destruct (decide (x ∈ xs)) as [Hin|Hout];
    [by rewrite bool_decide_true | rewrite (bool_decide_false _ Hout)]. cbn [obind assert_ negb].
  destruct (decide (xs = [])) as [->|Hne].
  - rewrite bool_decide_true by done. destruct ps; [| done]. simpl ListSpec.sorted_insert.
    refine (finish_ok _ _ x (pre_rep_only _ _ _ Hp) _). set_solver.
  - rewrite bool_decide_false by done.
    destruct xs as [|y xs]; [done |]. destruct ps as [|a ps]; [done |].
    pose proof Hc as (Hfst & nx & Ha & _). rewrite Hfst. cbn [deref]. rewrite Ha.
    cbn [obind item ListSpec.sorted_insert].
    destruct (compare x y <? 0).
    + destruct (pre_rep_front l1 e x _ _ Hp Hne) as (l2 & E & Hr). rewrite Hfst in E. rewrite E.
      cbn [obind]. refine (finish_ok _ _ x Hr _). set_solver.
    + destruct (Insert_loop_spec compare e x ps xs l1 [] a [] y (chain_fuel l1) Hp)
        as [[-> E2]|(l' & -> & Hr)]; [done | | |]; cbn [obind].
      * pose proof (lseg_size _ _ _ _ _ Hc Hnd). unfold chain_fuel. simpl in *. lia.
      * destruct (pre_rep_back l1 e x _ _ Hp Hne) as (l2 & -> & Hr). cbn [obind].
        rewrite E2. refine (finish_ok _ _ x Hr _). set_solver.
      * done.
Qed.

(** ** SanityCheck never fails on a well-formed list *)

Lemma SanityCheck_loop_spec {A} l q ps xs p fuel k (c : outcome A) :
  lseg (cells l) p ps xs q -> last l = q -> q ∉ (Some <$> ps) -> (length ps <= fuel)%nat ->
  (let! n := SanityCheck_loop fuel l k p in assert! (n =? numInList l); c) =
  (assert! (k + Z.of_nat (length ps) =? numInList l); c).
Proof.
  revert p xs fuel k. induction ps as [|a ps IH]; intros p [|x xs] fuel k; cbn [lseg length]; try done.
  - intros -> Hl _ _. replace (k + Z.of_nat 0) with k by lia.
    destruct fuel; simpl; by rewrite decide_True.
  - intros (-> & nx & Ha & H) Hl Hq Hf. destruct fuel as [|fuel]; [lia |]. cbn [SanityCheck_loop].
    rewrite decide_False by (rewrite Hl; set_solver).
    destruct (Z.leb_spec (k + 1) (numInList l)); cbn [assert_ obind].
    + cbn [deref]. rewrite Ha. cbn [obind next]. rewrite (IH nx xs) by (done || lia || set_solver).
      by replace (k + 1 + Z.of_nat (length ps)) with (k + Z.of_nat (S (length ps))) by lia.
    + by rewrite (proj2 (Z.eqb_neq _ _)) by lia.
Qed.

(** The check passes, and not with a wrong number of items. *)
Lemma rep_SanityCheck_count l xs n : list_rep l xs ->
  SanityCheck (set_num l n) = assert_ (n =? Z.of_nat (length xs)).
Proof.
  intros (ps & H & Hnd & Hlast & _). unfold SanityCheck. cbn [set_num first last numInList].
  pose proof (lseg_length _ _ _ _ _ H) as Hlen.
  destruct (decide (xs = [])) as [->|Hne].
  { destruct ps; [| done]. cbn [lseg] in H. rewrite H, Hlast, bool_decide_true, andb_true_r by done.
    change (Z.of_nat (length [])) with 0. by destruct (n =? 0). }
  destruct (rep_nonempty_last l ps xs H Hne) as (ps' & a & xs' & y & -> & -> & Ha).
  rewrite last_loc_snoc in Hlast. rewrite Hlast. destruct ps' as [|b ps'].
  - destruct xs'; [| rewrite !length_app in Hlen; simpl in Hlen; lia].
    destruct H as (-> & _). rewrite decide_True by done. cbn [length app].
    change (Z.of_nat 1) with 1. destruct (n =? 1); [|done]. cbn [assert_ obind deref set_num cells]. by rewrite Ha.
  - destruct xs' as [|x xs']; [rewrite !length_app in Hlen; simpl in Hlen; lia |].
    assert (length (b :: ps') = length (x :: xs')) as Hlen'
      by (rewrite !length_app in Hlen; simpl in *; lia).
    pose proof (lseg_size _ _ _ _ _ H Hnd) as Hsz.
    destruct (lseg_split _ _ _ _ [] _ _ _ _ Hlen' H) as (nx & H1 & _).
    pose proof H1 as (Hfst & _). rewrite Hfst in H1 |- *. rewrite decide_False; cycle 1.
    { intros [= ->]. rewrite NoDup_app in Hnd. set_solver. }
    change n with (numInList (set_num l n)) at 1.
    rewrite (SanityCheck_loop_spec (set_num l n) (Some a) (b :: ps') (x :: xs')); [|exact H1 | exact Hlast | |].
    + cbn [set_num numInList deref cells]. rewrite Ha. cbn [obind next].
      replace (1 + Z.of_nat (length (b :: ps')) =? n) with (n =? Z.of_nat (length ((x :: xs') ++ [y]))).
      { by destruct (n =? _). }
      rewrite Z.eqb_sym, length_app, Hlen'. f_equal. simpl. lia.
    + rewrite NoDup_app in Hnd. intros (c & [= ->] & Hc)%list_elem_of_fmap. set_solver.
    + rewrite length_app in Hsz. unfold chain_fuel. simpl in *. lia.
Qed.

Lemma rep_SanityCheck l xs : list_rep l xs -> SanityCheck l = Ok tt.
Proof.
  intros Hr. pose proof (rep_SanityCheck_count l xs (numInList l) Hr) as E.
  destruct Hr as (ps & _ & _ & _ & Hn & _). rewrite Hn, Z.eqb_refl in E. rewrite <- Hn in E.
  destruct l. exact E.
Qed.

Lemma rep_Apply {S} (func : T -> S -> S) l xs s : list_rep l xs -> Apply l func s = Ok (ListSpec.Apply xs func s).
Proof.
  intros (ps & H & Hnd & _). unfold Apply. rewrite (Apply_loop_spec func l ps xs); [|done |].
  - unfold ListSpec.Apply. f_equal. clear. revert s. induction xs as [|x xs IH]; intros s; [done | apply IH].
  - pose proof (lseg_size _ _ _ _ _ H Hnd). unfold chain_fuel. lia.
Qed.

(** ** Iterators *)

(** The items the loop [for (; !iter.IsDone(); iter.Next()) iter.Item()]
    visits. *)
Fixpoint iterate (fuel : nat) (l : List) (it : ListIterator) : outcome (list T) :=
  if IsDone it then Ok []
  else
    match fuel with
    | O => Trap NoFuel
    | S fuel' =>
        let! x := Item l it in
        let! it := Next l it in
        let! xs := iterate fuel' l it in
        Ok (x :: xs)
    end.

Lemma iterate_spec l ps xs p fuel :
  lseg (cells l) p ps xs None -> (length ps <= fuel)%nat -> iterate fuel l (mkIter p) = Ok xs.
Proof.
  revert p xs fuel. induction ps as [|a ps IH]; intros p [|x xs] fuel; cbn [lseg length]; try done.
  - intros -> _. by destruct fuel.
  - intros (-> & nx & Ha & H) Hf. destruct fuel as [|fuel]; [lia |].
    cbn [iterate]. unfold IsDone, Item, Next. unfold IsDone. cbn [current deref].
    rewrite bool_decide_false by done. rewrite Ha. cbn [assert_ negb obind item next].
    rewrite (IH nx xs) by (done || lia). done.
Qed.

Lemma rep_iterate l xs : list_rep l xs -> iterate (length xs) l (new_ListIterator l) = Ok xs.
Proof.
  intros (ps & H & _). apply (iterate_spec l ps); [done |].
  by rewrite (lseg_length _ _ _ _ _ H).
Qed.

(** ** Sorted lists *)

Section Sorting.
Variable compare : T -> T -> Z.

Definition cmp_le (x y : T) : Prop := compare x y <= 0.

(** [compare] orders the items, up to items that compare equal. *)
Record compare_order : Prop := {
  cmp_total : forall x y, ~ compare x y < 0 -> compare y x <= 0;
  cmp_trans : forall x y z, compare x y <= 0 -> compare y z <= 0 -> compare x z <= 0
}.

Lemma sorted_insert_perm x xs : ListSpec.sorted_insert compare x xs ≡ₚ x :: xs.
Proof.
  induction xs as [|y xs IH]; simpl; [done |].
  destruct (compare x y <? 0); [done |]. rewrite IH. apply Permutation_swap.
Qed.

Lemma sorted_insert_sorted (Hc : compare_order) x xs :
  StronglySorted cmp_le xs -> StronglySorted cmp_le (ListSpec.sorted_insert compare x xs).
Proof.
  induction 1 as [|y xs Hs IH Hy]; simpl; [repeat constructor |].
  destruct (Z.ltb_spec (compare x y) 0) as [Hlt|Hge].
  - constructor; [by constructor |]. constructor; [unfold cmp_le; lia |].
    eapply Forall_impl; [exact Hy |]. intros z Hz. eapply (cmp_trans Hc); [| exact Hz]. lia.
  - constructor; [done |]. rewrite sorted_insert_perm. constructor; [| done].
    apply (cmp_total Hc). lia.
Qed.

Lemma Sorted_loop_spec l a y ps xs nx fuel :
  cells l !! a = Some (mkElem nx y) -> lseg (cells l) nx ps xs None -> (length ps < fuel)%nat ->
  Sorted_loop fuel compare l (Some a) nx = assert_ (ListSpec.ordered compare (y :: xs)).
Proof.
  revert a y xs nx fuel. induction ps as [|b ps IH]; intros a y [|x xs] nx fuel Ha;
    cbn [lseg length]; try done.
  - intros -> Hf. by destruct fuel.
  - intros (-> & nx' & Hb & H) Hf. destruct fuel as [|fuel]; [lia |].
    cbn [Sorted_loop deref]. rewrite Ha, Hb. cbn [obind item next].
    rewrite (IH b x xs); [|done | done | lia]. cbn [ListSpec.ordered]. by destruct (compare y x <=? 0).
Qed.

(** The check of a sorted list succeeds on ordered contents only. *)
Lemma rep_Sorted_SanityCheck_ordered l xs :
  list_rep l xs -> Sorted_SanityCheck compare l = assert_ (ListSpec.ordered compare xs).
Proof.
  intros Hr. unfold Sorted_SanityCheck. rewrite (rep_SanityCheck l xs Hr). cbn [obind].
  destruct Hr as (ps & H & Hnd & Hlast & _). pose proof (lseg_length _ _ _ _ _ H) as Hlen.
  destruct ps as [|a [|b ps]], xs as [|y [|z xs]]; try done.
  - cbn [lseg] in H. by rewrite H, Hlast, decide_True by done.
  - destruct H as (-> & _). by rewrite Hlast, decide_True by done.
  - pose proof (lseg_size _ _ _ _ _ H Hnd). pose proof H as (Hf & nx & Ha & H').
    rewrite Hf, decide_False.
    2:{ rewrite Hlast. intros E. assert (a ∈ b :: ps) as Hin; [|by apply NoDup_cons in Hnd as [? _]].
        clear - E. revert b E. induction ps as [|c ps IH]; intros b E; [injection E as <-; left |].
        right. by apply IH. }
    cbn [deref]. rewrite Ha. cbn [obind next].
    apply (Sorted_loop_spec l a y (b :: ps)); [done | done |]. unfold chain_fuel. simpl in *. lia.
Qed.

Lemma ordered_sorted xs : StronglySorted cmp_le xs -> ListSpec.ordered compare xs = true.
Proof.
  induction 1 as [|x xs _ IH Hx]; [done |]. destruct Hx as [|y xs Hy _]; [done |].
  cbn [ListSpec.ordered]. by rewrite (proj2 (Z.leb_le _ _) Hy).
Qed.

Lemma rep_Sorted_SanityCheck l xs :
  list_rep l xs -> StronglySorted cmp_le xs -> Sorted_SanityCheck compare l = Ok tt.
Proof. intros Hr Hs. by rewrite (rep_Sorted_SanityCheck_ordered l xs Hr), ordered_sorted. Qed.

End Sorting.

(** ** The self tests *)

Lemma Remove_front_rep l x xs :
  list_rep l (x :: xs) -> x ∉ xs -> exists l', Remove l x = Ok l' /\ list_rep l' xs.
Proof.
  intros Hr Hx. pose proof (rep_Remove l _ x Hr) as H. unfold ListSpec.Remove in H.
  rewrite decide_True, remove_first_head, decide_False in H by (done || set_solver).
  destruct (Remove l x); [eauto | done].
Qed.

Lemma remove_first_perm x (xs : list T) : x ∈ xs -> xs ≡ₚ x :: ListSpec.remove_first x xs.
Proof.
  induction xs as [|y xs IH]; [by intros ?%elem_of_nil |]. intros Hx. simpl.
  destruct (decide (x = y)) as [<-|Hne]; [done |].
  rewrite IH at 1 by set_solver. apply Permutation_swap.
Qed.

Lemma Remove_rep l x xs :
  list_rep l xs -> NoDup xs -> x ∈ xs ->
  exists l', Remove l x = Ok l' /\ list_rep l' (ListSpec.remove_first x xs).
Proof.
  intros Hr Hnd Hx. pose proof (rep_Remove l xs x Hr) as H. unfold ListSpec.Remove in H.
  rewrite decide_True in H by done.
  pose proof (remove_first_perm x xs Hx) as Hp. rewrite Hp in Hnd.
  apply NoDup_cons in Hnd as [Hn _]. rewrite decide_False in H by done.
  destruct (Remove l x); [eauto | done].
Qed.

(** What the test needs of the virtual functions; [P] is the invariant of
    the derived class. *)
Record virtual_ok (vAppend : List -> T -> outcome List) (vCheck : List -> outcome unit)
    (P : list T -> Prop) : Prop := {
  v_nil : P [];
  v_append : forall l xs x, list_rep l xs -> P xs -> x ∉ xs ->
    exists l' xs', vAppend l x = Ok l' /\ list_rep l' xs' /\ P xs' /\ xs' ≡ₚ x :: xs;
  v_check : forall l xs, list_rep l xs -> P xs -> vCheck l = Ok tt
}.

Lemma append_all_from vAppend vCheck P p l xs :
  virtual_ok vAppend vCheck P -> NoDup p -> list_rep l xs -> P xs ->
  (forall x, x ∈ p -> x ∉ xs) ->
  exists l' xs',
    ofold (fun l x =>
              let! l := vAppend l x in
              let! found := IsInList l x in
              assert! found;
              assert! (negb (IsEmpty l));
              Ok l) l p = Ok l' /\ list_rep l' xs' /\ P xs' /\ xs' ≡ₚ p ++ xs.
Proof.
  intros Hv Hnd. revert l xs. induction p as [|x p IH]; intros l xs Hr HP Hdis.
  - exists l, xs. done.
  - apply NoDup_cons in Hnd as [Hx Hnd]. cbn [ofold].
    destruct (v_append _ _ _ Hv l xs x Hr HP) as (l1 & xs1 & -> & Hr1 & HP1 & Hp1); [set_solver |].
    cbn [obind]. rewrite (rep_IsInList l1 xs1 x Hr1), bool_decide_true by (rewrite Hp1; set_solver).
    cbn [obind assert_]. rewrite (rep_IsEmpty l1 xs1 Hr1).
    rewrite bool_decide_false by (intros ->; apply Permutation_length in Hp1; simpl in Hp1; lia).
    cbn [negb assert_ obind].
    destruct (IH Hnd l1 xs1 Hr1 HP1) as (l' & xs' & E & H1 & H2 & H3).
    { intros y Hy. rewrite Hp1. set_solver. }
    exists l', xs'. split_and!; [done | done | done |]. rewrite H3, Hp1. simpl.
    by rewrite Permutation_middle.
Qed.

Lemma append_all vAppend vCheck P p l :
  virtual_ok vAppend vCheck P -> NoDup p -> list_rep l [] ->
  exists l' xs,
    ofold (fun l x =>
              let! l := vAppend l x in
              let! found := IsInList l x in
              assert! found;
              assert! (negb (IsEmpty l));
              Ok l) l p = Ok l' /\ list_rep l' xs /\ P xs /\ xs ≡ₚ p.
Proof.
  intros Hv Hnd Hr.
  destruct (append_all_from vAppend vCheck P p l [] Hv Hnd Hr (v_nil _ _ _ Hv))
    as (l' & xs & H); [set_solver |].
  exists l', xs. by rewrite app_nil_r in H.
Qed.

Lemma remove_all p l xs :
  list_rep l xs -> NoDup p -> xs ≡ₚ p ->
  exists l', ofold (fun l x =>
              let! l := Remove l x in
              let! found := IsInList l x in
              assert! (negb found);
              Ok l) l p = Ok l' /\ list_rep l' [].
Proof.
  revert l xs. induction p as [|x p IH]; intros l xs Hr Hnd Hp.
  - exists l. split; [done |]. symmetry in Hp. apply Permutation_nil in Hp. by subst.
  - assert (NoDup xs) as Hndx by (by rewrite Hp).
    destruct (Remove_rep l x xs Hr Hndx) as (l1 & E & Hr1); [rewrite Hp; set_solver |].
    cbn [ofold]. rewrite E. cbn [obind]. rewrite (rep_IsInList _ _ x Hr1).
    assert (ListSpec.remove_first x xs ≡ₚ p) as Hp1.
    { apply (Permutation_cons_inv (a := x)). rewrite <- remove_first_perm; [done |]. rewrite Hp. set_solver. }
    apply NoDup_cons in Hnd as [Hx Hnd].
    rewrite bool_decide_false by (by rewrite Hp1). cbn [negb assert_ obind].
    by apply (IH l1 (ListSpec.remove_first x xs)).
Qed.

Lemma SelfTest_ok vAppend vCheck P p :
  virtual_ok vAppend vCheck P -> NoDup p ->
  exists l', SelfTest vAppend vCheck new_List p = Ok l' /\ list_rep l' [].
Proof.
  intros Hv Hnd. unfold SelfTest. pose proof rep_new_List as Hr.
  rewrite (v_check _ _ _ Hv _ _ Hr (v_nil _ _ _ Hv)). cbn [obind].
  replace (IsEmpty new_List && bool_decide (first new_List = None)) with true by done.
  replace (IsDone (new_ListIterator new_List)) with true by done. cbn [assert_ obind].
  destruct (append_all vAppend vCheck P p new_List Hv Hnd Hr) as (l1 & xs & -> & Hr1 & HP & Hp).
  cbn [obind]. rewrite (v_check _ _ _ Hv _ _ Hr1 HP). cbn [obind].
  destruct (remove_all p l1 xs Hr1 Hnd Hp) as (l2 & -> & Hr2). cbn [obind].
  rewrite (rep_IsEmpty l2 [] Hr2), bool_decide_true by done. cbn [assert_ obind].
  rewrite (v_check _ _ _ Hv _ _ Hr2 (v_nil _ _ _ Hv)). cbn [obind]. eauto.
Qed.

Lemma base_virtual_ok : virtual_ok Append SanityCheck (fun _ => True).
Proof.
  split; [done | | intros; by eapply rep_SanityCheck].
  intros l xs x Hr _ Hx. pose proof (rep_Append l xs x Hr) as H. unfold ListSpec.Append in H.
  rewrite decide_False in H by done. destruct (Append l x) as [l'|]; [| done].
  exists l', (xs ++ [x]). split_and!; try done. by rewrite Permutation_app_comm.
Qed.

Lemma sorted_virtual_ok compare : compare_order compare ->
  virtual_ok (Insert compare) (Sorted_SanityCheck compare) (StronglySorted (cmp_le compare)).
Proof.
  intros Hc. split; [constructor | | intros; by eapply rep_Sorted_SanityCheck].
  intros l xs x Hr HP Hx. pose proof (rep_Insert compare l xs x Hr) as H. unfold ListSpec.Insert in H.
  rewrite decide_False in H by done. destruct (Insert compare l x) as [l'|]; [| done].
  exists l', (ListSpec.sorted_insert compare x xs). split_and!; try done.
  - by apply sorted_insert_sorted.
  - apply sorted_insert_perm.
Qed.

(** The two loops of [SortedList::SelfTest]. *)
Lemma insert_all compare p l xs : compare_order compare ->
  list_rep l xs -> StronglySorted (cmp_le compare) xs -> NoDup p ->
  (forall x, x ∈ p -> x ∉ xs) ->
  exists l' xs',
    ofold (fun l x =>
              let! l := Insert compare l x in
              let! found := IsInList l x in
              assert! found;
              Ok l) l p = Ok l' /\
    list_rep l' xs' /\ StronglySorted (cmp_le compare) xs' /\ xs' ≡ₚ p ++ xs.
Proof.
  intros Hc. revert l xs. induction p as [|x p IH]; intros l xs Hr Hs Hnd Hdis.
  - exists l, xs. done.
  - apply NoDup_cons in Hnd as [Hx Hnd]. cbn [ofold].
    destruct (v_append _ _ _ (sorted_virtual_ok compare Hc) l xs x Hr Hs)
      as (l1 & xs1 & -> & Hr1 & Hs1 & Hp1); [set_solver |].
    cbn [obind]. rewrite (rep_IsInList l1 xs1 x Hr1), bool_decide_true by (rewrite Hp1; set_solver).
    cbn [obind assert_].
    destruct (IH l1 xs1 Hr1 Hs1 Hnd) as (l' & xs' & E & H1 & H2 & H3).
    { intros y Hy. rewrite Hp1. set_solver. }
    exists l', xs'. split_and!; [done | done | done |]. rewrite H3, Hp1. simpl.
    by rewrite Permutation_middle.
Qed.

Lemma drain_all (p : list T) l xs q : list_rep l xs -> NoDup xs -> length p = length xs ->
  exists l',
    ofold (fun '(q, l) _ =>
              let! '(x, l) := RemoveFront l in
              let! found := IsInList l x in
              assert! (negb found);
              Ok (q ++ [x], l)) (q, l) p = Ok (q ++ xs, l') /\ list_rep l' [].
Proof.
  revert l xs q. induction p as [|y p IH]; intros l [|x xs] q Hr Hnd [=].
  - exists l. by rewrite app_nil_r.
  - cbn [ofold]. pose proof (rep_RemoveFront l _ Hr) as H.
    destruct (RemoveFront l) as [[x1 l1]|]; [| done]. destruct H as [H1 H2]. cbn [fst snd] in H1, H2.
    subst x1. apply NoDup_cons in Hnd as [Hx Hnd].
    cbn [obind]. rewrite (rep_IsInList l1 xs x H2), bool_decide_false by done. cbn [negb assert_ obind].
    destruct (IH l1 xs (q ++ [x])) as (l' & -> & Hr'); [done | done | done |].
    exists l'. by rewrite <- app_assoc.
Qed.

Lemma order_loop compare (q : list T) n : StronglySorted (cmp_le compare) q ->
  Z.of_nat (length q) = n ->
  ofold (fun (_ : unit) i =>
              let! x := arr_get q i in
              let! y := arr_get q (i + 1) in
              assert! (compare x y <=? 0);
              Ok tt) tt (seqZ 0 (n - 1)) = Ok tt.
Proof.
  intros Hs Hn. destruct (Z.le_gt_cases n 0) as [Hle|Hgt]; [by rewrite seqZ_nil by lia |].
  destruct (ofold_seqZ (fun _ (_ : unit) => True) (fun _ i =>
              let! x := arr_get q i in
              let! y := arr_get q (i + 1) in
              assert! (compare x y <=? 0);
              Ok tt) 0 (n - 1) tt) as ([] & E & _); [lia | done | | done].
  intros i _ Hi _. exists tt. split; [| done].
  destruct (arr_get_in_range q i) as (x & -> & Hx); [lia |].
  destruct (arr_get_in_range q (i + 1)) as (y & -> & Hy); [lia |]. cbn [obind].
  assert (compare x y <= 0) as Hle; [| by rewrite (proj2 (Z.leb_le _ _))].
  replace (Z.to_nat (i + 1)) with (S (Z.to_nat i)) in Hy by lia.
  clear -Hs Hx Hy. revert Hx Hy. generalize (Z.to_nat i) as k. clear i.
  induction Hs as [|z q Hs IH Hz]; intros [|k] Hx Hy; simpl in *; try done.
  - injection Hx as ->. apply (Forall_elem _ _ y Hz). by eapply list_elem_of_lookup_2.
  - by apply (IH k).
Qed.

(** ** Properties *)

(** C3.  Every operation of [List], [SortedList] and [ListIterator] refines
    its specification on a well-formed list: on the same inputs it fails
    the same ASSERT, or returns a well-formed list with the specified
    contents, and no NULL or dangling pointer is followed. [Apply] meets
    the items in order, each once. [SanityCheck] passes, but not with a
    wrong number of items; that of a sorted list passes exactly when the
    items are in order. *)
Theorem list_refines_spec compare l xs x :
  list_rep l xs ->
  list_rep new_List [] /\
  IsEmpty l = bool_decide (xs = []) /\
  (forall S (func : T -> S -> S) s, Apply l func s = Ok (ListSpec.Apply xs func s)) /\
  (forall n, SanityCheck (set_num l n) = assert_ (n =? Z.of_nat (length xs))) /\
  Sorted_SanityCheck compare l = assert_ (ListSpec.ordered compare xs) /\
  IsInList l x = Ok (ListSpec.IsInList xs x) /\
  NumInList l = Z.of_nat (length xs) /\
  Front l = ListSpec.Front xs /\
  orel list_rep (Append l x) (ListSpec.Append xs x) /\
  orel list_rep (Prepend l x) (ListSpec.Prepend xs x) /\
  orel (fun r s => r.1 = s.1 /\ list_rep r.2 s.2) (RemoveFront l) (ListSpec.RemoveFront xs) /\
  orel list_rep (Remove l x) (ListSpec.Remove xs x) /\
  orel list_rep (Insert compare l x) (ListSpec.Insert compare xs x) /\
  iterate (length xs) l (new_ListIterator l) = Ok xs.
Proof.
  intros Hr. split_and!.
  - apply rep_new_List.
  - by apply rep_IsEmpty.
  - intros. by apply rep_Apply.
  - intros. by apply rep_SanityCheck_count.
  - by apply rep_Sorted_SanityCheck_ordered.
  - by apply rep_IsInList.
  - by destruct Hr as (ps & _ & _ & _ & Hn & _).
  - destruct Hr as (ps & H & _). unfold Front. destruct ps, xs; try done.
    + cbn [lseg] in H. by rewrite H.
    + destruct H as (-> & nx & Hp & _). cbn [deref]. by rewrite Hp.
  - by apply rep_Append.
  - by apply rep_Prepend.
  - by apply rep_RemoveFront.
  - by apply rep_Remove.
  - by apply rep_Insert.
  - by apply rep_iterate.
Qed.

(** [SortedList::Insert] of a new item into a sorted list returns,
    and the result is sorted and holds exactly the old items and the new
    one. *)
Theorem sorted_list_Insert compare l xs x :
  compare_order compare -> list_rep l xs -> StronglySorted (cmp_le compare) xs -> x ∉ xs ->
  exists l' xs', Insert compare l x = Ok l' /\ list_rep l' xs' /\
    StronglySorted (cmp_le compare) xs' /\ xs' ≡ₚ x :: xs /\
    Sorted_SanityCheck compare l' = Ok tt.
Proof.
  intros Hc Hr Hs Hx.
  destruct (v_append _ _ _ (sorted_virtual_ok compare Hc) l xs x Hr Hs Hx)
    as (l' & xs' & ? & ? & ? & ?).
  exists l', xs'. split_and!; try done. by eapply rep_Sorted_SanityCheck.
Qed.

(** [List::SelfTest] and [SortedList::SelfTest] on an empty list pass
    every ASSERT for any array of distinct items, and leave the list
    empty. *)
Theorem list_SelfTests_pass compare p :
  compare_order compare -> NoDup p ->
  (exists l, SelfTest Append SanityCheck new_List p = Ok l /\ list_rep l []) /\
  (exists l, Sorted_SelfTest compare new_List p = Ok l /\ list_rep l []).
Proof.
  intros Hc Hnd. split; [by apply (SelfTest_ok _ _ _ p base_virtual_ok) |].
  unfold Sorted_SelfTest.
  destruct (SelfTest_ok _ _ _ p (sorted_virtual_ok compare Hc) Hnd) as (l & -> & Hr). cbn [obind].
  destruct (insert_all compare p l [] Hc Hr) as (l1 & xs & -> & Hr1 & Hs & Hp);
    [constructor | done | set_solver |]. cbn [obind]. rewrite app_nil_r in Hp.
  rewrite (rep_Sorted_SanityCheck compare l1 xs Hr1 Hs). cbn [obind].
  destruct (drain_all p l1 xs [] Hr1) as (l2 & -> & Hr2); [by rewrite Hp | by rewrite Hp |].
  cbn [obind app]. rewrite (rep_IsEmpty l2 [] Hr2), bool_decide_true by done. cbn [assert_ obind].
  rewrite (order_loop compare xs (Z.of_nat (length p)) Hs) by (by rewrite Hp). cbn [obind].
  rewrite (rep_Sorted_SanityCheck compare l2 [] Hr2) by constructor. cbn [obind]. eauto.
Qed.

End LinkedList.
End LinkedList.

(** ** Witnesses: the items of libtest.cc *)

Module LibTest.

Definition IntCompare (x y : Z) : Z := if x <? y then -1 else if x =? y then 0 else 1.

Definition listTestVector : list Z := [9; 5; 7].

Lemma IntCompare_order : LinkedList.compare_order IntCompare.
Proof.
  split; unfold IntCompare; intros x y.
  - destruct (Z.ltb_spec x y), (Z.eqb_spec x y), (Z.ltb_spec y x), (Z.eqb_spec y x); lia.
  - intros z. destruct (Z.ltb_spec x y), (Z.eqb_spec x y), (Z.ltb_spec y z), (Z.eqb_spec y z),
      (Z.ltb_spec x z), (Z.eqb_spec x z); lia.
Qed.

Lemma listTestVector_NoDup : NoDup listTestVector.
Proof. apply (bool_decide_unpack _). by vm_compute. Qed.

(** A one-item list, built by [Append]. *)
Definition one_list : LinkedList.List (T := Z) :=
  LinkedList.mkList (Some 1%positive) (Some 1%positive) 1
    {[1%positive := LinkedList.mkElem None 5]} 2.

Lemma one_list_rep : LinkedList.Append LinkedList.new_List 5 = Ok one_list /\
  LinkedList.list_rep one_list [5].
Proof.
  split; [by vm_compute |].
  pose proof (LinkedList.rep_Append LinkedList.new_List [] 5 LinkedList.rep_new_List) as H.
  replace (LinkedList.Append LinkedList.new_List 5) with (Ok one_list) in H; [exact H |].
  by vm_compute.
Qed.

End LibTest.

Lemma list_refines_spec_witness :
  LinkedList.list_rep LibTest.one_list [5] /\
  orel LinkedList.list_rep (LinkedList.Insert LibTest.IntCompare LibTest.one_list 3)
    (ListSpec.Insert LibTest.IntCompare [5] 3).
Proof.
  split; [exact (proj2 LibTest.one_list_rep) |].
  by destruct (LinkedList.list_refines_spec LibTest.IntCompare LibTest.one_list [5] 3
    (proj2 LibTest.one_list_rep)) as (_ & _ & _ & _ & _ & _ & _ & _ & _ & _ & _ & _ & H & _).
Defined.

Lemma sorted_list_Insert_witness :
  3 ∉ [5] /\
  exists l' xs', LinkedList.Insert LibTest.IntCompare LibTest.one_list 3 = Ok l' /\
    LinkedList.list_rep l' xs' /\
    StronglySorted (LinkedList.cmp_le LibTest.IntCompare) xs' /\ xs' ≡ₚ [3; 5] /\
    LinkedList.Sorted_SanityCheck LibTest.IntCompare l' = Ok tt.
Proof.
  assert (3 ∉ [5]) as H by (apply (bool_decide_unpack _); vm_compute; exact I).
  split; [exact H |].
  apply (LinkedList.sorted_list_Insert LibTest.IntCompare LibTest.one_list [5] 3).
  - exact LibTest.IntCompare_order.
  - exact (proj2 LibTest.one_list_rep).
  - repeat constructor.
  - exact H.
Defined.

Lemma list_SelfTests_pass_witness :
  NoDup LibTest.listTestVector /\
  (exists l, LinkedList.SelfTest LinkedList.Append LinkedList.SanityCheck LinkedList.new_List
               LibTest.listTestVector = Ok l /\ LinkedList.list_rep l []) /\
  (exists l, LinkedList.Sorted_SelfTest LibTest.IntCompare LinkedList.new_List
               LibTest.listTestVector = Ok l /\ LinkedList.list_rep l []).
Proof.
  split; [exact LibTest.listTestVector_NoDup |].
  apply LinkedList.list_SelfTests_pass;
    [exact LibTest.IntCompare_order | exact LibTest.listTestVector_NoDup].
Defined.
