(* ===== verification/HashTable.v ===== *)
(** * lib/hash.{h,cc}: HashTable, HashIterator

    A table is an array of buckets.  The buckets are the abstract lists of
    [ListSpec]: LinkedList.v shows that the linked lists of list.cc refine
    them.  [hash_rep] relates a table to the finite map from keys to items
    it stands for. *)

From S2P Require Import Prelude LinkedList.

Module HashTable.
Section HashTable.
Context {Key T : Type} `{Countable Key} `{EqDecision T}.
Variable getKey : T -> Key.      (* retrieve the key from an item *)
Variable hash : Key -> Z.        (* the hash function, to [unsigned] *)

Definition InitialBuckets : Z := 4.
Definition ResizeRatio : Z := 3.
Definition IncreaseSizeBy : Z := 4.

Record HashTable := mkHash {
  buckets : list (list T);
  numBuckets : Z;
  numItems : Z
}.

(** ** Operations *)

(** [InitBuckets(sz)]; the size is an [int]. *)
Definition InitBuckets (h : HashTable) (sz : Z) : outcome HashTable :=
  if (0 <=? sz) && (sz <? 2 ^ 31)
  then Ok (mkHash (replicate (Z.to_nat sz) []) sz (numItems h))
  else Trap Undefined.

Definition new_HashTable : outcome HashTable :=
  InitBuckets (mkHash [] 0 0) InitialBuckets.

Definition IsEmpty (h : HashTable) : bool := numItems h =? 0.

(** [unsigned % int]: the divisor is converted to [unsigned]. *)
Definition HashValue (h : HashTable) (key : Key) : outcome Z :=
  if u32 (numBuckets h) =? 0 then Trap Undefined
  else
    let result := s32 (u32 (hash key) mod u32 (numBuckets h)) in
    assert! (0 <=? result) && (result <? numBuckets h);
    Ok result.

(** The loop of [FindInBucket] over the items of a bucket. *)
Fixpoint find_item (key : Key) (items : list T) : option T :=
  match items with
  | [] => None
  | x :: items' => if decide (key = getKey x) then Some x else find_item key items'
  end.

Definition FindInBucket (h : HashTable) (bucket : Z) (key : Key) : outcome (option T) :=
  let! l := arr_get (buckets h) bucket in
  Ok (find_item key l).

Definition Find (h : HashTable) (key : Key) : outcome (option T) :=
  let! bucket := HashValue h key in
  FindInBucket h bucket key.

Definition IsInTable (h : HashTable) (key : Key) : outcome bool :=
  let! r := Find h key in Ok (bool_decide (is_Some r)).

(** [buckets[HashValue(getKey(item))]->Append(item)] *)
Definition bucket_Append (h : HashTable) (item : T) : outcome HashTable :=
  let! i := HashValue h (getKey item) in
  let! l := arr_get (buckets h) i in
  let! l := ListSpec.Append l item in
  let! bs := arr_set (buckets h) i l in
  Ok (mkHash bs (numBuckets h) (numItems h)).

(** The body of the first [for] of [SanityCheck]. *)
Definition check_bucket (h : HashTable) (numFound i : Z) : outcome Z :=
  let! l := arr_get (buckets h) i in
  let! _ := ofold (fun (_ : unit) x =>
              let! v := HashValue h (getKey x) in
              assert! (i =? v); Ok tt) tt l in
  Ok (numFound + Z.of_nat (length l)).

Definition SanityCheck (h : HashTable) : outcome unit :=
  let! numFound := ofold (check_bucket h) 0 (seqZ 0 (numBuckets h)) in
  assert! (numItems h =? numFound); Ok tt.

(** The [while] loop of [ReHash]: every item of an old bucket moves. *)
Fixpoint rehash_bucket (h : HashTable) (old : list T) : outcome HashTable :=
  match old with
  | [] => Ok h
  | item :: old' => let! h := bucket_Append h item in rehash_bucket h old'
  end.

Definition ReHash (h : HashTable) : outcome HashTable :=
  let oldTable := buckets h in
  let oldSize := numBuckets h in
  let! _ := SanityCheck h in
  let! h := InitBuckets h (numBuckets h * IncreaseSizeBy) in
  let! h := ofold (fun h i => let! old := arr_get oldTable i in rehash_bucket h old)
              h (seqZ 0 oldSize) in
  let! _ := SanityCheck h in
  Ok h.

Definition Insert (h : HashTable) (item : T) : outcome HashTable :=
  let key := getKey item in
  let! found := IsInTable h key in
  assert! (negb found);
  let! h := (if numItems h `quot` numBuckets h >=? ResizeRatio then ReHash h else Ok h) in
  let! h := bucket_Append h item in
  let h := mkHash (buckets h) (numBuckets h) (numItems h + 1) in
  let! found := IsInTable h key in
  assert! found;
  Ok h.

Definition Remove (h : HashTable) (key : Key) : outcome (T * HashTable) :=
  let! bucket := HashValue h key in
  let! found := FindInBucket h bucket key in
  match found with
  | None => Trap AssertFail
  | Some item =>
      let! l := arr_get (buckets h) bucket in
      let! l := ListSpec.Remove l item in
      let! bs := arr_set (buckets h) bucket l in
      let h := mkHash bs (numBuckets h) (numItems h - 1) in
      let! found := IsInTable h key in
      assert! (negb found);
      Ok (item, h)
  end.

(** [Apply]: [func] acts on a state of the caller. *)
Definition Apply {S} (h : HashTable) (func : T -> S -> S) (s : S) : outcome S :=
  ofold (fun s bucket =>
           let! l := arr_get (buckets h) bucket in
           Ok (fold_left (fun s x => func x s) l s)) s (seqZ 0 (numBuckets h)).

Definition FindNextFullBucket (h : HashTable) (bucket : Z) : outcome Z :=
  let! r := oloop (fun (_ : unit) b =>
              let! l := arr_get (buckets h) b in
              match l with
              | [] => Ok (Next tt)
              | _ => Ok (Break b)
              end) tt (seqZ bucket (numBuckets h - bucket)) in
  match r with
  | Break b => Ok b
  | Next _ => Ok (Z.max bucket (numBuckets h))
  end.

(** ** HashIterator

    [bucketIter] is NULL or a list iterator: the items still ahead of it. *)

Record HashIterator := mkHashIter {
  bucket : Z;
  bucketIter : option (list T)
}.

(** [bucketIter = new ListIterator(table->buckets[bucket])] if the bucket
    is in the table. *)
Definition enter_bucket (h : HashTable) (b : Z) : outcome HashIterator :=
  if b <? numBuckets h
  then let! l := arr_get (buckets h) b in Ok (mkHashIter b (Some l))
  else Ok (mkHashIter b None).

Definition new_HashIterator (h : HashTable) : outcome HashIterator :=
  let! b := FindNextFullBucket h 0 in enter_bucket h b.

Definition IsDone (h : HashTable) (it : HashIterator) : bool := bucket it =? numBuckets h.

Definition Item (h : HashTable) (it : HashIterator) : outcome T :=
  assert! (negb (IsDone h it));
  match bucketIter it with
  | Some (x :: _) => Ok x
  | Some [] => Trap AssertFail
  | None => Trap Undefined
  end.

Definition Next (h : HashTable) (it : HashIterator) : outcome HashIterator :=
  match bucketIter it with
  | Some [_] =>
      let! b := FindNextFullBucket h (bucket it + 1) in enter_bucket h b
  | Some (_ :: l) => Ok (mkHashIter (bucket it) (Some l))
  | _ => Trap Undefined
  end.

(** ** The self test *)

Definition SelfTest (h : HashTable) (p : list T) : outcome HashTable :=
  let! iterator := new_HashIterator h in
  let! _ := SanityCheck h in
  assert! (IsEmpty h);
  assert! (IsDone h iterator);
  let! h := ofold (fun h x =>
              let! h := Insert h x in
              let! found := IsInTable h (getKey x) in
              assert! found;
              assert! (negb (IsEmpty h));
              Ok h) h p in
  let! h := ofold (fun h x =>
              let! '(y, h) := Remove h (getKey x) in
              assert! (bool_decide (y = x));
              Ok h) h p in
  assert! (IsEmpty h);
  let! _ := SanityCheck h in
  Ok h.

(** ** Representation *)

(** The bucket a key belongs to in a table of [n] buckets. *)
Definition home (n : Z) (key : Key) : Z := u32 (hash key) mod n.

(** Every item is in the bucket of its key, no two items have the same
    key, and the sizes are right. *)
Record hash_wf (h : HashTable) : Prop := {
  wf_size : InitialBuckets <= numBuckets h < 2 ^ 31;
  wf_length : Z.of_nat (length (buckets h)) = numBuckets h;
  wf_home : forall i l x, buckets h !! i = Some l -> x ∈ l ->
    home (numBuckets h) (getKey x) = Z.of_nat i;
  wf_keys : NoDup (getKey <$> concat (buckets h))
}.

(** The finite map the table stands for. *)
Definition hash_rep (h : HashTable) (m : gmap Key T) : Prop :=
  hash_wf h /\ numItems h = Z.of_nat (length (concat (buckets h))) /\
  forall k x, m !! k = Some x <-> x ∈ concat (buckets h) /\ getKey x = k.

Ltac wf_cbn := cbn [buckets numBuckets numItems obind assert_ negb fst snd].

(** ** Buckets *)

Lemma concat_split (bs : list (list T)) i l l' : bs !! i = Some l ->
  exists a b, concat bs = a ++ l ++ b /\ concat (<[i := l']> bs) = a ++ l' ++ b.
Proof.
  intros Hi. exists (concat (take i bs)), (concat (drop (S i) bs)). split.
  - rewrite <- (take_drop_middle bs i l Hi) at 1. by rewrite concat_app.
  - rewrite insert_take_drop by (by apply lookup_lt_Some in Hi). by rewrite concat_app.
Qed.

Lemma elem_of_concat (bs : list (list T)) x :
  x ∈ concat bs <-> exists i l, bs !! i = Some l /\ x ∈ l.
Proof.
  rewrite list_elem_of_In, in_concat. split.
  - intros (l & Hl%list_elem_of_In & Hx%list_elem_of_In).
    apply list_elem_of_lookup in Hl as [i Hi]. eauto.
  - intros (i & l & Hi & Hx). exists l. rewrite <- !list_elem_of_In.
    split; [by eapply list_elem_of_lookup_2 | done].
Qed.

Lemma HashValue_ok h key : hash_wf h -> HashValue h key = Ok (home (numBuckets h) key).
Proof.
  intros [Hs _ _ _]. change InitialBuckets with 4 in Hs. unfold HashValue.
  rewrite (u32_id (numBuckets h)) by (unfold is_u32; lia).
  pose proof (Z.mod_pos_bound (u32 (hash key)) (numBuckets h)). fold (home (numBuckets h) key) in *.
  destruct (Z.eqb_spec (numBuckets h) 0); [lia |].
  rewrite s32_id by (unfold is_s32; lia).
  by rewrite (proj2 (Z.leb_le _ _)), (proj2 (Z.ltb_lt _ _)) by lia.
Qed.

(** The bucket of a key exists. *)
Lemma home_bucket h key : hash_wf h ->
  exists i l, home (numBuckets h) key = Z.of_nat i /\ buckets h !! i = Some l /\
    arr_get (buckets h) (home (numBuckets h) key) = Ok l.
Proof.
  intros [Hs Hl _ _]. change InitialBuckets with 4 in Hs.
  pose proof (Z.mod_pos_bound (u32 (hash key)) (numBuckets h)). fold (home (numBuckets h) key) in *.
  destruct (arr_get_in_range (buckets h) (home (numBuckets h) key)) as (l & E & Hi); [lia |].
  exists (Z.to_nat (home (numBuckets h) key)), l. rewrite Z2Nat.id by lia. done.
Qed.

Lemma keys_inj h x y : hash_wf h -> x ∈ concat (buckets h) -> y ∈ concat (buckets h) ->
  getKey x = getKey y -> x = y.
Proof.
  intros Hw Hx Hy He. pose proof (wf_keys _ Hw) as Hnd. revert Hx Hy Hnd.
  generalize (concat (buckets h)) as l. clear Hw h.
  induction l as [|z l IH]; intros Hx Hy Hnd; [by apply not_elem_of_nil in Hx |].
  cbn in Hnd. apply NoDup_cons in Hnd as [Hz Hnd].
  apply elem_of_cons in Hx as [->|Hx], Hy as [->|Hy]; auto.
  - exfalso. apply Hz. rewrite He. by apply list_elem_of_fmap_2.
  - exfalso. apply Hz. rewrite <- He. by apply list_elem_of_fmap_2.
Qed.

Lemma items_NoDup h : hash_wf h -> NoDup (concat (buckets h)).
Proof. intros Hw. eapply NoDup_fmap_1, wf_keys, Hw. Qed.

Lemma bucket_NoDup h i l : hash_wf h -> buckets h !! i = Some l -> NoDup l.
Proof.
  intros Hw Hi. pose proof (items_NoDup h Hw) as Hnd.
  destruct (concat_split _ i l l Hi) as (a & b & E & _). rewrite E in Hnd.
  apply NoDup_app in Hnd as (_ & _ & Hnd). by apply NoDup_app in Hnd as (? & _).
Qed.

Lemma find_item_None key l : find_item key l = None <-> forall x, x ∈ l -> getKey x <> key.
Proof.
  induction l as [|y l IH]; simpl; [set_solver |].
  destruct (decide (key = getKey y)) as [->|Hne].
  - split; [done |]. intros Hf. exfalso. apply (Hf y); [set_solver | done].
  - rewrite IH. set_solver.
Qed.

Lemma find_item_Some key l x : find_item key l = Some x -> x ∈ l /\ getKey x = key.
Proof.
  induction l as [|y l IH]; simpl; [done |].
  destruct (decide (key = getKey y)) as [->|Hne]; [| set_solver].
  intros [= ->]. set_solver.
Qed.

(** [Find] at the level of the stored items. *)
Lemma Find_ok h key : hash_wf h ->
  exists r, Find h key = Ok r /\
    match r with
    | Some x => x ∈ concat (buckets h) /\ getKey x = key
    | None => forall x, x ∈ concat (buckets h) -> getKey x <> key
    end.
Proof.
  intros Hw. unfold Find, FindInBucket. rewrite HashValue_ok by done.
  destruct (home_bucket h key Hw) as (i & l & Eh & Hi & E). cbn [obind]. rewrite E. cbn [obind].
  exists (find_item key l). split; [done |].
  destruct (find_item key l) as [x|] eqn:Ef.
  - apply find_item_Some in Ef as [Hx Hk]. split; [| done]. apply elem_of_concat. eauto.
  - intros x (j & l' & Hj & Hx)%elem_of_concat Hk. rewrite find_item_None in Ef.
    pose proof (wf_home _ Hw _ _ _ Hj Hx) as Hh. rewrite Hk, Eh in Hh.
    assert (i = j) as <- by lia. simplify_eq. by apply (Ef x).
Qed.

Lemma IsInTable_ok h key : hash_wf h ->
  IsInTable h key = Ok (bool_decide (key ∈ getKey <$> concat (buckets h))).
Proof.
  intros Hw. unfold IsInTable. destruct (Find_ok h key Hw) as (r & -> & Hr). cbn [obind]. f_equal.
  apply bool_decide_ext. destruct r as [x|].
  - destruct Hr as [Hx <-]. split; [| done]. intros _. by apply list_elem_of_fmap_2.
  - split; [by intros [? ?] |]. intros (x & -> & Hx)%list_elem_of_fmap. by destruct (Hr x Hx).
Qed.

(** Replacing a bucket by one whose items have the same home. *)
Lemma wf_replace h i l l' n : hash_wf h -> buckets h !! i = Some l ->
  (forall x, x ∈ l' -> home (numBuckets h) (getKey x) = Z.of_nat i) ->
  NoDup (getKey <$> concat (<[i := l']> (buckets h))) ->
  hash_wf (mkHash (<[i := l']> (buckets h)) (numBuckets h) n).
Proof.
  intros Hw Hi Hhome Hk. split; wf_cbn.
  - apply Hw.
  - rewrite length_insert. apply Hw.
  - intros j lj x Hj Hx. destruct (decide (i = j)) as [<-|Hne].
    + rewrite list_lookup_insert_eq in Hj by (by apply lookup_lt_Some in Hi).
      injection Hj as <-. auto.
    + rewrite list_lookup_insert_ne in Hj by done. by apply (wf_home _ Hw j lj).
  - done.
Qed.

(** Appending an item with a new key. *)
Lemma bucket_Append_ok h x : hash_wf h -> getKey x ∉ getKey <$> concat (buckets h) ->
  exists bs, bucket_Append h x = Ok (mkHash bs (numBuckets h) (numItems h)) /\
    hash_wf (mkHash bs (numBuckets h) (numItems h)) /\ concat bs ≡ₚ x :: concat (buckets h).
Proof.
  intros Hw Hx. unfold bucket_Append. rewrite HashValue_ok by done.
  destruct (home_bucket h (getKey x) Hw) as (i & l & Eh & Hi & E). cbn [obind]. rewrite E. cbn [obind].
  assert (x ∉ l) as Hxl.
  { intros Hin. apply Hx, list_elem_of_fmap_2, elem_of_concat. eauto. }
  unfold ListSpec.Append. rewrite decide_False by done. cbn [obind].
  pose proof (lookup_lt_Some _ _ _ Hi).
  rewrite arr_set_Ok by lia. cbn [obind]. rewrite Eh, Nat2Z.id.
  destruct (concat_split _ i l (l ++ [x]) Hi) as (a & b & E1 & E2).
  assert (concat (<[i:=l ++ [x]]> (buckets h)) ≡ₚ x :: concat (buckets h)) as Hp.
  { rewrite E1, E2. rewrite <- app_assoc. simpl. by rewrite !app_assoc, <- Permutation_middle. }
  eexists. split; [done |]. split; [| exact Hp]. apply (wf_replace h i l); [done | done | |].
  - intros y [Hy|Hy]%elem_of_app; [by apply (wf_home _ Hw i l) |].
    apply list_elem_of_singleton in Hy as ->. done.
  - rewrite Hp. apply NoDup_cons. split; [done | apply Hw].
Qed.

Lemma SanityCheck_ok h : hash_wf h -> numItems h = Z.of_nat (length (concat (buckets h))) ->
  SanityCheck h = Ok tt.
Proof.
  intros Hw Hn. unfold SanityCheck. destruct (wf_size _ Hw) as [Hs _]. change InitialBuckets with 4 in Hs.
  destruct (ofold_seqZ (fun i n => n = Z.of_nat (length (concat (take (Z.to_nat i) (buckets h)))))
    (check_bucket h) 0 (numBuckets h) 0) as (n & -> & Hr); [lia | done | |].
  - intros i n Hi ->. unfold check_bucket.
    destruct (arr_get_in_range (buckets h) i) as (l & -> & Hl); [rewrite (wf_length _ Hw); lia |].
    cbn [obind].
    assert (forall xs, (forall x, x ∈ xs -> x ∈ l) ->
      ofold (fun (_ : unit) x => let! v := HashValue h (getKey x) in
                assert! (i =? v); Ok tt) tt xs = Ok tt) as ->.
    { induction xs as [|x xs IH]; intros Hin; [done |]. cbn [ofold].
      rewrite HashValue_ok by done. cbn [obind].
      rewrite (wf_home _ Hw _ _ x Hl) by (apply Hin; set_solver).
      rewrite Z2Nat.id, Z.eqb_refl by lia. cbn [obind assert_]. apply IH. set_solver. }
    2: done.
    cbn [obind]. eexists. split; [done |]. replace (Z.to_nat (i + 1)) with (S (Z.to_nat i)) by lia.
    rewrite (take_S_r _ _ _ Hl), concat_app, length_app. simpl. rewrite app_nil_r. lia.
  - cbn [obind]. rewrite Hr, Z.add_0_l, <- (wf_length _ Hw), Nat2Z.id, take_ge, Hn by lia.
    by rewrite Z.eqb_refl.
Qed.

Lemma concat_replicate_nil n : concat (replicate n ([] : list T)) = [].
Proof. induction n; done. Qed.

Lemma wf_empty n k : InitialBuckets <= n < 2 ^ 31 ->
  hash_wf (mkHash (replicate (Z.to_nat n) []) n k).
Proof.
  intros Hn. change InitialBuckets with 4 in Hn. split; wf_cbn.
  - done.
  - rewrite length_replicate. lia.
  - intros i l x [-> _]%lookup_replicate. by intros ?%not_elem_of_nil.
  - rewrite concat_replicate_nil. apply NoDup_nil_2.
Qed.

Lemma InitBuckets_ok h n : 0 <= n < 2 ^ 31 ->
  InitBuckets h n = Ok (mkHash (replicate (Z.to_nat n) []) n (numItems h)).
Proof. intros. unfold InitBuckets. by rewrite (proj2 (Z.leb_le _ _)), (proj2 (Z.ltb_lt _ _)) by lia. Qed.

(** ** ReHash *)

(** Moving the items of an old bucket. *)
Lemma rehash_bucket_ok old h : hash_wf h ->
  NoDup (getKey <$> old ++ concat (buckets h)) ->
  exists bs, rehash_bucket h old = Ok (mkHash bs (numBuckets h) (numItems h)) /\
    hash_wf (mkHash bs (numBuckets h) (numItems h)) /\ concat bs ≡ₚ old ++ concat (buckets h).
Proof.
  revert h. induction old as [|x old IH]; intros h Hw Hnd.
  - exists (buckets h). by destruct h.
  - cbn in Hnd. apply NoDup_cons in Hnd as [Hx Hnd]. cbn [rehash_bucket].
    rewrite fmap_app in Hx.
    destruct (bucket_Append_ok h x Hw) as (bs & -> & Hw1 & Hp); [set_solver |]. cbn [obind].
    destruct (IH _ Hw1) as (bs' & E & Hw2 & Hp2).
    + cbn [buckets]. rewrite fmap_app, Hp, fmap_cons, <- Permutation_middle.
      apply NoDup_cons. by rewrite <- fmap_app in *.
    + exists bs'. split; [exact E |]. split; [exact Hw2 |]. cbn [buckets] in Hp2.
      rewrite Hp2, Hp. by rewrite <- Permutation_middle.
Qed.

Lemma rehash_all old h0 h : hash_wf h0 -> NoDup (getKey <$> concat old) ->
  concat (buckets h0) = [] -> numItems h0 = numItems h ->
  exists bs,
    ofold (fun h i => let! l := arr_get old i in rehash_bucket h l)
      h0 (seqZ 0 (Z.of_nat (length old))) = Ok (mkHash bs (numBuckets h0) (numItems h)) /\
    hash_wf (mkHash bs (numBuckets h0) (numItems h)) /\ concat bs ≡ₚ concat old.
Proof.
  intros Hw Hnd Hempty Hn.
  destruct (ofold_seqZ (fun i h' => hash_wf h' /\ numBuckets h' = numBuckets h0 /\
      numItems h' = numItems h /\ concat (buckets h') ≡ₚ concat (take (Z.to_nat i) old))
    (fun h i => let! l := arr_get old i in rehash_bucket h l) 0 (Z.of_nat (length old)) h0)
    as (h' & E & Hw' & Hb & Hn' & Hp); [lia | split_and!; [done | done | done | by rewrite Hempty] | |].
  - intros i h' Hi (Hw' & Hb & Hn' & Hp).
    destruct (arr_get_in_range old i) as (l & -> & Hl); [lia |]. cbn [obind].
    assert (concat (take (Z.to_nat (i + 1)) old) = concat (take (Z.to_nat i) old) ++ l) as Et.
    { replace (Z.to_nat (i + 1)) with (S (Z.to_nat i)) by lia.
      rewrite (take_S_r _ _ _ Hl), concat_app. simpl. by rewrite app_nil_r. }
    destruct (rehash_bucket_ok l h' Hw') as (bs & -> & Hw2 & Hp2).
    + rewrite fmap_app, Hp, <- fmap_app.
      rewrite <- (take_drop (Z.to_nat (i + 1)) old), concat_app, Et in Hnd.
      rewrite fmap_app, fmap_app in Hnd. apply NoDup_app in Hnd as (Hnd & _).
      by rewrite fmap_app, Permutation_app_comm.
    + eexists. split; [done |]. wf_cbn. split_and!; [| done | done |].
      * exact Hw2.
      * rewrite Hp2, Hp, Et. by rewrite Permutation_app_comm.
  - exists (buckets h'). destruct h' as [bs nb ni]. cbn [buckets numBuckets numItems] in *. subst nb ni.
    rewrite E. split_and!; [done | done |]. rewrite Hp. rewrite Z.add_0_l, Nat2Z.id. by rewrite take_ge.
Qed.

Lemma ReHash_ok h : hash_wf h -> numItems h = Z.of_nat (length (concat (buckets h))) ->
  numBuckets h * IncreaseSizeBy < 2 ^ 31 ->
  exists bs, ReHash h = Ok (mkHash bs (numBuckets h * IncreaseSizeBy) (numItems h)) /\
    hash_wf (mkHash bs (numBuckets h * IncreaseSizeBy) (numItems h)) /\
    concat bs ≡ₚ concat (buckets h).
Proof.
  intros Hw Hn Hb. unfold ReHash. rewrite SanityCheck_ok by done. cbn [obind].
  destruct (wf_size _ Hw) as [Hs _]. change InitialBuckets with 4 in Hs.
  change IncreaseSizeBy with 4 in *.
  rewrite InitBuckets_ok by lia. cbn [obind].
  replace (seqZ 0 (numBuckets h)) with (seqZ 0 (Z.of_nat (length (buckets h))))
    by (by rewrite (wf_length _ Hw)).
  destruct (rehash_all (buckets h) (mkHash (replicate (Z.to_nat (numBuckets h * 4)) [])
    (numBuckets h * 4) (numItems h)) h) as (bs & -> & Hw' & Hp).
  - apply wf_empty. change InitialBuckets with 4. lia.
  - apply Hw.
  - apply concat_replicate_nil.
  - done.
  - wf_cbn. exists bs. rewrite SanityCheck_ok; [done | done |]. wf_cbn. by rewrite Hp.
Qed.

(** ** Insert, Remove *)

Lemma Find_rep h m k : hash_rep h m -> Find h k = Ok (m !! k).
Proof.
  intros (Hw & _ & Hm). destruct (Find_ok h k Hw) as (r & -> & Hr). f_equal. symmetry.
  destruct r as [x|]; [by apply Hm |].
  apply eq_None_not_Some. intros [x Hx]. apply Hm in Hx as [Hx Hk]. by destruct (Hr x Hx).
Qed.

Lemma rep_keys h m k : hash_rep h m -> k ∈ getKey <$> concat (buckets h) <-> is_Some (m !! k).
Proof.
  intros (_ & _ & Hm). rewrite list_elem_of_fmap. split.
  - intros (x & -> & Hx). exists x. by apply Hm.
  - intros [x Hx]. apply Hm in Hx as [Hx <-]. eauto.
Qed.

Lemma IsInTable_rep h m k : hash_rep h m -> IsInTable h k = Ok (bool_decide (is_Some (m !! k))).
Proof. intros Hr. unfold IsInTable. by rewrite (Find_rep h m k Hr). Qed.

(** The number of buckets [Insert] leaves behind. *)
Definition grown (h : HashTable) : Z :=
  if numItems h `quot` numBuckets h >=? ResizeRatio
  then numBuckets h * IncreaseSizeBy else numBuckets h.

Lemma rep_add h m x bs n : hash_rep h m -> m !! getKey x = None ->
  hash_wf (mkHash bs n (numItems h + 1)) -> concat bs ≡ₚ x :: concat (buckets h) ->
  hash_rep (mkHash bs n (numItems h + 1)) (<[getKey x := x]> m).
Proof.
  intros (Hw & Hn & Hm) Hx Hw' Hp. split_and!; [done | |]; wf_cbn.
  - rewrite Hp, Hn. simpl. lia.
  - intros k y. rewrite Hp, elem_of_cons. destruct (decide (getKey x = k)) as [<-|Hne].
    + rewrite lookup_insert_eq. split; [intros [= ->]; auto |].
      intros [[->|Hy] Hk]; [done |]. rewrite (proj2 (Hm _ y) (conj Hy Hk)) in Hx. done.
    + rewrite lookup_insert_ne, Hm by done. split; [intros [? ?]; auto |].
      intros [[->|?] ?]; done.
Qed.

Lemma Insert_ok h m x : hash_rep h m -> m !! getKey x = None -> grown h < 2 ^ 31 ->
  exists h', Insert h x = Ok h' /\ hash_rep h' (<[getKey x := x]> m) /\ numBuckets h' = grown h.
Proof.
  intros Hr Hx Hb. unfold Insert. rewrite (IsInTable_rep h m _ Hr), Hx.
  rewrite bool_decide_false by (by intros []). wf_cbn.
  assert (exists bs1, (if numItems h `quot` numBuckets h >=? ResizeRatio then ReHash h else Ok h) =
    Ok (mkHash bs1 (grown h) (numItems h)) /\ hash_wf (mkHash bs1 (grown h) (numItems h)) /\
    concat bs1 ≡ₚ concat (buckets h)) as (bs1 & -> & Hw1 & Hp1).
  { unfold grown in *. destruct (numItems h `quot` numBuckets h >=? ResizeRatio).
    - apply ReHash_ok; [apply Hr | apply Hr | done].
    - exists (buckets h). destruct Hr as [Hw _]. by destruct h. }
  wf_cbn. destruct (bucket_Append_ok _ x Hw1) as (bs2 & -> & Hw2 & Hp2).
  { wf_cbn. rewrite Hp1. rewrite (rep_keys h m _ Hr), Hx. by intros []. }
  wf_cbn. cbn [buckets] in Hp2. rewrite Hp1 in Hp2.
  assert (hash_wf (mkHash bs2 (grown h) (numItems h + 1))) as Hw3 by (by destruct Hw2).
  pose proof (rep_add h m x _ _ Hr Hx Hw3 Hp2) as Hr3.
  eexists. rewrite (IsInTable_rep _ _ _ Hr3), lookup_insert_eq, bool_decide_true by eauto.
  wf_cbn. eauto.
Qed.

Lemma rep_delete h m k x bs : hash_rep h m -> m !! k = Some x ->
  concat (buckets h) ≡ₚ x :: concat bs -> hash_wf (mkHash bs (numBuckets h) (numItems h - 1)) ->
  hash_rep (mkHash bs (numBuckets h) (numItems h - 1)) (delete k m).
Proof.
  intros (Hw & Hn & Hm) Hx Hp Hw'. pose proof (wf_keys _ Hw) as Hnd. rewrite Hp in Hnd.
  rewrite fmap_cons in Hnd. apply NoDup_cons in Hnd as [Hxn _].
  apply Hm in Hx as [_ <-].
  split_and!; [done | |]; wf_cbn.
  - rewrite Hn, Hp. simpl. lia.
  - intros k' y. destruct (decide (getKey x = k')) as [<-|Hne].
    + rewrite lookup_delete_eq. split; [done |]. intros [Hy Hk]. exfalso. apply Hxn.
      rewrite <- Hk. by apply list_elem_of_fmap_2.
    + rewrite lookup_delete_ne, Hm, Hp, elem_of_cons by done. naive_solver.
Qed.

Lemma Remove_ok h m k x : hash_rep h m -> m !! k = Some x ->
  exists h', Remove h k = Ok (x, h') /\ hash_rep h' (delete k m) /\
    numBuckets h' = numBuckets h /\ numItems h' = numItems h - 1.
Proof.
  intros Hr Hx. pose proof (Find_rep h m k Hr) as HF. pose proof Hr as (Hw & Hn & Hm).
  unfold Find in HF. unfold Remove. rewrite HashValue_ok in * by done. cbn [obind] in *.
  rewrite HF, Hx. cbn [obind]. unfold FindInBucket in HF.
  destruct (home_bucket h k Hw) as (i & l & Eh & Hi & E). rewrite E in *. cbn [obind] in *.
  injection HF as HF. rewrite Hx in HF. apply find_item_Some in HF as [Hxl Hk].
  unfold ListSpec.Remove. rewrite decide_True by done.
  pose proof (LinkedList.remove_first_perm x l Hxl) as Hp.
  pose proof (bucket_NoDup h i l Hw Hi) as Hndl. rewrite Hp in Hndl.
  apply NoDup_cons in Hndl as [Hxn _]. rewrite decide_False by done. cbn [obind].
  pose proof (lookup_lt_Some _ _ _ Hi).
  rewrite Eh, arr_set_Ok by lia. rewrite Nat2Z.id. cbn [obind].
  destruct (concat_split _ i l (ListSpec.remove_first x l) Hi) as (a & b & E1 & E2).
  assert (concat (buckets h) ≡ₚ x :: concat (<[i:=ListSpec.remove_first x l]> (buckets h))) as Hpc.
  { rewrite E1, E2, Permutation_middle. apply Permutation_app_head.
    change (l ++ b ≡ₚ (x :: ListSpec.remove_first x l) ++ b). by apply Permutation_app_tail. }
  assert (hash_wf (mkHash (<[i:=ListSpec.remove_first x l]> (buckets h)) (numBuckets h) (numItems h - 1)))
    as Hw'.
  { apply (wf_replace h i l); [done | done | |].
    - intros y Hy. apply (wf_home _ Hw i l); [done |]. rewrite Hp. set_solver.
    - pose proof (wf_keys _ Hw) as Hnd. rewrite Hpc, fmap_cons in Hnd. by apply NoDup_cons in Hnd as [_ Hnd]. }
  pose proof (rep_delete h m k x _ Hr Hx Hpc Hw') as Hr'.
  eexists. rewrite (IsInTable_rep _ _ _ Hr'), lookup_delete_eq, bool_decide_false by (by intros []).
  wf_cbn. eauto.
Qed.

(** ** Iterators *)

(** The items [for (; !iter.IsDone(); iter.Next()) iter.Item()] visits. *)
Fixpoint iterate (fuel : nat) (h : HashTable) (it : HashIterator) : outcome (list T) :=
  if IsDone h it then Ok []
  else
    match fuel with
    | O => Trap NoFuel
    | S fuel' =>
        let! x := Item h it in
        let! it := Next h it in
        let! xs := iterate fuel' h it in
        Ok (x :: xs)
    end.

Lemma FindNextFullBucket_ok h b : hash_wf h -> 0 <= b <= numBuckets h ->
  exists b', FindNextFullBucket h b = Ok b' /\ b <= b' <= numBuckets h /\
    concat (drop (Z.to_nat b) (buckets h)) = concat (drop (Z.to_nat b') (buckets h)) /\
    (b' < numBuckets h -> exists x l, buckets h !! Z.to_nat b' = Some (x :: l)).
Proof.
  intros Hw Hb. unfold FindNextFullBucket.
  destruct (oloop_seqZ (fun i (_ : unit) =>
      concat (drop (Z.to_nat b) (buckets h)) = concat (drop (Z.to_nat i) (buckets h)))
    (fun b' => b <= b' < numBuckets h /\
      concat (drop (Z.to_nat b) (buckets h)) = concat (drop (Z.to_nat b') (buckets h)) /\
      exists x l, buckets h !! Z.to_nat b' = Some (x :: l))
    (fun (_ : unit) b => let! l := arr_get (buckets h) b in
       match l with [] => Ok (Prelude.Next tt) | _ => Ok (Break b) end)
    b (numBuckets h - b) tt) as [([] & E & Hd)|(r & E & Hr & Hd & Hx)].
  - lia.
  - done.
  - intros i _ Hi He. destruct (arr_get_in_range (buckets h) i) as (l & -> & Hl);
      [rewrite (wf_length _ Hw); lia |]. cbn [obind].
    pose proof (drop_S _ _ _ Hl) as Hd. destruct l as [|x l].
    + left. exists tt. split; [done |]. rewrite He, Hd.
      replace (Z.to_nat (i + 1)) with (S (Z.to_nat i)) by lia. done.
    + right. exists i. split; [done |]. split; [lia | eauto].
  - rewrite E. exists (numBuckets h). cbn [obind]. rewrite Z.max_r by lia.
    split_and!; [done | lia | lia | | intros; lia]. by replace (b + (numBuckets h - b)) with (numBuckets h) in Hd by lia.
  - rewrite E. exists r. split_and!; [done | lia | lia | done | done].
Qed.

(** The next full bucket at or after [b], as an iterator position. *)
Lemma advance_ok h b : hash_wf h -> 0 <= b <= numBuckets h ->
  exists it, (let! b := FindNextFullBucket h b in enter_bucket h b) = Ok it /\
    ((IsDone h it = true /\ concat (drop (Z.to_nat b) (buckets h)) = []) \/
     (exists b' x l, it = mkHashIter b' (Some (x :: l)) /\ 0 <= b' < numBuckets h /\
        concat (drop (Z.to_nat b) (buckets h)) =
        (x :: l) ++ concat (drop (Z.to_nat (b' + 1)) (buckets h)))).
Proof.
  intros Hw Hb. destruct (FindNextFullBucket_ok h b Hw Hb) as (b' & -> & Hb' & Hd & Hx).
  cbn [obind]. unfold enter_bucket. destruct (Z.ltb_spec b' (numBuckets h)) as [Hlt|Hge].
  - destruct (Hx Hlt) as (x & l & Hl). rewrite (arr_get_lookup _ b' (x :: l)) by (done || lia). cbn [obind].
    eexists. split; [done |]. right. exists b', x, l. split_and!; [done | lia | lia |].
    rewrite Hd, (drop_S _ _ _ Hl). replace (Z.to_nat (b' + 1)) with (S (Z.to_nat b')) by lia. done.
  - eexists. split; [done |]. left. unfold IsDone. cbn [bucket]. split; [apply Z.eqb_eq; lia |].
    rewrite Hd, drop_ge; [done |]. pose proof (wf_length _ Hw). lia.
Qed.

Lemma iterate_from h n b x l : hash_wf h -> 0 <= b < numBuckets h ->
  length ((x :: l) ++ concat (drop (Z.to_nat (b + 1)) (buckets h))) = n ->
  iterate n h (mkHashIter b (Some (x :: l))) =
  Ok ((x :: l) ++ concat (drop (Z.to_nat (b + 1)) (buckets h))).
Proof.
  intros Hw. revert b x l. induction n as [|n IH]; intros b x l Hb Hn; [done |].
  cbn [iterate]. unfold Item, IsDone. cbn [bucket bucketIter].
  rewrite (proj2 (Z.eqb_neq _ _)) by lia. cbn [negb assert_ obind]. unfold Next. cbn [bucketIter].
  destruct l as [|y l].
  - cbn [bucket]. destruct (advance_ok h (b + 1) Hw) as (it & -> & Hit); [lia |]. cbn [obind].
    cbn [app length] in Hn. destruct Hit as [[Hdone Hd]|(b' & x' & l' & -> & Hb' & Hd)];
      rewrite Hd in *; cbn [app].
    + destruct n; cbn [iterate]; rewrite Hdone; done.
    + rewrite IH by (done || congruence). done.
  - cbn [bucket]. cbn [app length] in Hn. cbn [obind].
    rewrite IH by (done || (cbn [app length]; congruence)). done.
Qed.

Lemma iterate_ok h : hash_wf h ->
  exists it, new_HashIterator h = Ok it /\
    iterate (length (concat (buckets h))) h it = Ok (concat (buckets h)).
Proof.
  intros Hw. unfold new_HashIterator. destruct (wf_size _ Hw) as [Hs _].
  change InitialBuckets with 4 in Hs.
  destruct (advance_ok h 0 Hw) as (it & -> & Hit); [lia |]. exists it. split; [done |].
  change (Z.to_nat 0) with O in Hit. rewrite drop_0 in Hit.
  destruct Hit as [[Hdone Hd]|(b & x & l & -> & Hb & Hd)]; rewrite Hd.
  - cbn [length iterate]. by rewrite Hdone.
  - by apply iterate_from.
Qed.

Lemma Apply_ok {S} h (func : T -> S -> S) s : hash_wf h ->
  Apply h func s = Ok (fold_left (fun s x => func x s) (concat (buckets h)) s).
Proof.
  intros Hw. unfold Apply. destruct (wf_size _ Hw) as [Hs _]. change InitialBuckets with 4 in Hs.
  destruct (ofold_seqZ (fun i s' => s' = fold_left (fun s x => func x s)
      (concat (take (Z.to_nat i) (buckets h))) s)
    (fun s bucket => let! l := arr_get (buckets h) bucket in
       Ok (fold_left (fun s x => func x s) l s)) 0 (numBuckets h) s) as (s' & -> & ->);
    [lia | done | |].
  - intros i s' Hi ->. destruct (arr_get_in_range (buckets h) i) as (l & -> & Hl);
      [rewrite (wf_length _ Hw); lia |]. cbn [obind]. eexists. split; [done |].
    replace (Z.to_nat (i + 1)) with (Datatypes.S (Z.to_nat i)) by lia.
    rewrite (take_S_r _ _ _ Hl), concat_app, fold_left_app. simpl. by rewrite app_nil_r.
  - rewrite Z.add_0_l, <- (wf_length _ Hw), Nat2Z.id. by rewrite take_ge.
Qed.

(** ** The self test *)

(** While items are only added, the table grows with them. *)
Definition slack (h : HashTable) : Prop := numBuckets h * 3 <= 4 * Z.max (numItems h) 3.

Lemma slack_grown h : 0 < numBuckets h -> 0 <= numItems h -> slack h ->
  grown h * 3 <= 4 * Z.max (numItems h) 3.
Proof.
  unfold slack, grown. intros Hb Hn Hs. change ResizeRatio with 3. change IncreaseSizeBy with 4.
  rewrite Z.quot_div_nonneg by lia. pose proof (Z.div_mod (numItems h) (numBuckets h)).
  pose proof (Z.mod_pos_bound (numItems h) (numBuckets h)).
  rewrite Z.geb_leb. destruct (Z.leb_spec 3 (numItems h / numBuckets h)); [nia | lia].
Qed.

Lemma rep_numItems h h' m m' x : hash_rep h m -> hash_rep h' m' -> m' = <[getKey x := x]> m ->
  m !! getKey x = None -> numItems h' = numItems h + 1.
Proof.
  intros (Hw & Hn & Hm) (Hw' & Hn' & Hm') -> Hx.
  assert (concat (buckets h') ≡ₚ x :: concat (buckets h)) as Hp; [| rewrite Hn', Hn, Hp; simpl; lia].
  apply NoDup_Permutation; [by apply items_NoDup | |].
  - apply NoDup_cons. split; [| by apply items_NoDup]. intros Hin.
    by rewrite (proj2 (Hm (getKey x) x) (conj Hin eq_refl)) in Hx.
  - intros y. specialize (Hm (getKey y) y). specialize (Hm' (getKey y) y).
    rewrite elem_of_cons. destruct (decide (getKey x = getKey y)) as [He|He].
    + rewrite <- He, lookup_insert_eq in Hm'. rewrite <- He, Hx in Hm. naive_solver.
    + rewrite lookup_insert_ne, Hm in Hm' by done. naive_solver.
Qed.

Lemma selftest_insert p h m : hash_rep h m -> slack h ->
  NoDup (getKey <$> p) -> (forall x, x ∈ p -> m !! getKey x = None) ->
  numItems h + Z.of_nat (length p) <= 2 ^ 30 ->
  exists h' m',
    ofold (fun h x =>
              let! h := Insert h x in
              let! found := IsInTable h (getKey x) in
              assert! found;
              assert! (negb (IsEmpty h));
              Ok h) h p = Ok h' /\ hash_rep h' m' /\
    m' = foldl (fun m x => <[getKey x := x]> m) m p.
Proof.
  revert h m. induction p as [|x p IH]; intros h m Hr Hs Hnd Hdis Hlen; [by eexists _, _ |].
  cbn [fmap list_fmap] in Hnd. apply NoDup_cons in Hnd as [Hx Hnd]. cbn [length] in Hlen.
  pose proof Hr as (Hw & Hn & _). destruct (wf_size _ Hw) as [Hb _].
  change InitialBuckets with 4 in Hb.
  pose proof (slack_grown h ltac:(lia) ltac:(lia) Hs) as Hg.
  destruct (Insert_ok h m x Hr) as (h1 & E & Hr1 & Hb1); [apply Hdis; set_solver | lia |].
  assert (numItems h1 = numItems h + 1) as Hn1.
  { eapply rep_numItems; [done | done | done |]. apply Hdis. set_solver. }
  cbn [ofold]. rewrite E. cbn [obind].
  rewrite (IsInTable_rep _ _ _ Hr1), lookup_insert_eq, bool_decide_true by eauto. cbn [assert_ obind].
  unfold IsEmpty. rewrite (proj2 (Z.eqb_neq _ _)) by lia. cbn [negb assert_ obind].
  apply IH; [done | unfold slack; lia | done | | lia].
  intros y Hy. rewrite lookup_insert_ne; [apply Hdis; set_solver |].
  intros He. apply Hx. rewrite He. by apply list_elem_of_fmap_2.
Qed.

Lemma selftest_remove p h m : hash_rep h m ->
  NoDup (getKey <$> p) -> (forall x, x ∈ p -> m !! getKey x = Some x) ->
  exists h' m',
    ofold (fun h x =>
              let! '(y, h) := Remove h (getKey x) in
              assert! (bool_decide (y = x));
              Ok h) h p = Ok h' /\ hash_rep h' m' /\
    m' = foldl (fun m x => delete (getKey x) m) m p.
Proof.
  revert h m. induction p as [|x p IH]; intros h m Hr Hnd Hin; [by eexists _, _ |].
  cbn [fmap list_fmap] in Hnd. apply NoDup_cons in Hnd as [Hx Hnd].
  destruct (Remove_ok h m (getKey x) x Hr) as (h1 & E & Hr1 & _); [apply Hin; set_solver |].
  cbn [ofold]. rewrite E. cbn [obind]. rewrite bool_decide_true by done. cbn [assert_ obind].
  apply IH; [done | done |]. intros y Hy. rewrite lookup_delete_ne; [apply Hin; set_solver |].
  intros He. apply Hx. rewrite He. by apply list_elem_of_fmap_2.
Qed.

Lemma foldl_insert_lookup (p : list T) (m : gmap Key T) x :
  NoDup (getKey <$> p) -> x ∈ p ->
  foldl (fun m x => <[getKey x := x]> m) m p !! getKey x = Some x.
Proof.
  assert (forall (p : list T) (m : gmap Key T) k, k ∉ getKey <$> p ->
    foldl (fun m x => <[getKey x := x]> m) m p !! k = m !! k) as Hout.
  { induction p0 as [|y q IH]; intros m0 k Hk; [done |]. cbn [fmap list_fmap] in Hk.
    apply not_elem_of_cons in Hk as [Hk1 Hk2]. cbn [foldl]. rewrite IH by done.
    by rewrite lookup_insert_ne. }
  revert m. induction p as [|y q IH]; intros m Hnd Hx; [by apply not_elem_of_nil in Hx |].
  cbn [fmap list_fmap] in Hnd. apply NoDup_cons in Hnd as [Hy Hnd]. cbn [foldl].
  apply elem_of_cons in Hx as [->|Hx]; [| by apply IH].
  rewrite Hout by done. apply lookup_insert_eq.
Qed.

Lemma foldl_insert_delete (p : list T) k :
  foldl (fun m x => delete (getKey x) m)
    (foldl (fun m x => <[getKey x := x]> m) (∅ : gmap Key T) p) p !! k = None.
Proof.
  assert (forall (q : list T) (m : gmap Key T) k, m !! k = None ->
    foldl (fun m x => delete (getKey x) m) m q !! k = None) as Hdel.
  { induction q as [|y q IH]; intros m k' Hk; [done |]. cbn [foldl]. apply IH.
    rewrite lookup_delete_None. auto. }
  destruct (decide (k ∈ getKey <$> p)) as [Hk|Hk].
  - generalize (foldl (fun m x => <[getKey x := x]> m) (∅ : gmap Key T) p) as m.
    induction p as [|y q IH]; intros m; [by apply not_elem_of_nil in Hk |]. cbn [foldl].
    cbn [fmap list_fmap] in Hk. apply elem_of_cons in Hk as [->|Hk]; [| by apply IH].
    apply Hdel, lookup_delete_eq.
  - apply Hdel. assert (forall m : gmap Key T, m !! k = None ->
      foldl (fun m x => <[getKey x := x]> m) m p !! k = None) as Hins; [| apply Hins, lookup_empty].
    induction p as [|y q IH]; intros m Hm; [done |]. cbn [foldl].
    cbn [fmap list_fmap] in Hk. apply not_elem_of_cons in Hk as [Hk1 Hk2]. apply IH; [done |].
    by rewrite lookup_insert_ne.
Qed.

Lemma rep_new_HashTable : exists h, new_HashTable = Ok h /\ hash_rep h ∅ /\ slack h /\ numItems h = 0.
Proof.
  unfold new_HashTable. change InitialBuckets with 4. rewrite InitBuckets_ok by lia.
  eexists. split; [done |]. split; [split_and!; [| done |] | done].
  - apply (wf_empty 4 0). change InitialBuckets with 4. lia.
  - intros k x. cbn [buckets]. rewrite concat_replicate_nil, lookup_empty.
    split; [done |]. by intros [?%not_elem_of_nil _].
Qed.

(** ** Properties *)

(** C6.  A hash table behaves as the finite map it stands for: [Find] is
    lookup; [Insert] of a known key and [Remove] of an unknown one fail
    their ASSERT; [Insert] of a new key adds it, growing the table when it
    is full and as long as the bucket count is an [int]; [Remove] returns
    the item and deletes it; and an iterator visits exactly the items. *)
Theorem hash_refines_map h m :
  hash_rep h m ->
  (forall k, Find h k = Ok (m !! k)) /\
  (IsEmpty h = bool_decide (m = ∅)) /\
  (forall x, is_Some (m !! getKey x) -> Insert h x = Trap AssertFail) /\
  (forall x, m !! getKey x = None -> grown h < 2 ^ 31 ->
     exists h', Insert h x = Ok h' /\ hash_rep h' (<[getKey x := x]> m) /\
       numBuckets h' = grown h) /\
  (forall k, m !! k = None -> Remove h k = Trap AssertFail) /\
  (forall k x, m !! k = Some x ->
     exists h', Remove h k = Ok (x, h') /\ hash_rep h' (delete k m)) /\
  exists it xs, new_HashIterator h = Ok it /\
    iterate (Z.to_nat (numItems h)) h it = Ok xs /\ NoDup xs /\
    (forall x, x ∈ xs <-> m !! getKey x = Some x).
Proof.
  intros Hr. pose proof Hr as (Hw & Hn & Hm). split_and!.
  - intros k. by apply Find_rep.
  - unfold IsEmpty. rewrite Hn. destruct (concat (buckets h)) as [|x xs] eqn:E.
    + symmetry. apply bool_decide_eq_true. apply map_eq. intros k. rewrite lookup_empty.
      apply eq_None_not_Some. intros [x Hx%Hm]. destruct Hx as [Hx _]. by apply not_elem_of_nil in Hx.
    + symmetry. apply bool_decide_eq_false. intros ->.
      assert (x ∈ x :: xs /\ getKey x = getKey x) as Hx%Hm by set_solver. by rewrite lookup_empty in Hx.
  - intros x Hx. unfold Insert. by rewrite (IsInTable_rep h m _ Hr), bool_decide_true.
  - intros x Hx Hg. by apply Insert_ok.
  - intros k Hk. unfold Remove. pose proof (Find_rep h m k Hr) as HF. unfold Find in HF.
    rewrite HashValue_ok in * by done. cbn [obind] in *. by rewrite HF, Hk.
  - intros k x Hk. destruct (Remove_ok h m k x Hr Hk) as (h' & ? & ? & _). eauto.
  - destruct (iterate_ok h Hw) as (it & Hit & E). exists it, (concat (buckets h)).
    rewrite Hn, Nat2Z.id. split_and!; [done | done | by apply items_NoDup |].
    intros x. rewrite Hm. naive_solver.
Qed.

(** [HashTable::SelfTest] on a new table passes every ASSERT for any
    array of at most 2^30 items with distinct keys (growing the table as
    it goes), and leaves the table empty. *)
Theorem hash_SelfTest_passes p :
  NoDup (getKey <$> p) -> Z.of_nat (length p) <= 2 ^ 30 ->
  exists h h', new_HashTable = Ok h /\ SelfTest h p = Ok h' /\ hash_rep h' ∅.
Proof.
  intros Hnd Hlen. destruct rep_new_HashTable as (h & E & Hr & Hs & Hn0). exists h. rewrite E.
  pose proof Hr as (Hw & Hn & Hm). unfold SelfTest.
  destruct (iterate_ok h Hw) as (it & -> & Hit). cbn [obind]. rewrite SanityCheck_ok by done.
  assert (concat (buckets h) = []) as Hc by (apply nil_length_inv; lia).
  cbn [obind]. unfold IsEmpty at 1. rewrite Hn0. cbn [Z.eqb assert_ obind].
  rewrite Hc in Hit. cbn [length iterate] in Hit. destruct (IsDone h it); [| done].
  cbn [assert_ obind].
  destruct (selftest_insert p h ∅ Hr Hs Hnd) as (h1 & m1 & -> & Hr1 & Hm1);
    [intros; apply lookup_empty | lia |]. cbn [obind].
  destruct (selftest_remove p h1 m1 Hr1 Hnd) as (h2 & m2 & -> & Hr2 & Hm2).
  { intros x Hx. rewrite Hm1. by apply foldl_insert_lookup. }
  cbn [obind]. assert (m2 = ∅) as ->.
  { apply map_eq. intros k. rewrite lookup_empty, Hm2, Hm1. apply foldl_insert_delete. }
  pose proof Hr2 as (Hw2 & Hn2 & Hme).
  assert (concat (buckets h2) = []) as Hc2.
  { destruct (concat (buckets h2)) as [|x l] eqn:Ec; [done |].
    assert (x ∈ x :: l /\ getKey x = getKey x) as Hx%Hme by set_solver.
    by rewrite lookup_empty in Hx. }
  unfold IsEmpty. rewrite Hn2, Hc2. cbn [length Z.of_nat Z.eqb assert_ obind].
  rewrite SanityCheck_ok by done. cbn [obind]. eauto.
Qed.


End HashTable.
End HashTable.

(** ** Witnesses *)

Module HashWitness.

Definition table_of (l : list Z) : outcome (HashTable.HashTable (T := Z)) :=
  let! h := HashTable.new_HashTable in
  ofold (HashTable.Insert id id) h l.

Lemma empty_rep : exists h, HashTable.new_HashTable = Ok h /\
  HashTable.hash_rep (Key := Z) id id h ∅.
Proof. destruct (HashTable.rep_new_HashTable (Key := Z) id id) as (h & ? & ? & _). eauto. Qed.

End HashWitness.

Lemma hash_refines_map_witness :
  exists h h', HashTable.new_HashTable = Ok h /\
    HashTable.Insert id id h 7 = Ok h' /\ HashTable.hash_rep id id h' {[7 := 7]} /\
    HashTable.numBuckets h' = 4.
Proof.
  exists (HashTable.mkHash [[]; []; []; []] 4 0).
  assert (HashTable.hash_rep (Key := Z) id id (HashTable.mkHash [[]; []; []; []] 4 0) ∅) as Hr.
  { destruct HashWitness.empty_rep as (h & E & Hr).
    vm_compute in E. injection E as <-. exact Hr. }
  destruct (proj1 (proj2 (proj2 (proj2 (HashTable.hash_refines_map id id _ _ Hr)))) 7)
    as (h' & E & Hr' & Hn).
  - reflexivity.
  - vm_compute. reflexivity.
  - exists h'. split; [reflexivity |]. split; [exact E |]. split; [exact Hr' | exact Hn].
Defined.

Lemma hash_SelfTest_passes_witness :
  NoDup (id <$> [0; 4; 8; 3]) /\
  exists h h', HashTable.new_HashTable = Ok h /\
    HashTable.SelfTest id id h [0; 4; 8; 3] = Ok h' /\ HashTable.hash_rep (Key := Z) id id h' ∅.
Proof.
  assert (NoDup (id <$> [0; 4; 8; 3])) as Hnd by (apply (bool_decide_unpack _); vm_compute; exact I).
  split; [exact Hnd |].
  apply HashTable.hash_SelfTest_passes; [exact Hnd | vm_compute; discriminate].
Defined.
