(* ===== verification/Machine.v ===== *)
(** * machine/machine.{h,cc}, machine/translate.{h,cc}: registers, memory,
    address translation

    The simulated CPU state.  The linear page tables are arrays of
    [TranslationEntry] allocated by the address spaces; the machine only
    points to the current one ([pageTable]), so the arrays live in a store
    [tables] both share.  A trap to the kernel leaves the machine: the
    kernel is the class [Kernel], instantiated by the exception handler. *)

From S2P Require Import Prelude.

Module Machine.

(** ** Constants and data *)

Definition PageSize : Z := 128.
Definition NumPhysPages : Z := 128.
Definition MemorySize : Z := NumPhysPages * PageSize.
Definition TLBSize : Z := 4.

Inductive ExceptionType :=
| NoException | SyscallException | PageFaultException | ReadOnlyException
| BusErrorException | AddressErrorException | OverflowException | IllegalInstrException.

#[export] Instance ExceptionType_eq_dec : EqDecision ExceptionType.
Proof. solve_decision. Defined.

Definition StackReg : Z := 29.
Definition RetAddrReg : Z := 31.
Definition NumGPRegs : Z := 32.
Definition HiReg : Z := 32.
Definition LoReg : Z := 33.
Definition PCReg : Z := 34.
Definition NextPCReg : Z := 35.
Definition PrevPCReg : Z := 36.
Definition LoadReg : Z := 37.
Definition LoadValueReg : Z := 38.
Definition BadVAddrReg : Z := 39.
Definition NumTotalRegs : Z := 40.

Record TranslationEntry := mkEntry {
  virtualPage : Z;
  physicalPage : Z;
  valid : bool;
  readOnly : bool;
  use : bool;
  dirty : bool
}.

Record Machine := mkMachine {
  registers : list Z;                             (* int[NumTotalRegs] *)
  mainMemory : list Z;                            (* the bytes, 0..255 *)
  tlb : option (list TranslationEntry);           (* NULL without USE_TLB *)
  pageTable : option positive;                    (* into [tables] *)
  pageTableSize : Z;                              (* unsigned *)
  tables : gmap positive (list TranslationEntry); (* the allocated page tables *)
  singleStep : bool;
  runUntilTime : Z
}.

Definition set_registers (m : Machine) r := mkMachine r (mainMemory m) (tlb m) (pageTable m)
  (pageTableSize m) (tables m) (singleStep m) (runUntilTime m).
Definition set_mainMemory (m : Machine) mem := mkMachine (registers m) mem (tlb m) (pageTable m)
  (pageTableSize m) (tables m) (singleStep m) (runUntilTime m).
Definition set_tlb (m : Machine) t := mkMachine (registers m) (mainMemory m) t (pageTable m)
  (pageTableSize m) (tables m) (singleStep m) (runUntilTime m).
Definition set_pageTable (m : Machine) p n := mkMachine (registers m) (mainMemory m) (tlb m) p
  n (tables m) (singleStep m) (runUntilTime m).
Definition set_tables (m : Machine) t := mkMachine (registers m) (mainMemory m) (tlb m)
  (pageTable m) (pageTableSize m) t (singleStep m) (runUntilTime m).

(** [registers[i]] for an index that is a constant or a 5-bit field of an
    instruction, hence inside the array. *)
Definition reg (m : Machine) (i : Z) : Z := default 0 (registers m !! Z.to_nat i).
Definition set_reg (m : Machine) (i v : Z) : Machine :=
  set_registers m (<[Z.to_nat i := v]> (registers m)).

(** [Machine::Machine(debug)], without USE_TLB. *)
Definition new_Machine (debug : bool) : Machine :=
  mkMachine (replicate (Z.to_nat NumTotalRegs) 0) (replicate (Z.to_nat MemorySize) 0)
    None None 0 ∅ debug 0.

Definition ReadRegister (m : Machine) (num : Z) : outcome Z :=
  assert! (0 <=? num) && (num <? NumTotalRegs);
  arr_get (registers m) num.

Definition WriteRegister (m : Machine) (num value : Z) : outcome Machine :=
  assert! (0 <=? num) && (num <? NumTotalRegs);
  let! r := arr_set (registers m) num value in
  Ok (set_registers m r).

(** [DelayedLoad]: the index is the content of a register. *)
Definition DelayedLoad (m : Machine) (nextReg nextValue : Z) : outcome Machine :=
  let! r := arr_set (registers m) (reg m LoadReg) (reg m LoadValueReg) in
  let m := set_registers m r in
  let m := set_reg m LoadReg nextReg in
  let m := set_reg m LoadValueReg nextValue in
  Ok (set_reg m 0 0).

(** ** Byte order

    The simulated machine is little endian; so is the host of the build,
    where the conversions are the identity. *)

Definition HOST_IS_BIG_ENDIAN : bool := false.

Definition WordToHost (big : bool) (word : Z) : Z :=
  if big then
    let result := Z.land (Z.shiftr word 24) 0xff in
    let result := Z.lor result (Z.land (Z.shiftr word 8) 0xff00) in
    let result := Z.lor result (Z.land (u32 (Z.shiftl word 8)) 0xff0000) in
    Z.lor result (Z.land (u32 (Z.shiftl word 24)) 0xff000000)
  else word.

Definition ShortToHost (big : bool) (shortword : Z) : Z :=
  if big then
    let result := Z.land (Z.shiftl shortword 8) 0xff00 in
    Z.lor result (Z.land (Z.shiftr shortword 8) 0xff)
  else shortword.

Definition WordToMachine (big : bool) (word : Z) : Z := WordToHost big word.
Definition ShortToMachine (big : bool) (shortword : Z) : Z := ShortToHost big shortword.

(** An [n]-byte little-endian load and store of the host. *)
Fixpoint load_le (mem : list Z) (pa : Z) (n : nat) : outcome Z :=
  match n with
  | O => Ok 0
  | S n' =>
      let! b := arr_get mem pa in
      let! r := load_le mem (pa + 1) n' in
      Ok (b + 2 ^ 8 * r)
  end.

Fixpoint store_le (mem : list Z) (pa : Z) (n : nat) (v : Z) : outcome (list Z) :=
  match n with
  | O => Ok mem
  | S n' =>
      let! mem := arr_set mem pa (v mod 2 ^ 8) in
      store_le mem (pa + 1) n' (v / 2 ^ 8)
  end.

(** ** Translate *)

(** What [Translate] returns: an exception, or [NoException] and
    [*physAddr]. *)
Inductive translation :=
| Fault (e : ExceptionType)
| Phys (physAddr : Z).

(** Where [entry] points. *)
Inductive entry_loc :=
| InTable (p : positive) (vpn : Z)
| InTlb (i : Z).

Definition get_entry (m : Machine) (l : entry_loc) : outcome TranslationEntry :=
  match l with
  | InTable p vpn =>
      match tables m !! p with
      | Some t => arr_get t vpn
      | None => Trap Undefined
      end
  | InTlb i =>
      match tlb m with
      | Some t => arr_get t i
      | None => Trap Undefined
      end
  end.

Definition set_entry (m : Machine) (l : entry_loc) (e : TranslationEntry) : outcome Machine :=
  match l with
  | InTable p vpn =>
      match tables m !! p with
      | Some t => let! t := arr_set t vpn e in Ok (set_tables m (<[p := t]> (tables m)))
      | None => Trap Undefined
      end
  | InTlb i =>
      match tlb m with
      | Some t => let! t := arr_set t i e in Ok (set_tlb m (Some t))
      | None => Trap Undefined
      end
  end.

(** The lookup of the entry for [vpn] (translate.cc 209-230). *)
Definition find_entry (m : Machine) (vpn : Z) : outcome (ExceptionType + entry_loc) :=
  match tlb m with
  | None =>
      if vpn >=? pageTableSize m then Ok (inl AddressErrorException)
      else
        match pageTable m with
        | None => Trap Undefined
        | Some p =>
            let! e := get_entry m (InTable p vpn) in
            if negb (valid e) then Ok (inl PageFaultException)
            else Ok (inr (InTable p vpn))
        end
  | Some t =>
      let! r := oloop (fun (_ : unit) i =>
                  let! e := arr_get t i in
                  if valid e && (virtualPage e =? s32 vpn) then Ok (Break i) else Ok (Next tt))
                tt (seqZ 0 TLBSize) in
      match r with
      | Break i => Ok (inr (InTlb i))
      | Next _ => Ok (inl PageFaultException)
      end
  end.

Definition Translate (m : Machine) (virtAddr size : Z) (writing : bool)
    : outcome (translation * Machine) :=
  if ((size =? 4) && negb (Z.land virtAddr 3 =? 0)) ||
     ((size =? 2) && negb (Z.land virtAddr 1 =? 0))
  then Ok (Fault AddressErrorException, m)
  else
    assert! bool_decide (tlb m = None) || bool_decide (pageTable m = None);
    assert! negb (bool_decide (tlb m = None)) || negb (bool_decide (pageTable m = None));
    let vpn := u32 virtAddr / PageSize in
    let offset := u32 virtAddr mod PageSize in
    let! r := find_entry m vpn in
    match r with
    | inl e => Ok (Fault e, m)
    | inr loc =>
        let! entry := get_entry m loc in
        if readOnly entry && writing then Ok (Fault ReadOnlyException, m)
        else
          let pageFrame := u32 (physicalPage entry) in
          if pageFrame >=? NumPhysPages then Ok (Fault BusErrorException, m)
          else
            let! m := set_entry m loc
              (mkEntry (virtualPage entry) (physicalPage entry) (valid entry) (readOnly entry)
                 true (if writing then true else dirty entry)) in
            let physAddr := s32 (pageFrame * PageSize + offset) in
            assert! (0 <=? physAddr) && (physAddr + size <=? MemorySize);
            Ok (Phys physAddr, m)
    end.

#[export] Instance TranslationEntry_eq_dec : EqDecision TranslationEntry.
Proof. solve_decision. Defined.

(** ** Traps and memory access *)

Inductive MachineStatus := IdleMode | SystemMode | UserMode.

(** What the machine needs of the kernel [K]: the status of the interrupt
    hardware and the exception handler. *)
Class Kernel (K : Type) := {
  setStatus : MachineStatus -> K -> K;
  ExceptionHandler : ExceptionType -> K * Machine -> outcome (K * Machine)
}.

Section Access.
Context {K : Type} `{Kernel K}.

Definition RaiseException (which : ExceptionType) (badVAddr : Z) (s : K * Machine)
    : outcome (K * Machine) :=
  let '(k, m) := s in
  let m := set_reg m BadVAddrReg badVAddr in
  let! m := DelayedLoad m 0 0 in
  let k := setStatus SystemMode k in
  let! '(k, m) := ExceptionHandler which (k, m) in
  Ok (setStatus UserMode k, m).

(** [None]: the function returned FALSE. *)
Definition ReadMem (addr size : Z) (s : K * Machine) : outcome (option Z * (K * Machine)) :=
  let '(k, m) := s in
  let! '(t, m) := Translate m addr size false in
  match t with
  | Fault exception =>
      let! s := RaiseException exception addr (k, m) in
      Ok (None, s)
  | Phys physicalAddress =>
      let! value :=
        (if size =? 1 then
           let! data := arr_get (mainMemory m) physicalAddress in Ok (s8 data)
         else if size =? 2 then
           let! data := load_le (mainMemory m) physicalAddress 2 in
           Ok (ShortToHost HOST_IS_BIG_ENDIAN (u16 data))
         else if size =? 4 then
           let! data := load_le (mainMemory m) physicalAddress 4 in
           Ok (s32 (WordToHost HOST_IS_BIG_ENDIAN (u32 (s32 data))))
         else Trap AssertFail) in
      Ok (Some value, (k, m))
  end.

Definition WriteMem (addr size value : Z) (s : K * Machine) : outcome (bool * (K * Machine)) :=
  let '(k, m) := s in
  let! '(t, m) := Translate m addr size true in
  match t with
  | Fault exception =>
      let! s := RaiseException exception addr (k, m) in
      Ok (false, s)
  | Phys physicalAddress =>
      let! mem :=
        (if size =? 1 then
           arr_set (mainMemory m) physicalAddress (u8 (Z.land value 0xff))
         else if size =? 2 then
           store_le (mainMemory m) physicalAddress 2
             (ShortToMachine HOST_IS_BIG_ENDIAN (u16 (Z.land value 0xffff)))
         else if size =? 4 then
           store_le (mainMemory m) physicalAddress 4
             (WordToMachine HOST_IS_BIG_ENDIAN (u32 value))
         else Trap AssertFail) in
      Ok (true, (k, set_mainMemory m mem))
  end.

End Access.

(** [CheckEndian]: the word whose bytes are 1, 2, 3, 4. *)
Definition CheckEndian : outcome unit :=
  let! intword := load_le [1; 2; 3; 4] 0 4 in
  assert! (intword =? (if HOST_IS_BIG_ENDIAN then 0x01020304 else 0x04030201));
  Ok tt.

(** ** Bytes in memory *)

Lemma store_le_Ok mem pa n v : 0 <= pa -> pa + Z.of_nat n <= Z.of_nat (length mem) ->
  exists mem', store_le mem pa n v = Ok mem' /\ length mem' = length mem /\
    (Forall is_byte mem -> Forall is_byte mem') /\
    (forall j : nat, Z.of_nat j < pa \/ pa + Z.of_nat n <= Z.of_nat j -> mem' !! j = mem !! j).
Proof.
  revert mem pa v. induction n as [|n IH]; intros mem pa v Hpa Hn; [by exists mem |].
  cbn [store_le]. rewrite arr_set_Ok by lia. cbn [obind].
  destruct (IH (<[Z.to_nat pa := v mod 2 ^ 8]> mem) (pa + 1) (v / 2 ^ 8)) as (mem' & -> & Hl & Hb & Hj).
  - lia.
  - rewrite length_insert. lia.
  - rewrite length_insert in Hl. exists mem'. split_and!; [done | done | |].
    + intros Hm. apply Hb. apply Forall_insert; [done |]. apply Z.mod_pos_bound. lia.
    + intros j Hd. rewrite Hj by lia. rewrite list_lookup_insert_ne by lia. done.
Qed.

Lemma load_le_ext mem mem' pa n : 0 <= pa ->
  (forall j : nat, pa <= Z.of_nat j < pa + Z.of_nat n -> mem' !! j = mem !! j) ->
  load_le mem' pa n = load_le mem pa n.
Proof.
  revert pa. induction n as [|n IH]; intros pa Hpa Hj; [done |]. cbn [load_le].
  unfold arr_get. rewrite (Hj (Z.to_nat pa)) by lia.
  rewrite (IH (pa + 1)); [done | lia |]. intros j ?. apply Hj. lia.
Qed.

Lemma load_le_Ok mem pa n : 0 <= pa -> pa + Z.of_nat n <= Z.of_nat (length mem) ->
  Forall is_byte mem -> exists v, load_le mem pa n = Ok v /\ 0 <= v < 2 ^ (8 * Z.of_nat n).
Proof.
  intros Hpa Hn Hb. revert pa Hpa Hn. induction n as [|n IH]; intros pa Hpa Hn; [by exists 0 |].
  cbn [load_le]. destruct (arr_get_in_range mem pa) as (b & -> & Hl); [lia |]. cbn [obind].
  destruct (IH (pa + 1)) as (v & -> & Hv); [lia | lia |]. cbn [obind]. eexists. split; [done |].
  assert (is_byte b) as Hbb by (apply (Forall_elem _ _ _ Hb); by eapply list_elem_of_lookup_2).
  unfold is_byte in Hbb.
  replace (8 * Z.of_nat (S n)) with (8 + 8 * Z.of_nat n) by lia.
  rewrite Z.pow_add_r by lia. change (2 ^ 8) with 256 in *.
  generalize dependent (2 ^ (8 * Z.of_nat n)). intros; lia.
Qed.

(** Storing then loading gives the low bytes of the value back. *)
Lemma load_store_le mem mem' pa n v : 0 <= pa -> pa + Z.of_nat n <= Z.of_nat (length mem) ->
  store_le mem pa n v = Ok mem' -> load_le mem' pa n = Ok (v mod 2 ^ (8 * Z.of_nat n)).
Proof.
  revert mem pa v. induction n as [|n IH]; intros mem pa v Hpa Hn E.
  { cbn. by rewrite Z.mod_1_r. }
  cbn [store_le] in E. rewrite arr_set_Ok in E by lia. cbn [obind] in E.
  set (mem1 := <[Z.to_nat pa:=v mod 2 ^ 8]> mem) in *.
  assert (length mem1 = length mem) as Hl1 by apply length_insert.
  destruct (store_le_Ok mem1 (pa + 1) n (v / 2 ^ 8)) as (mem2 & E2 & Hl & _ & Hj); [lia | lia |].
  rewrite E in E2. injection E2 as <-.
  cbn [load_le]. rewrite (arr_get_lookup _ _ (v mod 2 ^ 8)); cycle 1.
  { lia. }
  { rewrite Hj by lia. apply list_lookup_insert_eq. lia. }
  cbn [obind]. rewrite (IH mem1 (pa + 1) (v / 2 ^ 8)) by (done || lia). cbn [obind]. f_equal.
  replace (8 * Z.of_nat (S n)) with (8 + 8 * Z.of_nat n) by lia.
  rewrite Z.pow_add_r, Z.rem_mul_r by lia. lia.
Qed.

(** The big-endian branch: the host loads the bytes in the other order, and
    the conversion undoes it. *)
Lemma WordToHost_swap b0 b1 b2 b3 :
  is_byte b0 -> is_byte b1 -> is_byte b2 -> is_byte b3 ->
  WordToHost true (b3 + 2 ^ 8 * b2 + 2 ^ 16 * b1 + 2 ^ 24 * b0) =
  b0 + 2 ^ 8 * b1 + 2 ^ 16 * b2 + 2 ^ 24 * b3.
Proof.
  intros H0 H1 H2 H3. unfold is_byte in *. unfold WordToHost.
  change 0xff with (Z.shiftl (Z.ones 8) 0). change 0xff00 with (Z.shiftl (Z.ones 8) 8).
  change 0xff0000 with (Z.shiftl (Z.ones 8) 16). change 0xff000000 with (Z.shiftl (Z.ones 8) 24).
  rewrite !land_mask, !Z.shiftr_div_pow2, !Z.shiftl_mul_pow2 by lia.
  set (w := b3 + _ + _ + _).
  replace ((w / 2 ^ 24 / 2 ^ 0) mod 2 ^ 8) with b0 by (subst w; dlia).
  replace ((w / 2 ^ 8 / 2 ^ 8) mod 2 ^ 8) with b1 by (subst w; dlia).
  replace ((u32 (w * 2 ^ 8) / 2 ^ 16) mod 2 ^ 8) with b2 by (subst w; unfold u32; dlia).
  replace ((u32 (w * 2 ^ 24) / 2 ^ 24) mod 2 ^ 8) with b3 by (subst w; unfold u32; dlia).
  rewrite (lor_add (b0 * 2 ^ 0) b1 8), (lor_add _ b2 16), (lor_add _ b3 24) by lia. lia.
Qed.

Lemma ShortToHost_swap b0 b1 : is_byte b0 -> is_byte b1 ->
  ShortToHost true (b1 + 2 ^ 8 * b0) = b0 + 2 ^ 8 * b1.
Proof.
  intros H0 H1. unfold is_byte in *. unfold ShortToHost.
  change 0xff with (Z.shiftl (Z.ones 8) 0). change 0xff00 with (Z.shiftl (Z.ones 8) 8).
  rewrite !land_mask, !Z.shiftr_div_pow2, !Z.shiftl_mul_pow2 by lia.
  set (w := b1 + _).
  replace ((w * 2 ^ 8 / 2 ^ 8) mod 2 ^ 8) with b1 by (subst w; dlia).
  replace ((w / 2 ^ 8 / 2 ^ 0) mod 2 ^ 8) with b0 by (subst w; dlia).
  rewrite Z.mul_1_r, lor_add' by lia. lia.
Qed.

(** ** What Translate does *)

(** The linear page table [t] is the current one. *)
Definition paged (m : Machine) (p : positive) (t : list TranslationEntry) : Prop :=
  tlb m = None /\ pageTable m = Some p /\ tables m !! p = Some t /\
  0 <= pageTableSize m <= Z.of_nat (length t).

Definition legal_size (size : Z) : Prop := size = 1 \/ size = 2 \/ size = 4.

(** The use and dirty bits after an access. *)
Definition touch (writing : bool) (e : TranslationEntry) : TranslationEntry :=
  mkEntry (virtualPage e) (physicalPage e) (valid e) (readOnly e) true
    (if writing then true else dirty e).

(** The page number and offset of an address. *)
Definition page_of (virtAddr : Z) : Z := u32 virtAddr / PageSize.
Definition offset_of (virtAddr : Z) : Z := u32 virtAddr mod PageSize.

Definition misaligned (virtAddr size : Z) : bool := negb (u32 virtAddr mod size =? 0).

(** The reference: which page, which fault, which physical address. *)
Definition translate_spec (t : list TranslationEntry) (n virtAddr size : Z) (writing : bool)
    : translation :=
  if misaligned virtAddr size then Fault AddressErrorException
  else if n <=? page_of virtAddr then Fault AddressErrorException
  else
    match t !! Z.to_nat (page_of virtAddr) with
    | None => Fault AddressErrorException
    | Some e =>
        if negb (valid e) then Fault PageFaultException
        else if readOnly e && writing then Fault ReadOnlyException
        else if negb ((0 <=? physicalPage e) && (physicalPage e <? NumPhysPages))
        then Fault BusErrorException
        else Phys (physicalPage e * PageSize + offset_of virtAddr)
    end.

Lemma land_low z k : 0 <= k -> Z.land z (2 ^ k - 1) = u32 z mod 2 ^ k \/ 32 < k.
Proof.
  intros Hk. destruct (Z.le_gt_cases k 32); [left | by right].
  replace (2 ^ k - 1) with (Z.ones k) by (rewrite Z.ones_equiv; lia).
  rewrite Z.land_ones by lia. unfold u32.
  replace (2 ^ 32) with (2 ^ k * 2 ^ (32 - k)) by (rewrite <- Z.pow_add_r by lia; f_equal; lia).
  rewrite Z.rem_mul_r, Z.mul_comm, Z.mod_add, Z.mod_mod; lia || (apply Z.pow_nonzero; lia).
Qed.

Lemma misaligned_ok z size : legal_size size ->
  ((size =? 4) && negb (Z.land z 3 =? 0)) || ((size =? 2) && negb (Z.land z 1 =? 0)) =
  misaligned z size.
Proof.
  intros Hs. unfold misaligned.
  destruct (land_low z 2) as [E2|]; [lia | | lia]. destruct (land_low z 1) as [E1|]; [lia | | lia].
  change (2 ^ 2 - 1) with 3 in E2. change (2 ^ 1 - 1) with 1 in E1. rewrite E1, E2.
  change (2 ^ 2) with 4. change (2 ^ 1) with 2.
  destruct Hs as [-> | [-> | ->]]; cbn [Z.eqb Pos.eqb andb orb].
  - by rewrite Z.mod_1_r.
  - done.
  - by rewrite orb_false_r.
Qed.

Lemma page_of_range z : 0 <= page_of z.
Proof. unfold page_of. pose proof (u32_range z). unfold is_u32 in *. apply Z.div_pos; [lia | done]. Qed.

Lemma offset_of_range z : 0 <= offset_of z < PageSize.
Proof. apply Z.mod_pos_bound. done. Qed.

(** An aligned access stays inside its page. *)
Lemma offset_fits z size : legal_size size -> misaligned z size = false ->
  offset_of z + size <= PageSize.
Proof.
  intros Hs Ha. unfold misaligned in Ha. apply negb_false_iff, Z.eqb_eq in Ha.
  unfold offset_of. change PageSize with 128. destruct Hs as [-> | [-> | ->]]; dlia.
Qed.

Lemma find_entry_paged m p t n : paged m p t -> 0 <= n ->
  find_entry m n =
    if pageTableSize m <=? n then Ok (inl AddressErrorException)
    else match t !! Z.to_nat n with
         | Some e => if valid e then Ok (inr (InTable p n)) else Ok (inl PageFaultException)
         | None => Trap Undefined
         end.
Proof.
  intros (Htlb & Hp & Ht & Hs) Hn. unfold find_entry, get_entry. rewrite Htlb, Hp, Ht, Z.geb_leb.
  destruct (Z.leb_spec (pageTableSize m) n); [done |].
  destruct (arr_get_in_range t n) as (e & -> & ->); [lia |]. cbn [obind]. by destruct (valid e).
Qed.

Lemma translate_spec_phys t n va size w pa : translate_spec t n va size w = Phys pa ->
  legal_size size ->
  misaligned va size = false /\ page_of va < n /\
  exists e, t !! Z.to_nat (page_of va) = Some e /\ valid e = true /\ readOnly e && w = false /\
    0 <= physicalPage e < NumPhysPages /\ pa = physicalPage e * PageSize + offset_of va /\
    0 <= pa /\ pa + size <= (physicalPage e + 1) * PageSize /\ pa + size <= MemorySize.
Proof.
  unfold translate_spec. intros E Hs.
  destruct (misaligned va size) eqn:Ha; [done |]. split; [done |].
  destruct (Z.leb_spec n (page_of va)); [done |]. split; [done |].
  destruct (t !! Z.to_nat (page_of va)) as [e|]; [| done]. exists e. split; [done |].
  destruct (valid e); [| done]. cbn [negb] in E. split; [done |].
  destruct (readOnly e && w); [done |]. split; [done |].
  destruct (Z.leb_spec 0 (physicalPage e)), (Z.ltb_spec (physicalPage e) NumPhysPages); try done.
  cbn [andb negb] in E. injection E as <-. pose proof (offset_fits va size Hs Ha).
  pose proof (offset_of_range va). unfold MemorySize, NumPhysPages, PageSize in *. lia.
Qed.

Lemma u32_frame e : is_s32 e -> (u32 e >=? NumPhysPages) =
  negb ((0 <=? e) && (e <? NumPhysPages)).
Proof.
  intros He. unfold is_s32 in He. rewrite Z.geb_leb. change NumPhysPages with 128.
  destruct (Z.leb_spec 0 e), (Z.ltb_spec e 128); cbn [andb negb];
    first [apply Z.leb_le; unfold u32; dlia | apply Z.leb_gt; unfold u32; dlia].
Qed.

Definition page_entries_ok (t : list TranslationEntry) : Prop :=
  Forall (fun e => is_s32 (physicalPage e)) t.

(** With a page table, [Translate] computes [translate_spec]; on success
    it touches the entry and nothing else. *)
Lemma Translate_paged m p t va size w :
  paged m p t -> page_entries_ok t -> legal_size size ->
  Translate m va size w = Ok (translate_spec t (pageTableSize m) va size w,
    match translate_spec t (pageTableSize m) va size w with
    | Phys _ => set_tables m (<[p := alter (touch w) (Z.to_nat (page_of va)) t]> (tables m))
    | Fault _ => m
    end).
Proof.
  intros Hp Hok Hs. pose proof Hp as (Htlb & Hpt & Ht & Hsz). unfold Translate.
  rewrite misaligned_ok by done. unfold translate_spec at 1.
  destruct (misaligned va size) eqn:Ha; [unfold translate_spec; by rewrite Ha |].
  rewrite Htlb, Hpt. rewrite bool_decide_true, (bool_decide_false (Some p = None)) by done.
  cbn [orb negb assert_ obind]. fold (page_of va) (offset_of va).
  pose proof (page_of_range va) as Hv.
  rewrite (find_entry_paged m p t) by done.
  destruct (Z.leb_spec (pageTableSize m) (page_of va)) as [Hle|Hlt].
  { cbn [obind]. unfold translate_spec. by rewrite Ha, (proj2 (Z.leb_le _ _)). }
  destruct (arr_get_in_range t (page_of va)) as (e & E & El); [lia |]. rewrite El.
  assert (translate_spec t (pageTableSize m) va size w =
    if negb (valid e) then Fault PageFaultException
    else if readOnly e && w then Fault ReadOnlyException
    else if negb ((0 <=? physicalPage e) && (physicalPage e <? NumPhysPages))
    then Fault BusErrorException
    else Phys (physicalPage e * PageSize + offset_of va)) as Espec.
  { unfold translate_spec. by rewrite Ha, (proj2 (Z.leb_gt _ _)), El. }
  rewrite Espec. destruct (valid e) eqn:Hva; [| done]. cbn [negb obind].
  cbn [get_entry]. rewrite Ht, E. cbn [obind].
  destruct (readOnly e && w) eqn:Hro; [done |].
  assert (is_s32 (physicalPage e)) as Hf by (apply (Forall_elem _ _ _ Hok); by eapply list_elem_of_lookup_2).
  rewrite u32_frame by done.
  destruct ((0 <=? physicalPage e) && (physicalPage e <? NumPhysPages)) eqn:Hfr; [| done].
  apply andb_true_iff in Hfr as [H0%Z.leb_le H1%Z.ltb_lt]. cbn [negb].
  cbn [set_entry]. rewrite Ht. rewrite arr_set_Ok by lia. cbn [obind].
  rewrite u32_id by (unfold is_u32; unfold NumPhysPages in *; lia).
  pose proof (offset_of_range va). pose proof (offset_fits va size Hs Ha).
  change PageSize with 128 in *. change NumPhysPages with 128 in *.
  rewrite s32_id by (unfold is_s32; lia). change MemorySize with 16384.
  rewrite (proj2 (Z.leb_le _ _)), (proj2 (Z.leb_le _ _)) by lia. cbn [andb assert_ obind].
  repeat f_equal. apply list_eq. intros i.
  destruct (decide (Z.to_nat (page_of va) = i)) as [<-|Hne].
  - rewrite list_lookup_alter_eq, list_lookup_insert_eq, El by lia. cbn. unfold touch. by rewrite Hva.
  - by rewrite list_lookup_alter_ne, list_lookup_insert_ne.
Qed.

(** ** What ReadMem and WriteMem do *)

Definition mem_wf (m : Machine) : Prop :=
  Z.of_nat (length (mainMemory m)) = MemorySize /\ Forall is_byte (mainMemory m).

(** The C value of [size] loaded bytes: [char], [unsigned short], [int]. *)
Definition loaded (size data : Z) : Z :=
  if size =? 1 then s8 data else if size =? 2 then u16 data else s32 data.

(** The machine after a successful access. *)
Definition touched (m : Machine) (p : positive) (t : list TranslationEntry) (va : Z) (w : bool)
    : Machine :=
  set_tables m (<[p := alter (touch w) (Z.to_nat (page_of va)) t]> (tables m)).

Lemma lookup_touch (t : list TranslationEntry) w i j :
  alter (touch w) i t !! j = (if decide (i = j) then touch w else id) <$> t !! j.
Proof.
  destruct (decide (i = j)) as [<-|Hne]; [by rewrite list_lookup_alter_eq |].
  rewrite list_lookup_alter_ne by done. by destruct (t !! j).
Qed.

(** The usage bits play no role in translation. *)
Lemma translate_spec_touch (t : list TranslationEntry) i w n va size w' :
  translate_spec (alter (touch w) i t) n va size w' = translate_spec t n va size w'.
Proof.
  unfold translate_spec. rewrite lookup_touch. destruct (misaligned va size); [done |].
  destruct (n <=? page_of va); [done |].
  destruct (t !! Z.to_nat (page_of va)) as [e|]; [| done]. cbn.
  by destruct (decide (i = Z.to_nat (page_of va))).
Qed.

Lemma paged_touched m p t va w :
  paged m p t -> paged (touched m p t va w) p (alter (touch w) (Z.to_nat (page_of va)) t).
Proof.
  intros (Htlb & Hp & Ht & Hs). unfold paged, touched. cbn [set_tables tlb pageTable tables pageTableSize].
  rewrite lookup_insert_eq, length_alter. done.
Qed.

Lemma entries_ok_touch (t : list TranslationEntry) w i : page_entries_ok t -> page_entries_ok (alter (touch w) i t).
Proof.
  unfold page_entries_ok. rewrite !Forall_lookup. intros Ht j e.
  rewrite lookup_touch. intros (e' & He & ->)%fmap_Some.
  specialize (Ht j e' He). by destruct (decide (i = j)).
Qed.

Lemma arr_get_load mem pa : load_le mem pa 1 = let! b := arr_get mem pa in Ok b.
Proof. cbn. destruct (arr_get mem pa); cbn; [f_equal; lia | done]. Qed.

Lemma arr_set_store mem pa v : store_le mem pa 1 v = arr_set mem pa (v mod 2 ^ 8).
Proof. cbn. by destruct (arr_set mem pa _). Qed.

Lemma store_le_mod mem pa n v :
  store_le mem pa n (v mod 2 ^ (8 * Z.of_nat n)) = store_le mem pa n v.
Proof.
  revert mem pa v. induction n as [|n IH]; intros mem pa v; [done |]. cbn [store_le].
  replace (8 * Z.of_nat (S n)) with (8 + 8 * Z.of_nat n) by lia.
  rewrite Z.pow_add_r by lia. rewrite Z.rem_mul_r by lia.
  rewrite (Z.mul_comm (2 ^ 8)), Z.mod_add, Z.mod_mod by lia.
  destruct (arr_set mem pa (v mod 2 ^ 8)) as [mem'|]; [| done]. cbn [obind].
  rewrite Z.div_add by lia. rewrite (Z.div_small (v mod 2 ^ 8)) by (apply Z.mod_pos_bound; lia).
  rewrite Z.add_0_l. apply IH.
Qed.

Section AccessFacts.
Context {K : Type} `{Kernel K}.

Lemma ReadMem_ok k m p t va size pa :
  paged m p t -> page_entries_ok t -> legal_size size -> mem_wf m ->
  translate_spec t (pageTableSize m) va size false = Phys pa ->
  exists data, load_le (mainMemory m) pa (Z.to_nat size) = Ok data /\
    0 <= data < 2 ^ (8 * size) /\
    ReadMem va size (k, m) = Ok (Some (loaded size data), (k, touched m p t va false)).
Proof.
  intros Hp Hok Hs [Hlen Hb] Hphys. destruct (translate_spec_phys _ _ _ _ _ _ Hphys Hs)
    as (_ & _ & e & _ & _ & _ & _ & _ & H0 & _ & Hfit).
  assert (0 < size) by (destruct Hs as [-> | [-> | ->]]; lia).
  destruct (load_le_Ok (mainMemory m) pa (Z.to_nat size)) as (data & E & Hr); [lia | lia | done |].
  rewrite Z2Nat.id in Hr by lia. exists data. split_and!; [done | lia | lia |].
  unfold ReadMem. rewrite (Translate_paged m p t) by done. rewrite Hphys. cbn [obind mainMemory set_tables].
  unfold loaded. destruct Hs as [-> | [-> | ->]]; cbn [Z.eqb Pos.eqb].
  - change (Z.to_nat 1) with 1%nat in E. rewrite arr_get_load in E.
    destruct (arr_get (mainMemory m) pa); [| done]. cbn [obind] in E. injection E as ->. done.
  - change (Z.to_nat 2) with 2%nat in E. rewrite E. done.
  - change (Z.to_nat 4) with 4%nat in E. rewrite E. cbn [obind WordToHost HOST_IS_BIG_ENDIAN].
    by rewrite u32_s32, s32_u32.
Qed.

Lemma WriteMem_ok k m p t va size v pa :
  paged m p t -> page_entries_ok t -> legal_size size -> mem_wf m ->
  translate_spec t (pageTableSize m) va size true = Phys pa ->
  exists mem', store_le (mainMemory m) pa (Z.to_nat size) v = Ok mem' /\
    WriteMem va size v (k, m) =
    Ok (true, (k, set_mainMemory (touched m p t va true) mem')).
Proof.
  intros Hp Hok Hs [Hlen Hb] Hphys. destruct (translate_spec_phys _ _ _ _ _ _ Hphys Hs)
    as (_ & _ & e & _ & _ & _ & _ & _ & H0 & _ & Hfit).
  assert (0 < size) by (destruct Hs as [-> | [-> | ->]]; lia).
  destruct (store_le_Ok (mainMemory m) pa (Z.to_nat size) v) as (mem' & E & _); [lia | lia |].
  exists mem'. split; [done |].
  unfold WriteMem. rewrite (Translate_paged m p t) by done. rewrite Hphys. cbn [obind mainMemory set_tables].
  destruct Hs as [-> | [-> | ->]]; cbn [Z.eqb Pos.eqb].
  - change (Z.to_nat 1) with 1%nat in E. rewrite arr_set_store in E.
    replace (u8 (Z.land v 0xff)) with (v mod 2 ^ 8); [by rewrite E |].
    change 0xff with (Z.ones 8). rewrite Z.land_ones by lia. unfold u8. by rewrite Z.mod_mod.
  - change (Z.to_nat 2) with 2%nat in E. change 0xffff with (Z.ones 16). rewrite Z.land_ones by lia.
    cbn [ShortToMachine ShortToHost HOST_IS_BIG_ENDIAN]. unfold u16. rewrite Z.mod_mod by lia.
    pose proof (store_le_mod (mainMemory m) pa 2 v) as Em. change (8 * Z.of_nat 2) with 16 in Em.
    rewrite Em, E. done.
  - change (Z.to_nat 4) with 4%nat in E. cbn [WordToMachine WordToHost HOST_IS_BIG_ENDIAN].
    pose proof (store_le_mod (mainMemory m) pa 4 v) as Em. change (8 * Z.of_nat 4) with 32 in Em.
    unfold u32. rewrite Em, E. done.
Qed.

(** A failed translation traps to the kernel. *)
Lemma ReadMem_fault k m p t va size e :
  paged m p t -> page_entries_ok t -> legal_size size ->
  translate_spec t (pageTableSize m) va size false = Fault e ->
  ReadMem va size (k, m) = let! s := RaiseException e va (k, m) in Ok (None, s).
Proof.
  intros Hp Hok Hs Hf. unfold ReadMem. rewrite (Translate_paged m p t) by done. by rewrite Hf.
Qed.

Lemma WriteMem_fault k m p t va size v e :
  paged m p t -> page_entries_ok t -> legal_size size ->
  translate_spec t (pageTableSize m) va size true = Fault e ->
  WriteMem va size v (k, m) = let! s := RaiseException e va (k, m) in Ok (false, s).
Proof.
  intros Hp Hok Hs Hf. unfold WriteMem. rewrite (Translate_paged m p t) by done. by rewrite Hf.
Qed.

(** ** Properties *)

(** C8.  Address translation through a page table computes the reference
    [translate_spec]: the faults are exactly those of its decision list, no
    ASSERT fails, and a successful access lies wholly inside the page's
    frame and physical memory and changes nothing but the page's use and
    dirty bits.  An entry counts when its [valid] bit is set, and is a page
    fault when it is not; the comment at translate.h:35 says the opposite. *)
Theorem Translate_refines_spec m p t va size w :
  paged m p t -> page_entries_ok t -> legal_size size ->
  exists m', Translate m va size w = Ok (translate_spec t (pageTableSize m) va size w, m') /\
    match translate_spec t (pageTableSize m) va size w with
    | Fault _ => m' = m
    | Phys pa => m' = touched m p t va w /\
        exists e, t !! Z.to_nat (page_of va) = Some e /\
          physicalPage e * PageSize <= pa /\ pa + size <= (physicalPage e + 1) * PageSize /\
          0 <= pa /\ pa + size <= MemorySize
    end.
Proof.
  intros Hp Hok Hs. rewrite (Translate_paged m p t) by done. eexists. split; [done |].
  destruct (translate_spec _ _ _ _ _) as [e|pa] eqn:E; [done |]. split; [done |].
  destruct (translate_spec_phys _ _ _ _ _ _ E Hs) as (_ & _ & e & He & _ & _ & Hfr & Hpa & ?).
  exists e. pose proof (offset_of_range va). split; [done |]. lia.
Qed.

(** C9.  Memory behaves as memory: after a successful [WriteMem], [ReadMem]
    of the same address and size gives the written value at its width, and
    a read of bytes that do not overlap the written ones gives what it gave
    before. *)
Theorem WriteMem_ReadMem k m p t va size v pa :
  paged m p t -> page_entries_ok t -> legal_size size -> mem_wf m ->
  translate_spec t (pageTableSize m) va size true = Phys pa ->
  exists m', WriteMem va size v (k, m) = Ok (true, (k, m')) /\ mem_wf m' /\
    registers m' = registers m /\
    (exists m'', ReadMem va size (k, m') = Ok (Some (loaded size v), (k, m''))) /\
    forall va2 size2 pa2 r s, legal_size size2 ->
      translate_spec t (pageTableSize m) va2 size2 false = Phys pa2 ->
      pa2 + size2 <= pa \/ pa + size <= pa2 ->
      ReadMem va2 size2 (k, m) = Ok (r, s) ->
      exists s', ReadMem va2 size2 (k, m') = Ok (r, s').
Proof.
  intros Hp Hok Hs Hm Hphys. pose proof Hm as [Hlen Hb].
  destruct (WriteMem_ok k m p t va size v pa) as (mem' & E & ->); [done .. |].
  eexists. split; [done |].
  destruct (translate_spec_phys _ _ _ _ _ _ Hphys Hs)
    as (Hal & Hpg & e & He & Hve & _ & _ & _ & H0 & _ & Hfit).
  assert (0 < size) by (destruct Hs as [-> | [-> | ->]]; lia).
  destruct (store_le_Ok (mainMemory m) pa (Z.to_nat size) v) as (mem2 & E2 & Hl & Hb2 & Hj); [lia | lia |].
  rewrite E in E2. injection E2 as <-. rewrite Z2Nat.id in Hj by lia.
  set (m' := set_mainMemory _ _).
  assert (mem_wf m') as Hm' by (split; [cbn; by rewrite Hl | by apply Hb2]).
  set (t' := alter (touch true) (Z.to_nat (page_of va)) t).
  assert (paged m' p t') as Hp' by exact (paged_touched m p t va true Hp).
  assert (page_entries_ok t') as Hok' by by apply entries_ok_touch.
  split_and!; [done | done | |].
  - destruct (ReadMem_ok k m' p t' va size pa) as (data & Ed & _ & ->); try done.
    { subst t'. rewrite translate_spec_touch. revert Hphys. unfold translate_spec.
      cbn [m' set_mainMemory touched set_tables pageTableSize]. destruct (misaligned va size); [done |].
      destruct (_ <=? _); [done |]. destruct (t !! _) as [e0|]; [| done]. destruct (valid e0); [| done].
      cbn [negb]. rewrite andb_false_r. by destruct (readOnly e0 && true). }
    cbn in Ed. pose proof (load_store_le (mainMemory m) mem' pa (Z.to_nat size) v H0 ltac:(lia) E) as Ev.
    rewrite Ed in Ev. injection Ev as ->. rewrite Z2Nat.id by lia. eexists. do 3 f_equal.
    unfold loaded, s8, u16, s32. destruct Hs as [-> | [-> | ->]]; cbn [Z.eqb Pos.eqb Z.mul Pos.mul]; dlia.
  - intros va2 size2 pa2 r s Hs2 Hphys2 Hdis.
    destruct (ReadMem_ok k m p t va2 size2 pa2) as (d1 & Ed1 & _ & ->); try done.
    destruct (ReadMem_ok k m' p t' va2 size2 pa2) as (d2 & Ed2 & _ & ->); try done.
    { subst t'. by rewrite translate_spec_touch. }
    intros [= <- _]. eexists. do 3 f_equal.
    destruct (translate_spec_phys _ _ _ _ _ _ Hphys2 Hs2) as (_ & _ & _ & _ & _ & _ & _ & _ & H20 & _).
    assert (0 < size2) by (destruct Hs2 as [-> | [-> | ->]]; lia).
    cbn in Ed2. rewrite (load_le_ext (mainMemory m) mem') in Ed2; [congruence | done |].
    intros j Hj2. apply Hj. lia.
Qed.

End AccessFacts.


End Machine.

(** ** Witnesses: a machine with one page, at frame 3 *)

Module MachineWitness.
Import Machine.

#[global] Instance no_kernel : Kernel unit := {|
  setStatus _ k := k;
  ExceptionHandler _ s := Ok s
|}.

Definition page0 : TranslationEntry := mkEntry 0 3 true false false false.
Definition one_page : Machine :=
  set_tables (set_pageTable (new_Machine false) (Some 1%positive) 1) {[1%positive := [page0]]}.

Lemma one_page_paged : paged one_page 1 [page0].
Proof. split; [done |]. split; [done |]. split; [by vm_compute |]. vm_compute. split; discriminate. Qed.

Lemma one_page_entries : page_entries_ok [page0].
Proof. repeat constructor; vm_compute; discriminate || done. Qed.

Lemma one_page_mem : mem_wf one_page.
Proof.
  split; [by vm_compute |]. apply Forall_replicate. unfold is_byte. lia.
Qed.

End MachineWitness.

Lemma Translate_refines_spec_witness :
  Machine.translate_spec [MachineWitness.page0] 1 8 4 true = Machine.Phys 392 /\
  exists m', Machine.Translate MachineWitness.one_page 8 4 true = Ok (Machine.Phys 392, m').
Proof.
  split; [vm_compute; reflexivity |].
  destruct (Machine.Translate_refines_spec MachineWitness.one_page 1 [MachineWitness.page0] 8 4 true
    MachineWitness.one_page_paged MachineWitness.one_page_entries (or_intror (or_intror eq_refl)))
    as (m' & E & _).
  exists m'. exact E.
Defined.

Lemma WriteMem_ReadMem_witness :
  exists m', Machine.WriteMem 8 4 (-2) (tt, MachineWitness.one_page) = Ok (true, (tt, m')) /\
    exists m'', Machine.ReadMem 8 4 (tt, m') = Ok (Some (-2), (tt, m'')).
Proof.
  destruct (Machine.WriteMem_ReadMem tt MachineWitness.one_page 1 [MachineWitness.page0] 8 4 (-2) 392
    MachineWitness.one_page_paged MachineWitness.one_page_entries (or_intror (or_intror eq_refl))
    MachineWitness.one_page_mem eq_refl) as (m' & E & _ & _ & R & _).
  exists m'. split; [exact E | exact R].
Defined.
