(* ===== verification/Mips.v ===== *)
(** * machine/mipssim.{h,cc}: the MIPS R2/3000 simulator

    [Decode], the instruction tables, [OneInstruction] with its delay
    slots, [Mult] and the [Run] loop.  The [switch] of [OneInstruction] is
    cut into groups of neighbouring cases, one definition each; a group
    returns either [Return] (the function returned after a trap) or
    [Advance] with the local variables the tail of the function uses.
    Values of C type [int] stay in [[-2^31, 2^31)]; arithmetic wraps, the
    way the host of the build computes it. *)

From S2P Require Import Prelude Machine.
Import Machine.

Module Mips.

(** ** Instruction tables *)

Inductive opcode :=
| OP_ADD | OP_ADDI | OP_ADDIU | OP_ADDU | OP_AND | OP_ANDI | OP_BEQ | OP_BGEZ | OP_BGEZAL
| OP_BGTZ | OP_BLEZ | OP_BLTZ | OP_BLTZAL | OP_BNE | OP_DIV | OP_DIVU | OP_J | OP_JAL
| OP_JALR | OP_JR | OP_LB | OP_LBU | OP_LH | OP_LHU | OP_LUI | OP_LW | OP_LWL | OP_LWR
| OP_MFHI | OP_MFLO | OP_MTHI | OP_MTLO | OP_MULT | OP_MULTU | OP_NOR | OP_OR | OP_ORI
| OP_RFE | OP_SB | OP_SH | OP_SLL | OP_SLLV | OP_SLT | OP_SLTI | OP_SLTIU | OP_SLTU
| OP_SRA | OP_SRAV | OP_SRL | OP_SRLV | OP_SUB | OP_SUBU | OP_SW | OP_SWL | OP_SWR
| OP_XOR | OP_XORI | OP_SYSCALL | OP_UNIMP | OP_RES
| SPECIAL | BCOND.

#[export] Instance opcode_eq_dec : EqDecision opcode.
Proof. solve_decision. Defined.

(** The [#define]d number of an opcode. *)
Definition opcode_num (op : opcode) : Z :=
  match op with
  | OP_ADD => 1 | OP_ADDI => 2 | OP_ADDIU => 3 | OP_ADDU => 4 | OP_AND => 5 | OP_ANDI => 6
  | OP_BEQ => 7 | OP_BGEZ => 8 | OP_BGEZAL => 9 | OP_BGTZ => 10 | OP_BLEZ => 11 | OP_BLTZ => 12
  | OP_BLTZAL => 13 | OP_BNE => 14 | OP_DIV => 16 | OP_DIVU => 17 | OP_J => 18 | OP_JAL => 19
  | OP_JALR => 20 | OP_JR => 21 | OP_LB => 22 | OP_LBU => 23 | OP_LH => 24 | OP_LHU => 25
  | OP_LUI => 26 | OP_LW => 27 | OP_LWL => 28 | OP_LWR => 29 | OP_MFHI => 31 | OP_MFLO => 32
  | OP_MTHI => 34 | OP_MTLO => 35 | OP_MULT => 36 | OP_MULTU => 37 | OP_NOR => 38 | OP_OR => 39
  | OP_ORI => 40 | OP_RFE => 41 | OP_SB => 42 | OP_SH => 43 | OP_SLL => 44 | OP_SLLV => 45
  | OP_SLT => 46 | OP_SLTI => 47 | OP_SLTIU => 48 | OP_SLTU => 49 | OP_SRA => 50 | OP_SRAV => 51
  | OP_SRL => 52 | OP_SRLV => 53 | OP_SUB => 54 | OP_SUBU => 55 | OP_SW => 56 | OP_SWL => 57
  | OP_SWR => 58 | OP_XOR => 59 | OP_XORI => 60 | OP_SYSCALL => 61 | OP_UNIMP => 62
  | OP_RES => 63 | SPECIAL => 100 | BCOND => 101
  end.

Definition MaxOpcode : Z := 63.
Definition SIGN_BIT : Z := 0x80000000.
Definition R31 : Z := 31.

(** [IndexToAddr(x)], on [int]. *)
Definition IndexToAddr (x : Z) : Z := s32 (Z.shiftl x 2).

Inductive format := IFMT | JFMT | RFMT.

(** Indexed by bits 31:26 of the instruction. *)
Definition opTable : list (opcode * format) := [
    (SPECIAL, RFMT); (BCOND, IFMT); (OP_J, JFMT); (OP_JAL, JFMT);
    (OP_BEQ, IFMT); (OP_BNE, IFMT); (OP_BLEZ, IFMT); (OP_BGTZ, IFMT);
    (OP_ADDI, IFMT); (OP_ADDIU, IFMT); (OP_SLTI, IFMT); (OP_SLTIU, IFMT);
    (OP_ANDI, IFMT); (OP_ORI, IFMT); (OP_XORI, IFMT); (OP_LUI, IFMT);
    (OP_UNIMP, IFMT); (OP_UNIMP, IFMT); (OP_UNIMP, IFMT); (OP_UNIMP, IFMT);
    (OP_RES, IFMT); (OP_RES, IFMT); (OP_RES, IFMT); (OP_RES, IFMT);
    (OP_RES, IFMT); (OP_RES, IFMT); (OP_RES, IFMT); (OP_RES, IFMT);
    (OP_RES, IFMT); (OP_RES, IFMT); (OP_RES, IFMT); (OP_RES, IFMT);
    (OP_LB, IFMT); (OP_LH, IFMT); (OP_LWL, IFMT); (OP_LW, IFMT);
    (OP_LBU, IFMT); (OP_LHU, IFMT); (OP_LWR, IFMT); (OP_RES, IFMT);
    (OP_SB, IFMT); (OP_SH, IFMT); (OP_SWL, IFMT); (OP_SW, IFMT);
    (OP_RES, IFMT); (OP_RES, IFMT); (OP_SWR, IFMT); (OP_RES, IFMT);
    (OP_UNIMP, IFMT); (OP_UNIMP, IFMT); (OP_UNIMP, IFMT); (OP_UNIMP, IFMT);
    (OP_RES, IFMT); (OP_RES, IFMT); (OP_RES, IFMT); (OP_RES, IFMT);
    (OP_UNIMP, IFMT); (OP_UNIMP, IFMT); (OP_UNIMP, IFMT); (OP_UNIMP, IFMT);
    (OP_RES, IFMT); (OP_RES, IFMT); (OP_RES, IFMT); (OP_RES, IFMT)
  ].

(** Indexed by the funct field of a SPECIAL instruction. *)
Definition specialTable : list opcode := [
    OP_SLL; OP_RES; OP_SRL; OP_SRA; OP_SLLV; OP_RES; OP_SRLV; OP_SRAV;
    OP_JR; OP_JALR; OP_RES; OP_RES; OP_SYSCALL; OP_UNIMP; OP_RES; OP_RES;
    OP_MFHI; OP_MTHI; OP_MFLO; OP_MTLO; OP_RES; OP_RES; OP_RES; OP_RES;
    OP_MULT; OP_MULTU; OP_DIV; OP_DIVU; OP_RES; OP_RES; OP_RES; OP_RES;
    OP_ADD; OP_ADDU; OP_SUB; OP_SUBU; OP_AND; OP_OR; OP_XOR; OP_NOR;
    OP_RES; OP_RES; OP_SLT; OP_SLTU; OP_RES; OP_RES; OP_RES; OP_RES;
    OP_RES; OP_RES; OP_RES; OP_RES; OP_RES; OP_RES; OP_RES; OP_RES;
    OP_RES; OP_RES; OP_RES; OP_RES; OP_RES; OP_RES; OP_RES; OP_RES
  ].

Inductive RegType := NONE | RS | RT | RD | EXTRA.

(** For the instruction trace: format and arguments, by opcode number. *)
Definition opStrings : list (string * (RegType * RegType * RegType)) := [
  ("Shouldn't happen", (NONE, NONE, NONE));
  ("ADD r%d,r%d,r%d", (RD, RS, RT));
  ("ADDI r%d,r%d,%d", (RT, RS, EXTRA));
  ("ADDIU r%d,r%d,%d", (RT, RS, EXTRA));
  ("ADDU r%d,r%d,r%d", (RD, RS, RT));
  ("AND r%d,r%d,r%d", (RD, RS, RT));
  ("ANDI r%d,r%d,%d", (RT, RS, EXTRA));
  ("BEQ r%d,r%d,%d", (RS, RT, EXTRA));
  ("BGEZ r%d,%d", (RS, EXTRA, NONE));
  ("BGEZAL r%d,%d", (RS, EXTRA, NONE));
  ("BGTZ r%d,%d", (RS, EXTRA, NONE));
  ("BLEZ r%d,%d", (RS, EXTRA, NONE));
  ("BLTZ r%d,%d", (RS, EXTRA, NONE));
  ("BLTZAL r%d,%d", (RS, EXTRA, NONE));
  ("BNE r%d,r%d,%d", (RS, RT, EXTRA));
  ("Shouldn't happen", (NONE, NONE, NONE));
  ("DIV r%d,r%d", (RS, RT, NONE));
  ("DIVU r%d,r%d", (RS, RT, NONE));
  ("J %d", (EXTRA, NONE, NONE));
  ("JAL %d", (EXTRA, NONE, NONE));
  ("JALR r%d,r%d", (RD, RS, NONE));
  ("JR r%d,r%d", (RD, RS, NONE));
  ("LB r%d,%d(r%d)", (RT, EXTRA, RS));
  ("LBU r%d,%d(r%d)", (RT, EXTRA, RS));
  ("LH r%d,%d(r%d)", (RT, EXTRA, RS));
  ("LHU r%d,%d(r%d)", (RT, EXTRA, RS));
  ("LUI r%d,%d", (RT, EXTRA, NONE));
  ("LW r%d,%d(r%d)", (RT, EXTRA, RS));
  ("LWL r%d,%d(r%d)", (RT, EXTRA, RS));
  ("LWR r%d,%d(r%d)", (RT, EXTRA, RS));
  ("Shouldn't happen", (NONE, NONE, NONE));
  ("MFHI r%d", (RD, NONE, NONE));
  ("MFLO r%d", (RD, NONE, NONE));
  ("Shouldn't happen", (NONE, NONE, NONE));
  ("MTHI r%d", (RS, NONE, NONE));
  ("MTLO r%d", (RS, NONE, NONE));
  ("MULT r%d,r%d", (RS, RT, NONE));
  ("MULTU r%d,r%d", (RS, RT, NONE));
  ("NOR r%d,r%d,r%d", (RD, RS, RT));
  ("OR r%d,r%d,r%d", (RD, RS, RT));
  ("ORI r%d,r%d,%d", (RT, RS, EXTRA));
  ("RFE", (NONE, NONE, NONE));
  ("SB r%d,%d(r%d)", (RT, EXTRA, RS));
  ("SH r%d,%d(r%d)", (RT, EXTRA, RS));
  ("SLL r%d,r%d,%d", (RD, RT, EXTRA));
  ("SLLV r%d,r%d,r%d", (RD, RT, RS));
  ("SLT r%d,r%d,r%d", (RD, RS, RT));
  ("SLTI r%d,r%d,%d", (RT, RS, EXTRA));
  ("SLTIU r%d,r%d,%d", (RT, RS, EXTRA));
  ("SLTU r%d,r%d,r%d", (RD, RS, RT));
  ("SRA r%d,r%d,%d", (RD, RT, EXTRA));
  ("SRAV r%d,r%d,r%d", (RD, RT, RS));
  ("SRL r%d,r%d,%d", (RD, RT, EXTRA));
  ("SRLV r%d,r%d,r%d", (RD, RT, RS));
  ("SUB r%d,r%d,r%d", (RD, RS, RT));
  ("SUBU r%d,r%d,r%d", (RD, RS, RT));
  ("SW r%d,%d(r%d)", (RT, EXTRA, RS));
  ("SWL r%d,%d(r%d)", (RT, EXTRA, RS));
  ("SWR r%d,%d(r%d)", (RT, EXTRA, RS));
  ("XOR r%d,r%d,r%d", (RD, RS, RT));
  ("XORI r%d,r%d,%d", (RT, RS, EXTRA));
  ("SYSCALL", (NONE, NONE, NONE));
  ("Unimplemented", (NONE, NONE, NONE));
  ("Reserved", (NONE, NONE, NONE))
].

(** ** Decoding *)

Record Instruction := mkInstr {
  value : Z;          (* unsigned *)
  opCode : opcode;
  rs : Z;
  rt : Z;
  rd : Z;
  extra : Z           (* int *)
}.

(** [Instruction::Decode]; the two tables have 64 entries and 6-bit
    indices. *)
Definition Decode (value : Z) : Instruction :=
  let rs := Z.land (Z.shiftr value 21) 0x1f in
  let rt := Z.land (Z.shiftr value 16) 0x1f in
  let rd := Z.land (Z.shiftr value 11) 0x1f in
  let '(opCode, fmt) :=
    default (OP_RES, IFMT) (opTable !! Z.to_nat (Z.land (Z.shiftr value 26) 0x3f)) in
  let extra :=
    match fmt with
    | IFMT =>
        let extra := Z.land value 0xffff in
        if negb (Z.land extra 0x8000 =? 0) then s32 (Z.lor extra 0xffff0000) else extra
    | RFMT => Z.land (Z.shiftr value 6) 0x1f
    | JFMT => Z.land value 0x3ffffff
    end in
  let opCode :=
    if decide (opCode = SPECIAL) then
      default OP_RES (specialTable !! Z.to_nat (Z.land value 0x3f))
    else if decide (opCode = BCOND) then
      let i := Z.land value 0x1f0000 in
      if i =? 0 then OP_BLTZ
      else if i =? 0x10000 then OP_BGEZ
      else if i =? 0x100000 then OP_BLTZAL
      else if i =? 0x110000 then OP_BGEZAL
      else OP_UNIMP
    else opCode in
  mkInstr value opCode rs rt rd extra.

Definition TypeToReg (reg : RegType) (instr : Instruction) : Z :=
  match reg with
  | RS => rs instr
  | RT => rt instr
  | RD => rd instr
  | EXTRA => extra instr
  | NONE => -1
  end.

(** The line of the instruction trace (flag 'm'). *)
Definition trace (instr : Instruction) : outcome (string * (Z * Z * Z)) :=
  assert! (opcode_num (opCode instr) <=? MaxOpcode);
  let! '(fmt, (a, b, c)) := arr_get opStrings (opcode_num (opCode instr)) in
  Ok (fmt, (TypeToReg a instr, TypeToReg b instr, TypeToReg c instr)).

(** ** Mult *)

Record mult_state := mkMult { mA : Z; mbLo : Z; mbHi : Z; mlo : Z; mhi : Z }.

(** One iteration of the loop; [Break] when no bit of [a] is left. *)
Definition mult_step (s : mult_state) (_ : Z) : outcome (ctl mult_state mult_state) :=
  let '(mkMult a bLo bHi lo hi) := s in
  let odd := negb (Z.land a 1 =? 0) in
  let lo' := if odd then u32 (lo + bLo) else lo in
  let hi' :=
    if odd then u32 ((if lo' <? bLo then u32 (hi + 1) else hi) + bHi) else hi in
  if odd && (Z.land (u32 a) 0xfffffffe =? 0) then Ok (Break (mkMult a bLo bHi lo' hi'))
  else
    let bHi' := u32 (Z.shiftl bHi 1) in
    let bHi' := if negb (Z.land bLo 0x80000000 =? 0) then Z.lor bHi' 1 else bHi' in
    Ok (Next (mkMult (Z.shiftr a 1) (u32 (Z.shiftl bLo 1)) bHi' lo' hi')).

(** [Mult(a, b, signedArith, hiPtr, loPtr)]: the results [(hi, lo)]. *)
Definition Mult (a b : Z) (signedArith : bool) : outcome (Z * Z) :=
  if (a =? 0) || (b =? 0) then Ok (0, 0)
  else
    let '(negative, a, b) :=
      if signedArith then
        let '(negative, a) := if a <? 0 then (true, s32 (- a)) else (false, a) in
        let '(negative, b) := if b <? 0 then (negb negative, s32 (- b)) else (negative, b) in
        (negative, a, b)
      else (false, a, b) in
    let! r := oloop mult_step (mkMult a (u32 b) 0 0 0) (seqZ 0 32) in
    let s := match r with Break s => s | Next s => s end in
    let '(hi, lo) :=
      if negative then
        let hi := u32 (Z.lnot (mhi s)) in
        let lo := u32 (u32 (Z.lnot (mlo s)) + 1) in
        let hi := if lo =? 0 then u32 (hi + 1) else hi in
        (hi, lo)
      else (mhi s, mlo s) in
    Ok (s32 hi, s32 lo).

(** ** OneInstruction *)

(** What a case of the [switch] leaves: it returned after a trap, or it
    goes on with [pcAfter], [nextLoadReg] and [nextLoadValue]. *)
Inductive flow :=
| Return
| Advance (pcAfter nextLoadReg nextLoadValue : Z).

Section Execute.
Context {K : Type} `{Kernel K}.

(** [x & SIGN_BIT], as a condition. *)
Definition sign_bit (x : Z) : bool := negb (Z.land (u32 x) SIGN_BIT =? 0).

Definition trap_return (e : ExceptionType) (addr : Z) (s : K * Machine)
    : outcome (flow * (K * Machine)) :=
  let! s := RaiseException e addr s in Ok (Return, s).

(** OP_ADD ... OP_ANDI (157-191). *)
Definition exec_add (i : Instruction) (pcAfter : Z) (s : K * Machine)
    : outcome (flow * (K * Machine)) :=
  let '(k, m) := s in
  let r := reg m in
  let done m := Ok (Advance pcAfter 0 0, (k, m)) in
  match opCode i with
  | OP_ADD =>
      let sum := s32 (r (rs i) + r (rt i)) in
      if negb (sign_bit (Z.lxor (r (rs i)) (r (rt i)))) && sign_bit (Z.lxor (r (rs i)) sum)
      then trap_return OverflowException 0 (k, m)
      else done (set_reg m (rd i) sum)
  | OP_ADDI =>
      let sum := s32 (r (rs i) + extra i) in
      if negb (sign_bit (Z.lxor (r (rs i)) (extra i))) && sign_bit (Z.lxor (extra i) sum)
      then trap_return OverflowException 0 (k, m)
      else done (set_reg m (rt i) sum)
  | OP_ADDIU => done (set_reg m (rt i) (s32 (r (rs i) + extra i)))
  | OP_ADDU => done (set_reg m (rd i) (s32 (r (rs i) + r (rt i))))
  | OP_AND => done (set_reg m (rd i) (Z.land (r (rs i)) (r (rt i))))
  | OP_ANDI => done (set_reg m (rt i) (Z.land (r (rs i)) (Z.land (extra i) 0xffff)))
  | _ => Trap AssertFail
  end.

(** OP_BEQ ... OP_BNE (193-225). *)
Definition exec_branch (i : Instruction) (pcAfter : Z) (s : K * Machine)
    : outcome (flow * (K * Machine)) :=
  let '(k, m) := s in
  let branch (m : Machine) (taken : bool) :=
    Ok (Advance (if taken then s32 (reg m NextPCReg + IndexToAddr (extra i)) else pcAfter) 0 0,
        (k, m)) in
  let link := set_reg m R31 (s32 (reg m NextPCReg + 4)) in
  match opCode i with
  | OP_BEQ => branch m (reg m (rs i) =? reg m (rt i))
  | OP_BGEZAL => branch link (negb (sign_bit (reg link (rs i))))
  | OP_BGEZ => branch m (negb (sign_bit (reg m (rs i))))
  | OP_BGTZ => branch m (0 <? reg m (rs i))
  | OP_BLEZ => branch m (reg m (rs i) <=? 0)
  | OP_BLTZAL => branch link (sign_bit (reg link (rs i)))
  | OP_BLTZ => branch m (sign_bit (reg m (rs i)))
  | OP_BNE => branch m (negb (reg m (rs i) =? reg m (rt i)))
  | _ => Trap AssertFail
  end.

(** OP_DIV ... OP_JR (227-261).  [INT_MIN / -1] overflows. *)
Definition exec_div_jump (i : Instruction) (pcAfter : Z) (s : K * Machine)
    : outcome (flow * (K * Machine)) :=
  let '(k, m) := s in
  let r := reg m in
  let hilo hi lo := Ok (Advance pcAfter 0 0, (k, set_reg (set_reg m LoReg lo) HiReg hi)) in
  let jump :=
    s32 (Z.lor (Z.land (u32 pcAfter) 0xf0000000) (u32 (IndexToAddr (extra i)))) in
  match opCode i with
  | OP_DIV =>
      if r (rt i) =? 0 then hilo 0 0
      else if (r (rs i) =? - 2 ^ 31) && (r (rt i) =? -1) then Trap Undefined
      else hilo (r (rs i) `rem` r (rt i)) (r (rs i) `quot` r (rt i))
  | OP_DIVU =>
      let rs := u32 (r (rs i)) in
      let rt := u32 (r (rt i)) in
      if rt =? 0 then hilo 0 0 else hilo (s32 (rs mod rt)) (s32 (rs / rt))
  | OP_JAL =>
      let m := set_reg m R31 (s32 (r NextPCReg + 4)) in
      Ok (Advance jump 0 0, (k, m))
  | OP_J => Ok (Advance jump 0 0, (k, m))
  | OP_JALR =>
      let m := set_reg m (rd i) (s32 (r NextPCReg + 4)) in
      Ok (Advance (reg m (rs i)) 0 0, (k, m))
  | OP_JR => Ok (Advance (r (rs i)) 0 0, (k, m))
  | _ => Trap AssertFail
  end.

(** OP_LB ... OP_LW (263-310). *)
Definition exec_load (i : Instruction) (pcAfter : Z) (s : K * Machine)
    : outcome (flow * (K * Machine)) :=
  let '(k, m) := s in
  let tmp := s32 (reg m (rs i) + extra i) in
  let read size (f : Z -> Z) :=
    let! '(value, s) := ReadMem tmp size s in
    match value with
    | None => Ok (Return, s)
    | Some value => Ok (Advance pcAfter (rt i) (f value), s)
    end in
  match opCode i with
  | OP_LB =>
      read 1 (fun value => if negb (Z.land value 0x80 =? 0)
                           then s32 (Z.lor (u32 value) 0xffffff00) else Z.land value 0xff)
  | OP_LBU => read 1 (fun value => Z.land value 0xff)
  | OP_LH =>
      if negb (Z.land tmp 1 =? 0) then trap_return AddressErrorException tmp s
      else read 2 (fun value => if negb (Z.land value 0x8000 =? 0)
                                then s32 (Z.lor (u32 value) 0xffff0000) else Z.land value 0xffff)
  | OP_LHU =>
      if negb (Z.land tmp 1 =? 0) then trap_return AddressErrorException tmp s
      else read 2 (fun value => Z.land value 0xffff)
  | OP_LUI => Ok (Advance pcAfter 0 0, (k, set_reg m (rt i) (s32 (Z.shiftl (extra i) 16))))
  | OP_LW =>
      if negb (Z.land tmp 3 =? 0) then trap_return AddressErrorException tmp s
      else read 4 (fun value => value)
  | _ => Trap AssertFail
  end.

(** OP_LWL (312-362): the bytes of the word at and below the address
    become the high bytes of the register. *)
Definition exec_load_left (i : Instruction) (pcAfter : Z) (s : K * Machine)
    : outcome (flow * (K * Machine)) :=
  let tmp := s32 (reg s.2 (rs i) + extra i) in
  let byte := Z.land tmp 3 in
  let! '(value, s) := ReadMem (s32 (tmp - byte)) 4 s in
  match value with
  | None => Ok (Return, s)
  | Some value =>
      let m := s.2 in
      let nextLoadValue :=
        if reg m LoadReg =? rt i then reg m LoadValueReg else reg m (rt i) in
      let nextLoadValue :=
        match 3 - byte with
        | 0 => value
        | 1 => s32 (Z.lor (Z.land nextLoadValue 0xff) (s32 (Z.shiftl value 8)))
        | 2 => s32 (Z.lor (Z.land nextLoadValue 0xffff) (s32 (Z.shiftl value 16)))
        | 3 => s32 (Z.lor (Z.land nextLoadValue 0xffffff) (s32 (Z.shiftl value 24)))
        | _ => nextLoadValue
        end in
      Ok (Advance pcAfter (rt i) nextLoadValue, s)
  end.

(** OP_LWR (364-418): the bytes of the word at and above the address
    become the low bytes of the register. *)
Definition exec_load_right (i : Instruction) (pcAfter : Z) (s : K * Machine)
    : outcome (flow * (K * Machine)) :=
  let tmp := s32 (reg s.2 (rs i) + extra i) in
  let byte := Z.land tmp 3 in
  let! '(value, s) := ReadMem (s32 (tmp - byte)) 4 s in
  match value with
  | None => Ok (Return, s)
  | Some value =>
      let m := s.2 in
      let nextLoadValue :=
        if reg m LoadReg =? rt i then reg m LoadValueReg else reg m (rt i) in
      let nextLoadValue :=
        match 3 - byte with
        | 0 => s32 (Z.lor (Z.land (u32 nextLoadValue) 0xffffff00)
                          (Z.land (Z.shiftr value 24) 0xff))
        | 1 => s32 (Z.lor (Z.land (u32 nextLoadValue) 0xffff0000)
                          (Z.land (Z.shiftr value 16) 0xffff))
        | 2 => s32 (Z.lor (Z.land (u32 nextLoadValue) 0xff000000)
                          (Z.land (Z.shiftr value 8) 0xffffff))
        | 3 => value
        | _ => nextLoadValue
        end in
      Ok (Advance pcAfter (rt i) nextLoadValue, s)
  end.

(** OP_MFHI ... OP_ORI (420-456). *)
Definition exec_move_logic (i : Instruction) (pcAfter : Z) (s : K * Machine)
    : outcome (flow * (K * Machine)) :=
  let '(k, m) := s in
  let r := reg m in
  let done m := Ok (Advance pcAfter 0 0, (k, m)) in
  let mult signedArith :=
    let! '(hi, lo) := Mult (r (rs i)) (r (rt i)) signedArith in
    done (set_reg (set_reg m HiReg hi) LoReg lo) in
  match opCode i with
  | OP_MFHI => done (set_reg m (rd i) (r HiReg))
  | OP_MFLO => done (set_reg m (rd i) (r LoReg))
  | OP_MTHI => done (set_reg m HiReg (r (rs i)))
  | OP_MTLO => done (set_reg m LoReg (r (rs i)))
  | OP_MULT => mult true
  | OP_MULTU => mult false
  | OP_NOR => done (set_reg m (rd i) (Z.lnot (Z.lor (r (rs i)) (r (rt i)))))
  | OP_OR => done (set_reg m (rd i) (Z.lor (r (rs i)) (r (rt i))))
  | OP_ORI => done (set_reg m (rt i) (Z.lor (r (rs i)) (Z.land (extra i) 0xffff)))
  | _ => Trap AssertFail
  end.

(** OP_SB, OP_SH (458-468), OP_SW (546-550). *)
Definition exec_store (i : Instruction) (pcAfter : Z) (s : K * Machine)
    : outcome (flow * (K * Machine)) :=
  let write size :=
    let! '(ok, s') :=
      WriteMem (s32 (u32 (s32 (reg s.2 (rs i) + extra i)))) size (reg s.2 (rt i)) s in
    if (ok : bool) then Ok (Advance pcAfter 0 0, s') else Ok (Return, s') in
  match opCode i with
  | OP_SB => write 1
  | OP_SH => write 2
  | OP_SW => write 4
  | _ => Trap AssertFail
  end.

(** OP_SLL ... OP_SUBU (470-544).  [tmp] of OP_SRL and OP_SRLV is an
    [int]. *)
Definition exec_shift_slt (i : Instruction) (pcAfter : Z) (s : K * Machine)
    : outcome (flow * (K * Machine)) :=
  let '(k, m) := s in
  let r := reg m in
  let done m := Ok (Advance pcAfter 0 0, (k, m)) in
  let bool_reg dst (b : bool) := done (set_reg m dst (if b then 1 else 0)) in
  match opCode i with
  | OP_SLL => done (set_reg m (rd i) (s32 (Z.shiftl (r (rt i)) (extra i))))
  | OP_SLLV => done (set_reg m (rd i) (s32 (Z.shiftl (r (rt i)) (Z.land (r (rs i)) 0x1f))))
  | OP_SLT => bool_reg (rd i) (r (rs i) <? r (rt i))
  | OP_SLTI => bool_reg (rt i) (r (rs i) <? extra i)
  | OP_SLTIU => bool_reg (rt i) (u32 (r (rs i)) <? u32 (extra i))
  | OP_SLTU => bool_reg (rd i) (u32 (r (rs i)) <? u32 (r (rt i)))
  | OP_SRA => done (set_reg m (rd i) (Z.shiftr (r (rt i)) (extra i)))
  | OP_SRAV => done (set_reg m (rd i) (Z.shiftr (r (rt i)) (Z.land (r (rs i)) 0x1f)))
  | OP_SRL =>
      let tmp := r (rt i) in
      let tmp := Z.shiftr tmp (extra i) in
      done (set_reg m (rd i) tmp)
  | OP_SRLV =>
      let tmp := r (rt i) in
      let tmp := Z.shiftr tmp (Z.land (r (rs i)) 0x1f) in
      done (set_reg m (rd i) tmp)
  | OP_SUB =>
      let diff := s32 (r (rs i) - r (rt i)) in
      if sign_bit (Z.lxor (r (rs i)) (r (rt i))) && sign_bit (Z.lxor (r (rs i)) diff)
      then trap_return OverflowException 0 (k, m)
      else done (set_reg m (rd i) diff)
  | OP_SUBU => done (set_reg m (rd i) (s32 (r (rs i) - r (rt i))))
  | _ => Trap AssertFail
  end.

(** OP_SWL (552-609): the high bytes of the register go to the word at and
    below the address. *)
Definition exec_store_left (i : Instruction) (pcAfter : Z) (s : K * Machine)
    : outcome (flow * (K * Machine)) :=
  let tmp := s32 (reg s.2 (rs i) + extra i) in
  let byte := Z.land tmp 3 in
  let! '(value, s) := ReadMem (s32 (tmp - byte)) 4 s in
  match value with
  | None => Ok (Return, s)
  | Some value =>
      let r := reg s.2 (rt i) in
      let value :=
        match 3 - byte with
        | 0 => r
        | 1 => s32 (Z.lor (Z.land (u32 value) 0xff000000) (Z.land (Z.shiftr r 8) 0xffffff))
        | 2 => s32 (Z.lor (Z.land (u32 value) 0xffff0000) (Z.land (Z.shiftr r 16) 0xffff))
        | 3 => s32 (Z.lor (Z.land (u32 value) 0xffffff00) (Z.land (Z.shiftr r 24) 0xff))
        | _ => value
        end in
      let! '(ok, s) := WriteMem (s32 (tmp - byte)) 4 value s in
      if (ok : bool) then Ok (Advance pcAfter 0 0, s) else Ok (Return, s)
  end.

(** OP_SWR (611-668): the low bytes of the register go to the word at and
    above the address. *)
Definition exec_store_right (i : Instruction) (pcAfter : Z) (s : K * Machine)
    : outcome (flow * (K * Machine)) :=
  let tmp := s32 (reg s.2 (rs i) + extra i) in
  let byte := Z.land tmp 3 in
  let! '(value, s) := ReadMem (s32 (tmp - byte)) 4 s in
  match value with
  | None => Ok (Return, s)
  | Some value =>
      let r := reg s.2 (rt i) in
      let value :=
        match 3 - byte with
        | 0 => s32 (Z.lor (Z.land value 0xffffff) (s32 (Z.shiftl r 24)))
        | 1 => s32 (Z.lor (Z.land value 0xffff) (s32 (Z.shiftl r 16)))
        | 2 => s32 (Z.lor (Z.land value 0xff) (s32 (Z.shiftl r 8)))
        | 3 => r
        | _ => value
        end in
      let! '(ok, s) := WriteMem (s32 (tmp - byte)) 4 value s in
      if (ok : bool) then Ok (Advance pcAfter 0 0, s) else Ok (Return, s)
  end.

(** OP_SYSCALL ... [default] (670-688). *)
Definition exec_trap (i : Instruction) (pcAfter : Z) (s : K * Machine)
    : outcome (flow * (K * Machine)) :=
  let '(k, m) := s in
  match opCode i with
  | OP_SYSCALL => trap_return SyscallException 0 s
  | OP_XOR =>
      Ok (Advance pcAfter 0 0, (k, set_reg m (rd i) (Z.lxor (reg m (rs i)) (reg m (rt i)))))
  | OP_XORI =>
      Ok (Advance pcAfter 0 0,
          (k, set_reg m (rt i) (Z.lxor (reg m (rs i)) (Z.land (extra i) 0xffff))))
  | OP_RES | OP_UNIMP => trap_return IllegalInstrException 0 s
  | _ => Trap AssertFail
  end.

(** The [switch]. *)
Definition exec (i : Instruction) (pcAfter : Z) (s : K * Machine)
    : outcome (flow * (K * Machine)) :=
  match opCode i with
  | OP_ADD | OP_ADDI | OP_ADDIU | OP_ADDU | OP_AND | OP_ANDI => exec_add i pcAfter s
  | OP_BEQ | OP_BGEZAL | OP_BGEZ | OP_BGTZ | OP_BLEZ | OP_BLTZAL | OP_BLTZ | OP_BNE =>
      exec_branch i pcAfter s
  | OP_DIV | OP_DIVU | OP_JAL | OP_J | OP_JALR | OP_JR => exec_div_jump i pcAfter s
  | OP_LB | OP_LBU | OP_LH | OP_LHU | OP_LUI | OP_LW => exec_load i pcAfter s
  | OP_LWL => exec_load_left i pcAfter s
  | OP_LWR => exec_load_right i pcAfter s
  | OP_MFHI | OP_MFLO | OP_MTHI | OP_MTLO | OP_MULT | OP_MULTU | OP_NOR | OP_OR | OP_ORI =>
      exec_move_logic i pcAfter s
  | OP_SB | OP_SH | OP_SW => exec_store i pcAfter s
  | OP_SLL | OP_SLLV | OP_SLT | OP_SLTI | OP_SLTIU | OP_SLTU | OP_SRA | OP_SRAV | OP_SRL
  | OP_SRLV | OP_SUB | OP_SUBU => exec_shift_slt i pcAfter s
  | OP_SWL => exec_store_left i pcAfter s
  | OP_SWR => exec_store_right i pcAfter s
  | OP_SYSCALL | OP_XOR | OP_XORI | OP_RES | OP_UNIMP => exec_trap i pcAfter s
  | OP_RFE | SPECIAL | BCOND => Trap AssertFail
  end.

(** The tail: the delayed load, then the program counters. *)
Definition finish_instruction (pcAfter nextLoadReg nextLoadValue : Z) (s : K * Machine)
    : outcome (K * Machine) :=
  let '(k, m) := s in
  let! m := DelayedLoad m nextLoadReg nextLoadValue in
  let m := set_reg m PrevPCReg (reg m PCReg) in
  let m := set_reg m PCReg (reg m NextPCReg) in
  Ok (k, set_reg m NextPCReg pcAfter).

Definition OneInstruction (s : K * Machine) : outcome (K * Machine) :=
  let! '(raw, s) := ReadMem (reg s.2 PCReg) 4 s in
  match raw with
  | None => Ok s
  | Some raw =>
      let instr := Decode (u32 raw) in
      let pcAfter := s32 (reg s.2 NextPCReg + 4) in
      let! '(f, s) := exec instr pcAfter s in
      match f with
      | Return => Ok s
      | Advance pcAfter nextLoadReg nextLoadValue =>
          finish_instruction pcAfter nextLoadReg nextLoadValue s
      end
  end.

(** The loop of [Run] never ends; [n] is the number of iterations
    observed.  [OneTick] is the interrupt simulation's, [Debugger] the
    interactive debugger's effect. *)
Fixpoint Run_loop (OneTick Debugger : K * Machine -> outcome (K * Machine)) (totalTicks : K -> Z)
    (n : nat) (s : K * Machine) : outcome (K * Machine) :=
  match n with
  | O => Ok s
  | S n' =>
      let! s := OneInstruction s in
      let! s := OneTick s in
      let! s := (if singleStep s.2 && (runUntilTime s.2 <=? totalTicks s.1)
                 then Debugger s else Ok s) in
      Run_loop OneTick Debugger totalTicks n' s
  end.

Definition Run OneTick Debugger totalTicks (n : nat) (s : K * Machine) : outcome (K * Machine) :=
  let '(k, m) := s in
  Run_loop OneTick Debugger totalTicks n (setStatus UserMode k, m).

End Execute.

(** ** Machine integers of the simulator *)

Lemma is_s32_hi z : is_s32 z <-> Z.shiftr z 31 = 0 \/ Z.shiftr z 31 = -1.
Proof. rewrite Z.shiftr_div_pow2 by lia. unfold is_s32. split; intros; dlia. Qed.

Lemma is_s32_land a b : is_s32 a -> is_s32 b -> is_s32 (Z.land a b).
Proof.
  rewrite !is_s32_hi, Z.shiftr_land. by intros [-> | ->] [-> | ->]; vm_compute; auto.
Qed.

Lemma is_s32_lor a b : is_s32 a -> is_s32 b -> is_s32 (Z.lor a b).
Proof.
  rewrite !is_s32_hi, Z.shiftr_lor. by intros [-> | ->] [-> | ->]; vm_compute; auto.
Qed.

Lemma is_s32_lxor a b : is_s32 a -> is_s32 b -> is_s32 (Z.lxor a b).
Proof.
  rewrite !is_s32_hi, Z.shiftr_lxor. by intros [-> | ->] [-> | ->]; vm_compute; auto.
Qed.

Lemma is_s32_lnot a : is_s32 a -> is_s32 (Z.lnot a).
Proof. unfold is_s32, Z.lnot. lia. Qed.

Lemma is_s32_shiftr a n : is_s32 a -> 0 <= n -> is_s32 (Z.shiftr a n).
Proof.
  unfold is_s32. intros Ha Hn. rewrite Z.shiftr_div_pow2 by lia.
  assert (0 < 2 ^ n) as Hp by (apply Z.pow_pos_nonneg; lia). revert Hp.
  generalize (2 ^ n) as p. intros p Hp.
  pose proof (Z.div_le_mono (- 2 ^ 31) a p Hp ltac:(lia)).
  pose proof (Z.div_le_mono a (2 ^ 31 - 1) p Hp ltac:(lia)).
  assert (- 2 ^ 31 <= - 2 ^ 31 / p) by (apply Z.div_le_lower_bound; nia).
  assert ((2 ^ 31 - 1) / p <= 2 ^ 31 - 1) by (apply Z.div_le_upper_bound; nia). lia.
Qed.

Lemma land_range a k : 0 <= k -> 0 <= Z.land a (Z.ones k) < 2 ^ k.
Proof. intros. rewrite Z.land_ones by lia. apply Z.mod_pos_bound. lia. Qed.

Lemma is_s32_small a k : 0 <= k <= 31 -> is_s32 (Z.land a (Z.ones k)).
Proof.
  intros Hk. pose proof (land_range a k ltac:(lia)).
  assert (2 ^ k <= 2 ^ 31) by (apply Z.pow_le_mono_r; lia). unfold is_s32. lia.
Qed.

#[local] Hint Resolve is_s32_land is_s32_lor is_s32_lxor is_s32_lnot : cint.

(** The sign bit of a word. *)
Lemma sign_bit_spec x : sign_bit x = (s32 x <? 0).
Proof.
  unfold sign_bit. change SIGN_BIT with (Z.shiftl (Z.ones 1) 31).
  rewrite land_mask by lia. unfold u32, s32.
  destruct (Z.ltb_spec ((x + 2 ^ 31) mod 2 ^ 32 - 2 ^ 31) 0).
  - apply negb_true_iff, Z.eqb_neq. dlia.
  - apply negb_false_iff, Z.eqb_eq. dlia.
Qed.

Lemma sign_bit_lxor a b : is_s32 a -> is_s32 b ->
  sign_bit (Z.lxor a b) = xorb (a <? 0) (b <? 0).
Proof.
  intros Ha Hb. rewrite sign_bit_spec, s32_id by (by apply is_s32_lxor).
  assert (forall z, is_s32 z -> (z <? 0) = Z.testbit z 31) as Ht.
  { intros z Hz. apply is_s32_hi in Hz. rewrite <- (Z.add_0_l 31), <- Z.shiftr_spec by lia.
    rewrite Z.shiftr_div_pow2 in * by lia.
    destruct Hz as [Hz | Hz]; rewrite Hz; vm_compute Z.testbit.
    - apply Z.ltb_ge. dlia.
    - apply Z.ltb_lt. dlia. }
  rewrite !Ht, Z.lxor_spec by (done || by apply is_s32_lxor). done.
Qed.

(** Overflow of an addition and of a subtraction, as the code tests it. *)
Lemma add_overflow a b : is_s32 a -> is_s32 b ->
  negb (sign_bit (Z.lxor a b)) && sign_bit (Z.lxor a (s32 (a + b))) =
  negb ((- 2 ^ 31 <=? a + b) && (a + b <? 2 ^ 31)).
Proof.
  intros Ha Hb. rewrite !sign_bit_lxor by (done || apply s32_range). unfold is_s32, s32 in *.
  destruct (Z.ltb_spec a 0), (Z.ltb_spec b 0), (Z.leb_spec (- 2 ^ 31) (a + b)),
    (Z.ltb_spec (a + b) (2 ^ 31)),
    (Z.ltb_spec ((a + b + 2 ^ 31) mod 2 ^ 32 - 2 ^ 31) 0); cbn; (done || dlia).
Qed.

Lemma sub_overflow a b : is_s32 a -> is_s32 b ->
  sign_bit (Z.lxor a b) && sign_bit (Z.lxor a (s32 (a - b))) =
  negb ((- 2 ^ 31 <=? a - b) && (a - b <? 2 ^ 31)).
Proof.
  intros Ha Hb. rewrite !sign_bit_lxor by (done || apply s32_range). unfold is_s32, s32 in *.
  destruct (Z.ltb_spec a 0), (Z.ltb_spec b 0), (Z.leb_spec (- 2 ^ 31) (a - b)),
    (Z.ltb_spec (a - b) (2 ^ 31)),
    (Z.ltb_spec ((a - b + 2 ^ 31) mod 2 ^ 32 - 2 ^ 31) 0); cbn; (done || dlia).
Qed.

(** ** Decoding *)

(** The opcodes the [switch] has a case for. *)
Definition executable (op : opcode) : Prop := op <> OP_RFE /\ op <> SPECIAL /\ op <> BCOND.

(** The instruction fields, by arithmetic. *)
Definition field (value pos width : Z) : Z := value / 2 ^ pos mod 2 ^ width.

Lemma land_field value pos width : 0 <= pos -> 0 <= width ->
  Z.land (Z.shiftr value pos) (Z.ones width) = field value pos width.
Proof. intros. by rewrite Z.land_ones, Z.shiftr_div_pow2 by lia. Qed.

Lemma field_range value pos width : 0 <= width -> 0 <= field value pos width < 2 ^ width.
Proof. intros. apply Z.mod_pos_bound. lia. Qed.

Lemma forall_below (n : nat) (P : Z -> Prop) :
  (forall i, In i (seqZ 0 (Z.of_nat n)) -> P i) -> forall i, 0 <= i < Z.of_nat n -> P i.
Proof. intros Hall i Hi. apply Hall, list_elem_of_In, elem_of_seqZ. lia. Qed.

(** Every entry of the tables is executable, or leads to the other
    decodings. *)
Lemma tables_executable v w : 0 <= v < 64 -> 0 <= w < 64 ->
  let '(op, fmt) := default (OP_RES, IFMT) (opTable !! Z.to_nat v) in
  (op <> OP_RFE) /\ (op = SPECIAL <-> v = 0) /\ (op = BCOND <-> v = 1) /\
  executable (default OP_RES (specialTable !! Z.to_nat w)).
Proof.
  intros Hv Hw.
  assert (executable (default OP_RES (specialTable !! Z.to_nat w))) as Hs.
  { revert w Hw. apply (forall_below 64). vm_compute seqZ. intros i Hi.
    repeat (destruct Hi as [<- | Hi]; [split_and!; vm_compute; discriminate |]). destruct Hi. }
  revert v Hv. apply (forall_below 64). vm_compute seqZ. intros i Hi.
  repeat (destruct Hi as [<- | Hi];
    [split_and!; try exact Hs; try (vm_compute; discriminate); split; (done || discriminate) |]).
  destruct Hi.
Qed.

Lemma Decode_executable value : executable (opCode (Decode value)).
Proof.
  unfold Decode. change 0x3f with (Z.ones 6). rewrite land_field by lia.
  pose proof (field_range value 26 6 ltac:(lia)) as H1. pose proof (land_range value 6 ltac:(lia)) as H2.
  pose proof (tables_executable _ _ H1 H2) as Ht.
  destruct (default (OP_RES, IFMT) _) as [op fmt]. cbn [opCode].
  destruct Ht as (Hr & _ & _ & Hx).
  destruct (decide (op = SPECIAL)) as [|Hsp]; [exact Hx |].
  destruct (decide (op = BCOND)) as [|Hbc]; [| by split_and!].
  repeat destruct (_ =? _); by split_and!.
Qed.

Lemma Decode_fields value :
  0 <= rs (Decode value) < 32 /\ 0 <= rt (Decode value) < 32 /\ 0 <= rd (Decode value) < 32 /\
  is_s32 (extra (Decode value)).
Proof.
  unfold Decode. destruct (default (OP_RES, IFMT) _) as [op fmt]. cbn [rs rt rd extra].
  change 0x1f with (Z.ones 5).
  split_and!; try (apply (land_range _ 5); lia).
  destruct fmt.
  - destruct (negb _); [apply s32_range |]. change 0xffff with (Z.ones 16). apply is_s32_small. lia.
  - change 0x3ffffff with (Z.ones 26). apply is_s32_small. lia.
  - apply (is_s32_small _ 5). lia.
Qed.

(** A signed immediate. *)
Lemma Decode_immediate value :
  (opTable !! Z.to_nat (field value 26 6)) ≫= (fun p => Some p.2) = Some IFMT ->
  extra (Decode value) = (if field value 0 16 <? 2 ^ 15 then field value 0 16
                          else field value 0 16 - 2 ^ 16).
Proof.
  unfold Decode. change 0x3f with (Z.ones 6). rewrite land_field by lia.
  destruct (opTable !! _) as [[op fmt]|]; [| done]. cbn. intros [= ->].
  change 0xffff with (Z.ones 16). rewrite Z.land_ones by lia.
  unfold field. change (2 ^ 0) with 1. rewrite Z.div_1_r. set (x := value mod 2 ^ 16).
  pose proof (Z.mod_pos_bound value (2 ^ 16) ltac:(lia)). fold x in H.
  change 0x8000 with (Z.shiftl (Z.ones 1) 15). rewrite land_mask by lia.
  destruct (Z.ltb_spec x (2 ^ 15)).
  - replace ((x / 2 ^ 15) mod 2 ^ 1 * 2 ^ 15) with 0 by dlia. done.
  - destruct (Z.eqb_spec ((x / 2 ^ 15) mod 2 ^ 1 * 2 ^ 15) 0); [exfalso; dlia |]. cbn [negb].
    change 0xffff0000 with ((2 ^ 16 - 1) * 2 ^ 16). rewrite lor_add by lia. unfold s32. dlia.
Qed.

(** ** The CPU invariant *)

(** What holds of the CPU state between the steps of an instruction: the
    registers are 40 [int]s, a pending load targets a general register,
    memory has its size and the current page table is allocated. *)
Record cpu_pre (m : Machine) : Prop := {
  cpu_length : Z.of_nat (length (registers m)) = NumTotalRegs;
  cpu_ints : Forall is_s32 (registers m);
  cpu_load : 0 <= reg m LoadReg < NumGPRegs;
  cpu_memory : mem_wf m;
  cpu_table : exists p t, paged m p t /\ page_entries_ok t
}.

(** Between instructions, moreover, register 0 is zero. *)
Definition cpu_wf (m : Machine) : Prop := cpu_pre m /\ reg m 0 = 0.

Lemma reg_s32 m i : cpu_pre m -> is_s32 (reg m i).
Proof.
  intros Hm. unfold reg. destruct (registers m !! Z.to_nat i) as [v|] eqn:E; cbn; [| by vm_compute].
  apply (Forall_elem _ _ _ (cpu_ints m Hm)). by eapply list_elem_of_lookup_2.
Qed.

Lemma reg_set_same m i v : cpu_pre m -> 0 <= i < NumTotalRegs -> reg (set_reg m i v) i = v.
Proof.
  intros Hm Hi. unfold reg, set_reg. cbn [registers set_registers].
  pose proof (cpu_length m Hm). rewrite list_lookup_insert_eq by lia. done.
Qed.

Lemma reg_set_other m i j v : 0 <= i -> 0 <= j -> i <> j -> reg (set_reg m i v) j = reg m j.
Proof.
  intros Hi Hj Hne. unfold reg, set_reg. cbn [registers set_registers].
  by rewrite list_lookup_insert_ne by lia.
Qed.

Lemma set_reg_pre_gen m i v :
  cpu_pre m -> 0 <= i < NumTotalRegs -> is_s32 v -> (i = LoadReg -> 0 <= v < NumGPRegs) ->
  cpu_pre (set_reg m i v).
Proof.
  intros Hm Hi Hv Hl. split.
  - unfold set_reg. cbn [registers set_registers]. rewrite length_insert. apply Hm.
  - apply Forall_insert; [apply Hm | done].
  - destruct (decide (i = LoadReg)) as [->|Hne]; [rewrite reg_set_same by done; auto |].
    rewrite reg_set_other by (done || lia). apply Hm.
  - apply Hm.
  - apply Hm.
Qed.

Lemma set_reg_pre m i v : cpu_pre m -> 0 <= i < LoadReg -> is_s32 v -> cpu_pre (set_reg m i v).
Proof.
  intros Hm Hi Hv. unfold LoadReg in Hi. apply set_reg_pre_gen; try done; unfold NumTotalRegs, LoadReg; lia.
Qed.

(** [DelayedLoad] restores the invariant. *)
Lemma DelayedLoad_ok m r v : cpu_pre m -> 0 <= r < NumGPRegs -> is_s32 v ->
  DelayedLoad m r v =
    Ok (set_reg (set_reg (set_reg (set_reg m (reg m LoadReg) (reg m LoadValueReg))
          LoadReg r) LoadValueReg v) 0 0) /\
  cpu_wf (set_reg (set_reg (set_reg (set_reg m (reg m LoadReg) (reg m LoadValueReg))
          LoadReg r) LoadValueReg v) 0 0).
Proof.
  intros Hm Hr Hv. pose proof (cpu_load m Hm) as Hl. pose proof (cpu_length m Hm) as Hn.
  unfold NumTotalRegs, NumGPRegs in *. split.
  - unfold DelayedLoad. rewrite arr_set_Ok by lia. done.
  - assert (is_s32 r) by (unfold is_s32; lia).
    assert (is_s32 0) by (by vm_compute).
    assert (cpu_pre (set_reg (set_reg (set_reg m (reg m LoadReg) (reg m LoadValueReg))
          LoadReg r) LoadValueReg v)) as H1.
    { apply set_reg_pre_gen; [apply set_reg_pre_gen; [apply set_reg_pre; [done | unfold LoadReg in *; lia | by apply reg_s32] | | |] | | |];
        try done; unfold NumTotalRegs, NumGPRegs, LoadReg, LoadValueReg; lia. }
    split; [apply set_reg_pre; [done | unfold LoadReg; lia | done] |].
    by apply reg_set_same.
Qed.

Create HintDb cpu.
#[local] Hint Resolve reg_s32 set_reg_pre s32_range : cpu.

(** A result that is well formed, or a trap the kernel is allowed. *)
Definition safe {K} (allowed : trap -> Prop) (o : outcome (K * Machine)) : Prop :=
  match o with
  | Ok s => cpu_wf s.2
  | Trap t => allowed t
  end.

Section Safety.
Context {K : Type} `{Kernel K}.
Variable allowed : trap -> Prop.

(** The exception handler leaves a well-formed machine, or leaves for good
    in one of the ways [allowed]. *)
Hypothesis handler_safe : forall e k m, cpu_wf m -> safe allowed (ExceptionHandler e (k, m)).

Lemma RaiseException_safe e addr k m : cpu_pre m -> is_s32 addr ->
  safe allowed (RaiseException e addr (k, m)).
Proof.
  intros Hm Ha. unfold RaiseException.
  assert (cpu_pre (set_reg m BadVAddrReg addr)) as H1.
  { apply set_reg_pre_gen; try done; unfold BadVAddrReg, NumTotalRegs, LoadReg; lia. }
  destruct (DelayedLoad_ok (set_reg m BadVAddrReg addr) 0 0) as [-> Hwf];
    [done | by vm_compute | by vm_compute |]. cbn [obind].
  pose proof (handler_safe e (setStatus SystemMode k) _ Hwf) as Hs. unfold safe in *.
  destruct (ExceptionHandler _ _) as [[k' m']|]; [exact Hs | exact Hs].
Qed.

Lemma touched_pre m p t va w : paged m p t -> page_entries_ok t ->
  cpu_pre m -> cpu_pre (touched m p t va w).
Proof.
  intros Hp Hok Hm. split; [apply Hm | apply Hm | apply Hm | apply Hm |].
  eexists p, _. split; [by apply paged_touched | by apply entries_ok_touch].
Qed.

Lemma loaded_s32 size data : legal_size size -> is_s32 (loaded size data).
Proof.
  intros [-> | [-> | ->]]; unfold loaded, s8, u16, is_s32; cbn [Z.eqb Pos.eqb]; [dlia | dlia |].
  apply s32_range.
Qed.

(** A read returns an [int] and keeps registers and memory, or traps. *)
Lemma ReadMem_safe va size k m : cpu_pre m -> legal_size size -> is_s32 va ->
  match ReadMem va size (k, m) with
  | Ok (Some v, (k', m')) =>
      is_s32 v /\ k' = k /\ cpu_pre m' /\ registers m' = registers m /\
      mainMemory m' = mainMemory m
  | Ok (None, s) => cpu_wf s.2
  | Trap t => allowed t
  end.
Proof.
  intros Hm Hs Hva. destruct (cpu_table m Hm) as (p & t & Hp & Hok).
  destruct (translate_spec t (pageTableSize m) va size false) as [e|pa] eqn:E.
  - rewrite (ReadMem_fault k m p t va size e) by done.
    pose proof (RaiseException_safe e va k m Hm Hva) as Hr. unfold safe in Hr.
    destruct (RaiseException e va (k, m)) as [[k' m']|]; exact Hr.
  - destruct (ReadMem_ok k m p t va size pa) as (d & _ & _ & ->); try done; [apply Hm |].
    split_and!; try done; [by apply loaded_s32 | by apply touched_pre].
Qed.

Lemma WriteMem_safe va size v k m : cpu_pre m -> legal_size size -> is_s32 va ->
  match WriteMem va size v (k, m) with
  | Ok (true, (k', m')) => k' = k /\ cpu_pre m' /\ registers m' = registers m
  | Ok (false, s) => cpu_wf s.2
  | Trap t => allowed t
  end.
Proof.
  intros Hm Hs Hva. destruct (cpu_table m Hm) as (p & t & Hp & Hok).
  destruct (translate_spec t (pageTableSize m) va size true) as [e|pa] eqn:E.
  - rewrite (WriteMem_fault k m p t va size v e) by done.
    pose proof (RaiseException_safe e va k m Hm Hva) as Hr. unfold safe in Hr.
    destruct (RaiseException e va (k, m)) as [[k' m']|]; exact Hr.
  - destruct (WriteMem_ok k m p t va size v pa) as (mem' & Est & ->); try done; [apply Hm |].
    pose proof (touched_pre m p t va true Hp Hok Hm) as Ht.
    split_and!; try done. split; [apply Ht | apply Ht | apply Ht | | apply Ht].
    destruct (translate_spec_phys _ _ _ _ _ _ E Hs) as (_ & _ & e & _ & _ & _ & _ & _ & H0 & _ & Hfit).
    destruct (cpu_memory m Hm) as [Hlen Hb].
    assert (0 < size) by (destruct Hs as [-> | [-> | ->]]; lia).
    destruct (store_le_Ok (mainMemory m) pa (Z.to_nat size) v) as (mem2 & E2 & Hl & Hb2 & _); [lia | lia |].
    rewrite Est in E2. injection E2 as <-. split; [cbn; by rewrite Hl | by apply Hb2].
Qed.

(** ** Every case of the switch is safe *)

(** The signed division that overflows. *)
Definition div_overflow (i : Instruction) (m : Machine) : Prop :=
  opCode i = OP_DIV /\ reg m (rs i) = - 2 ^ 31 /\ reg m (rt i) = -1.

Definition exec_safe (i : Instruction) (m : Machine) (o : outcome (flow * (K * Machine))) : Prop :=
  match o with
  | Ok (Return, s) => cpu_wf s.2
  | Ok (Advance pc r v, s) => cpu_pre s.2 /\ is_s32 pc /\ 0 <= r < NumGPRegs /\ is_s32 v
  | Trap t => allowed t \/ (t = Undefined /\ div_overflow i m)
  end.

Definition fields_ok (i : Instruction) : Prop :=
  0 <= rs i < 32 /\ 0 <= rt i < 32 /\ 0 <= rd i < 32 /\ is_s32 (extra i).

Lemma trap_return_safe i e addr k m : cpu_pre m -> is_s32 addr ->
  exec_safe i m (trap_return e addr (k, m)).
Proof.
  intros Hm Ha. unfold trap_return. pose proof (RaiseException_safe e addr k m Hm Ha) as Hr.
  unfold safe in Hr. destruct (RaiseException e addr (k, m)) as [[k' m']|]; [exact Hr |].
  by left.
Qed.

Lemma advance_safe i m0 pc k m : cpu_pre m -> is_s32 pc ->
  exec_safe i m0 (Ok (Advance pc 0 0, (k, m))).
Proof. intros Hm Hpc. split; [done |]. split; [done |]. split; [by vm_compute | by vm_compute]. Qed.

Ltac regs := unfold LoadReg, R31, HiReg, LoReg, NextPCReg, PCReg, PrevPCReg in *; lia.

Lemma bool_s32 (b : bool) : is_s32 (if b then 1 else 0).
Proof. by destruct b; vm_compute. Qed.

Lemma exec_add_safe i pc k m : cpu_pre m -> fields_ok i -> is_s32 pc ->
  opCode i ∈ [OP_ADD; OP_ADDI; OP_ADDIU; OP_ADDU; OP_AND; OP_ANDI] ->
  exec_safe i m (exec_add i pc (k, m)).
Proof.
  intros Hm (Hrs & Hrt & Hrd & Hex) Hpc Hop. unfold exec_add.
  assert (forall j, is_s32 (reg m j)) as Hreg by (intros; by apply reg_s32).
  repeat (apply elem_of_cons in Hop as [Hop | Hop]; [rewrite Hop |]); [.. | by apply not_elem_of_nil in Hop];
    repeat match goal with |- context [if ?b then trap_return _ _ _ else _] => destruct b end;
    first [ by apply trap_return_safe
          | apply advance_safe; [apply set_reg_pre; [done | regs |] | done] ].
  all: try apply s32_range.
  - by apply is_s32_land.
  - apply is_s32_land; [done |]. apply (is_s32_small _ 16). lia.
Qed.

Lemma exec_branch_safe i pc k m : cpu_pre m -> fields_ok i -> is_s32 pc ->
  opCode i ∈ [OP_BEQ; OP_BGEZAL; OP_BGEZ; OP_BGTZ; OP_BLEZ; OP_BLTZAL; OP_BLTZ; OP_BNE] ->
  exec_safe i m (exec_branch i pc (k, m)).
Proof.
  intros Hm (Hrs & Hrt & Hrd & Hex) Hpc Hop. unfold exec_branch.
  repeat (apply elem_of_cons in Hop as [Hop | Hop]; [rewrite Hop |]); [.. | by apply not_elem_of_nil in Hop];
    apply advance_safe; try done; try (apply set_reg_pre; [done | regs | apply s32_range]);
    match goal with |- context [if ?b then _ else _] => destruct b end; (apply s32_range || done).
Qed.

Lemma quot_s32 a b : is_s32 a -> is_s32 b -> b <> 0 -> ~ (a = - 2 ^ 31 /\ b = -1) ->
  is_s32 (a `quot` b) /\ is_s32 (a `rem` b).
Proof.
  unfold is_s32. intros Ha Hb H0 Hov.
  pose proof (Z.quot_rem' a b) as Hqr. pose proof (Z.rem_bound_abs a b H0) as Hrem.
  pose proof (Z.rem_sign_nz a b H0).
  assert (Z.abs (a `quot` b) <= Z.abs a) as Hq.
  { rewrite <- Z.quot_abs by done. apply Z.quot_le_upper_bound; nia. }
  split; [| lia].
  destruct (Z.eq_dec (a `quot` b) (2 ^ 31)) as [Heq|]; [| lia].
  exfalso. rewrite Heq in *. lia.
Qed.

Lemma exec_div_jump_safe i pc k m : cpu_pre m -> fields_ok i -> is_s32 pc ->
  opCode i ∈ [OP_DIV; OP_DIVU; OP_JAL; OP_J; OP_JALR; OP_JR] ->
  exec_safe i m (exec_div_jump i pc (k, m)).
Proof.
  intros Hm (Hrs & Hrt & Hrd & Hex) Hpc Hop. unfold exec_div_jump.
  assert (forall j, is_s32 (reg m j)) as Hreg by (intros; by apply reg_s32).
  assert (forall a b, is_s32 a -> is_s32 b -> cpu_pre (set_reg (set_reg m LoReg b) HiReg a)) as Hset.
  { intros a b Ha Hb. apply set_reg_pre; [apply set_reg_pre; [done | regs | done] | regs | done]. }
  assert (is_s32 0) by (by vm_compute).
  repeat (apply elem_of_cons in Hop as [Hop | Hop]; [rewrite Hop |]); [.. | by apply not_elem_of_nil in Hop].
  - destruct (Z.eqb_spec (reg m (rt i)) 0); [apply advance_safe; auto |].
    destruct (Z.eqb_spec (reg m (rs i)) (- 2 ^ 31)), (Z.eqb_spec (reg m (rt i)) (-1)); cbn [andb];
      first [ right; by split_and! | idtac ];
      (destruct (quot_s32 (reg m (rs i)) (reg m (rt i))) as [Hq Hr]; [done | done | done | tauto |];
       apply advance_safe; auto).
  - destruct (u32 (reg m (rt i)) =? 0); apply advance_safe; auto using s32_range.
  - apply advance_safe; [apply set_reg_pre; [done | regs | apply s32_range] | apply s32_range].
  - apply advance_safe; [done | apply s32_range].
  - assert (cpu_pre (set_reg m (rd i) (s32 (reg m NextPCReg + 4))))
      by (apply set_reg_pre; [done | regs | apply s32_range]).
    apply advance_safe; [done | by apply reg_s32].
  - apply advance_safe; [done | apply Hreg].
Qed.

(** A load that completes. *)
Lemma load_safe i m0 pc k m r v : cpu_pre m -> is_s32 pc -> 0 <= r < 32 -> is_s32 v ->
  exec_safe i m0 (Ok (Advance pc r v, (k, m))).
Proof. intros. split; [done |]. split; [done |]. by split. Qed.

Lemma exec_load_safe i pc k m : cpu_pre m -> fields_ok i -> is_s32 pc ->
  opCode i ∈ [OP_LB; OP_LBU; OP_LH; OP_LHU; OP_LUI; OP_LW] ->
  exec_safe i m (exec_load i pc (k, m)).
Proof.
  intros Hm (Hrs & Hrt & Hrd & Hex) Hpc Hop. unfold exec_load.
  set (tmp := s32 (reg m (rs i) + extra i)). assert (is_s32 tmp) as Htmp by apply s32_range.
  assert (forall size (f : Z -> Z), legal_size size -> (forall v, is_s32 v -> is_s32 (f v)) ->
    exec_safe i m (let! '(value, s) := ReadMem tmp size (k, m) in
      match value with None => Ok (Return, s)
      | Some value => Ok (Advance pc (rt i) (f value), s) end)) as Hread.
  { intros size f Hs Hf. pose proof (ReadMem_safe tmp size k m Hm Hs Htmp) as Hr.
    destruct (ReadMem tmp size (k, m)) as [[[v|] [k' m']]|]; cbn [obind].
    - destruct Hr as (Hv & _ & Hm' & _). apply load_safe; auto.
    - exact Hr.
    - by left. }
  assert (legal_size 1 /\ legal_size 2 /\ legal_size 4) as (? & ? & ?) by (unfold legal_size; auto).
  repeat (apply elem_of_cons in Hop as [Hop | Hop]; [rewrite Hop |]); [.. | by apply not_elem_of_nil in Hop];
    repeat match goal with |- context [if ?b then trap_return _ _ _ else _] => destruct b end;
    try (by apply trap_return_safe); try (apply Hread; [done |]); try done.
  - intros v _. destruct (negb _); [apply s32_range | apply (is_s32_small v 8); lia].
  - intros v _. apply (is_s32_small v 8). lia.
  - intros v _. destruct (negb _); [apply s32_range | apply (is_s32_small v 16); lia].
  - intros v _. apply (is_s32_small v 16). lia.
  - apply advance_safe; [apply set_reg_pre; [done | regs | apply s32_range] | done].
Qed.

(** The four cases of an unaligned load or store. *)
Lemma byte_cases tmp : Z.land tmp 3 = 0 \/ Z.land tmp 3 = 1 \/ Z.land tmp 3 = 2 \/ Z.land tmp 3 = 3.
Proof. pose proof (land_range tmp 2 ltac:(lia)). change (Z.ones 2) with 3 in *. lia. Qed.

Lemma exec_load_lr_safe i pc k m : cpu_pre m -> fields_ok i -> is_s32 pc ->
  exec_safe i m (exec_load_left i pc (k, m)) /\ exec_safe i m (exec_load_right i pc (k, m)).
Proof.
  intros Hm (Hrs & Hrt & Hrd & Hex) Hpc. unfold exec_load_left, exec_load_right. cbn [snd].
  set (tmp := s32 (reg m (rs i) + extra i)).
  assert (legal_size 4) as Hs by (unfold legal_size; auto).
  pose proof (ReadMem_safe (s32 (tmp - Z.land tmp 3)) 4 k m Hm Hs (s32_range _)) as Hr.
  destruct (ReadMem _ 4 (k, m)) as [[[v|] [k' m']]|]; cbn [obind];
    [| split; exact Hr | split; by left].
  destruct Hr as (Hv & _ & Hm' & _). cbn [snd].
  split; (apply load_safe; [done | done | done |]);
    destruct (byte_cases tmp) as [-> | [-> | [-> | ->]]]; cbn [Z.sub Z.add Z.opp Z.pos_sub Pos.sub Pos.sub_mask Pos.succ_double_mask Pos.double_mask Pos.double_pred_mask Z.succ_double Z.double Z.pred_double Pos.pred_double];
    (exact Hv || apply s32_range).
Qed.

Lemma mult_step_32 s n : exists c, mult_step s n = Ok c.
Proof. destruct s. unfold mult_step. destruct (_ && _); eauto. Qed.

Lemma Mult_returns a b sg : exists hi lo, Mult a b sg = Ok (hi, lo) /\ is_s32 hi /\ is_s32 lo.
Proof.
  unfold Mult. destruct ((a =? 0) || (b =? 0)); [by exists 0, 0 |].
  match goal with |- context [let '(_, _) := ?p in _] => destruct p as [[neg a'] b'] end.
  assert (forall l s, exists r, oloop mult_step s l = Ok r) as Hl.
  { induction l as [|n l IH]; intros s; [by eexists |]. cbn [oloop].
    destruct (mult_step_32 s n) as [[r|s'] ->]; cbn [obind]; [by eexists | apply IH]. }
  destruct (Hl (seqZ 0 32) (mkMult a' (u32 b') 0 0 0)) as [r ->]. cbn [obind].
  destruct neg; eexists _, _; (split; [done |]); split; apply s32_range.
Qed.

Lemma exec_move_logic_safe i pc k m : cpu_pre m -> fields_ok i -> is_s32 pc ->
  opCode i ∈ [OP_MFHI; OP_MFLO; OP_MTHI; OP_MTLO; OP_MULT; OP_MULTU; OP_NOR; OP_OR; OP_ORI] ->
  exec_safe i m (exec_move_logic i pc (k, m)).
Proof.
  intros Hm (Hrs & Hrt & Hrd & Hex) Hpc Hop. unfold exec_move_logic.
  assert (forall j, is_s32 (reg m j)) as Hreg by (intros; by apply reg_s32).
  assert (forall sg, exec_safe i m (let! '(hi, lo) := Mult (reg m (rs i)) (reg m (rt i)) sg in
    Ok (Advance pc 0 0, (k, set_reg (set_reg m HiReg hi) LoReg lo)))) as Hmult.
  { intros sg. destruct (Mult_returns (reg m (rs i)) (reg m (rt i)) sg) as (hi & lo & -> & ? & ?).
    cbn [obind]. apply advance_safe; [| done].
    apply set_reg_pre; [apply set_reg_pre; [done | regs | done] | regs | done]. }
  repeat (apply elem_of_cons in Hop as [Hop | Hop]; [rewrite Hop |]); [.. | by apply not_elem_of_nil in Hop];
    first [ exact (Hmult true) | exact (Hmult false)
          | apply advance_safe; [apply set_reg_pre; [done | regs |] | done] ]; try done.
  - apply is_s32_lnot. by apply is_s32_lor.
  - by apply is_s32_lor.
  - apply is_s32_lor; [done |]. apply (is_s32_small _ 16). lia.
Qed.

Lemma exec_store_safe i pc k m : cpu_pre m -> fields_ok i -> is_s32 pc ->
  opCode i ∈ [OP_SB; OP_SH; OP_SW] -> exec_safe i m (exec_store i pc (k, m)).
Proof.
  intros Hm (Hrs & Hrt & Hrd & Hex) Hpc Hop. unfold exec_store. cbn [snd].
  assert (forall size, legal_size size -> exec_safe i m
    (let! '(ok, s') := WriteMem (s32 (u32 (s32 (reg m (rs i) + extra i)))) size (reg m (rt i)) (k, m) in
     if (ok : bool) then Ok (Advance pc 0 0, s') else Ok (Return, s'))) as Hw.
  { intros size Hs.
    pose proof (WriteMem_safe (s32 (u32 (s32 (reg m (rs i) + extra i)))) size (reg m (rt i)) k m
      Hm Hs (s32_range _)) as Hr.
    destruct (WriteMem _ size _ (k, m)) as [[[] [k' m']]|]; cbn [obind].
    - destruct Hr as (_ & Hm' & _). by apply advance_safe.
    - exact Hr.
    - by left. }
  repeat (apply elem_of_cons in Hop as [Hop | Hop]; [rewrite Hop |]); [.. | by apply not_elem_of_nil in Hop];
    apply Hw; unfold legal_size; auto.
Qed.

Lemma exec_shift_slt_safe i pc k m : cpu_pre m -> fields_ok i -> is_s32 pc ->
  (opCode i = OP_SRA \/ opCode i = OP_SRL -> 0 <= extra i) ->
  opCode i ∈ [OP_SLL; OP_SLLV; OP_SLT; OP_SLTI; OP_SLTIU; OP_SLTU; OP_SRA; OP_SRAV; OP_SRL; OP_SRLV;
    OP_SUB; OP_SUBU] ->
  exec_safe i m (exec_shift_slt i pc (k, m)).
Proof.
  intros Hm (Hrs & Hrt & Hrd & Hex) Hpc Hsh Hop. unfold exec_shift_slt.
  assert (forall j, is_s32 (reg m j)) as Hreg by (intros; by apply reg_s32).
  repeat (apply elem_of_cons in Hop as [Hop | Hop]; [rewrite Hop in * |]); [.. | by apply not_elem_of_nil in Hop];
    repeat match goal with |- context [if ?b then trap_return _ _ _ else _] => destruct b end;
    first [ by apply trap_return_safe
          | apply advance_safe; [apply set_reg_pre; [done | regs |] | done] ];
    try apply s32_range; try apply bool_s32; (apply is_s32_shiftr; [done |]);
    first [ apply Hsh; by auto | apply (land_range _ 5); lia ].
Qed.

Lemma exec_store_lr_safe i pc k m : cpu_pre m -> fields_ok i -> is_s32 pc ->
  exec_safe i m (exec_store_left i pc (k, m)) /\ exec_safe i m (exec_store_right i pc (k, m)).
Proof.
  intros Hm (Hrs & Hrt & Hrd & Hex) Hpc. unfold exec_store_left, exec_store_right. cbn [snd].
  set (tmp := s32 (reg m (rs i) + extra i)).
  assert (legal_size 4) as Hs by (unfold legal_size; auto).
  pose proof (ReadMem_safe (s32 (tmp - Z.land tmp 3)) 4 k m Hm Hs (s32_range _)) as Hr.
  destruct (ReadMem _ 4 (k, m)) as [[[v|] [k' m']]|]; cbn [obind];
    [| split; exact Hr | split; by left].
  destruct Hr as (Hv & _ & Hm' & _).
  assert (forall v, exec_safe i m
    (let! '(ok, s) := WriteMem (s32 (tmp - Z.land tmp 3)) 4 v (k', m') in
     if (ok : bool) then Ok (Advance pc 0 0, s) else Ok (Return, s))) as Hw; [| split; apply Hw].
  intros w. pose proof (WriteMem_safe (s32 (tmp - Z.land tmp 3)) 4 w k' m' Hm' Hs (s32_range _)) as Hr.
  destruct (WriteMem _ 4 _ (k', m')) as [[[] [k2 m2]]|]; cbn [obind].
  - destruct Hr as (_ & Hm2 & _). by apply advance_safe.
  - exact Hr.
  - by left.
Qed.

Lemma exec_trap_safe i pc k m : cpu_pre m -> fields_ok i -> is_s32 pc ->
  opCode i ∈ [OP_SYSCALL; OP_XOR; OP_XORI; OP_RES; OP_UNIMP] -> exec_safe i m (exec_trap i pc (k, m)).
Proof.
  intros Hm (Hrs & Hrt & Hrd & Hex) Hpc Hop. unfold exec_trap.
  assert (forall j, is_s32 (reg m j)) as Hreg by (intros; by apply reg_s32).
  repeat (apply elem_of_cons in Hop as [Hop | Hop]; [rewrite Hop |]); [.. | by apply not_elem_of_nil in Hop];
    first [ by apply trap_return_safe
          | apply advance_safe; [apply set_reg_pre; [done | regs |] | done] ].
  - by apply is_s32_lxor.
  - apply is_s32_lxor; [done |]. apply (is_s32_small _ 16). lia.
Qed.

Ltac in_list := repeat first [apply list_elem_of_here | apply list_elem_of_further].

Lemma exec_ok i pc k m : cpu_pre m -> fields_ok i -> is_s32 pc -> executable (opCode i) ->
  (opCode i = OP_SRA \/ opCode i = OP_SRL -> 0 <= extra i) ->
  exec_safe i m (exec i pc (k, m)).
Proof.
  intros Hm Hf Hpc (Hx1 & Hx2 & Hx3) Hsh. unfold exec.
  destruct (exec_load_lr_safe i pc k m Hm Hf Hpc) as [Hl1 Hl2].
  destruct (exec_store_lr_safe i pc k m Hm Hf Hpc) as [Hs1 Hs2].
  destruct (opCode i) eqn:Hop;
    try (exfalso; exact (Hx1 eq_refl) || exact (Hx2 eq_refl) || exact (Hx3 eq_refl));
    match goal with
    | |- exec_safe _ _ (exec_add _ _ _) => apply exec_add_safe; [done .. |]
    | |- exec_safe _ _ (exec_branch _ _ _) => apply exec_branch_safe; [done .. |]
    | |- exec_safe _ _ (exec_div_jump _ _ _) => apply exec_div_jump_safe; [done .. |]
    | |- exec_safe _ _ (exec_load _ _ _) => apply exec_load_safe; [done .. |]
    | |- exec_safe _ _ (exec_move_logic _ _ _) => apply exec_move_logic_safe; [done .. |]
    | |- exec_safe _ _ (exec_store _ _ _) => apply exec_store_safe; [done .. |]
    | |- exec_safe _ _ (exec_shift_slt _ _ _) => apply exec_shift_slt_safe; [done .. | rewrite Hop; exact Hsh |]
    | |- exec_safe _ _ (exec_trap _ _ _) => apply exec_trap_safe; [done .. |]
    | |- exec_safe _ _ (exec_load_left _ _ _) => exact Hl1
    | |- exec_safe _ _ (exec_load_right _ _ _) => exact Hl2
    | |- exec_safe _ _ (exec_store_left _ _ _) => exact Hs1
    | |- exec_safe _ _ (exec_store_right _ _ _) => exact Hs2
    end; rewrite Hop; in_list.
Qed.

(** SRA and SRL are SPECIAL instructions: their shift count is 5 bits. *)
Lemma Decode_shift value : opCode (Decode value) = OP_SRA \/ opCode (Decode value) = OP_SRL ->
  0 <= extra (Decode value).
Proof.
  unfold Decode. change 0x3f with (Z.ones 6). rewrite land_field by lia.
  pose proof (field_range value 26 6 ltac:(lia)) as H1. revert H1. generalize (field value 26 6) as v.
  intros v Hv. assert (v = 0 \/ let '(op, fmt) := default (OP_RES, IFMT) (opTable !! Z.to_nat v) in
    op <> SPECIAL /\ op <> OP_SRA /\ op <> OP_SRL) as [-> | Hv'].
  { revert v Hv. apply (forall_below 64). vm_compute seqZ. intros j Hj.
    repeat (destruct Hj as [<- | Hj]; [first [by left | right; split_and!; discriminate] |]). destruct Hj. }
  - intros _. cbn. apply (land_range _ 5). lia.
  - destruct (default (OP_RES, IFMT) _) as [op fmt]. destruct Hv' as (Ha & Hb & Hc).
    cbn [opCode extra]. rewrite decide_False by done. intros Hop.
    exfalso. destruct (decide (op = BCOND)); [| by destruct Hop].
    destruct (_ =? _); [by destruct Hop |]. destruct (_ =? _); [by destruct Hop |].
    destruct (_ =? _); [by destruct Hop |]. destruct (_ =? _); by destruct Hop.
Qed.

Lemma finish_safe pc r v (k : K) m : cpu_pre m -> is_s32 pc -> 0 <= r < NumGPRegs -> is_s32 v ->
  exists m', finish_instruction pc r v (k, m) = Ok (k, m') /\ cpu_wf m'.
Proof.
  intros Hm Hpc Hr Hv. unfold finish_instruction.
  destruct (DelayedLoad_ok m r v Hm Hr Hv) as [-> [Hw H0]]. cbn [obind].
  set (m1 := set_reg _ 0 0) in *. eexists. split; [done |]. split.
  - apply set_reg_pre; [apply set_reg_pre; [apply set_reg_pre; [done | regs | by apply reg_s32] | regs |] | regs | done].
    apply reg_s32. apply set_reg_pre; [done | regs | by apply reg_s32].
  - rewrite !reg_set_other by (unfold PCReg, NextPCReg, PrevPCReg; lia). done.
Qed.

(** ** Properties: safety *)

(** C10.  The CPU invariant is kept by every instruction: whatever word is
    fetched, [OneInstruction] never fails an ASSERT, never leaves the
    register file or memory, keeps register 0 zero and every register an
    [int]; it ends in a well-formed state, or in a trap of the kernel's own
    handler, or (the one gap) in the host's division overflow of [DIV] of
    -2^31 by -1. *)
Theorem OneInstruction_safe k m :
  cpu_wf m ->
  match OneInstruction (k, m) with
  | Ok s => cpu_wf s.2
  | Trap t => allowed t \/
      (t = Undefined /\ exists raw k' m', ReadMem (reg m PCReg) 4 (k, m) = Ok (Some raw, (k', m')) /\
         div_overflow (Decode (u32 raw)) m')
  end.
Proof.
  intros [Hm H0]. unfold OneInstruction. cbn [snd].
  assert (legal_size 4) as Hs by (unfold legal_size; auto).
  pose proof (ReadMem_safe (reg m PCReg) 4 k m Hm Hs (reg_s32 m _ Hm)) as Hr.
  destruct (ReadMem _ 4 (k, m)) as [[[raw|] [k1 m1]]|] eqn:Efetch; cbn [obind]; [| exact Hr | by left].
  destruct Hr as (_ & _ & Hm1 & _). cbn [snd].
  pose proof (exec_ok (Decode (u32 raw)) (s32 (reg m1 NextPCReg + 4)) k1 m1 Hm1
    (Decode_fields _) (s32_range _) (Decode_executable _) (Decode_shift _)) as He.
  destruct (exec _ _ (k1, m1)) as [[[|pc r v] [k2 m2]]|t]; cbn [obind].
  - exact He.
  - destruct He as (Hm2 & Hpc & Hrr & Hv).
    destruct (finish_safe pc r v k2 m2 Hm2 Hpc Hrr Hv) as (m3 & -> & Hw). exact Hw.
  - destruct He as [He | [-> He]]; [by left |]. right. eauto 10.
Qed.

End Safety.

(** ** Multiplication *)

Definition dword (hi lo : Z) : Z := hi * 2 ^ 32 + lo.

(** Before iteration [i]: [a] is shifted by [i], the shifted [b] and the
    partial product are exact modulo 2^64. *)
Record mult_inv (a0 B i : Z) (s : mult_state) : Prop := {
  inv_a : mA s = a0 / 2 ^ i;
  inv_b : dword (mbHi s) (mbLo s) = (B * 2 ^ i) mod 2 ^ 64;
  inv_p : dword (mhi s) (mlo s) = (B * (a0 mod 2 ^ i)) mod 2 ^ 64;
  inv_r : is_u32 (mbHi s) /\ is_u32 (mbLo s) /\ is_u32 (mhi s) /\ is_u32 (mlo s)
}.

Definition product_is (P : Z) (s : mult_state) : Prop :=
  dword (mhi s) (mlo s) = P mod 2 ^ 64 /\ is_u32 (mhi s) /\ is_u32 (mlo s).

(** The two-word addition and shift of the loop body. *)
Lemma add_dword hi lo bHi bLo : is_u32 hi -> is_u32 lo -> is_u32 bHi -> is_u32 bLo ->
  let lo' := u32 (lo + bLo) in
  let hi' := u32 ((if lo' <? bLo then u32 (hi + 1) else hi) + bHi) in
  dword hi' lo' = (dword hi lo + dword bHi bLo) mod 2 ^ 64.
Proof.
  unfold is_u32, dword, u32. intros ? ? ? ?. cbv zeta.
  destruct (Z.ltb_spec ((lo + bLo) mod 2 ^ 32) bLo); dlia.
Qed.

Lemma shift_dword bHi bLo : is_u32 bHi -> is_u32 bLo ->
  let bHi' := u32 (Z.shiftl bHi 1) in
  let bHi' := if negb (Z.land bLo 0x80000000 =? 0) then Z.lor bHi' 1 else bHi' in
  dword bHi' (u32 (Z.shiftl bLo 1)) = (2 * dword bHi bLo) mod 2 ^ 64 /\ is_u32 bHi'.
Proof.
  unfold is_u32, dword. intros ? ?. cbv zeta. rewrite !Z.shiftl_mul_pow2 by lia.
  change 0x80000000 with (Z.shiftl (Z.ones 1) 31). rewrite land_mask by lia.
  replace (u32 (bHi * 2 ^ 1)) with (bHi mod 2 ^ 31 * 2 ^ 1) by (unfold u32; dlia).
  rewrite lor_add' by lia. unfold u32.
  destruct (Z.eqb_spec ((bLo / 2 ^ 31) mod 2 ^ 1 * 2 ^ 31) 0); cbn [negb]; dlia.
Qed.

Lemma odd_land a : negb (Z.land a 1 =? 0) = (a mod 2 =? 1).
Proof.
  change 1 with (Z.ones 1) at 1. rewrite Z.land_ones by lia. change (2 ^ 1) with 2.
  pose proof (Z.mod_pos_bound a 2 ltac:(lia)).
  destruct (Z.eqb_spec (a mod 2) 0), (Z.eqb_spec (a mod 2) 1); cbn; (done || lia).
Qed.

Lemma mod_pow_succ a i : 0 <= i ->
  a mod 2 ^ (i + 1) = a mod 2 ^ i + 2 ^ i * ((a / 2 ^ i) mod 2) /\ a / 2 ^ (i + 1) = a / 2 ^ i / 2.
Proof.
  intros Hi. rewrite Z.pow_add_r by lia. change (2 ^ 1) with 2.
  assert (2 ^ i <> 0) by (apply Z.pow_nonzero; lia).
  split; [apply Z.rem_mul_r; lia | symmetry; apply Z.div_div; lia].
Qed.

Lemma mod64_step B p i q :
  (B * p + (if q =? 1 then B * 2 ^ i else 0)) mod 2 ^ 64 = (B * (p + 2 ^ i * q)) mod 2 ^ 64 \/
  (q <> 0 /\ q <> 1).
Proof.
  destruct (Z.eqb_spec q 1) as [->|]; [left; f_equal; ring |].
  destruct (Z.eq_dec q 0) as [->|]; [left; f_equal; ring | right; lia].
Qed.

Lemma mult_step_ok a0 B i s n : is_s32 a0 -> 0 <= i < 32 -> mult_inv a0 B i s ->
  (exists s', mult_step s n = Ok (Next s') /\ mult_inv a0 B (i + 1) s') \/
  (exists s', mult_step s n = Ok (Break s') /\ product_is (u32 a0 * B) s').
Proof.
  intros Ha0 Hi [Ha Hb Hp (R1 & R2 & R3 & R4)]. destruct s as [a bLo bHi lo hi]. cbn in *.
  unfold mult_step. rewrite odd_land.
  destruct (mod_pow_succ a0 i ltac:(lia)) as [Hmod Hdiv].
  pose proof (add_dword hi lo bHi bLo R3 R4 R1 R2) as Hadd. cbv zeta in Hadd.
  set (lo' := u32 (lo + bLo)) in *. set (hi' := u32 ((if lo' <? bLo then _ else _) + bHi)) in *.
  destruct (shift_dword bHi bLo R1 R2) as [Hsh Rsh]. set (bHi' := if negb _ then _ else _) in *.
  assert (dword (if a mod 2 =? 1 then hi' else hi) (if a mod 2 =? 1 then lo' else lo) =
    (B * (a0 mod 2 ^ (i + 1))) mod 2 ^ 64) as Hp'.
  { rewrite Hmod, <- Ha. destruct (mod64_step B (a0 mod 2 ^ i) i (a mod 2)) as [<-|Hn].
    - destruct (a mod 2 =? 1).
      + rewrite Hadd, Hp, Hb. by rewrite <- Zplus_mod.
      + by rewrite Hp, Z.add_0_r.
    - pose proof (Z.mod_pos_bound a 2 ltac:(lia)). lia. }
  assert (is_u32 (if a mod 2 =? 1 then hi' else hi) /\ is_u32 (if a mod 2 =? 1 then lo' else lo)) as [R5 R6].
  { destruct (a mod 2 =? 1); split; first [done | apply u32_range]. }
  replace (if a mod 2 =? 1 then u32 ((if (if a mod 2 =? 1 then lo' else lo) <? bLo
      then u32 (hi + 1) else hi) + bHi) else hi) with (if a mod 2 =? 1 then hi' else hi)
    by (by destruct (a mod 2 =? 1)).
  destruct ((a mod 2 =? 1) && (Z.land (u32 a) 4294967294 =? 0)) eqn:Hbr.
  - right. eexists. split; [done |]. split; [| done]. cbn [mhi mlo]. rewrite Hp'.
    apply andb_true_iff in Hbr as [Hodd%Z.eqb_eq Hz%Z.eqb_eq].
    change 4294967294 with (Z.shiftl (Z.ones 31) 1) in Hz. rewrite land_mask in Hz by lia.
    assert (a = 1) as Ha1.
    { assert (is_s32 a) as Has.
      { rewrite Ha, <- Z.shiftr_div_pow2 by lia. apply is_s32_shiftr; [done | lia]. }
      unfold is_s32, u32 in *. dlia. }
    assert (u32 a0 = a0 mod 2 ^ (i + 1)) as ->; [| f_equal; ring].
    assert (0 < 2 ^ i) by (apply Z.pow_pos_nonneg; lia).
    pose proof (Z.div_mod a0 (2 ^ i) ltac:(lia)) as Hdm. rewrite <- Ha, Ha1 in Hdm.
    pose proof (Z.mod_pos_bound a0 (2 ^ i) ltac:(lia)).
    rewrite Hmod, <- Ha, Ha1. rewrite u32_id; [change (1 mod 2) with 1; lia |].
    unfold is_s32, is_u32 in *. lia.
  - left. eexists. split; [done |]. split; cbn [mA mbHi mbLo mhi mlo]; [| | done | ].
    + rewrite Hdiv, <- Ha, Z.shiftr_div_pow2 by lia. done.
    + rewrite Hsh, Hb, Z.pow_add_r by lia. change (2 ^ 1) with 2.
      rewrite Z.mul_mod_idemp_r by lia. f_equal. ring.
    + split; [done |]. split; [apply u32_range | done].
Qed.

Lemma mult_loop_ok a0 B : is_s32 a0 -> is_u32 B ->
  exists r, oloop mult_step (mkMult a0 B 0 0 0) (seqZ 0 32) = Ok r /\
    product_is (u32 a0 * B) (match r with Break s => s | Next s => s end).
Proof.
  intros Ha HB.
  destruct (oloop_seqZ (mult_inv a0 B) (product_is (u32 a0 * B)) mult_step 0 32 (mkMult a0 B 0 0 0))
    as [(s & -> & [_ _ Hp R])|(r & -> & Hr)].
  - lia.
  - split; cbn.
    + by rewrite Z.div_1_r.
    + unfold is_u32, dword in *. rewrite Z.mul_1_r. dlia.
    + by rewrite Z.mod_1_r, Z.mul_0_r.
    + unfold is_u32 in *. lia.
  - intros i s Hi Hs. apply mult_step_ok; [done | lia | done].
  - eexists. split; [done |]. split; [| by destruct R as (_ & _ & ? & ?)]. rewrite Hp.
    change (0 + 32) with 32. unfold u32. f_equal. ring.
  - by eexists.
Qed.

(** The double word of a result. *)
Lemma dword_words hi lo P : is_u32 hi -> is_u32 lo -> dword hi lo = P mod 2 ^ 64 ->
  s32 hi = s32 (P / 2 ^ 32) /\ s32 lo = s32 P.
Proof. unfold is_u32, dword, s32. intros. split; dlia. Qed.

Lemma neg_dword hi lo P : is_u32 hi -> is_u32 lo -> dword hi lo = P mod 2 ^ 64 ->
  let lo' := u32 (u32 (Z.lnot lo) + 1) in
  let hi' := u32 (Z.lnot hi) in
  let hi' := if lo' =? 0 then u32 (hi' + 1) else hi' in
  dword hi' lo' = (- P) mod 2 ^ 64 /\ is_u32 hi' /\ is_u32 lo'.
Proof.
  unfold is_u32, dword, u32. intros ? ? E. cbv zeta.
  replace (Z.lnot lo) with (- lo - 1) by (unfold Z.lnot; lia).
  replace (Z.lnot hi) with (- hi - 1) by (unfold Z.lnot; lia).
  destruct (Z.eqb_spec (((- lo - 1) mod 2 ^ 32 + 1) mod 2 ^ 32) 0); dlia.
Qed.

Lemma abs_word a : is_s32 a -> a <> 0 ->
  let '(n, a') := if a <? 0 then (true, s32 (- a)) else (false, a) in
  is_s32 a' /\ u32 a' = Z.abs a /\ n = (a <? 0).
Proof.
  unfold is_s32, s32, u32. intros Ha H0. destruct (Z.ltb_spec a 0); split_and!; dlia.
Qed.

(** C11.  [Mult] computes the exact 64-bit product of its operands, read
    as signed or as unsigned words: [hi] and [lo] are its upper and lower
    word.  (Every pair of operands, -2^31 included.) *)
Theorem Mult_correct a b (signedArith : bool) :
  is_s32 a -> is_s32 b ->
  let P := if signedArith then a * b else u32 a * u32 b in
  Mult a b signedArith = Ok (s32 (P / 2 ^ 32), s32 P).
Proof.
  intros Ha Hb P. unfold Mult.
  destruct (Z.eqb_spec a 0) as [Ha0|Ha0]; [subst a; by destruct signedArith |].
  destruct (Z.eqb_spec b 0) as [Hb0|Hb0].
  { subst b. unfold P. destruct signedArith; cbn [orb u32]; by rewrite Z.mul_0_r. }
  cbn [orb]. destruct signedArith.
  - pose proof (abs_word a Ha Ha0) as Aa. pose proof (abs_word b Hb Hb0) as Ab.
    destruct (if a <? 0 then (true, s32 (- a)) else (false, a)) as [n a'] eqn:Ea. destruct Aa as (Ra & Ua & ->).
    assert (exists n2 b', (if b <? 0 then (negb (a <? 0), s32 (- b)) else (a <? 0, b)) = (n2, b') /\
      u32 b' = Z.abs b /\ n2 = xorb (a <? 0) (b <? 0)) as (n2 & b' & -> & Ub & ->).
    { destruct (b <? 0); destruct Ab as (_ & Ub & _); eexists _, _; (split; [done |]); (split; [done |]);
        by destruct (a <? 0). }
    destruct (mult_loop_ok a' (u32 b') Ra (u32_range _)) as (r & -> & Hp & R1 & R2). cbn [obind].
    rewrite Ua, Ub in Hp. set (s := match r with Break s => s | Next s => s end) in *.
    assert (0 <= P \/ P < 0) as [HP|HP] by lia.
    + assert (xorb (a <? 0) (b <? 0) = false) as ->.
      { subst P. destruct (Z.ltb_spec a 0), (Z.ltb_spec b 0); (done || nia). }
      replace (Z.abs a * Z.abs b) with P in Hp by (subst P; rewrite <- Z.abs_mul; lia).
      destruct (dword_words _ _ _ R1 R2 Hp) as [-> ->]. done.
    + assert (xorb (a <? 0) (b <? 0) = true) as ->.
      { subst P. destruct (Z.ltb_spec a 0), (Z.ltb_spec b 0); (done || nia). }
      destruct (neg_dword _ _ _ R1 R2 Hp) as (Hn & R3 & R4).
      replace (- (Z.abs a * Z.abs b)) with P in Hn by (subst P; rewrite <- Z.abs_mul; lia).
      destruct (dword_words _ _ _ R3 R4 Hn) as [-> ->]. done.
  - destruct (mult_loop_ok a (u32 b) Ha (u32_range _)) as (r & -> & Hp & R1 & R2). cbn [obind].
    by destruct (dword_words _ _ _ R1 R2 Hp) as [-> ->].
Qed.

(** ** Properties of the instructions *)

Section Instructions.
Context {K : Type} `{Kernel K}.

Definition fits_int (z : Z) : Prop := - 2 ^ 31 <= z < 2 ^ 31.

Lemma fits_int_dec z : negb ((- 2 ^ 31 <=? z) && (z <? 2 ^ 31)) = false -> fits_int z.
Proof. unfold fits_int. destruct (Z.leb_spec (- 2 ^ 31) z), (Z.ltb_spec z (2 ^ 31)); (lia || done). Qed.

Lemma not_fits_int_dec z : negb ((- 2 ^ 31 <=? z) && (z <? 2 ^ 31)) = true -> ~ fits_int z.
Proof. unfold fits_int. destruct (Z.leb_spec (- 2 ^ 31) z), (Z.ltb_spec z (2 ^ 31)); (lia || done). Qed.

(** The trapping arithmetic: operands, destination, exact result. *)
Definition trapping (i : Instruction) (m : Machine) : option (Z * Z) :=
  match opCode i with
  | OP_ADD => Some (rd i, reg m (rs i) + reg m (rt i))
  | OP_ADDI => Some (rt i, reg m (rs i) + extra i)
  | OP_SUB => Some (rd i, reg m (rs i) - reg m (rt i))
  | _ => None
  end.

(** C12.  ADD, ADDI and SUB write the exact sum or difference when it fits
    an [int], and otherwise raise OverflowException with the destination
    unwritten: the sign-bit tests of the code detect exactly the
    overflows. *)
Theorem trapping_arithmetic i pc k m dst z :
  cpu_wf m -> fields_ok i -> trapping i m = Some (dst, z) ->
  (fits_int z -> exec i pc (k, m) = Ok (Advance pc 0 0, (k, set_reg m dst z))) /\
  (~ fits_int z -> exec i pc (k, m) =
     let! s := RaiseException OverflowException 0 (k, m) in Ok (Return, s)).
Proof.
  intros [Hm _] (_ & _ & _ & Hex) Ht. unfold trapping in Ht.
  pose proof (reg_s32 m (rs i) Hm) as Hs. pose proof (reg_s32 m (rt i) Hm) as Hr.

  unfold exec. destruct (opCode i) eqn:Hop; try discriminate; injection Ht as <- <-;
    unfold exec_add, exec_shift_slt; rewrite Hop.
  - rewrite add_overflow by done. destruct (negb _) eqn:E.
    + apply not_fits_int_dec in E. done.
    + apply fits_int_dec in E. rewrite s32_id by exact E. done.
  - rewrite (Z.add_comm (reg m (rs i))), Z.lxor_comm, add_overflow by done.
    destruct (negb _) eqn:E.
    + apply not_fits_int_dec in E. done.
    + apply fits_int_dec in E. rewrite s32_id by exact E. done.
  - rewrite sub_overflow by done. destruct (negb _) eqn:E.
    + apply not_fits_int_dec in E. done.
    + apply fits_int_dec in E. rewrite s32_id by exact E. done.
Qed.

(** SRL is executed as SRA: [tmp] is a signed [int], so the sign bit
    is shifted in.  On a negative register and a positive count the result
    is not the logical shift of the word. *)
Theorem SRL_is_arithmetic i pc k m :
  cpu_wf m -> fields_ok i -> opCode i = OP_SRL -> 1 <= extra i < 32 -> reg m (rt i) < 0 ->
  let sra := mkInstr (value i) OP_SRA (rs i) (rt i) (rd i) (extra i) in
  exec i pc (k, m) = exec sra pc (k, m) /\
  exists v, exec i pc (k, m) = Ok (Advance pc 0 0, (k, set_reg m (rd i) v)) /\
    v < 0 /\ v <> s32 (Z.shiftr (u32 (reg m (rt i))) (extra i)).
Proof.
  intros [Hm _] _ Hop Hsh Hneg sra. pose proof (reg_s32 m (rt i) Hm) as Hr.
  unfold exec. rewrite Hop. cbn [opCode sra]. unfold exec_shift_slt. rewrite Hop. cbn [opCode rs rt rd extra sra].
  split; [done |]. eexists. split; [done |].
  assert (Z.shiftr (reg m (rt i)) (extra i) < 0) as Hlt by (by apply Z.shiftr_neg). split; [done |].
  enough (0 <= s32 (Z.shiftr (u32 (reg m (rt i))) (extra i))) by lia.
  pose proof (u32_range (reg m (rt i))) as Hu. unfold is_u32 in Hu. rewrite Z.shiftr_div_pow2 by lia.
  assert (0 <= u32 (reg m (rt i)) / 2 ^ extra i < 2 ^ 31) as Hb.
  { assert (2 <= 2 ^ extra i) by (change 2 with (2 ^ 1) at 1; apply Z.pow_le_mono_r; lia).
    split; [apply Z.div_pos; lia |]. apply Z.div_lt_upper_bound; nia. }
  rewrite s32_id by (unfold is_s32; lia). lia.
Qed.

(** ** The tail: both delay slots *)

(** C14.  The tail of an instruction: the load of the previous instruction
    reaches its register only now (and wins over a write of this one), this
    instruction's load becomes pending, register 0 is zero again, and the
    instruction in the branch delay slot ([NextPC]) is next, the branch
    target after it. *)
Theorem finish_instruction_spec pc r v (k : K) m :
  cpu_pre m -> is_s32 pc -> 0 <= r < NumGPRegs -> is_s32 v ->
  exists m', finish_instruction pc r v (k, m) = Ok (k, m') /\ cpu_wf m' /\
    (forall j, 1 <= j < NumGPRegs ->
       reg m' j = if j =? reg m LoadReg then reg m LoadValueReg else reg m j) /\
    reg m' LoadReg = r /\ reg m' LoadValueReg = v /\
    reg m' PrevPCReg = reg m PCReg /\ reg m' PCReg = reg m NextPCReg /\ reg m' NextPCReg = pc /\
    mainMemory m' = mainMemory m.
Proof.
  intros Hm Hpc Hr Hv. destruct (finish_safe pc r v k m Hm Hpc Hr Hv) as (m' & E & Hw).
  exists m'. split; [done |]. split; [done |]. unfold finish_instruction in E.
  destruct (DelayedLoad_ok m r v Hm Hr Hv) as [ED _]. rewrite ED in E. cbn [obind] in E.
  injection E as <-. pose proof (cpu_load m Hm) as Hl. pose proof (cpu_length m Hm) as Hlen.
  unfold NumGPRegs, NumTotalRegs, LoadReg, LoadValueReg, PrevPCReg, PCReg, NextPCReg in *.
  assert (forall m i j v, Z.of_nat (length (registers m)) = 40 -> 0 <= i < 40 -> 0 <= j ->
    reg (set_reg m i v) j = if j =? i then v else reg m j) as Hset.
  { intros m0 i j w Hm0 Hi Hj. destruct (Z.eqb_spec j i) as [->|Hne].
    - unfold reg, set_reg. cbn [registers set_registers]. by rewrite list_lookup_insert_eq by lia.
    - apply reg_set_other; lia. }
  assert (forall m i v, Z.of_nat (length (registers m)) = 40 ->
    Z.of_nat (length (registers (set_reg m i v))) = 40) as Hlen2.
  { intros m0 i w Hm0. unfold set_reg. cbn [registers set_registers]. by rewrite length_insert. }
  assert (forall j, 0 <= j -> (Z.eqb j 37 = false) -> (Z.eqb j 38 = false) -> (Z.eqb j 0 = false) ->
    reg (set_reg (set_reg (set_reg (set_reg m (reg m 37) (reg m 38)) 37 r) 38 v) 0 0) j =
    if j =? reg m 37 then reg m 38 else reg m j) as Hb.
  { intros j Hj E1 E2 E3. rewrite !Hset by (lia || auto 10). by rewrite E1, E2, E3. }
  split_and!; [| (rewrite !Hset by (lia || auto 10);
      repeat match goal with |- context [?a =? ?b] => destruct (Z.eqb_spec a b); try lia end;
      done) .. | done].
  intros j Hj. rewrite !(Hset _ _ j) by (lia || auto 10).
  rewrite !(proj2 (Z.eqb_neq j _)) by lia. done.
Qed.

(** ** Unaligned loads *)

(** The merges of LWR and LWL, by byte offset. *)
Definition lwr_merge (old w b : Z) : Z :=
  match 3 - b with
  | 0 => s32 (Z.lor (Z.land (u32 old) 0xffffff00) (Z.land (Z.shiftr w 24) 0xff))
  | 1 => s32 (Z.lor (Z.land (u32 old) 0xffff0000) (Z.land (Z.shiftr w 16) 0xffff))
  | 2 => s32 (Z.lor (Z.land (u32 old) 0xff000000) (Z.land (Z.shiftr w 8) 0xffffff))
  | 3 => w
  | _ => old
  end.

Definition lwl_merge (old w b : Z) : Z :=
  match 3 - b with
  | 0 => w
  | 1 => s32 (Z.lor (Z.land old 0xff) (s32 (Z.shiftl w 8)))
  | 2 => s32 (Z.lor (Z.land old 0xffff) (s32 (Z.shiftl w 16)))
  | 3 => s32 (Z.lor (Z.land old 0xffffff) (s32 (Z.shiftl w 24)))
  | _ => old
  end.

(** The low part of a word and its high part. *)
Lemma low_part old w n : 0 < n < 32 ->
  s32 (Z.lor (Z.land old (Z.ones n)) (s32 (Z.shiftl w n))) =
  s32 (old mod 2 ^ n + w * 2 ^ n).
Proof.
  intros Hn. assert (0 < 2 ^ n) by (apply Z.pow_pos_nonneg; lia).
  rewrite Z.land_ones, Z.shiftl_mul_pow2 by lia.
  destruct (s32_cong (w * 2 ^ n)) as [q Hq].
  assert (s32 (w * 2 ^ n) = (w + q * 2 ^ (32 - n)) * 2 ^ n) as ->.
  { rewrite Hq. replace (2 ^ 32) with (2 ^ (32 - n) * 2 ^ n); [ring |].
    rewrite <- Z.pow_add_r by lia. f_equal. lia. }
  rewrite lor_add by (lia || apply Z.mod_pos_bound; lia).
  rewrite <- (s32_u32 (_ + _)), <- (s32_u32 (old mod 2 ^ n + w * 2 ^ n)). f_equal. unfold u32.
  replace (old mod 2 ^ n + (w + q * 2 ^ (32 - n)) * 2 ^ n)
    with (old mod 2 ^ n + w * 2 ^ n + q * 2 ^ 32); [by rewrite Z.mod_add |].
  replace (2 ^ 32) with (2 ^ (32 - n) * 2 ^ n); [ring |].
  rewrite <- Z.pow_add_r by lia. f_equal. lia.
Qed.

Lemma high_part old w n : 0 < n < 32 ->
  Z.lor (Z.land (u32 old) (Z.shiftl (Z.ones n) (32 - n)))
        (Z.land (Z.shiftr w n) (Z.ones (32 - n))) =
  u32 old / 2 ^ (32 - n) * 2 ^ (32 - n) + u32 w / 2 ^ n.
Proof.
  intros Hn. assert (0 < 2 ^ n) by (apply Z.pow_pos_nonneg; lia).
  assert (0 < 2 ^ (32 - n)) by (apply Z.pow_pos_nonneg; lia).
  assert (2 ^ 32 = 2 ^ n * 2 ^ (32 - n)) as E by (rewrite <- Z.pow_add_r by lia; f_equal; lia).
  rewrite land_mask, Z.land_ones, Z.shiftr_div_pow2 by lia.
  pose proof (u32_range old) as Ho. unfold is_u32 in Ho.
  assert (u32 old / 2 ^ (32 - n) < 2 ^ n) by (apply Z.div_lt_upper_bound; lia).
  assert (0 <= u32 old / 2 ^ (32 - n)) by (apply Z.div_pos; lia).
  rewrite (Z.mod_small (u32 old / _)) by lia.
  rewrite lor_add' by (lia || apply Z.mod_pos_bound; lia). f_equal.
  unfold u32. rewrite E, Z.rem_mul_r by lia.
  rewrite (Z.mul_comm (2 ^ n)), Z.div_add by lia.
  rewrite (Z.div_small (w mod 2 ^ n)) by (apply Z.mod_pos_bound; lia). lia.
Qed.

(** LWR then LWL put the unaligned word together. *)
Lemma lwr_lwl_merge old w1 w2 b : is_s32 w1 -> 0 <= b < 4 -> (b = 0 -> w2 = w1) ->
  lwl_merge (lwr_merge old w1 b) w2 ((b + 3) mod 4) =
  s32 ((u32 w1 + 2 ^ 32 * u32 w2) / 2 ^ (8 * b)).
Proof.
  intros Hw Hb H0. assert (b = 0 \/ b = 1 \/ b = 2 \/ b = 3) as [-> | [-> | [-> | ->]]] by lia;
    unfold lwl_merge, lwr_merge.
  - change ((0 + 3) mod 4) with 3. change (3 - 3) with 0. change (3 - 0) with 3. cbn match.
    rewrite H0 by done. change (2 ^ (8 * 0)) with 1. rewrite Z.div_1_r.
    unfold is_s32, s32, u32 in *. dlia.
  - change ((1 + 3) mod 4) with 0. change (3 - 0) with 3. change (3 - 1) with 2. cbn match.
    change 0xff000000 with (Z.shiftl (Z.ones 8) (32 - 8)). change 0xffffff with (Z.ones (32 - 8)).
    rewrite high_part, low_part by lia. unfold s32, u32. dlia.
  - change ((2 + 3) mod 4) with 1. change (3 - 1) with 2. change (3 - 2) with 1. cbn match.
    change 0xffff0000 with (Z.shiftl (Z.ones 16) (32 - 16)). change 0xffff with (Z.ones (32 - 16)).
    rewrite high_part, low_part by lia. unfold s32, u32. dlia.
  - change ((3 + 3) mod 4) with 2. change (3 - 2) with 1. change (3 - 3) with 0. cbn match.
    change 0xffffff00 with (Z.shiftl (Z.ones 24) (32 - 24)). change 0xff with (Z.ones (32 - 24)).
    rewrite high_part, low_part by lia. unfold s32, u32. dlia.
Qed.

(** The aligned word an address is in, and its offset in it. *)
Definition align (a : Z) : Z := s32 (a - Z.land a 3).

Lemma land3 a : Z.land a 3 = a mod 4.
Proof. change 3 with (Z.ones 2). by rewrite Z.land_ones by lia. Qed.

Lemma align_next a : is_s32 a ->
  Z.land (s32 (a + 3)) 3 = (Z.land a 3 + 3) mod 4 /\
  (Z.land a 3 = 0 -> align (s32 (a + 3)) = align a).
Proof.
  unfold align, is_s32. rewrite !land3. intros Ha. unfold s32. split; [| intros]; dlia.
Qed.

Lemma exec_lwr_ok i pc k m p t pa :
  opCode i = OP_LWR -> paged m p t -> page_entries_ok t -> mem_wf m ->
  let a := s32 (reg m (rs i) + extra i) in
  translate_spec t (pageTableSize m) (align a) 4 false = Phys pa ->
  exists d, load_le (mainMemory m) pa 4 = Ok d /\ 0 <= d < 2 ^ 32 /\
    exec i pc (k, m) = Ok (Advance pc (rt i)
      (lwr_merge (if reg m LoadReg =? rt i then reg m LoadValueReg else reg m (rt i))
         (s32 d) (Z.land a 3)), (k, touched m p t (align a) false)).
Proof.
  intros Hop Hp Hok Hm a Hphys.
  destruct (ReadMem_ok k m p t (align a) 4 pa) as (d & Ed & Hd & E); try done; [unfold legal_size; auto |].
  exists d. split; [done |]. split; [done |]. unfold exec. rewrite Hop. unfold exec_load_right. cbn [snd].
  fold a (align a). rewrite E. done.
Qed.

Lemma exec_lwl_ok i pc k m p t pa :
  opCode i = OP_LWL -> paged m p t -> page_entries_ok t -> mem_wf m ->
  let a := s32 (reg m (rs i) + extra i) in
  translate_spec t (pageTableSize m) (align a) 4 false = Phys pa ->
  exists d, load_le (mainMemory m) pa 4 = Ok d /\ 0 <= d < 2 ^ 32 /\
    exec i pc (k, m) = Ok (Advance pc (rt i)
      (lwl_merge (if reg m LoadReg =? rt i then reg m LoadValueReg else reg m (rt i))
         (s32 d) (Z.land a 3)), (k, touched m p t (align a) false)).
Proof.
  intros Hop Hp Hok Hm a Hphys.
  destruct (ReadMem_ok k m p t (align a) 4 pa) as (d & Ed & Hd & E); try done; [unfold legal_size; auto |].
  exists d. split; [done |]. split; [done |]. unfold exec. rewrite Hop. unfold exec_load_left. cbn [snd].
  fold a (align a). rewrite E. done.
Qed.

Lemma finish_memory pc r v (k : K) m k' m' :
  finish_instruction pc r v (k, m) = Ok (k', m') ->
  mainMemory m' = mainMemory m /\ pageTableSize m' = pageTableSize m /\
  (forall p t, paged m p t -> paged m' p t).
Proof.
  unfold finish_instruction, DelayedLoad. intros E. ok_inv. done.
Qed.

(** The unaligned-load idiom of MIPS: [LWR r, x(b)] followed by
    [LWL r, x+3(b)] leaves the little-endian word at the (not necessarily
    aligned) address in [r]'s pending load: with [w1] and [w2] the aligned
    words the first and the last byte are in, the result is the four bytes
    from the offset of the address on, whatever [r] held before. *)
Theorem unaligned_load i1 i2 pc1 pc2 k m p t pa1 pa2 w1 w2 :
  cpu_wf m -> paged m p t -> page_entries_ok t -> is_s32 pc1 ->
  opCode i1 = OP_LWR -> opCode i2 = OP_LWL -> fields_ok i1 ->
  rs i2 = rs i1 -> rt i2 = rt i1 -> extra i2 = extra i1 + 3 ->
  (rs i1 <> 0 -> reg m LoadReg <> rs i1) ->
  let a := s32 (reg m (rs i1) + extra i1) in
  translate_spec t (pageTableSize m) (align a) 4 false = Phys pa1 ->
  translate_spec t (pageTableSize m) (align (s32 (a + 3))) 4 false = Phys pa2 ->
  load_le (mainMemory m) pa1 4 = Ok w1 -> load_le (mainMemory m) pa2 4 = Ok w2 ->
  exists v1 m1 m2 m3,
    exec i1 pc1 (k, m) = Ok (Advance pc1 (rt i1) v1, (k, m1)) /\
    finish_instruction pc1 (rt i1) v1 (k, m1) = Ok (k, m2) /\
    exec i2 pc2 (k, m2) = Ok (Advance pc2 (rt i1)
      (s32 ((w1 + 2 ^ 32 * w2) / 2 ^ (8 * Z.land a 3))), (k, m3)).
Proof.
  intros [Hm H0] Hp Hok Hpc Hop1 Hop2 Hf Ers Ert Eex Hload a Ht1 Ht2 Hw1 Hw2.
  destruct (exec_lwr_ok i1 pc1 k m p t pa1) as (d1 & Ed1 & Hd1 & E1); try done; [apply Hm |].
  rewrite Hw1 in Ed1. injection Ed1 as <-. fold a in E1.
  set (v1 := lwr_merge _ _ _) in E1. set (m1 := touched m p t (align a) false) in E1.
  assert (cpu_pre m1) as Hm1 by (by apply touched_pre).
  assert (is_s32 v1) as Hv1.
  { subst v1. unfold lwr_merge. destruct (byte_cases a) as [-> | [-> | [-> | ->]]]; apply s32_range. }
  destruct Hf as (Hrs & Hrt & _ & Hex).
  destruct (finish_instruction_spec pc1 (rt i1) v1 k m1 Hm1 Hpc Hrt Hv1)
    as (m2 & E2 & Hw2' & Hregs & HL & HV & _).
  destruct (finish_memory _ _ _ _ _ _ _ E2) as (Emem & Esz & Hpg).
  pose proof (Hpg _ _ (paged_touched m p t (align a) false Hp)) as Hp2.
  assert (reg m2 (rs i2) = reg m (rs i1)) as Ereg.
  { rewrite Ers. destruct (Z.eq_dec (rs i1) 0) as [E|Hne].
    - rewrite E, H0. apply Hw2'.
    - rewrite Hregs by (unfold NumGPRegs; lia).
      destruct (Z.eqb_spec (rs i1) (reg m1 LoadReg)) as [E|]; [by destruct (Hload Hne) |]. done. }
  assert (s32 (reg m2 (rs i2) + extra i2) = s32 (a + 3)) as Ea.
  { rewrite Ereg, Eex. subst a. unfold s32. dlia. }
  destruct (exec_lwl_ok i2 pc2 k m2 p (alter (touch false) (Z.to_nat (page_of (align a))) t) pa2)
    as (d2 & Ed2 & Hd2 & E3); [done | done | by apply entries_ok_touch | by destruct Hw2' as [[]] | |].
  { rewrite Ea, translate_spec_touch, Esz. exact Ht2. }
  rewrite Emem in Ed2. change (mainMemory m1) with (mainMemory m) in Ed2.
  rewrite Hw2 in Ed2. injection Ed2 as <-. rewrite Ea, Ert, HL, Z.eqb_refl, HV in E3.
  exists v1, m1, m2. eexists. split; [exact E1 |]. split; [exact E2 |]. rewrite E3. do 3 f_equal.
  destruct (align_next a (s32_range _)) as [Eland Ealign]. rewrite Eland. subst v1.
  pose proof (land_range a 2 ltac:(lia)) as Hb. change (Z.ones 2) with 3 in Hb.
  rewrite lwr_lwl_merge; [| apply s32_range | lia |].
  - by rewrite !u32_s32, !u32_id.
  - intros Eb. rewrite (Ealign Eb), Ht1 in Ht2. injection Ht2 as <-. congruence.
Qed.

End Instructions.

End Mips.

(** ** Witnesses: the one-page machine of Machine.v *)

Module MipsWitness.
Import Mips.

Definition bytes : list Z := replicate 384 0 ++ [1; 2; 3; 4; 5; 6; 7; 8] ++ replicate 15992 0.
Definition cpu : Machine := set_reg (set_mainMemory MachineWitness.one_page bytes) 5 (-8).

Lemma cpu_ok : cpu_wf cpu.
Proof.
  split; [| by vm_compute]. apply set_reg_pre; [split | unfold LoadReg; lia | unfold is_s32; lia].
  - by vm_compute.
  - apply Forall_replicate. unfold is_s32. lia.
  - split; vm_compute; first [discriminate | reflexivity].
  - split; [by vm_compute |]. apply Forall_app. split; [apply Forall_replicate; unfold is_byte; lia |].
    apply Forall_app. split; [| apply Forall_replicate; unfold is_byte; lia].
    repeat constructor; unfold is_byte; lia.
  - exists 1%positive, [MachineWitness.page0].
    exact (conj MachineWitness.one_page_paged MachineWitness.one_page_entries).
Qed.

Lemma cpu_paged : paged cpu 1 [MachineWitness.page0].
Proof. exact MachineWitness.one_page_paged. Qed.

Definition instr (op : opcode) (extra : Z) : Instruction := mkInstr 0 op 0 5 6 extra.

Lemma instr_ok op extra : is_s32 extra -> fields_ok (instr op extra).
Proof. intros Hx. split; [cbn; lia |]. split; [cbn; lia |]. split; [cbn; lia | exact Hx]. Qed.

End MipsWitness.

Lemma OneInstruction_safe_witness :
  Mips.cpu_wf MipsWitness.cpu /\
  match Mips.OneInstruction (tt, MipsWitness.cpu) with
  | Ok s => Mips.cpu_wf s.2
  | Trap t => False \/
      (t = Undefined /\ exists raw k' m',
         ReadMem (reg MipsWitness.cpu PCReg) 4 (tt, MipsWitness.cpu) = Ok (Some raw, (k', m')) /\
         Mips.div_overflow (Mips.Decode (u32 raw)) m')
  end.
Proof.
  split; [exact MipsWitness.cpu_ok |].
  apply (Mips.OneInstruction_safe (fun _ => False)); [| exact MipsWitness.cpu_ok].
  intros e k m Hm. exact Hm.
Defined.

Lemma Mult_correct_witness :
  is_s32 (-3) /\ Mips.Mult (-3) 7 true = Ok (-1, -21).
Proof.
  assert (is_s32 (-3) /\ is_s32 7) as [H1 H2] by (unfold is_s32; lia).
  split; [exact H1 | exact (Mips.Mult_correct (-3) 7 true H1 H2)].
Defined.

Lemma trapping_arithmetic_witness :
  Mips.exec (MipsWitness.instr Mips.OP_ADDI (2 ^ 31 - 1)) 8 (tt, MipsWitness.cpu) =
  Ok (Mips.Advance 8 0 0, (tt, set_reg MipsWitness.cpu 5 (2 ^ 31 - 1))).
Proof.
  refine (proj1 (Mips.trapping_arithmetic (MipsWitness.instr Mips.OP_ADDI (2 ^ 31 - 1)) 8 tt
    MipsWitness.cpu 5 (2 ^ 31 - 1) MipsWitness.cpu_ok _ _) _).
  - apply MipsWitness.instr_ok. unfold is_s32. lia.
  - vm_compute. reflexivity.
  - unfold Mips.fits_int. lia.
Defined.

Lemma SRL_is_arithmetic_witness :
  exists v, Mips.exec (MipsWitness.instr Mips.OP_SRL 1) 8 (tt, MipsWitness.cpu) =
    Ok (Mips.Advance 8 0 0, (tt, set_reg MipsWitness.cpu 6 v)) /\
    v < 0 /\ v <> s32 (Z.shiftr (u32 (reg MipsWitness.cpu 5)) 1).
Proof.
  refine (proj2 (Mips.SRL_is_arithmetic (MipsWitness.instr Mips.OP_SRL 1) 8 tt MipsWitness.cpu
    MipsWitness.cpu_ok _ eq_refl _ _)).
  - apply MipsWitness.instr_ok. unfold is_s32. lia.
  - cbn. lia.
  - vm_compute. reflexivity.
Defined.

Lemma finish_instruction_spec_witness :
  exists m', Mips.finish_instruction 8 5 7 (tt, MipsWitness.cpu) = Ok (tt, m') /\
    reg m' 5 = -8 /\ reg m' LoadReg = 5.
Proof.
  destruct (Mips.finish_instruction_spec 8 5 7 tt MipsWitness.cpu (proj1 MipsWitness.cpu_ok))
    as (m' & E & _ & Hr & Hl & _).
  - unfold is_s32. lia.
  - unfold NumGPRegs. lia.
  - unfold is_s32. lia.
  - exists m'. split; [exact E |]. split; [| exact Hl].
    assert (1 <= 5 < NumGPRegs) as H5 by (unfold NumGPRegs; lia).
    rewrite (Hr 5 H5). vm_compute. reflexivity.
Defined.

Lemma unaligned_load_witness :
  exists v1 m1 m2 m3,
    Mips.exec (MipsWitness.instr Mips.OP_LWR 1) 8 (tt, MipsWitness.cpu) =
      Ok (Mips.Advance 8 5 v1, (tt, m1)) /\
    Mips.finish_instruction 8 5 v1 (tt, m1) = Ok (tt, m2) /\
    Mips.exec (MipsWitness.instr Mips.OP_LWL 4) 12 (tt, m2) =
      Ok (Mips.Advance 12 5 0x05040302, (tt, m3)).
Proof.
  refine (Mips.unaligned_load (MipsWitness.instr Mips.OP_LWR 1) (MipsWitness.instr Mips.OP_LWL 4)
    8 12 tt MipsWitness.cpu 1 [MachineWitness.page0] 384 388 0x04030201 0x08070605
    MipsWitness.cpu_ok MipsWitness.cpu_paged MachineWitness.one_page_entries _ eq_refl eq_refl _
    eq_refl eq_refl eq_refl _ _ _ _ _).
  - unfold is_s32. lia.
  - apply MipsWitness.instr_ok. unfold is_s32. lia.
  - intros Hne. destruct (Hne eq_refl).
  - vm_compute. reflexivity.
  - vm_compute. reflexivity.
  - vm_compute. reflexivity.
  - vm_compute. reflexivity.
Defined.
