(* ===== verification/FileTable.v ===== *)
(** * Files of user programs: host calls, [OpenFile], [FileSystem], [Table]

    The build defines FILESYS_STUB, so a Nachos file is a host file:
    - [Host]: the POSIX calls lib/sysdep.cc and userprog/FileDescriptors.h
      make, as parameters over a host state, with what POSIX and the Linux
      manual document about them ([HostLaws]);
    - the wrappers of lib/sysdep.cc with their ASSERTs;
    - [OpenFile] (filesys/openfile.h) and [FileSystem] (filesys/filesys.h),
      the FILESYS_STUB versions;
    - [FileDescriptor] and [Table] of userprog/FileDescriptors.h.

    A [char] is a [Z], a [char] buffer a [list Z]; a C string that the
    code only reads as a string is the list of its characters before NUL. *)

From S2P Require Import Prelude.

(** ** The host *)

Module Host.

(** [open(name, O_RDWR)] and [open(name, O_RDWR|O_CREAT|O_TRUNC, 0666)]. *)
Inductive open_flags := O_RDWR | O_RDWR_CREAT_TRUNC.

(** The system calls.  Each returns what C returns (-1 on error) and the
    new host state; [read] and [recv] also return the bytes delivered. *)
Class Host (W : Type) := {
  open : list Z -> open_flags -> W -> Z * W;
  close : Z -> W -> Z * W;
  read : Z -> Z -> W -> Z * list Z * W;
  write : Z -> list Z -> W -> Z * W;
  lseek : Z -> Z -> Z -> W -> Z * W;
  unlink : list Z -> W -> Z * W;
  socket : W -> Z * W;
  inet_addr : list Z -> Z;
  connect : Z -> Z -> Z -> W -> Z * W;
  set_timeout : Z -> bool -> Z -> W -> W;
  send : Z -> list Z -> W -> Z * W;
  recv : Z -> Z -> W -> Z * list Z * W
}.

(** What can be observed of the host: the names of regular files, the
    contents by inode, the open descriptors of regular files (inode and
    offset), and all descriptors in use. *)
Class HostView (W : Type) := {
  names : W -> gmap (list Z) Z;
  content : W -> gmap Z (list Z);
  opens : W -> gmap Z (Z * Z);
  fds : W -> gset Z
}.

(** The bytes of a file after [b] is written at offset [o]. *)
Definition splice (c : list Z) (o : Z) (b : list Z) : list Z :=
  take (Z.to_nat o) (c ++ replicate (Z.to_nat o - length c) 0) ++ b
    ++ drop (Z.to_nat o + length b) c.

(** Where [lseek(fd, off, whence)] goes from offset [o] of a file of
    length [len]. *)
Definition seek_target (o len off whence : Z) : Z :=
  if whence =? 0 then off else if whence =? 1 then o + off else len + off.

Definition same_files {W} `{HostView W} (w w' : W) : Prop :=
  names w' = names w /\ content w' = content w /\ opens w' = opens w /\ fds w' = fds w.

(** Documented behaviour of the calls (POSIX; close(2) of Linux for the
    descriptor being released even on error; 32-bit [off_t]), for a host
    whose names are those of regular files: no directory, device or pipe is
    opened by name. *)
Class HostLaws (W : Type) `{Host W, HostView W} : Prop := {
  opens_fds w fd p : opens w !! fd = Some p -> fd ∈ fds w;
  opens_content w fd ino o : opens w !! fd = Some (ino, o) ->
    exists c, content w !! ino = Some c /\ Z.of_nat (length c) < 2 ^ 31;
  fds_nonneg w fd : fd ∈ fds w -> 0 <= fd;
  open_rdwr n w r w' : open n O_RDWR w = (r, w') ->
    (r = -1 /\ same_files w w') \/
    (0 <= r /\ r ∉ fds w /\ exists ino, names w !! n = Some ino /\ names w' = names w /\
       content w' = content w /\ opens w' = <[r := (ino, 0)]> (opens w) /\ fds w' = {[r]} ∪ fds w);
  open_creat n w r w' : open n O_RDWR_CREAT_TRUNC w = (r, w') ->
    (r = -1 /\ same_files w w') \/
    (0 <= r /\ r ∉ fds w /\ exists ino, names w' = <[n := ino]> (names w) /\
       content w' = <[ino := []]> (content w) /\
       (forall i, names w !! n = Some i -> i = ino) /\
       (names w !! n = None -> forall fd o, opens w !! fd <> Some (ino, o)) /\
       opens w' = <[r := (ino, 0)]> (opens w) /\ fds w' = {[r]} ∪ fds w);
  close_ok fd w r w' : close fd w = (r, w') -> fd ∈ fds w ->
    (r = 0 \/ r = -1) /\ names w' = names w /\ content w' = content w /\
    opens w' = delete fd (opens w) /\ fds w' = fds w ∖ {[fd]};
  read_ok fd n w r d w' ino o c : read fd n w = (r, d, w') -> 0 <= n ->
    opens w !! fd = Some (ino, o) -> content w !! ino = Some c ->
    (r = -1 /\ d = [] /\ same_files w w') \/
    (d = take (Z.to_nat n) (drop (Z.to_nat o) c) /\ r = Z.of_nat (length d) /\ names w' = names w /\
       content w' = content w /\ opens w' = <[fd := (ino, o + r)]> (opens w) /\ fds w' = fds w);
  write_ok fd b w r w' ino o c : write fd b w = (r, w') ->
    opens w !! fd = Some (ino, o) -> content w !! ino = Some c ->
    (r = -1 /\ same_files w w') \/
    (0 <= r <= Z.of_nat (length b) /\ names w' = names w /\
       content w' = <[ino := splice c o (take (Z.to_nat r) b)]> (content w) /\
       opens w' = <[fd := (ino, o + r)]> (opens w) /\ fds w' = fds w);
  lseek_ok fd off wh w r w' ino o c : lseek fd off wh w = (r, w') -> 0 <= wh <= 2 ->
    opens w !! fd = Some (ino, o) -> content w !! ino = Some c ->
    let t := seek_target o (Z.of_nat (length c)) off wh in
    if bool_decide (0 <= t < 2 ^ 31)
    then r = t /\ names w' = names w /\ content w' = content w /\
         opens w' = <[fd := (ino, t)]> (opens w) /\ fds w' = fds w
    else r = -1 /\ same_files w w';
  unlink_ok n w r w' : unlink n w = (r, w') ->
    (r = -1 /\ same_files w w') \/
    (r = 0 /\ is_Some (names w !! n) /\ names w' = delete n (names w) /\
       opens w' = opens w /\ fds w' = fds w /\
       forall fd ino o, opens w !! fd = Some (ino, o) -> content w' !! ino = content w !! ino);
  socket_ok w r w' : socket w = (r, w') ->
    (r = -1 /\ same_files w w') \/
    (0 <= r /\ r ∉ fds w /\ names w' = names w /\ content w' = content w /\
       opens w' = opens w /\ fds w' = {[r]} ∪ fds w);
  connect_ok fd p a w r w' : connect fd p a w = (r, w') -> same_files w w';
  set_timeout_ok fd s n w : same_files w (set_timeout fd s n w);
  send_ok fd b w r w' : send fd b w = (r, w') -> same_files w w';
  recv_ok fd n w r d w' : recv fd n w = (r, d, w') -> same_files w w'
}.

End Host.
Export Host.

(** ** lib/sysdep.cc and the stub [OpenFile], [FileSystem] *)

Module Stub.
Section Stub.
Context {W : Type} `{Host W}.

Definition OpenForWrite (name : list Z) (w : W) : outcome (Z * W) :=
  let '(fd, w') := open name O_RDWR_CREAT_TRUNC w in
  assert! (0 <=? fd);
  Ok (fd, w').

Definition OpenForReadWrite (name : list Z) (crashOnError : bool) (w : W) : outcome (Z * W) :=
  let '(fd, w') := open name O_RDWR w in
  assert! (negb crashOnError || (0 <=? fd));
  Ok (fd, w').

(** The first bytes of a buffer overwritten by [data]; data that does not
    fit runs off the end of the allocation. *)
Definition buf_fill (buffer data : list Z) : outcome (list Z) :=
  if (length data <=? length buffer)%nat then Ok (data ++ drop (length data) buffer)
  else Trap Undefined.

(** [read(2)] takes a [size_t]. *)
Definition ReadPartial (fd : Z) (buffer : list Z) (nBytes : Z) (w : W)
    : outcome (Z * list Z * W) :=
  let '(r, d, w') := read fd (u32 nBytes) w in
  let! buffer' := buf_fill buffer d in
  Ok (r, buffer', w').

Definition Read (fd : Z) (buffer : list Z) (nBytes : Z) (w : W) : outcome (list Z * W) :=
  let '(retVal, d, w') := read fd (u32 nBytes) w in
  let! buffer' := buf_fill buffer d in
  assert! (retVal =? nBytes);
  Ok (buffer', w').

(** [write(2)] of [nBytes] bytes from [buffer]. *)
Definition WriteFile (fd : Z) (buffer : list Z) (nBytes : Z) (w : W) : outcome W :=
  if u32 nBytes <=? Z.of_nat (length buffer) then
    let '(retVal, w') := write fd (take (Z.to_nat (u32 nBytes)) buffer) w in
    assert! (retVal =? nBytes);
    Ok w'
  else Trap Undefined.

Definition Lseek (fd offset whence : Z) (w : W) : outcome W :=
  let '(retVal, w') := lseek fd offset whence w in
  assert! (0 <=? retVal);
  Ok w'.

Definition Tell (fd : Z) (w : W) : Z * W := lseek fd 0 1 w.

Definition Close (fd : Z) (w : W) : outcome (Z * W) :=
  let '(retVal, w') := close fd w in
  assert! (0 <=? retVal);
  Ok (retVal, w').

(** [bool Unlink] returns the [int] of [unlink] converted to [bool]. *)
Definition Unlink (name : list Z) (w : W) : bool * W :=
  let '(r, w') := unlink name w in (negb (r =? 0), w').

(** *** class OpenFile; [type] is not set by the one-argument constructor *)

Record OpenFile := { file : Z; currentOffset : Z; type : option Z }.

Definition new_OpenFile (f : Z) : OpenFile := {| file := f; currentOffset := 0; type := None |}.
Definition new_OpenFile_type (f t : Z) : OpenFile :=
  {| file := f; currentOffset := 0; type := Some t |}.

Definition delete_OpenFile (o : OpenFile) (w : W) : outcome W :=
  let! p := Close (file o) w in Ok p.2.

Definition ReadAt (o : OpenFile) (into : list Z) (numBytes position : Z) (w : W)
    : outcome (Z * list Z * W) :=
  let! w1 := Lseek (file o) position 0 w in
  ReadPartial (file o) into numBytes w1.

Definition WriteAt (o : OpenFile) (from : list Z) (numBytes position : Z) (w : W)
    : outcome (Z * W) :=
  let! w1 := Lseek (file o) position 0 w in
  let! w2 := WriteFile (file o) from numBytes w1 in
  Ok (numBytes, w2).

Definition advance (o : OpenFile) (n : Z) : OpenFile :=
  {| file := file o; currentOffset := s32 (currentOffset o + n); type := type o |}.

Definition OpenFile_Read (o : OpenFile) (into : list Z) (numBytes : Z) (w : W)
    : outcome (Z * list Z * OpenFile * W) :=
  let! ' (numRead, into', w') := ReadAt o into numBytes (currentOffset o) w in
  Ok (numRead, into', advance o numRead, w').

Definition OpenFile_Write (o : OpenFile) (from : list Z) (numBytes : Z) (w : W)
    : outcome (Z * OpenFile * W) :=
  let! ' (numWritten, w') := WriteAt o from numBytes (currentOffset o) w in
  Ok (numWritten, advance o numWritten, w').

Definition OpenFile_Seek (o : OpenFile) (pos : Z) : Z * OpenFile :=
  (pos, {| file := file o; currentOffset := pos; type := type o |}).

Definition Length (o : OpenFile) (w : W) : outcome (Z * W) :=
  let! w1 := Lseek (file o) 0 2 w in Ok (Tell (file o) w1).

(** *** class FileSystem *)

Definition FileSystem_Create (name : list Z) (w : W) : outcome (bool * W) :=
  let! ' (fileDescriptor, w1) := OpenForWrite name w in
  if fileDescriptor =? -1 then Ok (false, w1)
  else let! ' (_, w2) := Close fileDescriptor w1 in Ok (true, w2).

Definition FileSystem_Open (name : list Z) (w : W) : outcome (option OpenFile * W) :=
  let! ' (fileDescriptor, w1) := OpenForReadWrite name false w in
  if fileDescriptor =? -1 then Ok (None, w1)
  else Ok (Some (new_OpenFile fileDescriptor), w1).

Definition FileSystem_Open_type (name : list Z) (type : Z) (w : W)
    : outcome (option OpenFile * W) :=
  let! ' (fileDescriptor, w1) := OpenForReadWrite name false w in
  if fileDescriptor =? -1 then Ok (None, w1)
  else Ok (Some (new_OpenFile_type fileDescriptor type), w1).

Definition FileSystem_Remove (name : list Z) (w : W) : bool * W :=
  let '(b, w') := Unlink name w in (negb b, w').

End Stub.
End Stub.

(** ** userprog/FileDescriptors.h *)

Module FileTable.
Import Stub.

Definition ReadWriteFile : Z := 0.
Definition ReadFile : Z := 1.
Definition Socket_Mode : Z := 2.

Record FileDescriptor := {
  _mode : Z;
  _id : Z;
  _file : option OpenFile;
  _name : option (list Z)
}.

Definition new_FileDescriptor : FileDescriptor :=
  {| _mode := -1; _id := -1; _file := None; _name := None |}.

Definition set_file (d : FileDescriptor) (f : OpenFile) : FileDescriptor :=
  {| _mode := _mode d; _id := _id d; _file := Some f; _name := _name d |}.

(** [Table]: [_table] of capacity 20. *)
Definition _capacity : Z := 20.
Notation Table := (list FileDescriptor).
Definition new_Table : Table := replicate (Z.to_nat _capacity) new_FileDescriptor.

(** Dereference of [_file]. *)
Definition the_file (d : FileDescriptor) : outcome OpenFile :=
  match _file d with Some f => Ok f | None => Trap Undefined end.

(** [strcmp(buffer, lit) == 0] for a literal: characters are read up to
    the first difference; running off the buffer is undefined. *)
Fixpoint strcmp_eq (buffer lit : list Z) : outcome bool :=
  match buffer, lit with
  | [], _ => Trap Undefined
  | c :: _, [] => Ok (c =? 0)
  | c :: b, d :: l => if c =? d then strcmp_eq b l else Ok false
  end.

Definition exit_str : list Z := [101; 120; 105; 116].

(** [strcasecmp(a, b) == 0] in the C locale. *)
Definition tolower (c : Z) : Z := if (65 <=? c) && (c <=? 90) then c + 32 else c.
Definition strcaseeq (a b : list Z) : bool := bool_decide (map tolower a = map tolower b).

(** [htons] on a little-endian host, of an [int] converted to 16 bits. *)
Definition htons (p : Z) : Z := Z.lor (Z.shiftl (Z.land p 255) 8) (Z.shiftr (u16 p) 8).

Section Methods.
Context {W : Type} `{Host W}.

Definition Seek (d : FileDescriptor) (position : Z) (w : W)
    : outcome (Z * FileDescriptor * W) :=
  let! f := the_file d in
  let! ' (len, w1) := Length f w in
  if len <=? position then Ok (-1, d, w1)
  else if position =? -1 then
    let! ' (len', w2) := Length f w1 in
    let '(r, f') := OpenFile_Seek f len' in
    Ok (r, set_file d f', w2)
  else
    let '(r, f') := OpenFile_Seek f position in
    Ok (r, set_file d f', w1).

Definition Open_File (d : FileDescriptor) (name : list Z) (type : Z) (w : W)
    : outcome (Z * FileDescriptor * W) :=
  let! ' (fo, w1) := FileSystem_Open_type name type w in
  match fo with
  | None => Ok (-1, {| _mode := _mode d; _id := _id d; _file := None; _name := _name d |}, w1)
  | Some f =>
      Ok (file f,
          {| _mode := if type =? 0 then ReadWriteFile else ReadFile;
             _id := file f; _file := Some f; _name := Some name |}, w1)
  end.

Definition Close_File (d : FileDescriptor) (w : W) : outcome (Z * FileDescriptor * W) :=
  if _id d =? -1 then Ok (-1, d, w)
  else
    let! ' (_, w1) := Close (_id d) w in
    Ok (1, new_FileDescriptor, w1).

Definition Read (d : FileDescriptor) (buffer : list Z) (size : Z) (w : W)
    : outcome (Z * list Z * FileDescriptor * W) :=
  let! f := the_file d in
  let! ' (r, buffer', f', w1) := OpenFile_Read f buffer size w in
  Ok (r, buffer', set_file d f', w1).

Definition Write (d : FileDescriptor) (buffer : list Z) (size : Z) (w : W)
    : outcome (Z * FileDescriptor * W) :=
  if _mode d =? ReadWriteFile then
    let! f := the_file d in
    let! ' (r, f', w1) := OpenFile_Write f buffer size w in
    Ok (r, set_file d f', w1)
  else Ok (-1, d, w).

Definition SocketTCP (d : FileDescriptor) (w : W) : Z * FileDescriptor * W :=
  let '(socketid, w1) := socket w in
  if socketid <? 0 then (-1, d, w1)
  else (socketid,
        {| _mode := Socket_Mode; _id := socketid; _file := None; _name := None |}, w1).

Definition Connect (socketid : Z) (host : list Z) (port : Z) (w : W) : Z * W :=
  let '(r, w1) := connect socketid (htons port) (inet_addr host) w in
  (if r <? 0 then -1 else 0, w1).

Definition Send (socketid : Z) (buffer : list Z) (len : Z) (w : W) : outcome (Z * W) :=
  let w1 := set_timeout socketid true 10 w in
  if u32 len <=? Z.of_nat (length buffer) then
    let '(sent, w2) := send socketid (take (Z.to_nat (u32 len)) buffer) w1 in
    if sent <? 0 then Ok (-1, w2)
    else
      let! e := strcmp_eq buffer exit_str in
      Ok (if (e : bool) then 0 else sent, w2)
  else Trap Undefined.

Definition Receive (socketid : Z) (buffer : list Z) (len : Z) (w : W)
    : outcome (Z * list Z * W) :=
  let w1 := set_timeout socketid false 10 w in
  let '(received, d, w2) := recv socketid (u32 len) w1 in
  let! buffer' := buf_fill buffer d in
  if received <? 0 then Ok (-1, buffer', w2)
  else
    let! e := strcmp_eq buffer' exit_str in
    Ok (if (e : bool) then 0 else received, buffer', w2).

Definition Close_Socket (d : FileDescriptor) (w : W) : Z * FileDescriptor * W :=
  if _id d =? -1 then (-1, d, w)
  else
    let '(_, w1) := close (_id d) w in
    (1, {| _mode := -1; _id := -1; _file := _file d; _name := _name d |}, w1).

(** *** class Table *)

(** [for (int i = 2; i < _capacity; i++) if (p(_table[i])) return i; return -1;] *)
Definition find_slot (p : FileDescriptor -> bool) (t : Table) : outcome Z :=
  let! c := oloop (fun (_ : unit) (i : Z) =>
                     let! d := arr_get t i in
                     Ok (if p d then Break i else Next tt))
                  tt (seqZ 2 (_capacity - 2)) in
  match c with Break i => Ok i | Next _ => Ok (-1) end.

Definition FindFreeSlot (t : Table) : outcome Z := find_slot (fun d => _mode d =? -1) t.
Definition IsOpening (t : Table) (id : Z) : outcome Z := find_slot (fun d => _id d =? id) t.

(** The comparison dereferences [_name], NULL in the slot of a socket. *)
Definition IsOpeningWithName (t : Table) (name : list Z) : outcome Z :=
  let! c := oloop (fun (_ : unit) (i : Z) =>
                     let! d := arr_get t i in
                     if _mode d =? -1 then Ok (Next tt)
                     else match _name d with
                          | None => Trap Undefined
                          | Some n => Ok (if strcaseeq n name then Break i else Next tt)
                          end)
                  tt (seqZ 2 (_capacity - 2)) in
  match c with Break i => Ok i | Next _ => Ok (-1) end.

(** The names printed; a socket's NULL name is not printable. *)
Definition PrintOpeningFile (t : Table) : outcome (list (list Z)) :=
  ofold (fun (out : list (list Z)) (i : Z) =>
           let! d := arr_get t i in
           if _mode d =? -1 then Ok out
           else match _name d with
                | None => Trap Undefined
                | Some n => Ok (out ++ [n])
                end)
        [] (seqZ 2 (_capacity - 2)).

(** Run a method on [_table[i]]. *)
Definition on_slot (t : Table) (i : Z)
    (m : FileDescriptor -> outcome (Z * FileDescriptor * W)) : outcome (Z * Table * W) :=
  let! d := arr_get t i in
  let! ' (r, d', w') := m d in
  let! t' := arr_set t i d' in
  Ok (r, t', w').

Definition Table_Open (t : Table) (name : list Z) (type : Z) (w : W) : outcome (Z * Table * W) :=
  let! slot := FindFreeSlot t in
  if slot =? -1 then Ok (-1, t, w)
  else
    let! ' (r, t', w') := on_slot t slot (fun d => Open_File d name type w) in
    if r =? -1 then Ok (-1, t', w')
    else let! d := arr_get t' slot in Ok (_id d, t', w').

Definition Table_Close (t : Table) (id : Z) (w : W) : outcome (Z * Table * W) :=
  let! index := IsOpening t id in
  if negb (index =? -1) then on_slot t index (fun d => Close_File d w)
  else Ok (-1, t, w).

(** [GetFileDescriptor] returns [&_table[index]] or NULL; here the index. *)
Definition GetFileDescriptor (t : Table) (id : Z) : outcome (option Z) :=
  let! index := IsOpening t id in
  Ok (if negb (index =? -1) then Some index else None).

(** [table.GetFileDescriptor(id)->m(...)]. *)
Definition deref (p : option Z) : outcome Z :=
  match p with Some i => Ok i | None => Trap Undefined end.

Definition Table_SocketTCP (t : Table) (w : W) : outcome (Z * Table * W) :=
  let! slot := FindFreeSlot t in
  if slot =? -1 then Ok (-1, t, w)
  else on_slot t slot (fun d => Ok (SocketTCP d w)).

Definition Table_Connect (t : Table) (socketid : Z) (host : list Z) (port : Z) (w : W)
    : outcome (Z * W) :=
  let! index := IsOpening t socketid in
  if negb (index =? -1) then Ok (Connect socketid host port w) else Ok (-1, w).

Definition Table_Send (t : Table) (socketid : Z) (buffer : list Z) (len : Z) (w : W)
    : outcome (Z * W) :=
  let! index := IsOpening t socketid in
  if negb (index =? -1) then Send socketid buffer len w else Ok (-1, w).

Definition Table_Receive (t : Table) (socketid : Z) (buffer : list Z) (len : Z) (w : W)
    : outcome (Z * list Z * W) :=
  let! index := IsOpening t socketid in
  if negb (index =? -1) then Receive socketid buffer len w else Ok (-1, buffer, w).

Definition Table_Close_Socket (t : Table) (socketid : Z) (w : W) : outcome (Z * Table * W) :=
  let! index := IsOpening t socketid in
  if negb (index =? -1) then on_slot t index (fun d => Ok (Close_Socket d w))
  else Ok (-1, t, w).

End Methods.

(** ** Specification

    What the table promises: a map from ids to open files (inode, mode,
    own offset) and sockets, over the names and contents of the host.  The
    offset of the host descriptor plays no part. *)

Inductive ainfo := AFile (ino mode off : Z) | ASock.

Inductive fop :=
| FOpen (name : list Z) (type : Z)
| FClose (id : Z)
| FRead (id : Z) (buffer : list Z) (size : Z)
| FWrite (id : Z) (buffer : list Z) (size : Z)
| FSeek (id pos : Z)
| FSocket
| FCloseSocket (id : Z).

Record fstate := FState { f_open : gmap Z ainfo; f_names : gmap (list Z) Z; f_data : gmap Z (list Z) }.

Definition with_open (s : fstate) (m : gmap Z ainfo) : fstate :=
  FState m (f_names s) (f_data s).

(** [spec_op op s r out s']: [op] in [s] may return [r] with buffer [out]
    and lead to [s']. *)
Definition spec_op (op : fop) (s : fstate) (r : Z) (out : list Z) (s' : fstate) : Prop :=
  let m := f_open s in
  match op with
  | FOpen n ty =>
      (r = -1 /\ s' = s) \/
      (exists ino, 0 <= r /\ m !! r = None /\ f_names s !! n = Some ino /\
         s' = with_open s (<[r := AFile ino (if ty =? 0 then 0 else 1) 0]> m))
  | FClose id | FCloseSocket id =>
      match m !! id with
      | Some _ => r = 1 /\ s' = with_open s (delete id m)
      | None => r = -1 /\ s' = s
      end
  | FRead id buf n =>
      exists ino md o c, m !! id = Some (AFile ino md o) /\ f_data s !! ino = Some c /\
      ((r = -1 /\ out = buf /\ s' = with_open s (<[id := AFile ino md (o - 1)]> m)) \/
       (let d := take (Z.to_nat n) (drop (Z.to_nat o) c) in
        r = Z.of_nat (length d) /\ out = d ++ drop (length d) buf /\
        s' = with_open s (<[id := AFile ino md (o + r)]> m)))
  | FWrite id buf n =>
      exists ino md o c, m !! id = Some (AFile ino md o) /\ f_data s !! ino = Some c /\
      if md =? 0 then
        r = n /\ s' = FState (<[id := AFile ino md (o + n)]> m) (f_names s)
                        (<[ino := splice c o (take (Z.to_nat n) buf)]> (f_data s))
      else r = -1 /\ s' = s
  | FSeek id pos =>
      exists ino md o c, m !! id = Some (AFile ino md o) /\ f_data s !! ino = Some c /\
      let len := Z.of_nat (length c) in
      if len <=? pos then r = -1 /\ s' = s
      else r = (if pos =? -1 then len else pos) /\ s' = with_open s (<[id := AFile ino md r]> m)
  | FSocket =>
      (r = -1 /\ s' = s) \/
      (0 <= r /\ m !! r = None /\ s' = with_open s (<[r := ASock]> m))
  end.

(** When an ASSERT of lib/sysdep.cc may abort the kernel: a host [close]
    that fails, a negative offset (a seek below -1), a short write. *)
Definition spec_abort (op : fop) (s : fstate) : Prop :=
  match op with
  | FClose _ => True
  | FRead id _ _ => exists ino md o, f_open s !! id = Some (AFile ino md o) /\ o < 0
  | FWrite id _ _ => exists ino o, f_open s !! id = Some (AFile ino 0 o)
  | _ => False
  end.

(** The callers' obligations: [Read], [Write] and [Seek] are reached
    through [GetFileDescriptor] of the id of an open file, and the buffer
    holds [size] bytes. *)
Definition op_ok (op : fop) (s : fstate) : Prop :=
  match op with
  | FRead id buf n | FWrite id buf n =>
      0 <= n <= Z.of_nat (length buf) /\ n < 2 ^ 31 /\
      exists ino md o, f_open s !! id = Some (AFile ino md o)
  | FSeek id pos => is_s32 pos /\ exists ino md o, f_open s !! id = Some (AFile ino md o)
  | _ => True
  end.

Section Refine.
Context {W : Type} `{HostLaws W}.

(** The operations as ksyscall.h calls them. *)
Definition run_op (op : fop) (t : Table) (w : W) : outcome (Z * list Z * Table * W) :=
  let ret (m : outcome (Z * Table * W)) := let! ' (r, t', w') := m in Ok (r, [], t', w') in
  match op with
  | FOpen n ty => ret (Table_Open t n ty w)
  | FClose id => ret (Table_Close t id w)
  | FRead id buf n =>
      let! p := GetFileDescriptor t id in
      let! i := deref p in
      let! d := arr_get t i in
      let! ' (r, buf', d', w') := Read d buf n w in
      let! t' := arr_set t i d' in
      Ok (r, buf', t', w')
  | FWrite id buf n =>
      let! p := GetFileDescriptor t id in
      let! i := deref p in
      ret (on_slot t i (fun d => Write d buf n w))
  | FSeek id pos =>
      let! p := GetFileDescriptor t id in
      let! i := deref p in
      ret (on_slot t i (fun d => Seek d pos w))
  | FSocket => ret (Table_SocketTCP t w)
  | FCloseSocket id => ret (Table_Close_Socket t id w)
  end.

(** *** Representation *)

Definition slot (t : Table) (i : Z) (d : FileDescriptor) : Prop :=
  2 <= i < _capacity /\ t !! Z.to_nat i = Some d.

Definition slot_abs (w : W) (d : FileDescriptor) : option (Z * ainfo) :=
  if _mode d =? -1 then None
  else if _mode d =? Socket_Mode then Some (_id d, ASock)
  else match _file d, opens w !! _id d with
       | Some f, Some p => Some (_id d, AFile p.1 (_mode d) (currentOffset f))
       | _, _ => None
       end.

Definition slot_ok (w : W) (d : FileDescriptor) : Prop :=
  (_mode d = -1 /\ _id d = -1) \/
  (_id d ∈ fds w /\ _mode d = Socket_Mode /\ _file d = None /\ _name d = None) \/
  (_id d ∈ fds w /\ (_mode d = ReadWriteFile \/ _mode d = ReadFile) /\
   (exists f n p, _file d = Some f /\ file f = _id d /\ _name d = Some n /\
      opens w !! _id d = Some p /\ is_s32 (currentOffset f))).

Record table_wf (t : Table) (w : W) : Prop := {
  wf_length : length t = Z.to_nat _capacity;
  wf_slot : forall i d, slot t i d -> slot_ok w d;
  wf_id : forall i j d e, slot t i d -> slot t j e -> _id d = _id e -> _id d <> -1 -> i = j
}.

Definition rep (t : Table) (w : W) (m : gmap Z ainfo) : Prop :=
  table_wf t w /\
  forall id a, m !! id = Some a <-> exists i d, slot t i d /\ slot_abs w d = Some (id, a).

Definition abs_state (m : gmap Z ainfo) (w : W) : fstate := FState m (names w) (content w).

Lemma slot_ok_id w d : slot_ok w d -> _id d <> -1 -> _id d ∈ fds w /\ _mode d <> -1.
Proof.
  intros [(?&?)|[(?&->&_)|(?&[->| ->]&_)]] ?; [done | by vm_compute | by vm_compute | by vm_compute].
Qed.

Lemma slot_ok_mode w d : slot_ok w d -> _mode d = -1 -> _id d = -1 /\ slot_abs w d = None.
Proof.
  intros [(Hm&Hi)|[(?&->&_)|(?&[->| ->]&_)]] ?; [|done..].
  unfold slot_abs. by rewrite Hm.
Qed.

Lemma slot_ok_abs w d : slot_ok w d -> _id d <> -1 -> exists a, slot_abs w d = Some (_id d, a).
Proof.
  unfold slot_abs.
  intros [(?&?)|[(?&->&_)|(?&[->| ->]&(f&n&p&->&_&_&->&_))]] ?; simpl; by eauto.
Qed.

Lemma slot_abs_id w d id a : slot_ok w d -> slot_abs w d = Some (id, a) -> id = _id d /\ id <> -1.
Proof.
  intros Hok Ha. assert (_id d <> -1) as Hid.
  { intros Hid. destruct Hok as [(Hm&_)|[(Hfd&_)|(Hfd&_)]].
    - unfold slot_abs in Ha. by rewrite Hm in Ha.
    - apply fds_nonneg in Hfd. lia.
    - apply fds_nonneg in Hfd. lia. }
  destruct (slot_ok_abs w d Hok Hid) as [b Hb]. rewrite Hb in Ha. by simplify_eq.
Qed.

(** The two searches of the table. *)
Lemma find_slot_spec p t : length t = Z.to_nat _capacity ->
  (exists i d, find_slot p t = Ok i /\ slot t i d /\ p d = true /\
     forall j e, slot t j e -> j < i -> p e = false) \/
  (find_slot p t = Ok (-1) /\ forall j e, slot t j e -> p e = false).
Proof.
  intros Hlen. unfold find_slot.
  match goal with |- context [oloop ?f tt _] =>
    destruct (oloop_seqZ (fun i (_ : unit) => forall j e, slot t j e -> j < i -> p e = false)
      (fun i => exists d, slot t i d /\ p d = true /\ forall j e, slot t j e -> j < i -> p e = false)
      f 2 (_capacity - 2) tt) as [(s & -> & HI)|(i & -> & HQ)]
  end; simpl.
  - done.
  - intros j e [? _] ?. lia.
  - intros i s Hi HI. destruct (arr_get_in_range t i) as (d & -> & Hd).
    { rewrite Hlen. unfold _capacity in *. lia. }
    assert (slot t i d) by (split; [unfold _capacity in *; lia | done]).
    simpl. destruct (p d) eqn:Hp; [right; eauto 10 |].
    left. eexists. split; [done |]. intros j e Hj ?.
    destruct (decide (j = i)) as [->|]; [|apply (HI j e); [done | lia]].
    destruct Hj as [_ He]. rewrite Hd in He. by simplify_eq.
  - right. split; [done |]. intros j e Hj. apply (HI j e); [done |].
    destruct Hj as [? _]. unfold _capacity in *. lia.
  - left. destruct HQ as (d&?&?&?). eauto 10.
Qed.

Lemma IsOpening_slot t w i d : table_wf t w -> slot t i d -> _id d <> -1 ->
  IsOpening t (_id d) = Ok i.
Proof.
  intros Hwf Hs Hid. destruct (find_slot_spec (fun e => _id e =? _id d) t (wf_length _ _ Hwf))
    as [(j&e&E&Hj&He&_)|(E&Hno)].
  - apply Z.eqb_eq in He. unfold IsOpening. rewrite E. f_equal.
    eapply (wf_id _ _ Hwf); [done | done | congruence | congruence].
  - apply Hno in Hs. by rewrite Z.eqb_refl in Hs.
Qed.

(** What [IsOpening] finds, in terms of the map. *)
Lemma IsOpening_rep t w m id : rep t w m ->
  match m !! id with
  | Some a => exists i d, IsOpening t id = Ok i /\ i <> -1 /\ slot t i d /\ _id d = id /\
                slot_ok w d /\ id <> -1 /\ slot_abs w d = Some (id, a)
  | None => IsOpening t id = Ok (-1) \/
            (id = -1 /\ exists i d, IsOpening t id = Ok i /\ slot t i d /\ _id d = -1 /\ i <> -1)
  end.
Proof.
  intros [Hwf Hm]. destruct (m !! id) as [a|] eqn:E.
  - apply Hm in E as (i&d&Hs&Ha). pose proof (wf_slot _ _ Hwf _ _ Hs) as Hok.
    destruct (slot_abs_id _ _ _ _ Hok Ha) as [-> ?]. exists i, d.
    split_and!; [by apply (IsOpening_slot t w) | destruct Hs; lia | done..].
  - destruct (find_slot_spec (fun e => _id e =? id) t (wf_length _ _ Hwf))
      as [(i&d&Ei&Hs&Hd&_)|(Ei&_)]; [|by left].
    apply Z.eqb_eq in Hd. right. destruct (decide (id = -1)) as [->|Hid].
    { split; [done |]. exists i, d. split_and!; [done..|]. destruct Hs. lia. }
    exfalso. rewrite <- Hd in Hid. destruct (slot_ok_abs w d (wf_slot _ _ Hwf _ _ Hs) Hid) as [a Ha].
    assert (m !! id = Some a) as Hc; [|congruence]. apply Hm. exists i, d. by rewrite Ha, Hd.
Qed.

Lemma slot_insert t i j d d' e : length t = Z.to_nat _capacity -> slot t i d ->
  slot (<[Z.to_nat i := d']> t) j e <-> (j = i /\ e = d') \/ (j <> i /\ slot t j e).
Proof.
  intros Hlen [Hi Hd]. unfold slot. destruct (decide (j = i)) as [->|Hne].
  - rewrite list_lookup_insert_eq by (unfold _capacity in *; lia). naive_solver.
  - split.
    + intros [Hj He]. rewrite list_lookup_insert_ne in He by lia. auto.
    + intros [[? _]|[_ [Hj He]]]; [done |]. rewrite list_lookup_insert_ne by lia. auto.
Qed.

(** Writing one slot back: the other slots keep their files. *)
Lemma rep_update t w m i d d' w' :
  rep t w m -> slot t i d -> slot_ok w' d' ->
  (forall id, id ∈ fds w -> id <> _id d -> id ∈ fds w' /\ opens w' !! id = opens w !! id) ->
  (_id d' = _id d \/ _id d' ∉ fds w) ->
  rep (<[Z.to_nat i := d']> t) w'
    (match slot_abs w' d' with
     | Some (k, a) => <[k := a]> (delete (_id d) m)
     | None => delete (_id d) m
     end).
Proof.
  intros [Hwf Hm] Hs Hok' Hframe Hfresh.
  pose proof (wf_length _ _ Hwf) as Hlen. pose proof (wf_slot _ _ Hwf _ _ Hs) as Hok.
  assert (forall j e, slot t j e -> j <> i -> _id e <> -1 -> _id e <> _id d /\ _id e <> _id d') as Hne.
  { intros j e Hj Hji He. assert (_id e <> _id d) as Hed.
    { intros Heq. apply Hji. eapply (wf_id _ _ Hwf); [done | done | done | done]. }
    split; [done |]. destruct Hfresh as [->|Hf]; [done |].
    destruct (slot_ok_id _ _ (wf_slot _ _ Hwf _ _ Hj) He). congruence. }
  assert (forall j e, slot t j e -> j <> i -> slot_ok w' e /\ slot_abs w' e = slot_abs w e) as Hother.
  { intros j e Hj Hji. pose proof (wf_slot _ _ Hwf _ _ Hj) as He.
    destruct (decide (_id e = -1)) as [E1|E1].
    - destruct He as [(Hme&Hie)|[(Hfd&_)|(Hfd&_)]];
        [|apply fds_nonneg in Hfd; lia | apply fds_nonneg in Hfd; lia].
      split; [by left |]. unfold slot_abs. by rewrite Hme.
    - destruct (Hne j e Hj Hji E1) as [Hd1 _]. destruct (slot_ok_id _ _ He E1) as [Hfd _].
      destruct (Hframe _ Hfd Hd1) as [Hfd' Ho]. unfold slot_ok, slot_abs. rewrite Ho.
      split; [|done]. destruct He as [?|[(?&?)|(?&?)]]; auto. }
  split.
  - split; [by rewrite length_insert | |].
    + intros j e Hj. apply (slot_insert t i j d d' e Hlen Hs) in Hj as [[_ ->]|[Hji Hj]]; [done |].
      by apply (Hother j e).
    + intros j k e g Hj Hk Heq He.
      apply (slot_insert t i j d d' e Hlen Hs) in Hj as [[-> ->]|[Hji Hj]];
      apply (slot_insert t i k d d' g Hlen Hs) in Hk as [[-> ->]|[Hki Hk]]; [done | | |].
      * destruct (Hne k g Hk Hki); congruence.
      * destruct (Hne j e Hj Hji); congruence.
      * by apply (wf_id _ _ Hwf j k e g).
  - assert (forall id a, delete (_id d) m !! id = Some a <->
              exists j e, slot t j e /\ j <> i /\ slot_abs w e = Some (id, a)) as Hdel.
    { intros id a. rewrite lookup_delete_Some, Hm. split.
      - intros [Hid (j&e&Hj&Ha)]. exists j, e. split_and!; [done | | done]. intros ->.
        destruct (slot_abs_id _ _ _ _ (wf_slot _ _ Hwf _ _ Hj) Ha) as [-> _].
        destruct Hs, Hj. congruence.
      - intros (j&e&Hj&Hji&Ha). destruct (slot_abs_id _ _ _ _ (wf_slot _ _ Hwf _ _ Hj) Ha) as [-> ?].
        destruct (Hne j e Hj Hji); [done |]. split; [congruence | eauto]. }
    assert (forall id a, (exists j e, slot (<[Z.to_nat i := d']> t) j e /\ slot_abs w' e = Some (id, a)) <->
              slot_abs w' d' = Some (id, a) \/ delete (_id d) m !! id = Some a) as Hnew.
    { intros id a. rewrite Hdel. split.
      - intros (j&e&Hj&Ha). apply (slot_insert t i j d d' e Hlen Hs) in Hj as [[-> ->]|[Hji Hj]]; [by left |].
        right. exists j, e. split_and!; [done..|]. by rewrite <- (proj2 (Hother j e Hj Hji)).
      - intros [Ha|(j&e&Hj&Hji&Ha)].
        + exists i, d'. split; [|done]. apply (slot_insert t i i d d' d' Hlen Hs). by left.
        + exists j, e. rewrite (proj2 (Hother j e Hj Hji)). split; [|done].
          apply (slot_insert t i j d d' e Hlen Hs). by right. }
    intros id a. rewrite Hnew. destruct (slot_abs w' d') as [[k b]|] eqn:Ed'; [|naive_solver].
    rewrite lookup_insert_Some. split; [naive_solver |].
    intros [[= -> ->]|Hd]; [by left |]. right. split; [|done]. intros ->.
    apply Hdel in Hd as (j&e&Hj&Hji&Ha).
    destruct (slot_abs_id _ _ _ _ Hok' Ed') as [-> Hk].
    destruct (slot_abs_id _ _ _ _ (wf_slot _ _ Hwf _ _ Hj) Ha) as [He1 ?].
    destruct (Hne j e Hj Hji); congruence.
Qed.

(** *** Host calls on an open file *)

Definition moved (w w' : W) (fd ino o : Z) : Prop :=
  names w' = names w /\ content w' = content w /\
  opens w' = <[fd := (ino, o)]> (opens w) /\ fds w' = fds w.

Lemma Lseek_spec fd off wh w ino o c :
  0 <= wh <= 2 -> opens w !! fd = Some (ino, o) -> content w !! ino = Some c ->
  let t := seek_target o (Z.of_nat (length c)) off wh in
  (0 <= t < 2 ^ 31 /\ exists w', lseek fd off wh w = (t, w') /\ Lseek fd off wh w = Ok w' /\ moved w w' fd ino t) \/
  (~ (0 <= t < 2 ^ 31) /\ Lseek fd off wh w = Trap AssertFail).
Proof.
  intros Hwh Ho Hc t. unfold Lseek. destruct (lseek fd off wh w) as [r w'] eqn:E.
  pose proof (lseek_ok _ _ _ _ _ _ _ _ _ E Hwh Ho Hc) as HL. fold t in HL. cbn zeta in HL.
  case_bool_decide as Ht.
  - left. split; [done |]. destruct HL as (-> & HL). exists w'. split_and!; [done | | done].
    by rewrite (proj2 (Z.leb_le 0 t)) by lia.
  - right. split; [done |]. destruct HL as (-> & _). done.
Qed.

Lemma Length_spec f w ino o c :
  opens w !! file f = Some (ino, o) -> content w !! ino = Some c -> Z.of_nat (length c) < 2 ^ 31 ->
  exists w', Length f w = Ok (Z.of_nat (length c), w') /\
             moved w w' (file f) ino (Z.of_nat (length c)).
Proof.
  intros Ho Hc Hlen. unfold Length, Tell.
  destruct (Lseek_spec (file f) 0 2 w ino o c) as [(Ht & w1 & _ & -> & Hm)|(Ht & _)];
    [lia | done | done | | unfold seek_target in Ht; simpl in Ht; lia].
  unfold seek_target in *. cbn [Z.eqb Pos.eqb] in *. rewrite Z.add_0_r in *.
  destruct Hm as (Hn & Hct & Hop & Hfd). simpl.
  destruct (Lseek_spec (file f) 0 1 w1 ino (Z.of_nat (length c)) c)
    as [(Ht1 & w2 & -> & _ & Hm2)|(Ht1 & _)];
    [lia | by rewrite Hop, lookup_insert_eq | by rewrite Hct | | unfold seek_target in Ht1; simpl in Ht1; lia].
  unfold seek_target in *. cbn [Z.eqb Pos.eqb] in *. rewrite Z.add_0_r in *.
  exists w2. split; [done |]. destruct Hm2 as (Hn2 & Hct2 & Hop2 & Hfd2).
  split_and!; [congruence | congruence | | congruence].
  by rewrite Hop2, Hop, insert_insert_eq.
Qed.

Lemma buf_fill_ok buffer data : (length data <= length buffer)%nat ->
  buf_fill buffer data = Ok (data ++ drop (length data) buffer).
Proof. intros. unfold buf_fill. by rewrite (proj2 (Nat.leb_le _ _)). Qed.

Lemma OpenFile_Read_spec f buf n w ino o c :
  opens w !! file f = Some (ino, o) -> content w !! ino = Some c -> Z.of_nat (length c) < 2 ^ 31 ->
  0 <= n <= Z.of_nat (length buf) -> n < 2 ^ 31 ->
  let off := currentOffset f in
  (off < 0 -> OpenFile_Read f buf n w = Trap AssertFail) /\
  (0 <= off < 2 ^ 31 ->
   let d := take (Z.to_nat n) (drop (Z.to_nat off) c) in
   exists r out w' o', OpenFile_Read f buf n w = Ok (r, out, advance f r, w') /\
     moved w w' (file f) ino o' /\
     ((r = -1 /\ out = buf) \/
      (r = Z.of_nat (length d) /\ out = d ++ drop (length d) buf)) /\
     currentOffset (advance f r) = off + r).
Proof.
  intros Ho Hc Hlen Hn Hn31 off. unfold OpenFile_Read, ReadAt, ReadPartial. fold off. split.
  - intros Hneg.
    destruct (Lseek_spec (file f) off 0 w ino o c) as [(Ht & _)|(_ & ->)];
      [lia | done | done | unfold seek_target in Ht; simpl in Ht; lia | done].
  - intros Hoff. set (d := take (Z.to_nat n) (drop (Z.to_nat off) c)).
    destruct (Lseek_spec (file f) off 0 w ino o c) as [(_ & w1 & _ & -> & Hm)|(Ht & _)];
      [lia | done | done | | unfold seek_target in Ht; simpl in Ht; lia].
    unfold seek_target in Hm. cbn [Z.eqb] in Hm. destruct Hm as (Hn1 & Hc1 & Ho1 & Hf1).
    cbn [obind]. rewrite (u32_id n) by (unfold is_u32; lia).
    destruct (read (file f) n w1) as [[r dd] w2] eqn:E.
    assert (opens w1 !! file f = Some (ino, off)) as Ho1' by (by rewrite Ho1, lookup_insert_eq).
    assert (content w1 !! ino = Some c) as Hc1' by (by rewrite Hc1).
    assert (length d <= length buf)%nat.
    { unfold d. rewrite length_take. lia. }
    destruct (read_ok _ _ _ _ _ _ _ _ _ E ltac:(lia) Ho1' Hc1')
      as [(-> & -> & Hn2 & Hc2 & Ho2 & Hf2)|(Hd & -> & Hn2 & Hc2 & Ho2 & Hf2)].
    + rewrite buf_fill_ok by (simpl; lia). exists (-1), buf, w2, off.
      split_and!; [done | | by left |].
      * split_and!; congruence.
      * simpl. rewrite s32_id; [done |]. unfold is_s32. lia.
    + fold d in Hd. rewrite Hd. rewrite buf_fill_ok by done. do 2 eexists. exists w2. eexists.
      split_and!; [done | | by right |].
      * split_and!; [congruence | congruence | | congruence].
        rewrite Ho2, Ho1, insert_insert_eq. done.
      * simpl. rewrite s32_id; [done |]. unfold is_s32.
        assert (Z.of_nat (length d) <= Z.of_nat (length c) - off \/ Z.of_nat (length d) = 0).
        { unfold d. rewrite length_take, length_drop. lia. }
        lia.
Qed.

(** A read into no bytes at all, of any size: when it returns, nothing was
    delivered. *)
Lemma OpenFile_Read_empty f n w ino o c r out f' w' :
  opens w !! file f = Some (ino, o) -> content w !! ino = Some c ->
  OpenFile_Read f [] n w = Ok (r, out, f', w') ->
  f' = advance f r /\ out = [] /\ -1 <= r <= 0 /\ exists o', moved w w' (file f) ino o'.
Proof.
  intros Ho Hc. unfold OpenFile_Read, ReadAt, ReadPartial.
  destruct (Lseek_spec (file f) (currentOffset f) 0 w ino o c) as [(_ & w1 & _ & -> & Hn1 & Hc1 & Ho1 & Hf1)|(_ & ->)];
    [lia | done | done | | done].
  cbn [obind]. destruct (read (file f) (u32 n) w1) as [[x d] w2] eqn:E. unfold buf_fill. cbn [length].
  destruct d as [|z d]; [|done]. cbn [length Nat.leb obind drop app]. intros [= <- <- <- <-].
  split; [done |]. split; [done |].
  destruct (read_ok _ _ _ _ _ _ _ _ _ E (proj1 (u32_range n)) ltac:(by rewrite Ho1, lookup_insert_eq) ltac:(by rewrite Hc1))
    as [(-> & _ & Hn2 & Hc2 & Ho2 & Hf2)|(_ & -> & Hn2 & Hc2 & Ho2 & Hf2)].
  - split; [lia |]. eexists. split_and!; [congruence | congruence | rewrite Ho2; exact Ho1 | congruence].
  - split; [done |]. eexists. split_and!; [congruence | congruence | | congruence].
    by rewrite Ho2, Ho1, insert_insert_eq.
Qed.

Lemma length_splice c o b : 0 <= o ->
  Z.of_nat (length (splice c o b)) = Z.max (Z.of_nat (length c)) (o + Z.of_nat (length b)).
Proof.
  intros. unfold splice. rewrite !length_app, length_take, length_app, length_replicate, length_drop. lia.
Qed.

Lemma OpenFile_Write_spec f buf n w ino o c :
  opens w !! file f = Some (ino, o) -> content w !! ino = Some c ->
  0 <= n <= Z.of_nat (length buf) -> n < 2 ^ 31 -> currentOffset f < 2 ^ 31 ->
  OpenFile_Write f buf n w = Trap AssertFail \/
  exists w' o', OpenFile_Write f buf n w = Ok (n, advance f n, w') /\
    names w' = names w /\ fds w' = fds w /\ opens w' = <[file f := (ino, o')]> (opens w) /\
    content w' = <[ino := splice c (currentOffset f) (take (Z.to_nat n) buf)]> (content w) /\
    currentOffset (advance f n) = currentOffset f + n /\ 0 <= currentOffset f.
Proof.
  intros Ho Hc Hn Hn31 Hoff. unfold OpenFile_Write, WriteAt, WriteFile.
  destruct (Lseek_spec (file f) (currentOffset f) 0 w ino o c) as [(Ht & w1 & _ & -> & Hm)|(_ & ->)];
    [lia | done | done | | by left].
  unfold seek_target in Hm, Ht. cbn [Z.eqb] in Hm, Ht. destruct Hm as (Hn1 & Hc1 & Ho1 & Hf1).
  cbn [obind]. rewrite (u32_id n) by (unfold is_u32; lia).
  rewrite (proj2 (Z.leb_le n _)) by lia.
  destruct (write (file f) (take (Z.to_nat n) buf) w1) as [r w2] eqn:E.
  assert (opens w1 !! file f = Some (ino, currentOffset f)) as Ho1' by (by rewrite Ho1, lookup_insert_eq).
  assert (content w1 !! ino = Some c) as Hc1' by (by rewrite Hc1).
  destruct (Z.eqb_spec r n) as [->|Hr]; [|by left].
  destruct (write_ok _ _ _ _ _ _ _ _ E Ho1' Hc1') as [(-> & _)|(Hr & Hn2 & Hc2 & Ho2 & Hf2)]; [lia |].
  right. exists w2. eexists. simpl.
  rewrite take_ge in Hc2 by (rewrite length_take; lia).
  split_and!; [done | congruence | congruence | | | | lia].
  - rewrite Ho2, Ho1, insert_insert_eq. done.
  - by rewrite Hc2, Hc1.
  - apply s32_id. unfold is_s32.
    destruct (opens_content w2 (file f) ino (currentOffset f + n)) as (c2 & Hc2' & Hlt).
    { by rewrite Ho2, lookup_insert_eq. }
    rewrite Hc2, lookup_insert_eq in Hc2'. injection Hc2' as <-.
    rewrite length_splice, length_take in Hlt by lia. lia.
Qed.

(** *** The operations, one by one *)

Lemma socket_slot (w : W) d id : slot_ok w d -> slot_abs w d = Some (id, ASock) ->
  _file d = None /\ _mode d = Socket_Mode.
Proof.
  unfold slot_abs. intros [(E & _)|[(_ & -> & -> & _)|(_ & Hm & f & n & p & Hf & _)]] Hab; [by rewrite E in Hab | done |].
  rewrite Hf in Hab. destruct Hm as [E|E]; rewrite E in Hab; destruct (opens w !! _id d); discriminate Hab.
Qed.

Lemma arr_slot t w m i d : rep t w m -> slot t i d ->
  arr_get t i = Ok d /\ forall d', arr_set t i d' = Ok (<[Z.to_nat i := d']> t).
Proof.
  intros [Hwf _] [Hi Hd]. split; [by apply arr_get_lookup; [lia |] |].
  intros d'. apply arr_set_Ok. rewrite (wf_length _ _ Hwf). unfold _capacity in *. lia.
Qed.

(** An id of the map reaches an open file through [GetFileDescriptor]. *)
Lemma file_access t w m id ino md o :
  rep t w m -> m !! id = Some (AFile ino md o) ->
  exists i d f o' c, IsOpening t id = Ok i /\ i <> -1 /\ slot t i d /\ _id d = id /\ _mode d = md /\
    (md = 0 \/ md = 1) /\ _file d = Some f /\ file f = id /\ currentOffset f = o /\
    slot_ok w d /\ opens w !! id = Some (ino, o') /\ content w !! ino = Some c /\
    Z.of_nat (length c) < 2 ^ 31 /\ is_s32 o.
Proof.
  intros Hrep Hid. pose proof (IsOpening_rep _ _ _ id Hrep) as HI. rewrite Hid in HI.
  destruct HI as (i&d&Hi&Hi1&Hs&Hd&Hok&_&Ha). unfold slot_abs in Ha.
  pose proof Hok as [(Hm&_)|[(_&Hm&_)|(Hfd&Hm&f&n&p&Hf&Hff&_&Hp&H32)]];
    [by rewrite Hm in Ha | by rewrite Hm in Ha |].
  rewrite Hf, Hp in Ha. destruct p as [ino' o'].
  assert (_mode d =? -1 = false /\ _mode d =? Socket_Mode = false) as [E1 E2].
  { by destruct Hm as [-> | ->]. }
  rewrite E1, E2 in Ha. simpl in Ha. injection Ha as <- -> <- <-.
  destruct (opens_content w (_id d) ino o' Hp) as (c & Hc & Hlen).
  exists i, d, f, o', c. by split_and!.
Qed.

(** A method of an open file that only moves its offset. *)
Lemma rep_file t w m i d f f' ino o' oo w' :
  rep t w m -> slot t i d -> slot_ok w d -> _id d <> -1 -> (_mode d = 0 \/ _mode d = 1) ->
  _file d = Some f -> file f' = file f -> is_s32 (currentOffset f') -> opens w !! _id d = Some (ino, o') ->
  opens w' = <[_id d := (ino, oo)]> (opens w) -> fds w' = fds w ->
  rep (<[Z.to_nat i := set_file d f']> t) w'
    (<[_id d := AFile ino (_mode d) (currentOffset f')]> m).
Proof.
  intros Hrep Hs Hok Hid Hmd Hf Hff H32 Ho Ho' Hfds.
  assert (slot_ok w' (set_file d f')) as Hok'.
  { right. right. destruct Hok as [(Hm&_)|[(_&Hm&_)|(Hfd&Hm&f0&n&p&Hf0&Hff0&Hn&Hp&_)]];
      [by destruct Hmd; congruence | by destruct Hmd; unfold Socket_Mode in *; congruence |].
    rewrite Hfds. simpl. split_and!; [done | done |]. exists f', n, (ino, oo).
    split_and!; [done | congruence | done | by rewrite Ho', lookup_insert_eq | done]. }
  pose proof (rep_update t w m i d (set_file d f') w' Hrep Hs Hok') as HR.
  assert (slot_abs w' (set_file d f') = Some (_id d, AFile ino (_mode d) (currentOffset f'))) as Ha.
  { unfold slot_abs. simpl. rewrite Ho', lookup_insert_eq. by destruct Hmd as [-> | ->]. }
  rewrite Ha, insert_delete_eq in HR. apply HR; [|by left].
  intros id Hin Hne. by rewrite Hfds, Ho', lookup_insert_ne.
Qed.

(** A slot of the free table. *)
Lemma FindFreeSlot_spec t w m : rep t w m ->
  (exists i d, FindFreeSlot t = Ok i /\ i <> -1 /\ slot t i d /\ _id d = -1 /\ slot_abs w d = None /\
     (forall j e, slot t j e -> j < i -> _id e <> -1)) \/
  (FindFreeSlot t = Ok (-1) /\ forall j e, slot t j e -> _id e <> -1).
Proof.
  intros [Hwf _]. destruct (find_slot_spec (fun d => _mode d =? -1) t (wf_length _ _ Hwf))
    as [(i&d&E&Hs&Hd&Hlt)|(E&Hno)].
  - left. apply Z.eqb_eq in Hd. exists i, d.
    destruct (slot_ok_mode _ _ (wf_slot _ _ Hwf _ _ Hs) Hd).
    split_and!; [done | destruct Hs; lia | done..|].
    intros j e Hj Hji Hid. specialize (Hlt j e Hj Hji).
    destruct (wf_slot _ _ Hwf _ _ Hj) as [(Hm&_)|[(Hfd&_)|(Hfd&_)]];
      [by rewrite Hm in Hlt | apply fds_nonneg in Hfd; lia | apply fds_nonneg in Hfd; lia].
  - right. split; [done |]. intros j e Hj Hid. specialize (Hno j e Hj).
    destruct (wf_slot _ _ Hwf _ _ Hj) as [(Hm&_)|[(Hfd&_)|(Hfd&_)]];
      [by rewrite Hm in Hno | apply fds_nonneg in Hfd; lia | apply fds_nonneg in Hfd; lia].
Qed.

(** A descriptor just given out by the host is in no slot. *)
Lemma rep_fresh t w m r : rep t w m -> r ∉ fds w -> m !! r = None.
Proof.
  intros [Hwf Hm] Hr. destruct (m !! r) as [a|] eqn:E; [|done].
  apply Hm in E as (i&d&Hs&Ha). pose proof (wf_slot _ _ Hwf _ _ Hs) as Hok.
  destruct (slot_abs_id _ _ _ _ Hok Ha) as [-> Hid].
  by destruct (slot_ok_id _ _ Hok Hid).
Qed.

Lemma rep_no_minus1 t w m : rep t w m -> m !! (-1) = None.
Proof. intros Hrep. eapply rep_fresh; [done |]. intros Hin. apply fds_nonneg in Hin. lia. Qed.

(** Filling a free slot with a fresh descriptor. *)
Lemma rep_new_slot t w m i d d' w' a :
  rep t w m -> slot t i d -> _id d = -1 -> _id d' ∉ fds w -> slot_ok w' d' ->
  slot_abs w' d' = Some (_id d', a) ->
  (forall id, id ∈ fds w -> id ∈ fds w' /\ opens w' !! id = opens w !! id) ->
  rep (<[Z.to_nat i := d']> t) w' (<[_id d' := a]> m).
Proof.
  intros Hrep Hs Hd Hfresh Hok' Ha Hframe.
  pose proof (rep_update t w m i d d' w' Hrep Hs Hok') as HR.
  rewrite Ha, Hd, delete_id in HR by (by eapply rep_no_minus1).
  apply HR; [|by right]. intros id Hin _. by apply Hframe.
Qed.

(** The table looks the same to a host that only changed elsewhere. *)
Lemma rep_same t w m w' : rep t w m -> opens w' = opens w -> fds w' = fds w -> rep t w' m.
Proof.
  intros [[Hl Hs Hi] Hm] Ho Hf. split; [split; [done | | done] |].
  - intros i d Hid. specialize (Hs i d Hid). unfold slot_ok in *. by rewrite Ho, Hf.
  - intros id a. rewrite Hm. unfold slot_abs. by rewrite Ho.
Qed.

(** Releasing a slot. *)
Lemma rep_release t w m i d d' w' :
  rep t w m -> slot t i d -> _id d <> -1 -> _mode d' = -1 -> _id d' = -1 ->
  opens w' = delete (_id d) (opens w) -> fds w' = fds w ∖ {[_id d]} ->
  rep (<[Z.to_nat i := d']> t) w' (delete (_id d) m).
Proof.
  intros Hrep Hs Hid Hm' Hid' Ho Hf.
  pose proof (rep_update t w m i d d' w' Hrep Hs ltac:(by left)) as HR.
  unfold slot_abs in HR. rewrite Hm' in HR. apply HR.
  - intros id Hin Hne. rewrite Hf, Ho, lookup_delete_ne by done. set_solver.
  - right. rewrite Hid'. intros Hin. apply fds_nonneg in Hin. lia.
Qed.

Lemma replace_self t i d m id a :
  t !! Z.to_nat i = Some d -> (m : gmap Z ainfo) !! id = Some a ->
  <[Z.to_nat i := d]> (t : Table) = t /\ <[id := a]> m = m.
Proof. intros. by rewrite list_insert_id, insert_id. Qed.

(** *** Refinement *)

Definition refines (op : fop) (t : Table) (w : W) (m : gmap Z ainfo) : Prop :=
  match run_op op t w with
  | Ok (r, out, t', w') =>
      exists m', spec_op op (abs_state m w) r out (abs_state m' w') /\ rep t' w' m'
  | Trap AssertFail => spec_abort op (abs_state m w)
  | Trap _ => False
  end.

Lemma abs_state_same m w w' :
  names w' = names w -> content w' = content w -> abs_state m w' = abs_state m w.
Proof. unfold abs_state. by intros -> ->. Qed.

Lemma with_open_state m m' w w' :
  names w' = names w -> content w' = content w ->
  abs_state m' w' = with_open (abs_state m w) m'.
Proof. unfold abs_state, with_open. by intros -> ->. Qed.

Lemma Open_ok t w m n ty : rep t w m -> refines (FOpen n ty) t w m.
Proof.
  intros Hrep. unfold refines. simpl. unfold Table_Open.
  destruct (FindFreeSlot_spec t w m Hrep) as [(i&d&->&Hi&Hs&Hd&Ha&_)|(->&_)]; simpl;
    [|by exists m; auto].
  rewrite (proj2 (Z.eqb_neq i (-1)) Hi). destruct (arr_slot t w m i d Hrep Hs) as [Hg Hset].
  unfold on_slot. rewrite Hg. simpl. unfold Open_File, FileSystem_Open_type, OpenForReadWrite.
  destruct (open n O_RDWR w) as [fd w1] eqn:E. simpl.
  destruct (open_rdwr n w fd w1 E) as [(->&Hn&Hc&Ho&Hf)|(Hfd&Hfresh&ino&Hino&Hn&Hc&Ho&Hf)].
  - simpl. rewrite Hset. simpl. exists m. split; [left; by rewrite (abs_state_same m w w1) |].
    rewrite <- (delete_id m (-1)) by (by apply (rep_no_minus1 t w)). rewrite <- Hd.
    pose proof (rep_update t w m i d {| _mode := _mode d; _id := _id d; _file := None; _name := _name d |}
      w1 Hrep Hs) as HR.
    assert (_mode d = -1) as Hm.
    { destruct Hrep as [Hwf _]. destruct (wf_slot _ _ Hwf _ _ Hs) as [(?&_)|[(Hx&_)|(Hx&_)]];
        [done | apply fds_nonneg in Hx; lia | apply fds_nonneg in Hx; lia]. }
    unfold slot_abs in HR. simpl in HR. rewrite Hm in HR. simpl in HR. rewrite Hm. apply HR; [by left | |].
    + intros id Hin _. by rewrite Ho, Hf.
    + by left.
  - rewrite (proj2 (Z.eqb_neq fd (-1))) by lia. simpl. rewrite Hset. simpl.
    rewrite (proj2 (Z.eqb_neq fd (-1))) by lia.
    set (d' := {| _mode := _; _id := fd; _file := _; _name := _ |}).
    rewrite (arr_get_lookup _ i d'); [| destruct Hs; lia |].
    2:{ apply list_lookup_insert_eq. destruct Hs as [_ Hl]. by apply lookup_lt_Some in Hl. }
    simpl. exists (<[fd := AFile ino (if ty =? 0 then 0 else 1) 0]> m). split.
    + right. exists ino. split_and!; [done | by eapply rep_fresh | done |].
      by rewrite (with_open_state m _ w w1).
    + change fd with (_id d') at 1.
      apply (rep_new_slot t w m i d d' w1); [done..| | |].
      * right. right. split_and!; [rewrite Hf; set_solver | |].
        { simpl. destruct (ty =? 0); [by left | by right]. }
        eexists _, n, (ino, 0). split_and!; [done | done | done | by rewrite Ho, lookup_insert_eq |].
        unfold is_s32. simpl. lia.
      * unfold slot_abs. simpl. rewrite Ho, lookup_insert_eq. by destruct (ty =? 0).
      * intros id Hin. rewrite Hf, Ho, lookup_insert_ne by set_solver. set_solver.
Qed.

Lemma Close_ok t w m id : rep t w m -> refines (FClose id) t w m.
Proof.
  intros Hrep. unfold refines. simpl. unfold Table_Close.
  pose proof (IsOpening_rep t w m id Hrep) as HI.
  destruct (m !! id) as [a|] eqn:Em.
  - destruct HI as (i&d&->&Hi&Hs&<-&Hok&Hid&_). simpl.
    rewrite (proj2 (Z.eqb_neq i (-1)) Hi). simpl.
    destruct (arr_slot t w m i d Hrep Hs) as [Hg Hset]. unfold on_slot. rewrite Hg. simpl.
    unfold Close_File, Close. rewrite (proj2 (Z.eqb_neq _ (-1)) Hid).
    destruct (close (_id d) w) as [r w1] eqn:E.
    destruct (slot_ok_id _ _ Hok Hid) as [Hfd _].
    destruct (close_ok _ _ _ _ E Hfd) as (Hr & Hn & Hc & Ho & Hf).
    destruct Hr as [-> | ->]; simpl; [|done].
    rewrite Hset. simpl. exists (delete (_id d) m). split.
    + split; [done |]. by apply with_open_state.
    + by apply (rep_release t w m i d new_FileDescriptor w1).
  - destruct HI as [->|(->&i&d&->&Hs&Hd&Hi)]; simpl.
    + by exists m.
    + rewrite (proj2 (Z.eqb_neq i (-1)) Hi). simpl.
      destruct (arr_slot t w m i d Hrep Hs) as [Hg Hset]. unfold on_slot. rewrite Hg. simpl.
      unfold Close_File. rewrite Hd. simpl. rewrite Hset. simpl. exists m.
      destruct Hs. by rewrite list_insert_id.
Qed.

Lemma CloseSocket_ok t w m id : rep t w m -> refines (FCloseSocket id) t w m.
Proof.
  intros Hrep. unfold refines. simpl. unfold Table_Close_Socket.
  pose proof (IsOpening_rep t w m id Hrep) as HI.
  destruct (m !! id) as [a|] eqn:Em.
  - destruct HI as (i&d&->&Hi&Hs&<-&Hok&Hid&_). simpl.
    rewrite (proj2 (Z.eqb_neq i (-1)) Hi). simpl.
    destruct (arr_slot t w m i d Hrep Hs) as [Hg Hset]. unfold on_slot. rewrite Hg. simpl.
    unfold Close_Socket. rewrite (proj2 (Z.eqb_neq _ (-1)) Hid).
    destruct (close (_id d) w) as [r w1] eqn:E.
    destruct (slot_ok_id _ _ Hok Hid) as [Hfd _].
    destruct (close_ok _ _ _ _ E Hfd) as (_ & Hn & Hc & Ho & Hf).
    simpl. rewrite Hset. simpl. exists (delete (_id d) m). split.
    + split; [done |]. by apply with_open_state.
    + by apply (rep_release t w m i d _ w1).
  - destruct HI as [->|(->&i&d&->&Hs&Hd&Hi)]; simpl.
    + by exists m.
    + rewrite (proj2 (Z.eqb_neq i (-1)) Hi). simpl.
      destruct (arr_slot t w m i d Hrep Hs) as [Hg Hset]. unfold on_slot. rewrite Hg. simpl.
      unfold Close_Socket. rewrite Hd. simpl. rewrite Hset. simpl. exists m.
      destruct Hs. by rewrite list_insert_id.
Qed.

Lemma Socket_ok t w m : rep t w m -> refines FSocket t w m.
Proof.
  intros Hrep. unfold refines. simpl. unfold Table_SocketTCP.
  destruct (FindFreeSlot_spec t w m Hrep) as [(i&d&->&Hi&Hs&Hd&Ha&_)|(->&_)]; simpl;
    [|by exists m; auto].
  rewrite (proj2 (Z.eqb_neq i (-1)) Hi). destruct (arr_slot t w m i d Hrep Hs) as [Hg Hset].
  unfold on_slot. rewrite Hg. simpl. unfold SocketTCP.
  destruct (socket w) as [fd w1] eqn:E.
  destruct (socket_ok w fd w1 E) as [(->&Hn&Hc&Ho&Hf)|(Hfd&Hfresh&Hn&Hc&Ho&Hf)].
  - simpl. rewrite Hset. simpl. exists m. split; [left; by rewrite (abs_state_same m w w1) |].
    destruct Hs as [_ Hs]. rewrite list_insert_id by done. by apply (rep_same t w).
  - rewrite (proj2 (Z.ltb_ge fd 0)) by lia. simpl. rewrite Hset. simpl.
    set (d' := {| _mode := _; _id := fd; _file := _; _name := _ |}).
    exists (<[fd := ASock]> m). split.
    + right. split_and!; [done | by eapply rep_fresh |]. by rewrite (with_open_state m _ w w1).
    + change fd with (_id d') at 1. apply (rep_new_slot t w m i d d' w1); [done..| | done |].
      * right. left. rewrite Hf. split_and!; [set_solver | done..].
      * intros id Hin. rewrite Hf, Ho. set_solver.
Qed.

Lemma is_s32_advance f n : is_s32 (currentOffset (advance f n)).
Proof. apply s32_range. Qed.

Lemma Read_ok t w m id buf n :
  rep t w m -> op_ok (FRead id buf n) (abs_state m w) -> refines (FRead id buf n) t w m.
Proof.
  intros Hrep (Hn & Hn31 & ino & md & o & Hm). simpl in Hm. unfold refines. simpl.
  destruct (file_access t w m id ino md o Hrep Hm)
    as (i&d&f&o'&c&HI&Hi&Hs&Hd&Hmd&Hmd'&Hf&Hff&Hcur&Hok&Ho&Hc&Hlen&H32).
  destruct (arr_slot t w m i d Hrep Hs) as [Hg Hset].
  unfold GetFileDescriptor. rewrite HI. simpl. rewrite (proj2 (Z.eqb_neq i (-1)) Hi). simpl.
  rewrite Hg. simpl. unfold Read, the_file. rewrite Hf. simpl.
  assert (id <> -1) as Hid by (intros ->; by rewrite (rep_no_minus1 t w m Hrep) in Hm).
  destruct (OpenFile_Read_spec f buf n w ino o' c) as [Hneg Hpos];
    [by rewrite Hff | done | done | done | done |].
  unfold is_s32 in H32. rewrite Hcur in Hneg, Hpos.
  assert (o < 0 \/ 0 <= o < 2 ^ 31) as [Hx|Hx] by lia.
  { rewrite (Hneg Hx). simpl. exists ino, md, o. by split. }
  destruct (Hpos Hx) as (r & out & w1 & oo & -> & (Hn1 & Hc1 & Ho1 & Hf1) & Hr & Hadv).
  simpl. rewrite Hset. simpl. exists (<[id := AFile ino md (o + r)]> m). split.
  - exists ino, md, o, c. split; [done |]. split; [done |].
    rewrite (with_open_state m _ w w1) by done.
    destruct Hr as [[-> ->]|Hr]; [by left |]. right. destruct Hr. auto.
  - rewrite <- Hadv, <- Hd, <- Hmd.
    apply (rep_file t w m i d f (advance f r) ino o' oo w1);
      rewrite ?Hd, ?Hmd; try done; [apply is_s32_advance | by rewrite <- Hff].
Qed.

(** Reading and writing a size that does not fit the empty buffer. *)
Lemma Read_empty t w m id n r out t' w' :
  rep t w m -> is_Some (m !! id) -> run_op (FRead id [] n) t w = Ok (r, out, t', w') ->
  r <= 0 /\ exists m', rep t' w' m'.
Proof.
  intros Hrep [[ino md o|] Hm] E; cbn [run_op] in E; unfold GetFileDescriptor in E.
  - destruct (file_access t w m id ino md o Hrep Hm)
      as (i&d&f&o'&c&HI&Hi&Hs&Hd&Hmd&Hmd'&Hf&Hff&Hcur&Hok&Ho&Hc&Hlen&H32).
    destruct (arr_slot t w m i d Hrep Hs) as [Hg Hset].
    rewrite HI in E. cbn [obind] in E. rewrite (proj2 (Z.eqb_neq i (-1)) Hi) in E. cbn [obind deref negb] in E.
    rewrite Hg in E. cbn [obind] in E. unfold Read, the_file in E. rewrite Hf in E. cbn [obind] in E.
    destruct (OpenFile_Read f [] n w) as [[[[x b] f1] w1]|] eqn:Er; [|done]. cbn [obind] in E.
    rewrite Hset in E. injection E as <- <- <- <-.
    assert (id <> -1) as Hid by (intros ->; by rewrite (rep_no_minus1 t w m Hrep) in Hm).
    eapply OpenFile_Read_empty in Er as (-> & _ & Hx & oo & Hn1 & Hc1 & Ho1 & Hf1); [|by rewrite Hff | done].
    split; [lia |]. eexists. apply (rep_file t w m i d f (advance f x) ino o' oo w1);
      rewrite ?Hd, ?Hmd; try done; [apply is_s32_advance | by rewrite <- Hff].
  - pose proof (IsOpening_rep _ _ _ id Hrep) as HI. rewrite Hm in HI.
    destruct HI as (i & d & Hi & Hi1 & Hs & _ & Hok & _ & Ha). rewrite Hi in E. cbn [obind] in E.
    rewrite (proj2 (Z.eqb_neq i (-1)) Hi1) in E. cbn [obind deref negb] in E.
    destruct (arr_slot t w m i d Hrep Hs) as [Hg _]. rewrite Hg in E. cbn [obind] in E.
    unfold Read, the_file in E. by rewrite (proj1 (socket_slot w d id Hok Ha)) in E.
Qed.

Lemma Write_empty t w m id n r out t' w' : n < 0 -> is_s32 n ->
  rep t w m -> is_Some (m !! id) -> run_op (FWrite id [] n) t w = Ok (r, out, t', w') ->
  r = -1 /\ t' = t /\ w' = w.
Proof.
  intros Hn Hn32 Hrep [x Hm] E. pose proof (IsOpening_rep _ _ _ id Hrep) as HI. rewrite Hm in HI.
  destruct HI as (i & d & Hi & Hi1 & Hs & _). destruct (arr_slot t w m i d Hrep Hs) as [Hg Hset].
  cbn [run_op] in E. unfold GetFileDescriptor, on_slot in E. rewrite Hi in E. cbn [obind] in E.
  rewrite (proj2 (Z.eqb_neq i (-1)) Hi1) in E. cbn [obind deref negb] in E. rewrite Hg in E. cbn [obind] in E.
  unfold Write in E. destruct (_mode d =? ReadWriteFile).
  - destruct (the_file d) as [f|]; [|done]. cbn [obind] in E. unfold OpenFile_Write, WriteAt in E.
    destruct (Lseek _ _ _ _) as [w1|]; [|done]. cbn [obind] in E. unfold WriteFile in E.
    rewrite (proj2 (Z.leb_gt (u32 n) _)) in E; [done |].
    unfold is_s32, u32 in *. rewrite <- (Z.mod_add n 1), Z.mod_small by lia. cbn [length]. lia.
  - cbn [obind] in E. rewrite Hset in E. injection E as <- _ <- <-.
    destruct Hs as [_ Hs]. by rewrite list_insert_id.
Qed.

Lemma Write_ok t w m id buf n :
  rep t w m -> op_ok (FWrite id buf n) (abs_state m w) -> refines (FWrite id buf n) t w m.
Proof.
  intros Hrep (Hn & Hn31 & ino & md & o & Hm). simpl in Hm. unfold refines. simpl.
  destruct (file_access t w m id ino md o Hrep Hm)
    as (i&d&f&o'&c&HI&Hi&Hs&Hd&Hmd&Hmd'&Hf&Hff&Hcur&Hok&Ho&Hc&Hlen&H32).
  destruct (arr_slot t w m i d Hrep Hs) as [Hg Hset].
  unfold GetFileDescriptor. rewrite HI. simpl. rewrite (proj2 (Z.eqb_neq i (-1)) Hi). simpl.
  unfold on_slot. rewrite Hg. simpl. unfold Write, the_file. rewrite Hf, Hmd.
  assert (id <> -1) as Hid by (intros ->; by rewrite (rep_no_minus1 t w m Hrep) in Hm).
  destruct Hmd' as [-> | ->]; simpl.
  - destruct (OpenFile_Write_spec f buf n w ino o' c)
      as [->|(w1 & oo & -> & Hn1 & Hf1 & Ho1 & Hc1 & Hadv & _)];
      [by rewrite Hff | done | done | done | unfold is_s32 in H32; lia | |].
    { simpl. by exists ino, o. }
    simpl. rewrite Hset. simpl. rewrite Hcur in Hc1, Hadv.
    exists (<[id := AFile ino 0 (o + n)]> m). split.
    + exists ino, 0, o, c. split_and!; [done..|]. simpl. split; [done |].
      unfold abs_state. simpl. by rewrite Hn1, Hc1.
    + rewrite <- Hadv, <- Hd, <- Hmd.
      apply (rep_file t w m i d f (advance f n) ino o' oo w1);
        rewrite ?Hd, ?Hmd; try done; [by left | apply is_s32_advance | by rewrite <- Hff].
  - rewrite Hset. simpl. exists m. destruct Hs as [_ Hs]. rewrite list_insert_id by done.
    split; [|done]. by exists ino, 1, o, c.
Qed.

Lemma Seek_ok t w m id pos :
  rep t w m -> op_ok (FSeek id pos) (abs_state m w) -> refines (FSeek id pos) t w m.
Proof.
  intros Hrep (Hpos & ino & md & o & Hm). simpl in Hm. unfold refines. simpl.
  destruct (file_access t w m id ino md o Hrep Hm)
    as (i&d&f&o'&c&HI&Hi&Hs&Hd&Hmd&Hmd'&Hf&Hff&Hcur&Hok&Ho&Hc&Hlen&H32).
  destruct (arr_slot t w m i d Hrep Hs) as [Hg Hset].
  unfold GetFileDescriptor. rewrite HI. simpl. rewrite (proj2 (Z.eqb_neq i (-1)) Hi). simpl.
  unfold on_slot. rewrite Hg. simpl. unfold Seek, the_file. rewrite Hf. simpl.
  assert (id <> -1) as Hid by (intros ->; by rewrite (rep_no_minus1 t w m Hrep) in Hm).
  destruct (Length_spec f w ino o' c) as (w1 & -> & Hn1 & Hc1 & Ho1 & Hf1);
    [by rewrite Hff | done | done |].
  set (len := Z.of_nat (length c)) in *. simpl.
  assert (forall f' oo w', file f' = file f -> is_s32 (currentOffset f') -> names w' = names w ->
    content w' = content w -> opens w' = <[file f := (ino, oo)]> (opens w) -> fds w' = fds w ->
    rep (<[Z.to_nat i := set_file d f']> t) w' (<[id := AFile ino md (currentOffset f')]> m)) as HR.
  { intros f' oo w' Hff' H32' _ _ Ho' Hfd'. rewrite <- Hd, <- Hmd.
    apply (rep_file t w m i d f f' ino o' oo w'); rewrite ?Hd, ?Hmd; try done. by rewrite <- Hff. }
  destruct (Z.leb_spec len pos).
  - simpl. rewrite Hset. simpl. exists m. split.
    + exists ino, md, o, c. split_and!; [done..|]. fold len.
      rewrite (proj2 (Z.leb_le len pos)) by lia. by rewrite (abs_state_same m w w1).
    + pose proof (HR f len w1 eq_refl ltac:(by rewrite Hcur) Hn1 Hc1 Ho1 Hf1) as HR'.
      destruct d as [md0 id0 fl nm]. simpl in *. unfold set_file in HR'. simpl in HR'.
      rewrite <- Hf, Hcur in HR'. by rewrite (insert_id m id) in HR'.
  - destruct (Z.eqb_spec pos (-1)) as [->|Hp1].
    + destruct (Length_spec f w1 ino len c) as (w2 & -> & Hn2 & Hc2 & Ho2 & Hf2);
        [by rewrite Ho1, lookup_insert_eq | by rewrite Hc1 | done |]. fold len in Ho2 |- *.
      simpl. rewrite Hset. simpl. exists (<[id := AFile ino md len]> m). split.
      * exists ino, md, o, c. split_and!; [done..|]. fold len.
        rewrite (proj2 (Z.leb_gt len (-1))) by lia. simpl. split; [done |].
        by rewrite (with_open_state m _ w w2) by congruence.
      * apply (HR (Build_OpenFile (file f) len (type f)) len w2);
          [done | unfold is_s32; simpl; lia | congruence | congruence | | congruence].
        by rewrite Ho2, Ho1, insert_insert_eq.
    + simpl. rewrite Hset. simpl. exists (<[id := AFile ino md pos]> m). split.
      * exists ino, md, o, c. split_and!; [done..|]. fold len.
        rewrite (proj2 (Z.leb_gt len pos)) by lia.
        split; [done |]. by rewrite (with_open_state m _ w w1).
      * by apply (HR (Build_OpenFile (file f) pos (type f)) len w1).
Qed.

Lemma run_op_refines op t w m : rep t w m -> op_ok op (abs_state m w) -> refines op t w m.
Proof.
  intros Hrep Hok. destruct op;
    auto using Open_ok, Close_ok, Read_ok, Write_ok, Seek_ok, Socket_ok, CloseSocket_ok.
Qed.

(** The empty table. *)
Lemma rep_new_Table w : rep new_Table w ∅.
Proof.
  assert (forall i d, slot new_Table i d -> d = new_FileDescriptor) as Hd.
  { intros i d [_ Hd]. by apply lookup_replicate in Hd as [-> _]. }
  split; [split |].
  - done.
  - intros i d ->%Hd. by left.
  - intros i j d e ->%Hd _ _ Hn. done.
  - intros id a. rewrite lookup_empty. split; [done |]. by intros (i&d&->%Hd&?).
Qed.

Lemma filter_all (l : list Z) : Forall (.≠ -1) l -> filter (.≠ -1) l = l.
Proof. induction 1 as [|x l Hx Hl IH]; [done |]. by rewrite filter_cons_True, IH. Qed.

(** The ids in use are the keys of the map. *)
Definition used_ids (t : Table) : list Z := filter (.≠ -1) (map _id (drop 2 t)).

Lemma elem_of_used_ids t w m id : rep t w m -> id ∈ used_ids t <-> is_Some (m !! id).
Proof.
  intros [Hwf Hm]. unfold used_ids. rewrite list_elem_of_filter, list_elem_of_fmap. split.
  - intros (Hid & d & -> & Hd). apply list_elem_of_lookup in Hd as [k Hd]. rewrite lookup_drop in Hd.
    assert (slot t (Z.of_nat (2 + k)) d) as Hs.
    { split; [|by rewrite Nat2Z.id]. apply lookup_lt_Some in Hd. rewrite (wf_length _ _ Hwf) in Hd.
      unfold _capacity in *. lia. }
    destruct (slot_ok_abs w d (wf_slot _ _ Hwf _ _ Hs) Hid) as [a Ha].
    exists a. apply Hm. eauto.
  - intros [a Ha]. apply Hm in Ha as (i&d&Hs&Ha).
    destruct (slot_abs_id _ _ _ _ (wf_slot _ _ Hwf _ _ Hs) Ha) as [-> ?].
    split; [done |]. exists d. split; [done |]. destruct Hs as [Hi Hd].
    apply list_elem_of_lookup. exists (Z.to_nat i - 2)%nat. rewrite lookup_drop, <- Hd. f_equal. lia.
Qed.

Lemma used_ids_NoDup t w : table_wf t w -> NoDup (used_ids t).
Proof.
  intros Hwf. unfold used_ids.
  assert (forall l k, (forall i d, l !! i = Some d -> slot t (Z.of_nat (k + i)) d) ->
            NoDup (filter (.≠ -1) (map _id l))) as Hgen.
  { induction l as [|d l IH]; intros k Hl; [constructor |]. simpl.
    assert (NoDup (filter (.≠ -1) (map _id l))) as Hnd.
    { apply (IH (Datatypes.S k)). intros i e He.
      replace (Datatypes.S k + i)%nat with (k + Datatypes.S i)%nat by lia. by apply Hl. }
    rewrite filter_cons. case_decide as Hid; [|done]. constructor; [|done].
    rewrite list_elem_of_filter, list_elem_of_fmap. intros (_ & e & Heq & He).
    apply list_elem_of_lookup in He as [j He].
    pose proof (wf_id _ _ Hwf _ _ _ _ (Hl 0%nat d eq_refl) (Hl (Datatypes.S j) e He) Heq Hid). lia. }
  apply (Hgen _ 2%nat). intros i d Hd. rewrite lookup_drop in Hd. split.
  - apply lookup_lt_Some in Hd. rewrite (wf_length _ _ Hwf) in Hd. unfold _capacity in *. lia.
  - by rewrite Nat2Z.id.
Qed.

Lemma size_used_ids t w m : rep t w m -> size m = length (used_ids t).
Proof.
  intros Hrep. rewrite <- size_dom.
  assert (dom m = list_to_set (used_ids t)) as ->.
  { apply set_eq. intros id. rewrite elem_of_dom, elem_of_list_to_set. symmetry.
    by apply (elem_of_used_ids t w m). }
  apply size_list_to_set. by apply (used_ids_NoDup t w), Hrep.
Qed.

(** All 18 slots are in use exactly when [FindFreeSlot] finds none. *)
Lemma FindFreeSlot_full t w m : rep t w m ->
  (size m < 18)%nat -> exists i d, FindFreeSlot t = Ok i /\ i <> -1 /\ slot t i d /\ _id d = -1.
Proof.
  intros Hrep Hsz. destruct (FindFreeSlot_spec t w m Hrep) as [(i&d&?&?&?&?&_)|(_&Hall)]; [eauto 10 |].
  rewrite (size_used_ids t w m Hrep) in Hsz. exfalso. unfold used_ids in Hsz.
  rewrite (filter_all) in Hsz.
  { rewrite length_map, length_drop, (wf_length _ _ (proj1 Hrep)) in Hsz. unfold _capacity in Hsz. lia. }
  apply Forall_forall. intros id. rewrite list_elem_of_fmap. intros (d & -> & Hd).
  apply list_elem_of_lookup in Hd as [k Hd]. rewrite lookup_drop in Hd.
  apply (Hall (Z.of_nat (2 + k))). split; [|by rewrite Nat2Z.id].
  apply lookup_lt_Some in Hd. rewrite (wf_length _ _ (proj1 Hrep)) in Hd. unfold _capacity in *. lia.
Qed.

Lemma size_bound t w m : rep t w m -> (size m <= 18)%nat.
Proof.
  intros Hrep. rewrite (size_used_ids t w m Hrep). unfold used_ids.
  etrans; [apply length_filter |].
  by rewrite length_map, length_drop, (wf_length _ _ (proj1 Hrep)).
Qed.

Lemma full_no_free t w m i d : rep t w m -> size m = 18%nat -> slot t i d -> _id d <> -1.
Proof.
  intros Hrep Hsz [Hi Hd] Hid. rewrite (size_used_ids t w m Hrep) in Hsz.
  assert (d ∈ drop 2 t) as Hin.
  { apply list_elem_of_lookup. exists (Z.to_nat i - 2)%nat. rewrite lookup_drop, <- Hd. f_equal. lia. }
  apply (list_elem_of_fmap_2 _id) in Hin. rewrite Hid in Hin.
  assert (length (drop 2 t) = 18%nat) as Hlen by (by rewrite length_drop, (wf_length _ _ (proj1 Hrep))).
  unfold used_ids in Hsz. revert Hsz Hin. change (map _id (drop 2 t)) with (_id <$> drop 2 t).
  assert (length (_id <$> drop 2 t) = 18%nat) as <- by (by rewrite length_fmap).
  generalize (_id <$> drop 2 t). intros l Hl Hin.
  assert (forall l, length (filter (.≠ -1) l) = length l -> (-1) ∉ l) as Hf; [|by apply (Hf l)].
  clear. induction l as [|x l IH]; simpl; [set_solver |]. rewrite filter_cons.
  pose proof (length_filter (.≠ -1) l). case_decide; simpl; [|lia].
  intros Hl. apply not_elem_of_cons. split; [congruence | apply IH; lia].
Qed.

(** Open with a free slot returns what the host returns. *)
Lemma Table_Open_host t w m n ty fd w1 :
  rep t w m -> (size m < 18)%nat -> open n O_RDWR w = (fd, w1) -> fd <> -1 ->
  exists t1, Table_Open t n ty w = Ok (fd, t1, w1).
Proof.
  intros Hrep Hsz E Hfd. unfold Table_Open.
  destruct (FindFreeSlot_full t w m Hrep Hsz) as (i & d & -> & Hi & Hs & _). simpl.
  rewrite (proj2 (Z.eqb_neq i (-1)) Hi). destruct (arr_slot t w m i d Hrep Hs) as [Hg Hset].
  unfold on_slot. rewrite Hg. simpl. unfold Open_File, FileSystem_Open_type, OpenForReadWrite.
  rewrite E. simpl. rewrite (proj2 (Z.eqb_neq fd (-1)) Hfd). simpl. rewrite Hset. simpl.
  rewrite (proj2 (Z.eqb_neq fd (-1)) Hfd).
  set (d' := {| _mode := _; _id := fd; _file := _; _name := _ |}).
  rewrite (arr_get_lookup _ i d'); [| destruct Hs; lia |].
  2:{ apply list_lookup_insert_eq. destruct Hs as [_ Hl]. by apply lookup_lt_Some in Hl. }
  simpl. eauto.
Qed.

Lemma Table_Open_rep t w m n ty fd w1 :
  rep t w m -> (size m < 18)%nat -> open n O_RDWR w = (fd, w1) -> fd <> -1 ->
  exists t1 ino, Table_Open t n ty w = Ok (fd, t1, w1) /\ names w !! n = Some ino /\
    rep t1 w1 (<[fd := AFile ino (if ty =? 0 then 0 else 1) 0]> m).
Proof.
  intros Hrep Hsz E Hfd. pose proof (Open_ok t w m n ty Hrep) as HR. unfold refines in HR. simpl in HR.
  destruct (Table_Open_host t w m n ty fd w1 Hrep Hsz E Hfd) as [t1 Ht1].
  rewrite Ht1 in HR. simpl in HR. destruct HR as (m' & [[-> _]|(ino & _ & _ & Hino & Hs)] & Hrep'); [done |].
  exists t1, ino. split; [done |]. split; [done |]. injection Hs as Hm' _ _. by rewrite <- Hm'.
Qed.

Lemma run_op_seek_out id pos t w r out t' w' :
  run_op (FSeek id pos) t w = Ok (r, out, t', w') -> out = [].
Proof.
  simpl. intros. ok_inv. destruct x1 as [[? ?] ?]. simpl in *. by simplify_eq.
Qed.

Lemma read_splice c o b n : 0 <= o -> Z.of_nat (length b) = n ->
  take (Z.to_nat n) (drop (Z.to_nat o) (splice c o b)) = b.
Proof.
  intros. unfold splice. rewrite drop_app_length'.
  - rewrite take_app_length' by lia. done.
  - rewrite length_take, length_app, length_replicate. lia.
Qed.

End Refine.

(** ** Properties *)

Section Properties.
Context {W : Type} `{HostLaws W}.

(** C16.  The file descriptor table refines its specification: starting from
    the empty table, every Open, Close, Read, Write, Seek, socket creation
    and socket close maps the abstract map of open files and sockets as the
    specification says.  Files opened twice have offsets of their own,
    writes go to the shared contents, a read-only id refuses writes; nothing
    undefined happens, and an ASSERT aborts only where [spec_abort] says. *)
Theorem table_refines_spec :
  (forall w, rep new_Table w ∅) /\
  (forall op t w m, rep t w m -> op_ok op (abs_state m w) -> refines op t w m).
Proof. split; [apply rep_new_Table |]. intros. by apply run_op_refines. Qed.

(** C17.  The table holds at most 18 ids (slots 2 to 19); with fewer, Open
    returns the descriptor the host opens and records it; with 18, it
    returns -1 and does not call the host. *)
Theorem table_capacity t w m n ty : rep t w m ->
  (size m <= 18)%nat /\
  (size m = 18%nat -> Table_Open t n ty w = Ok (-1, t, w)) /\
  (forall fd w1, (size m < 18)%nat -> open n O_RDWR w = (fd, w1) -> fd <> -1 ->
     exists t1 ino, Table_Open t n ty w = Ok (fd, t1, w1) /\
       rep t1 w1 (<[fd := AFile ino (if ty =? 0 then 0 else 1) 0]> m)).
Proof.
  intros Hrep. split_and!.
  - by apply (size_bound t w).
  - intros Hsz. unfold Table_Open.
    destruct (FindFreeSlot_spec t w m Hrep) as [(i&d&_&_&Hs&Hd&_)|(->&_)]; [|done].
    by destruct (full_no_free t w m i d Hrep Hsz Hs).
  - intros fd w1 Hsz E Hfd.
    destruct (Table_Open_rep t w m n ty fd w1 Hrep Hsz E Hfd) as (t1 & ino & ? & _ & ?). eauto.
Qed.

(** C18.  What is written through one id is read back through any id of the
    same file after a seek to where it was written. *)
Theorem write_seek_read t w m id id2 ino o md2 o2 buf buf2 n :
  rep t w m -> m !! id = Some (AFile ino 0 o) -> m !! id2 = Some (AFile ino md2 o2) ->
  0 <= o < 2 ^ 31 -> 0 < n <= Z.of_nat (length buf) -> n <= Z.of_nat (length buf2) -> n < 2 ^ 31 ->
  match run_op (FWrite id buf n) t w with
  | Ok (r, _, t1, w1) =>
      r = n /\
      exists t2 w2, run_op (FSeek id2 o) t1 w1 = Ok (o, [], t2, w2) /\
      exists r3 out t3 w3, run_op (FRead id2 buf2 n) t2 w2 = Ok (r3, out, t3, w3) /\
        (r3 = -1 \/ r3 = n /\ take (Z.to_nat n) out = take (Z.to_nat n) buf)
  | Trap e => e = AssertFail
  end.
Proof.
  intros Hrep Hid Hid2 Ho Hn Hn2 Hn31.
  assert (op_ok (FWrite id buf n) (abs_state m w)) as Hok1 by (split_and!; [lia..|]; simpl; eauto).
  pose proof (run_op_refines _ t w m Hrep Hok1) as HR. unfold refines in HR.
  destruct (run_op (FWrite id buf n) t w) as [[[[r ?] t1] w1]|e]; [|by destruct e].
  destruct HR as (m1 & (ino' & md & o' & c & Hm & Hc & Hw) & Hrep1).
  simpl in Hm. rewrite Hid in Hm. injection Hm as <- <- <-. simpl in Hw.
  destruct Hw as [-> Hs1]. injection Hs1 as -> Hnames Hdata. split; [done |].
  set (b := take (Z.to_nat n) buf) in *.
  assert (length b = Z.to_nat n) as Hlb by (unfold b; rewrite length_take; lia).
  assert (exists o3, <[id := AFile ino 0 (o + n)]> m !! id2 = Some (AFile ino (if bool_decide (id = id2) then 0 else md2) o3)) as [o3 Hid2'].
  { case_bool_decide as E; [rewrite E, lookup_insert_eq; eauto | rewrite lookup_insert_ne by done; eauto]. }
  set (md3 := if bool_decide (id = id2) then 0 else md2) in *.
  assert (op_ok (FSeek id2 o) (abs_state (<[id := AFile ino 0 (o + n)]> m) w1)) as Hok2.
  { split; [unfold is_s32; lia |]. simpl. eauto. }
  pose proof (run_op_refines _ t1 w1 _ Hrep1 Hok2) as HR. unfold refines in HR.
  assert (content w1 !! ino = Some (splice c o b)) as Hc1 by (by rewrite Hdata, lookup_insert_eq).
  destruct (run_op (FSeek id2 o) t1 w1) as [[[[r2 out2] t2] w2]|e] eqn:Eseek; [|by destruct e].
  destruct HR as (m2 & (i2 & d2 & p2 & c2 & Hm2 & Hc2 & Hsk) & Hrep2).
  simpl in Hm2, Hc2. rewrite Hid2' in Hm2. injection Hm2 as <- <- <-.
  rewrite Hc1 in Hc2. injection Hc2 as <-.
  cbn zeta in Hsk.
  rewrite (proj2 (Z.leb_gt _ _)) in Hsk by (rewrite length_splice; lia).
  rewrite (proj2 (Z.eqb_neq o (-1))) in Hsk by lia. destruct Hsk as [-> Hs2].
  injection Hs2 as -> Hnames2 Hdata2. pose proof (run_op_seek_out id2 o t1 w1 _ _ _ _ Eseek) as ->.
  exists t2, w2. split; [done |].
  set (m2 := <[id2 := AFile ino md3 o]> _) in *.
  assert (m2 !! id2 = Some (AFile ino md3 o)) as Hid3 by apply lookup_insert_eq.
  assert (op_ok (FRead id2 buf2 n) (abs_state m2 w2)) as Hok3.
  { split; [lia |]. split; [done |]. cbn [abs_state f_open]. eauto. }
  pose proof (run_op_refines _ t2 w2 m2 Hrep2 Hok3) as HR. unfold refines in HR.
  destruct (run_op (FRead id2 buf2 n) t2 w2) as [[[[r3 out3] t3] w3]|e].
  2:{ destruct e; try done. destruct HR as (? & ? & ? & Hx & Hlt).
      cbn [abs_state f_open] in Hx. rewrite Hid3 in Hx. injection Hx as _ _ <-. lia. }
  exists r3, out3, t3, w3. split; [done |].
  destruct HR as (m3 & (i3 & d3 & p3 & c3 & Hm3 & Hc3 & Hrd) & _).
  cbn [abs_state f_open f_data] in Hm3, Hc3. rewrite Hid3 in Hm3. injection Hm3 as <- <- <-.
  rewrite Hdata2, Hc1 in Hc3. injection Hc3 as <-.
  cbn zeta in Hrd. destruct Hrd as [(-> & _)|(Hr & Hout & _)]; [by left | right].
  rewrite read_splice in Hr, Hout by lia. split; [lia |].
  rewrite Hout, take_app_length' by lia. done.
Qed.

End Properties.
End FileTable.

(** ** A concrete host: one file named "f" of at most 8 bytes *)

Module OneFileHost.

Record fsys := { bytes : list Z; offs : gmap nat Z }.

Definition f_name : list Z := [102].
Definition f_bytes (w : fsys) : list Z := take 8 (bytes w).
Arguments f_bytes : simpl never.
Definition with_offs (w : fsys) (o : gmap nat Z) : fsys := {| bytes := f_bytes w; offs := o |}.

Definition off_of (fd : Z) (w : fsys) : option Z :=
  if fd <? 0 then None else offs w !! Z.to_nat fd.
Definition set_off (fd o : Z) (w : fsys) : fsys :=
  with_offs w (<[Z.to_nat fd := o]> (offs w)).
Definition fresh_fd (w : fsys) : nat := fresh (dom (offs w)).

#[global] Instance one_file_host : Host fsys := {|
  open n fl w :=
    if bool_decide (n = f_name) then
      (Z.of_nat (fresh_fd w),
       {| bytes := match fl with O_RDWR => f_bytes w | O_RDWR_CREAT_TRUNC => [] end;
          offs := <[fresh_fd w := 0]> (offs w) |})
    else (-1, w);
  close fd w :=
    match off_of fd w with
    | Some _ => (0, with_offs w (delete (Z.to_nat fd) (offs w)))
    | None => (-1, w)
    end;
  read fd n w :=
    match off_of fd w with
    | Some o =>
        let d := take (Z.to_nat n) (drop (Z.to_nat o) (f_bytes w)) in
        (Z.of_nat (length d), d, set_off fd (o + Z.of_nat (length d)) w)
    | None => (-1, [], w)
    end;
  write fd b w :=
    match off_of fd w with
    | Some o =>
        if bool_decide (0 <= o /\ o + Z.of_nat (length b) <= 8)
        then (Z.of_nat (length b),
              {| bytes := splice (f_bytes w) o b;
                 offs := <[Z.to_nat fd := o + Z.of_nat (length b)]> (offs w) |})
        else (-1, w)
    | None => (-1, w)
    end;
  lseek fd off wh w :=
    match off_of fd w with
    | Some o =>
        let t := seek_target o (Z.of_nat (length (f_bytes w))) off wh in
        if bool_decide (0 <= t < 2 ^ 31) then (t, set_off fd t w) else (-1, w)
    | None => (-1, w)
    end;
  unlink _ w := (-1, w);
  socket w := (-1, w);
  inet_addr _ := 0;
  connect _ _ _ w := (-1, w);
  set_timeout _ _ _ w := w;
  send _ _ w := (-1, w);
  recv _ _ w := (-1, [], w)
|}.

#[global] Instance one_file_view : HostView fsys := {|
  names _ := {[f_name := 0]};
  content w := {[0 := f_bytes w]};
  opens w := kmap Z.of_nat (pair 0 <$> offs w);
  fds w := dom (kmap (M2 := gmap Z) Z.of_nat (pair 0 <$> offs w))
|}.

Lemma opens_off fd w p :
  opens w !! fd = Some p <-> exists o, off_of fd w = Some o /\ p = (0, o).
Proof.
  simpl. rewrite lookup_kmap_Some by apply _. unfold off_of. split.
  - intros (i & -> & Hi). rewrite lookup_fmap_Some in Hi. destruct Hi as (o & <- & Ho).
    rewrite (proj2 (Z.ltb_ge _ 0)), Nat2Z.id by lia. eauto.
  - intros (o & Ho & ->). destruct (Z.ltb_spec fd 0); [done |].
    exists (Z.to_nat fd). rewrite Z2Nat.id by lia. split; [done |]. by rewrite lookup_fmap, Ho.
Qed.

Lemma f_bytes_take w o : f_bytes (with_offs w o) = f_bytes w.
Proof.
  change (take 8 (take 8 (bytes w)) = take 8 (bytes w)). by rewrite take_take, Nat.min_id.
Qed.

Lemma content_with_offs w o : content (with_offs w o) = content w.
Proof. cbn [content one_file_view]. by rewrite f_bytes_take. Qed.

Lemma f_bytes_take' w o : f_bytes {| bytes := f_bytes w; offs := o |} = f_bytes w.
Proof. apply (f_bytes_take w o). Qed.

Lemma opens_insert w w' fd o :
  0 <= fd -> offs w' = <[Z.to_nat fd := o]> (offs w) -> opens w' = <[fd := (0, o)]> (opens w).
Proof.
  intros ? E. simpl. rewrite E, fmap_insert, kmap_insert by apply _. by rewrite Z2Nat.id.
Qed.

Lemma opens_delete w w' fd :
  0 <= fd -> offs w' = delete (Z.to_nat fd) (offs w) -> opens w' = delete fd (opens w).
Proof.
  intros ? E. simpl. rewrite E, fmap_delete, kmap_delete by apply _. by rewrite Z2Nat.id.
Qed.

Lemma fds_opens w : fds w = dom (opens w).
Proof. done. Qed.

Lemma off_of_Some w fd ino o :
  opens w !! fd = Some (ino, o) -> 0 <= fd /\ off_of fd w = Some o /\ ino = 0.
Proof.
  intros (o' & Ho & [= -> ->])%opens_off. split; [|done]. unfold off_of in Ho.
  by destruct (Z.ltb_spec fd 0).
Qed.

Lemma fds_keep w w' fd p p' :
  opens w !! fd = Some p -> opens w' = <[fd := p']> (opens w) -> fds w' = fds w.
Proof.
  intros Hp Ho. rewrite !fds_opens, Ho, dom_insert_L.
  apply elem_of_dom_2 in Hp. set_solver.
Qed.

Lemma fresh_not_open w : Z.of_nat (fresh_fd w) ∉ fds w.
Proof.
  rewrite fds_opens. intros [p Hp]%elem_of_dom. apply opens_off in Hp as (o & Ho & _).
  unfold off_of in Ho. destruct (Z.ltb_spec (Z.of_nat (fresh_fd w)) 0); [done |].
  rewrite Nat2Z.id in Ho. apply elem_of_dom_2 in Ho. by apply (is_fresh (dom (offs w))).
Qed.

Lemma length_f_bytes w : (length (f_bytes w) <= 8)%nat.
Proof. unfold f_bytes. rewrite length_take. lia. Qed.

#[global] Instance one_file_laws : HostLaws fsys.
Proof.
  split.
  - intros w fd p Hp. rewrite fds_opens. by apply elem_of_dom_2 in Hp.
  - intros w fd ino o (_ & _ & ->)%off_of_Some. exists (f_bytes w). simpl.
    split; [by simpl_map |]. pose proof (length_f_bytes w). lia.
  - intros w fd Hin. rewrite fds_opens in Hin. apply elem_of_dom in Hin as [[ino o] Hp].
    by destruct (off_of_Some _ _ _ _ Hp).
  - intros n w r w' E. cbn in E. case_bool_decide; simplify_eq; [right | by left].
    split; [lia |]. split; [apply fresh_not_open |]. exists 0. split; [by simpl_map |].
    split; [done |]. split; [unfold content; simpl; by rewrite f_bytes_take' |].
    assert (opens {| bytes := f_bytes w; offs := <[fresh_fd w := 0]> (offs w) |} =
      <[Z.of_nat (fresh_fd w) := (0, 0)]> (opens w)) as Ho.
    { apply opens_insert; [lia |]. by rewrite Nat2Z.id. }
    split; [done |]. rewrite !fds_opens, Ho. apply dom_insert_L.
  - intros n w r w' E. cbn in E. case_bool_decide; simplify_eq; [right | by left].
    split; [lia |]. split; [apply fresh_not_open |]. exists 0.
    split; [symmetry; by apply insert_id; simpl_map |].
    split; [simpl; by rewrite insert_singleton_eq |].
    split; [intros i Hi; cbn [names one_file_view] in Hi; rewrite lookup_singleton_eq in Hi; congruence |].
    split; [intros Hi; cbn [names one_file_view] in Hi; by rewrite lookup_singleton_eq in Hi |].
    assert (opens {| bytes := []; offs := <[fresh_fd w := 0]> (offs w) |} =
      <[Z.of_nat (fresh_fd w) := (0, 0)]> (opens w)) as Ho.
    { apply opens_insert; [lia |]. by rewrite Nat2Z.id. }
    split; [done |]. rewrite !fds_opens, Ho. apply dom_insert_L.
  - intros fd w r w' E Hin. rewrite fds_opens in Hin. apply elem_of_dom in Hin as [[ino o] Hp].
    apply off_of_Some in Hp as (Hfd & Ho & _). cbn in E. rewrite Ho in E. simplify_eq.
    assert (opens (with_offs w (delete (Z.to_nat fd) (offs w))) = delete fd (opens w)) as Hd
      by (by apply opens_delete).
    split; [by left |]. split; [done |]. split; [apply content_with_offs |].
    split; [done |]. rewrite !fds_opens, Hd. apply dom_delete_L.
  - intros fd n w r d w' ino o c E Hn Hp Hc. pose proof (off_of_Some _ _ _ _ Hp) as (Hfd & Ho & ->).
    cbn [content one_file_view] in Hc.
    apply lookup_singleton_Some in Hc as [_ <-]. cbn in E. rewrite Ho in E. simplify_eq.
    right. split; [done |]. split; [done |]. split; [done |].
    split; [apply content_with_offs |].
    assert (opens (set_off fd (o + Z.of_nat (length (take (Z.to_nat n) (drop (Z.to_nat o) (f_bytes w))))) w)
      = <[fd := (0, o + Z.of_nat (length (take (Z.to_nat n) (drop (Z.to_nat o) (f_bytes w)))))]> (opens w)) as Hi
      by (by apply opens_insert).
    split; [done |]. by eapply fds_keep.
  - intros fd b w r w' ino o c E Hp Hc. pose proof (off_of_Some _ _ _ _ Hp) as (Hfd & Ho & ->).
    cbn [content one_file_view] in Hc.
    apply lookup_singleton_Some in Hc as [_ <-]. cbn in E. rewrite Ho in E.
    case_bool_decide as Hb; simplify_eq; [right | by left].
    split; [lia |]. split; [done |]. rewrite Nat2Z.id, take_ge by done.
    split.
    { simpl. rewrite insert_singleton_eq. f_equal. apply take_ge. cbn [bytes].
      pose proof (FileTable.length_splice (f_bytes w) o b). pose proof (length_f_bytes w). lia. }
    match goal with |- opens ?w' = _ /\ _ =>
      assert (opens w' = <[fd := (0, o + Z.of_nat (length b))]> (opens w)) as Hi by (by apply opens_insert)
    end.
    split; [done |]. by eapply fds_keep.
  - intros fd off wh w r w' ino o c E Hwh Hp Hc. pose proof (off_of_Some _ _ _ _ Hp) as (Hfd & Ho & ->).
    cbn [content one_file_view] in Hc.
    apply lookup_singleton_Some in Hc as [_ <-]. cbn [lseek one_file_host] in E.
    rewrite Ho in E. cbn zeta. set (t := seek_target _ _ _ _) in *. clearbody t.
    case_bool_decide; simplify_eq; [|done].
    split; [done |]. split; [done |]. split; [apply content_with_offs |].
    assert (opens (set_off fd r w) = <[fd := (0, r)]> (opens w)) as Hi by (by apply opens_insert).
    split; [done |]. by eapply fds_keep.
  - intros n w r w' E. cbn in E. simplify_eq. by left.
  - intros w r w' E. cbn in E. simplify_eq. by left.
  - intros fd p a w r w' E. cbn in E. by simplify_eq.
  - done.
  - intros fd b w r w' E. cbn in E. by simplify_eq.
  - intros fd n w r d w' E. cbn in E. by simplify_eq.
Qed.

End OneFileHost.

Module FileTableWitness.
Import FileTable OneFileHost.

Definition disk0 : fsys := {| bytes := [1; 2; 3]; offs := ∅ |}.

(** Open "f" twice, for writing and for reading. *)
Lemma opened : exists t1 t2 w1 w2,
  Table_Open new_Table f_name 0 disk0 = Ok (0, t1, w1) /\
  Table_Open t1 f_name 1 w1 = Ok (1, t2, w2) /\
  rep t2 w2 (<[1 := AFile 0 1 0]> (<[0 := AFile 0 0 0]> ∅)).
Proof.
  assert (names disk0 !! f_name = Some 0) as Hn by reflexivity.
  destruct (Table_Open_rep new_Table disk0 ∅ f_name 0 0 (open f_name O_RDWR disk0).2)
    as (t1 & ino & E1 & Hino & R1); [apply rep_new_Table | vm_compute; lia | reflexivity | done |].
  rewrite Hn in Hino. injection Hino as <-.
  destruct (Table_Open_rep t1 (open f_name O_RDWR disk0).2 (<[0 := AFile 0 0 0]> ∅) f_name 1 1
              (open f_name O_RDWR (open f_name O_RDWR disk0).2).2)
    as (t2 & ino & E2 & Hino & R2); [exact R1 | vm_compute; lia | reflexivity | done |].
  change (names _ !! f_name) with (Some 0) in Hino. injection Hino as <-.
  eexists t1, t2, _, _. split; [exact E1 |]. split; [exact E2 | exact R2].
Qed.

End FileTableWitness.
Import FileTable OneFileHost FileTableWitness.

Lemma table_refines_spec_witness :
  rep new_Table disk0 ∅ /\ refines (FOpen f_name 0) new_Table disk0 ∅.
Proof.
  destruct (table_refines_spec (W := fsys)) as [H0 H1]. split; [apply H0 |].
  apply H1; [apply H0 | exact I].
Defined.

Lemma table_capacity_witness :
  exists t1 ino, Table_Open new_Table f_name 0 disk0 = Ok (0, t1, (open f_name O_RDWR disk0).2) /\
    rep t1 (open f_name O_RDWR disk0).2 (<[0 := AFile ino 0 0]> ∅).
Proof.
  apply (table_capacity new_Table disk0 ∅ f_name 0 (rep_new_Table disk0)); [vm_compute; lia | reflexivity | done].
Defined.

Lemma write_seek_read_witness : exists t w,
  match run_op (FWrite 0 [7; 8] 2) t w with
  | Ok (r, _, t1, w1) =>
      r = 2 /\
      exists t2 w2, run_op (FSeek 1 0) t1 w1 = Ok (0, [], t2, w2) /\
      exists r3 out t3 w3, run_op (FRead 1 [0; 0] 2) t2 w2 = Ok (r3, out, t3, w3) /\
        (r3 = -1 \/ r3 = 2 /\ take (Z.to_nat 2) out = take (Z.to_nat 2) [7; 8])
  | Trap e => e = AssertFail
  end.
Proof.
  destruct opened as (t1 & t & w1 & w & _ & _ & R). exists t, w.
  apply (write_seek_read t w _ 0 1 0 0 1 0 [7; 8] [0; 0] 2 R); [reflexivity | reflexivity | simpl; lia..].
Defined.
