(* ===== verification/AddrSpace.v ===== *)
(** * Address spaces (userprog/addrspace.cc, noff.h)

    [AddrSpace]: a linear page table (a pointer into the store [tables] of
    the machine) and its number of pages.  [Load] is split where the code
    blocks: [Load_header] before [addrLock->P()], [Load_memory] between
    [P] and [V]; [Syscalls] puts the semaphore calls back.  The theorems:
    a load gives every page a frame of its own that nobody else has, and
    the memory seen through the new table is the segments of the file and
    zeros; processes with disjoint frames cannot see each other's writes;
    [~AddrSpace] gives the frames back; [AddrSpace::Translate] agrees with
    the translation of the machine. *)

From S2P Require Import Prelude Bitmap Machine FileTable.

Module AddrSpace.
Import Bitmap Machine Stub.

(** ** NOFF *)

Definition NOFFMAGIC : Z := 0xbadfad.

Record Segment := mkSegment { virtualAddr : Z; inFileAddr : Z; size : Z }.

Record NoffHeader := mkNoff {
  noffMagic : Z;
  code : Segment;
  initData : Segment;
  readonlyData : Segment;
  uninitData : Segment
}.

Definition sizeof_NoffHeader : Z := 52.

(** The bytes read into the header, as the [int]s of the struct. *)
Definition read_int (b : list Z) (i : Z) : outcome Z :=
  let! w := load_le (u8 <$> b) (4 * i) 4 in Ok (s32 w).

Definition read_segment (b : list Z) (i : Z) : outcome Segment :=
  let! va := read_int b i in
  let! fa := read_int b (i + 1) in
  let! sz := read_int b (i + 2) in
  Ok (mkSegment va fa sz).

Definition noff_of_bytes (b : list Z) : outcome NoffHeader :=
  let! magic := read_int b 0 in
  let! c := read_segment b 1 in
  let! i := read_segment b 4 in
  let! r := read_segment b 7 in
  let! u := read_segment b 10 in
  Ok (mkNoff magic c i r u).

Definition swap_segment (big : bool) (s : Segment) : Segment :=
  mkSegment (s32 (WordToHost big (u32 (virtualAddr s))))
    (s32 (WordToHost big (u32 (inFileAddr s)))) (s32 (WordToHost big (u32 (size s)))).

Definition SwapHeader (big : bool) (h : NoffHeader) : NoffHeader :=
  mkNoff (s32 (WordToHost big (u32 (noffMagic h)))) (swap_segment big (code h))
    (swap_segment big (initData h)) (swap_segment big (readonlyData h))
    (swap_segment big (uninitData h)).

(** ** class AddrSpace *)

Definition UserStackSize : Z := 1024.

Record AddrSpace := mkAddrSpace { as_pageTable : option positive; numPages : Z }.

Definition new_AddrSpace : AddrSpace := mkAddrSpace None 0.

(** [bzero] and [bcopy] into an array: the range must be inside it. *)
Definition blit (mem : list Z) (a : Z) (data : list Z) : outcome (list Z) :=
  if (0 <=? a) && (a + Z.of_nat (length data) <=? Z.of_nat (length mem)) then
    Ok (take (Z.to_nat a) mem ++ data ++ drop (Z.to_nat a + length data) mem)
  else Trap Undefined.

(** [n] elements of an array from [a]. *)
Definition slice (mem : list Z) (a n : Z) : outcome (list Z) :=
  if (0 <=? a) && (0 <=? n) && (a + n <=? Z.of_nat (length mem)) then
    Ok (take (Z.to_nat n) (drop (Z.to_nat a) mem))
  else Trap Undefined.

(** A fresh entry of [new TranslationEntry[n]]; every field is assigned
    before it is read. *)
Definition blank : TranslationEntry := mkEntry 0 0 false false false false.

(** Loop body of the frame allocation (addrspace.cc 157-166). *)
Definition alloc_page (s : Bitmap * list TranslationEntry * list Z) (i : Z)
    : outcome (Bitmap * list TranslationEntry * list Z) :=
  let '(bm, pt, mem) := s in
  let! ' (frame, bm) := FindAndSet bm in
  let! pt := arr_set pt i (mkEntry i frame true false false false) in
  let! mem := blit mem (frame * PageSize) (replicate (Z.to_nat PageSize) 0) in
  Ok (bm, pt, mem).

(** Loop body of the copy of the segments (addrspace.cc 200-208). *)
Definition copy_page (pt : list TranslationEntry) (buffer : list Z) (actualSegmentSize : Z)
    (mem : list Z) (i : Z) : outcome (list Z) :=
  let offset := i * PageSize in
  let size := if actualSegmentSize <? offset + PageSize then actualSegmentSize - offset else PageSize in
  let! e := arr_get pt i in
  let! data := slice buffer offset size in
  blit mem (physicalPage e * PageSize) data.

Definition addressSpaceSize (h : NoffHeader) : Z :=
  s32 (size (code h) + size (initData h) + size (uninitData h) + size (readonlyData h) + UserStackSize).

Definition segmentSize (h : NoffHeader) : Z :=
  s32 (size (code h) + size (initData h) + size (readonlyData h)).

(** Frames and page table (addrspace.cc 156-166). *)
Definition alloc_frames (bm : Bitmap) (mem : list Z) (n : Z)
    : outcome (Bitmap * list TranslationEntry * list Z) :=
  ofold alloc_page (bm, replicate (Z.to_nat n) blank, mem) (seqZ 0 n).

Definition copy_segments (pt : list TranslationEntry) (mem buffer : list Z) (n : Z) : outcome (list Z) :=
  ofold (copy_page pt buffer n) mem (seqZ 0 (divRoundUp n PageSize)).

Section Load.
Context {W : Type} `{Host W}.

(** One [ReadAt] into [buffer + s.virtualAddr], if the segment is not empty. *)
Definition load_segment (executable : OpenFile) (s : Segment) (buffer : list Z) (w : W)
    : outcome (list Z * W) :=
  if 0 <? size s then
    if (0 <=? virtualAddr s) && (virtualAddr s <=? Z.of_nat (length buffer)) then
      let k := Z.to_nat (virtualAddr s) in
      let! ' (_, into, w) := ReadAt executable (drop k buffer) (size s) (inFileAddr s) w in
      Ok (take k buffer ++ into, w)
    else Trap Undefined
  else Ok (buffer, w).

Definition load_segments (executable : OpenFile) (h : NoffHeader) (w : W) : outcome (list Z * W) :=
  let n := segmentSize h in
  if n <? 0 then Trap Undefined
  else
    let! ' (b, w) := load_segment executable (code h) (replicate (Z.to_nat n) 0) w in
    let! ' (b, w) := load_segment executable (initData h) b w in
    load_segment executable (readonlyData h) b w.

(** Up to [addrLock->P()] (addrspace.cc 120-141).  [stack] is what the
    local [noffH] held before. *)
Definition Load_header (fileName : list Z) (stack : list Z) (w : W)
    : outcome (option (OpenFile * NoffHeader * Z) * W) :=
  let! ' (fo, w) := FileSystem_Open fileName w in
  match fo with
  | None => Ok (None, w)
  | Some executable =>
      let! ' (_, b, w) := ReadAt executable stack sizeof_NoffHeader 0 w in
      let! h := noff_of_bytes b in
      let h :=
        if negb (noffMagic h =? NOFFMAGIC) &&
           (WordToHost HOST_IS_BIG_ENDIAN (u32 (noffMagic h)) =? NOFFMAGIC)
        then SwapHeader HOST_IS_BIG_ENDIAN h else h in
      assert! noffMagic h =? NOFFMAGIC;
      Ok (Some (executable, h, u32 (divRoundUp (addressSpaceSize h) PageSize)), w)
  end.

(** Between [addrLock->P()] and [addrLock->V()] (addrspace.cc 146-208);
    [None]: not enough memory. *)
Definition Load_memory (bm : Bitmap) (m : Machine) (executable : OpenFile) (h : NoffHeader)
    (n : Z) (w : W) : outcome (option AddrSpace * Bitmap * Machine * W) :=
  let! clear := NumClear bm in
  if clear <? n then Ok (None, bm, m, w)
  else
    let! ' (bm, pt, mem) := alloc_frames bm (mainMemory m) n in
    let! ' (buffer, w) := load_segments executable h w in
    let! mem := copy_segments pt mem (u8 <$> buffer) (segmentSize h) in
    let p := fresh (dom (tables m)) in
    let m := set_tables (set_mainMemory m mem) (<[p := pt]> (tables m)) in
    Ok (Some (mkAddrSpace (Some p) n), bm, m, w).

End Load.

(** [~AddrSpace]: [pageTable] is read in the loop, then deleted. *)
Definition delete_AddrSpace (s : AddrSpace) (bm : Bitmap) (m : Machine) : outcome (Bitmap * Machine) :=
  let! bm := ofold (fun bm i =>
    match as_pageTable s with
    | None => Trap Undefined
    | Some p =>
        match tables m !! p with
        | None => Trap Undefined
        | Some pt => let! e := arr_get pt i in Clear bm (physicalPage e)
        end
    end) bm (seqZ 0 (numPages s)) in
  Ok (bm, match as_pageTable s with
          | None => m
          | Some p => set_tables m (delete p (tables m))
          end).

Definition InitRegisters (s : AddrSpace) (m : Machine) : outcome Machine :=
  let! m := ofold (fun m i => WriteRegister m i 0) m (seqZ 0 NumTotalRegs) in
  let! m := WriteRegister m PCReg 0 in
  let! m := WriteRegister m NextPCReg 4 in
  WriteRegister m StackReg (s32 (u32 (numPages s * PageSize - 16))).

Definition RestoreState (s : AddrSpace) (m : Machine) : Machine :=
  set_pageTable m (as_pageTable s) (numPages s).

(** [AddrSpace::Translate]: the exception and [*paddr]. *)
Definition AS_Translate (s : AddrSpace) (vaddr : Z) (isReadWrite : bool) (m : Machine)
    : outcome (translation * Machine) :=
  let vpn := vaddr / PageSize in
  let offset := vaddr mod PageSize in
  if vpn >=? numPages s then Ok (Fault AddressErrorException, m)
  else
    match as_pageTable s with
    | None => Trap Undefined
    | Some p =>
        let! pte := get_entry m (InTable p vpn) in
        if isReadWrite && readOnly pte then Ok (Fault ReadOnlyException, m)
        else
          let pfn := physicalPage pte in
          if pfn >=? NumPhysPages then Ok (Fault BusErrorException, m)
          else
            let! m := set_entry m (InTable p vpn)
              (mkEntry (virtualPage pte) (physicalPage pte) (valid pte) (readOnly pte) true
                 (if isReadWrite then true else dirty pte)) in
            let paddr := u32 (pfn * PageSize + offset) in
            assert! (paddr <? MemorySize);
            Ok (Phys paddr, m)
    end.

(** ** Array facts *)

Lemma blit_Ok mem a data : 0 <= a -> a + Z.of_nat (length data) <= Z.of_nat (length mem) ->
  exists mem', blit mem a data = Ok mem' /\ length mem' = length mem /\
    (forall j : nat, mem' !! j =
       if bool_decide (a <= Z.of_nat j < a + Z.of_nat (length data))
       then data !! (j - Z.to_nat a)%nat else mem !! j).
Proof.
  intros Ha Hl. unfold blit. rewrite (proj2 (Z.leb_le 0 a)), (proj2 (Z.leb_le (a + _) _)) by lia.
  eexists. split; [done |]. split.
  { rewrite !length_app, length_take, length_drop. lia. }
  intros j. assert (length (take (Z.to_nat a) mem) = Z.to_nat a) as Ht by (rewrite length_take; lia).
  case_bool_decide as Hj.
  - rewrite lookup_app_r by lia. rewrite Ht, lookup_app_l by lia. done.
  - destruct (decide (Z.of_nat j < a)).
    + rewrite lookup_app_l by lia. apply lookup_take_lt. lia.
    + rewrite lookup_app_r by lia. rewrite Ht, lookup_app_r, lookup_drop by lia. f_equal. lia.
Qed.

Lemma slice_Ok mem a n : 0 <= a -> 0 <= n -> a + n <= Z.of_nat (length mem) ->
  slice mem a n = Ok (take (Z.to_nat n) (drop (Z.to_nat a) mem)).
Proof.
  intros. unfold slice.
  by rewrite (proj2 (Z.leb_le 0 a)), (proj2 (Z.leb_le 0 n)), (proj2 (Z.leb_le (a + n) _)) by lia.
Qed.

(** ** Frames *)

(** The table that maps page [i] to frame [F[i]]. *)
Definition table_of (F : list Z) : list TranslationEntry :=
  imap (fun i f => mkEntry (Z.of_nat i) f true false false false) F.

Definition frames_ok (F : list Z) : Prop := NoDup F /\ Forall (fun f => 0 <= f < NumPhysPages) F.

Lemma length_table_of F : length (table_of F) = length F.
Proof. apply length_imap. Qed.

Lemma lookup_table_of F (i : nat) :
  table_of F !! i = (fun f => mkEntry (Z.of_nat i) f true false false false) <$> F !! i.
Proof. apply list_lookup_imap. Qed.

Lemma table_of_snoc F f :
  table_of (F ++ [f]) = table_of F ++ [mkEntry (Z.of_nat (length F)) f true false false false].
Proof. unfold table_of. rewrite imap_app. simpl. by rewrite Nat.add_0_r. Qed.

(** The frame of byte [j] of physical memory. *)
Definition frame_of (j : nat) : Z := Z.of_nat j / PageSize.

(** Zeroing: bytes in frames of [F] are 0, the others as before. *)
Definition zeroed (F : list Z) (mem mem' : list Z) : Prop :=
  length mem' = length mem /\
  forall j : nat, (j < length mem)%nat ->
    mem' !! j = if bool_decide (frame_of j ∈ F) then Some 0 else mem !! j.

Section Frames.
Context {rep : Bitmap -> Z -> gset Z -> Prop} `{BC : !BitmapContract rep}.

Definition alloc_inv (S0 : gset Z) (mem : list Z) (n i : Z)
    (s : Bitmap * list TranslationEntry * list Z) : Prop :=
  let '(bm, pt, mem') := s in
  exists F, Z.of_nat (length F) = i /\ frames_ok F /\ Forall (.∉ S0) F /\
    pt = table_of F ++ replicate (Z.to_nat (n - i)) blank /\
    rep bm NumPhysPages (list_to_set F ∪ S0) /\ zeroed F mem mem'.

Lemma alloc_step S0 mem n i s :
  Z.of_nat (length mem) = MemorySize -> 0 <= i < n -> n <= NumPhysPages - Z.of_nat (base.size S0) ->
  alloc_inv S0 mem n i s -> exists s', alloc_page s i = Ok s' /\ alloc_inv S0 mem n (i + 1) s'.
Proof.
  intros Hmem Hi Hn. destruct s as [[bm pt] mem']. intros (F & HF & [Hnd Hrange] & Hnew & -> & Hrep & Hlen & Hz).
  unfold alloc_page.
  destruct (bm_FindAndSet bm NumPhysPages _ Hrep) as [(f & bm' & -> & (Hf & Hfn & _) & Hrep')|[_ Hfull]].
  2:{ exfalso. (* all frames marked: too many *)
      assert (list_to_set (seqZ 0 NumPhysPages) ⊆@{gset Z} list_to_set F ∪ S0) as Hsub.
      { intros x. rewrite elem_of_list_to_set, elem_of_seqZ. intros ?. apply Hfull. lia. }
      apply subseteq_size in Hsub. rewrite size_list_to_set in Hsub by apply NoDup_seqZ.
      rewrite length_seqZ in Hsub.
      assert (base.size (list_to_set F ∪ S0 : gset Z) <= length F + base.size S0)%nat as Hle.
      { rewrite size_union_alt. pose proof (size_list_to_set (C := gset Z) F Hnd).
        assert (base.size (S0 ∖ list_to_set F) <= base.size S0)%nat by (apply subseteq_size; set_solver).
        lia. }
      unfold NumPhysPages in *. lia. }
  cbn [obind].
  assert (length (table_of F) = Z.to_nat i) as Hlt by (rewrite length_table_of; lia).
  rewrite arr_set_Ok by (rewrite length_app, length_replicate; lia). cbn [obind].
  destruct (blit_Ok mem' (f * PageSize) (replicate (Z.to_nat PageSize) 0)) as (mem2 & -> & Hlen2 & Hz2).
  { unfold PageSize. lia. }
  { rewrite length_replicate. unfold MemorySize, NumPhysPages, PageSize in *. lia. }
  cbn [obind]. eexists. split; [done |]. exists (F ++ [f]).
  rewrite elem_of_union, elem_of_list_to_set in Hfn.
  split_and!.
  - rewrite length_app. simpl. lia.
  - split; [apply NoDup_app; split_and!; [done | | apply NoDup_singleton] |].
    + intros x Hx ->%list_elem_of_singleton. tauto.
    + apply Forall_app. split; [done |]. by constructor.
  - apply Forall_app. split; [done |]. constructor; [tauto | done].
  - rewrite table_of_snoc, insert_app_r_alt by lia. rewrite Hlt, Nat.sub_diag.
    replace (Z.to_nat (n - i)) with (Datatypes.S (Z.to_nat (n - (i + 1)))) by lia. simpl.
    rewrite <- app_assoc. simpl. do 3 f_equal. lia.
  - by replace (list_to_set (F ++ [f]) ∪ S0) with ({[f]} ∪ (list_to_set F ∪ S0)) by set_solver.
  - split; [congruence |]. intros j Hj. rewrite Hz2, length_replicate. unfold frame_of.
    assert (f * PageSize <= Z.of_nat j < f * PageSize + Z.of_nat (Z.to_nat PageSize) <->
            Z.of_nat j / PageSize = f) as Hiff by (unfold PageSize; dlia).
    destruct (decide (Z.of_nat j / PageSize = f)) as [Ejf|Ejf].
    + rewrite bool_decide_true by (by apply Hiff). rewrite bool_decide_true by set_solver.
      apply lookup_replicate. split; [done |]. apply Hiff in Ejf. unfold PageSize in *. lia.
    + rewrite bool_decide_false by (by rewrite Hiff). rewrite Hz by done. unfold frame_of.
      by rewrite (bool_decide_ext (Z.of_nat j / PageSize ∈ F ++ [f]) (Z.of_nat j / PageSize ∈ F)) by set_solver.
Qed.

Lemma alloc_frames_spec S0 bm mem n :
  rep bm NumPhysPages S0 -> Z.of_nat (length mem) = MemorySize ->
  0 <= n <= NumPhysPages - Z.of_nat (base.size S0) ->
  exists bm' F mem', alloc_frames bm mem n = Ok (bm', table_of F, mem') /\
    Z.of_nat (length F) = n /\ frames_ok F /\ Forall (.∉ S0) F /\
    rep bm' NumPhysPages (list_to_set F ∪ S0) /\ zeroed F mem mem'.
Proof.
  intros Hrep Hmem Hn.
  destruct (ofold_seqZ (alloc_inv S0 mem n) alloc_page 0 n (bm, replicate (Z.to_nat n) blank, mem))
    as ([[bm' pt] mem'] & E & HI).
  - lia.
  - exists []. simpl. split_and!; [done | split; [apply NoDup_nil_2 | done] | done | | |].
    + by rewrite Z.sub_0_r.
    + by rewrite union_empty_l_L.
    + split; [done |]. intros j _. by rewrite bool_decide_false by set_solver.
  - intros i s Hi HI. by apply alloc_step; [| lia | lia |].
  - destruct HI as (F & HF & Hok & Hnew & -> & Hrep' & Hz).
    unfold alloc_frames. rewrite E. exists bm', F, mem'.
    rewrite Z.add_0_l, Z.sub_diag, app_nil_r. split_and!; [done | lia | done..].
Qed.

End Frames.

(** ** Contents *)

(** Where virtual address [v] lives, and the byte there. *)
Definition phys (F : list Z) (v : Z) : option nat :=
  f ← F !! Z.to_nat (v / PageSize); Some (Z.to_nat (f * PageSize + v mod PageSize)).
Definition vbyte (F mem : list Z) (v : Z) : option Z := i ← phys F v; mem !! i.

Lemma phys_frame F v i : frames_ok F -> phys F v = Some i ->
  exists f, F !! Z.to_nat (v / PageSize) = Some f /\ 0 <= f < NumPhysPages /\
    Z.of_nat i = f * PageSize + v mod PageSize /\ frame_of i = f.
Proof.
  intros [_ Hr] Hp. unfold phys in Hp. apply bind_Some in Hp as (f & Hf & [= <-]).
  exists f. assert (0 <= f < NumPhysPages) as Hfr.
  { rewrite Forall_lookup in Hr. by eapply Hr. }
  split; [done |]. split; [done |]. unfold frame_of, PageSize. clear Hf Hr. dlia.
Qed.

Lemma vbyte_zeroed F mem mem' v : frames_ok F -> Z.of_nat (length mem) = MemorySize ->
  zeroed F mem mem' -> 0 <= v < Z.of_nat (length F) * PageSize -> vbyte F mem' v = Some 0.
Proof.
  intros Hok Hmem [_ Hz] Hv. destruct (lookup_lt_is_Some_2 F (Z.to_nat (v / PageSize))) as [f Hf].
  { unfold PageSize in *. clear Hz. dlia. }
  assert (phys F v = Some (Z.to_nat (f * PageSize + v mod PageSize))) as Hp by (unfold phys; by rewrite Hf).
  destruct (phys_frame F v _ Hok Hp) as (f' & Hf' & Hfr & Hi & Hfo).
  unfold vbyte. rewrite Hp. simpl. rewrite Hz.
  - rewrite bool_decide_true; [done |]. rewrite Hfo. by eapply list_elem_of_lookup_2.
  - clear Hz. unfold MemorySize, NumPhysPages, PageSize in *. dlia.
Qed.

Definition copied (F mem buffer : list Z) (k : Z) (mem' : list Z) : Prop :=
  length mem' = length mem /\
  (forall j, frame_of j ∉ F -> mem' !! j = mem !! j) /\
  (forall v, 0 <= v < Z.of_nat (length F) * PageSize ->
     vbyte F mem' v = if v <? k then buffer !! Z.to_nat v else vbyte F mem v).

Lemma copy_page_step F mem buffer n i mem' :
  frames_ok F -> Z.of_nat (length mem) = MemorySize -> Z.of_nat (length buffer) = n ->
  n <= Z.of_nat (length F) * PageSize -> 0 <= i -> i * PageSize < n ->
  copied F mem buffer (Z.min n (i * PageSize)) mem' ->
  exists mem2, copy_page (table_of F) buffer n mem' i = Ok mem2 /\
    copied F mem buffer (Z.min n ((i + 1) * PageSize)) mem2.
Proof.
  intros Hok Hmem Hbuf Hn Hi Hin (Hlen & Hout & Hv). unfold copy_page.
  set (sz := if n <? i * PageSize + PageSize then n - i * PageSize else PageSize).
  assert (sz = Z.min PageSize (n - i * PageSize) /\ 0 < sz) as [Hsz Hsz0].
  { unfold sz. destruct (Z.ltb_spec n (i * PageSize + PageSize)); unfold PageSize in *; lia. }
  destruct (lookup_lt_is_Some_2 F (Z.to_nat i)) as [f Hf]; [unfold PageSize in *; lia |].
  rewrite (arr_get_lookup _ i (mkEntry (Z.of_nat (Z.to_nat i)) f true false false false))
    by (first [lia | by rewrite lookup_table_of, Hf]).
  cbn [obind]. rewrite slice_Ok by (unfold PageSize in *; lia). cbn [obind physicalPage].
  assert (0 <= f < NumPhysPages) as Hfr.
  { destruct Hok as [_ Hr]. rewrite Forall_lookup in Hr. by eapply Hr. }
  set (data := take (Z.to_nat sz) (drop (Z.to_nat (i * PageSize)) buffer)).
  assert (Z.of_nat (length data) = sz) as Hld.
  { unfold data. rewrite length_take, length_drop. unfold PageSize in *. lia. }
  destruct (blit_Ok mem' (f * PageSize) data) as (mem2 & -> & Hlen2 & Hz2).
  { unfold PageSize; lia. }
  { rewrite Hld, Hlen, Hmem. unfold MemorySize, NumPhysPages, PageSize in *. lia. }
  rewrite Hld in Hz2. exists mem2. split; [done |]. split; [congruence |]. split.
  - intros j Hj. rewrite Hz2, bool_decide_false; [by apply Hout |]. intros Hjr. apply Hj.
    assert (frame_of j = f) as -> by (unfold frame_of, PageSize in *; clear Hz2; dlia).
    by eapply list_elem_of_lookup_2.
  - intros v Hvr. specialize (Hv v Hvr).
    destruct (lookup_lt_is_Some_2 F (Z.to_nat (v / PageSize))) as [g Hg].
    { unfold PageSize in *. clear - Hvr. dlia. }
    assert (phys F v = Some (Z.to_nat (g * PageSize + v mod PageSize))) as Hp by (unfold phys; by rewrite Hg).
    destruct (phys_frame F v _ Hok Hp) as (g' & Hg' & Hgr & Hpi & Hgo).
    rewrite Hg in Hg'. injection Hg' as <-.
    unfold vbyte in *. rewrite Hp in *. cbn [mbind option_bind] in *. rewrite Hz2, Hv, Hpi. clear Hz2 Hv.
    destruct (decide (v / PageSize = i)) as [Evi|Evi].
    + rewrite Evi in Hg. rewrite Hf in Hg. injection Hg as <-.
      rewrite (proj2 (Z.ltb_ge v (Z.min n (i * PageSize)))) by (unfold PageSize in *; dlia).
      destruct (Z.ltb_spec v (Z.min n ((i + 1) * PageSize))).
      * rewrite bool_decide_true by (unfold PageSize in *; dlia). unfold data.
        rewrite lookup_take_lt, lookup_drop by (unfold PageSize in *; dlia).
        f_equal. unfold PageSize in *. dlia.
      * rewrite bool_decide_false by (unfold PageSize in *; dlia). done.
    + rewrite bool_decide_false.
      * destruct (Z.ltb_spec v (Z.min n (i * PageSize))), (Z.ltb_spec v (Z.min n ((i + 1) * PageSize)));
          [done | unfold PageSize in *; dlia | unfold PageSize in *; dlia | done].
      * intros Hrange. assert (g = f) as -> by (unfold PageSize in *; dlia).
        destruct Hok as [Hnd _]. pose proof (NoDup_lookup _ _ _ _ Hnd Hf Hg).
        apply Evi. unfold PageSize in *. dlia.
Qed.

Lemma copy_segments_spec F mem buffer n :
  frames_ok F -> Z.of_nat (length mem) = MemorySize -> Z.of_nat (length buffer) = n ->
  n <= Z.of_nat (length F) * PageSize ->
  exists mem', copy_segments (table_of F) mem buffer n = Ok mem' /\ copied F mem buffer n mem'.
Proof.
  intros Hok Hmem Hbuf Hn. unfold copy_segments.
  pose proof (divRoundUp_spec n PageSize ltac:(lia) ltac:(done)) as Hd. set (k := divRoundUp n PageSize) in *.
  destruct (ofold_seqZ (fun i m => copied F mem buffer (Z.min n (i * PageSize)) m)
              (copy_page (table_of F) buffer n) 0 k mem) as (mem' & -> & HI).
  - unfold PageSize in *. lia.
  - split; [done |]. split; [done |]. intros v Hv.
    rewrite (proj2 (Z.ltb_ge v _)) by (unfold PageSize in *; lia). done.
  - intros i m Hi HI. apply (copy_page_step F mem buffer n i m); try done; unfold PageSize in *; lia.
  - exists mem'. split; [done |]. cbv beta in HI.
    by replace (Z.min n ((0 + k) * PageSize)) with n in HI by (unfold PageSize in *; lia).
Qed.

(** ** Segments *)

(** [b] with the file bytes of segment [s] at its virtual address. *)
Definition put_segment (c : list Z) (s : Segment) (b : list Z) : list Z :=
  if 0 <? size s then
    take (Z.to_nat (virtualAddr s)) b ++ take (Z.to_nat (size s)) (drop (Z.to_nat (inFileAddr s)) c)
      ++ drop (Z.to_nat (virtualAddr s + size s)) b
  else b.

(** What a program in file [c] with header [h] starts from. *)
Definition image (c : list Z) (h : NoffHeader) : list Z :=
  put_segment c (readonlyData h) (put_segment c (initData h)
    (put_segment c (code h) (replicate (Z.to_nat (segmentSize h)) 0))).

(** The segment lies inside a buffer of [n] bytes and inside the file. *)
Definition segment_ok (c : list Z) (n : Z) (s : Segment) : Prop :=
  0 <= size s < 2 ^ 31 /\
  (0 < size s -> 0 <= virtualAddr s /\ virtualAddr s + size s <= n /\
     0 <= inFileAddr s /\ inFileAddr s + size s <= Z.of_nat (length c)).

Definition header_ok (c : list Z) (h : NoffHeader) : Prop :=
  let n := size (code h) + size (initData h) + size (readonlyData h) in
  segment_ok c n (code h) /\ segment_ok c n (initData h) /\ segment_ok c n (readonlyData h) /\
  0 <= size (uninitData h) /\ n + size (uninitData h) + UserStackSize < 2 ^ 31 - PageSize.

Lemma length_put_segment c n s b : segment_ok c n s -> Z.of_nat (length b) = n ->
  Z.of_nat (length (put_segment c s b)) = n.
Proof.
  intros [Hs Hin] Hb. unfold put_segment. destruct (Z.ltb_spec 0 (size s)); [|done].
  destruct (Hin ltac:(done)) as (?&?&?&?).
  rewrite !length_app, !length_take, !length_drop. lia.
Qed.

Section Segments.
Context {W : Type} `{HH : Host W} `{HV : !HostView W} `{HL : !HostLaws W}.

(** A host whose [read] of an open file never fails. *)
Definition reads_succeed : Prop := forall fd n w p, 0 <= n -> opens w !! fd = Some p -> (read fd n w).1.1 <> -1.

Lemma ReadAt_spec f into n pos w ino o c :
  reads_succeed -> opens w !! file f = Some (ino, o) -> content w !! ino = Some c ->
  0 <= n < 2 ^ 31 -> n <= Z.of_nat (length into) -> 0 <= pos < 2 ^ 31 ->
  let d := take (Z.to_nat n) (drop (Z.to_nat pos) c) in
  exists w' o', ReadAt f into n pos w = Ok (Z.of_nat (length d), d ++ drop (length d) into, w') /\
    FileTable.moved w w' (file f) ino o'.
Proof.
  intros Hrd Ho Hc Hn Hinto Hpos d. unfold ReadAt, ReadPartial.
  destruct (FileTable.Lseek_spec (file f) pos 0 w ino o c) as [(_ & w1 & _ & -> & Hm)|(Ht & _)];
    [lia | done | done | | unfold seek_target in Ht; simpl in Ht; lia].
  unfold seek_target in Hm. cbn [Z.eqb] in Hm. destruct Hm as (Hn1 & Hc1 & Ho1 & Hf1).
  cbn [obind]. rewrite (u32_id n) by (unfold is_u32; lia).
  assert (opens w1 !! file f = Some (ino, pos)) as Ho1' by (by rewrite Ho1, lookup_insert_eq).
  assert (content w1 !! ino = Some c) as Hc1' by (by rewrite Hc1).
  pose proof (Hrd (file f) n w1 _ ltac:(lia) Ho1') as Hr.
  destruct (read (file f) n w1) as [[r dd] w2] eqn:E. cbn in Hr.
  destruct (read_ok _ _ _ _ _ _ _ _ _ E ltac:(lia) Ho1' Hc1')
    as [(-> & _)|(-> & -> & Hn2 & Hc2 & Ho2 & Hf2)]; [done |].
  rewrite FileTable.buf_fill_ok by (rewrite length_take; lia). fold d.
  do 2 eexists. split; [done |].
  split_and!; [congruence | congruence | | congruence]. rewrite Ho2, Ho1. apply insert_insert_eq.
Qed.

Lemma load_segment_spec f s b w ino o c n :
  reads_succeed -> opens w !! file f = Some (ino, o) -> content w !! ino = Some c ->
  Z.of_nat (length c) < 2 ^ 31 -> segment_ok c n s -> Z.of_nat (length b) = n ->
  exists w' o', load_segment f s b w = Ok (put_segment c s b, w') /\
    opens w' !! file f = Some (ino, o') /\ content w' = content w.
Proof.
  intros Hrd Ho Hc Hlc [Hs Hin] Hb. unfold load_segment, put_segment.
  destruct (Z.ltb_spec 0 (size s)); [|by exists w, o].
  destruct (Hin ltac:(done)) as (Hva & Hfit & Hfa & Hfc).
  rewrite (proj2 (Z.leb_le 0 (virtualAddr s))), (proj2 (Z.leb_le (virtualAddr s) _)) by lia.
  cbn [andb]. set (k := Z.to_nat (virtualAddr s)).
  destruct (ReadAt_spec f (drop k b) (size s) (inFileAddr s) w ino o c)
    as (w' & o' & -> & Hn1 & Hc1 & Ho1 & Hf1); [done..| | |].
  { rewrite length_drop. lia. }
  { lia. }
  cbn [obind]. exists w', o'. split; [|by rewrite Ho1, lookup_insert_eq].
  do 3 f_equal. rewrite drop_drop. do 2 f_equal.
  rewrite length_take, length_drop. lia.
Qed.

Lemma load_segments_spec f h w ino o c :
  reads_succeed -> opens w !! file f = Some (ino, o) -> content w !! ino = Some c ->
  Z.of_nat (length c) < 2 ^ 31 -> header_ok c h ->
  exists w', load_segments f h w = Ok (image c h, w') /\ Z.of_nat (length (image c h)) = segmentSize h.
Proof.
  intros Hrd Ho Hc Hlc (H1 & H2 & H3 & H4 & H5).
  assert (segmentSize h = size (code h) + size (initData h) + size (readonlyData h)) as En.
  { unfold segmentSize. apply s32_id. unfold is_s32. destruct H1, H2, H3. unfold UserStackSize, PageSize in *. lia. }
  unfold load_segments, image. rewrite <- En in *. set (n := segmentSize h) in *.
  assert (0 <= n) by (destruct H1, H2, H3; lia).
  rewrite (proj2 (Z.ltb_ge n 0)) by lia.
  assert (Z.of_nat (length (replicate (Z.to_nat n) 0)) = n) as L0 by (rewrite length_replicate; lia).
  destruct (load_segment_spec f (code h) _ w ino o c n Hrd Ho Hc Hlc H1 L0) as (w1 & o1 & -> & Ho1 & Hc1).
  cbn [obind]. pose proof (length_put_segment c n _ _ H1 L0) as L1.
  destruct (load_segment_spec f (initData h) _ w1 ino o1 c n Hrd Ho1 ltac:(by rewrite Hc1) Hlc H2 L1)
    as (w2 & o2 & -> & Ho2 & Hc2).
  cbn [obind]. pose proof (length_put_segment c n _ _ H2 L1) as L2.
  destruct (load_segment_spec f (readonlyData h) _ w2 ino o2 c n Hrd Ho2 ltac:(by rewrite Hc2, Hc1) Hlc H3 L2)
    as (w3 & o3 & -> & _ & _).
  exists w3. split; [done |]. by apply (length_put_segment c n _ _ H3).
Qed.

End Segments.

(** The pages allocated hold the segments. *)
Lemma pages_enough c h : header_ok c h ->
  let n := u32 (divRoundUp (addressSpaceSize h) PageSize) in
  0 <= n /\ 0 <= segmentSize h <= n * PageSize.
Proof.
  intros ([H1 _] & [H2 _] & [H3 _] & H4 & H5). cbn zeta. unfold addressSpaceSize, segmentSize.
  unfold UserStackSize, PageSize in *. rewrite !s32_id by (unfold is_s32; lia).
  pose proof (divRoundUp_spec (size (code h) + size (initData h) + size (uninitData h) +
    size (readonlyData h) + 1024) 128 ltac:(lia) ltac:(done)) as Hd.
  rewrite u32_id by (unfold is_u32; lia). lia.
Qed.

(** Every byte of a frame of [F] is some virtual address. *)
Lemma phys_surj F j : frame_of j ∈ F ->
  exists v, 0 <= v < Z.of_nat (length F) * PageSize /\ phys F v = Some j.
Proof.
  intros [i Hi]%list_elem_of_lookup. exists (Z.of_nat i * PageSize + Z.of_nat j mod PageSize).
  pose proof (lookup_lt_Some _ _ _ Hi). unfold frame_of, PageSize in *.
  assert ((Z.of_nat i * 128 + Z.of_nat j mod 128) / 128 = Z.of_nat i) as Ed by (clear Hi; dlia).
  assert ((Z.of_nat i * 128 + Z.of_nat j mod 128) mod 128 = Z.of_nat j mod 128) as Em by (clear Hi; dlia).
  split; [clear Hi; dlia |]. unfold phys, PageSize. rewrite Ed, Em, Nat2Z.id, Hi. simpl. f_equal. clear Hi. dlia.
Qed.

Lemma loaded_bytes F mem mem1 buffer mem' :
  frames_ok F -> Z.of_nat (length mem) = MemorySize -> Forall is_byte mem -> zeroed F mem mem1 ->
  copied F mem1 (u8 <$> buffer) (Z.of_nat (length buffer)) mem' -> Forall is_byte mem'.
Proof.
  intros Hok Hmem Hb Hz (Hlen & Hout & Hv). apply Forall_lookup. intros j x Hj.
  destruct (decide (frame_of j ∈ F)) as [Hin|Hnin].
  - destruct (phys_surj F j Hin) as (v & Hvr & Hp). pose proof (Hv v Hvr) as Hx.
    rewrite (vbyte_zeroed F mem mem1 v) in Hx by done.
    unfold vbyte in Hx. rewrite Hp in Hx. cbn [mbind option_bind] in Hx. rewrite Hj in Hx.
    destruct (v <? _).
    + rewrite list_lookup_fmap in Hx. symmetry in Hx. apply fmap_Some in Hx as (y & _ & ->).
      apply Z.mod_pos_bound. lia.
    + injection Hx as ->. unfold is_byte. lia.
  - rewrite (Hout j Hnin) in Hj. destruct Hz as [Hl Hz]. rewrite Hz in Hj.
    + rewrite bool_decide_false in Hj by done. rewrite Forall_lookup in Hb. by eapply Hb.
    + apply lookup_lt_Some in Hj. by rewrite <- Hl.
Qed.

(** ** Properties *)

Section Properties.
Context {W : Type} `{HH : Host W} `{HV : !HostView W} `{HL : !HostLaws W}.
Context {rep : Bitmap -> Z -> gset Z -> Prop} `{BC : !BitmapContract rep}.

(** C19.  The body of [Load]: when fewer frames are free than the program
    needs it changes nothing; otherwise every page gets a frame of its own
    that was free, the frames are marked, the new page table maps page [i]
    to the [i]-th of them, the memory seen through it is the segments of
    the file followed by zeros, and all other frames keep their bytes. *)
Theorem Load_memory_spec bm m f h w ino o c S0 n :
  reads_succeed (W := W) -> opens w !! file f = Some (ino, o) -> content w !! ino = Some c ->
  Z.of_nat (length c) < 2 ^ 31 -> header_ok c h -> mem_wf m -> rep bm NumPhysPages S0 ->
  n = u32 (divRoundUp (addressSpaceSize h) PageSize) ->
  (NumPhysPages - Z.of_nat (base.size S0) < n -> Load_memory bm m f h n w = Ok (None, bm, m, w)) /\
  (n <= NumPhysPages - Z.of_nat (base.size S0) ->
   exists bm' F m' p w', Load_memory bm m f h n w = Ok (Some (mkAddrSpace (Some p) n), bm', m', w') /\
     Z.of_nat (length F) = n /\ frames_ok F /\ Forall (.∉ S0) F /\
     rep bm' NumPhysPages (list_to_set F ∪ S0) /\
     tables m !! p = None /\ tables m' = <[p := table_of F]> (tables m) /\ registers m' = registers m /\
     mem_wf m' /\
     (forall v, 0 <= v < n * PageSize ->
        vbyte F (mainMemory m') v = Some (default 0 ((u8 <$> image c h) !! Z.to_nat v))) /\
     (forall j, (j < length (mainMemory m))%nat -> frame_of j ∉ F ->
        mainMemory m' !! j = mainMemory m !! j)).
Proof.
  intros Hrd Ho Hc Hlc Hh [Hmem Hbytes] Hrep Hn. unfold Load_memory.
  rewrite (bm_NumClear bm NumPhysPages S0 Hrep). cbn [obind]. split.
  { intros Hlt. by rewrite (proj2 (Z.ltb_lt _ n)). }
  intros Hle. rewrite (proj2 (Z.ltb_ge _ n)) by done.
  destruct (pages_enough c h Hh) as [Hn0 Hseg]. rewrite <- Hn in Hn0, Hseg.
  destruct (alloc_frames_spec S0 bm (mainMemory m) n Hrep Hmem ltac:(lia))
    as (bm' & F & mem1 & -> & HF & Hok & Hnew & Hrep' & Hz).
  cbn [obind]. destruct (load_segments_spec f h w ino o c Hrd Ho Hc Hlc Hh) as (w' & -> & Himg).
  cbn [obind]. destruct (copy_segments_spec F mem1 (u8 <$> image c h) (segmentSize h))
    as (mem2 & -> & Hcp); [done | by rewrite (proj1 Hz) | by rewrite length_fmap | lia |].
  cbn [obind]. exists bm', F. do 3 eexists. split; [done |].
  split_and!; [done..| | done | done | | |].
  - apply not_elem_of_dom. apply is_fresh.
  - split; [cbn; by rewrite (proj1 Hcp), (proj1 Hz) |].
    apply (loaded_bytes F (mainMemory m) mem1 (image c h) mem2); try done. by rewrite Himg.
  - intros v Hv. cbn [mainMemory set_tables set_mainMemory]. destruct Hcp as (_ & _ & Hvb).
    rewrite Hvb by lia. destruct (Z.ltb_spec v (segmentSize h)).
    + destruct (lookup_lt_is_Some_2 (u8 <$> image c h) (Z.to_nat v)) as [x ->]; [|done].
      rewrite length_fmap. lia.
    + rewrite (vbyte_zeroed F (mainMemory m) mem1 v) by (done || lia).
      rewrite (proj2 (lookup_ge_None _ _)); [done |]. rewrite length_fmap. lia.
  - intros j Hj Hnin. cbn. destruct Hcp as (_ & Hout & _). rewrite Hout by done.
    rewrite (proj2 Hz) by done. by rewrite bool_decide_false.
Qed.

(** Memory protection: a store through one page table leaves every
    byte visible through frames it does not map, and every other page
    table, as they were. *)
Theorem memory_isolation {K} `{Kernel K} (k : K) m p t F va size v pa :
  paged m p t -> page_entries_ok t -> legal_size size -> mem_wf m ->
  (forall e, e ∈ t -> physicalPage e ∉ F) -> frames_ok F ->
  translate_spec t (pageTableSize m) va size true = Phys pa ->
  exists m', WriteMem va size v (k, m) = Ok (true, (k, m')) /\
    (forall u, vbyte F (mainMemory m') u = vbyte F (mainMemory m) u) /\
    (forall q, q <> p -> tables m' !! q = tables m !! q).
Proof.
  intros Hp Hok Hs Hwf Hdis HF Hphys.
  destruct (WriteMem_ok k m p t va size v pa Hp Hok Hs Hwf Hphys) as (mem' & Est & ->).
  destruct (translate_spec_phys _ _ _ _ _ _ Hphys Hs)
    as (_ & _ & e & He & _ & _ & Hpp & Hpa & Hpa0 & Hfit & Hmax).
  assert (0 < size) by (destruct Hs as [-> | [-> | ->]]; lia).
  destruct (store_le_Ok (mainMemory m) pa (Z.to_nat size) v) as (mem2 & E2 & _ & _ & Hsame);
    [lia | rewrite (proj1 Hwf); lia |].
  rewrite Est in E2. injection E2 as <-.
  eexists. split; [done |]. split.
  - intros u. cbn [mainMemory set_mainMemory]. unfold vbyte.
    destruct (phys F u) as [i|] eqn:Ep; [|done]. cbn [mbind option_bind].
    apply Hsame. destruct (phys_frame F u i HF Ep) as (f & Hf & Hfr & Hi & Hfo).
    assert (physicalPage e <> f) as Hne.
    { intros E. apply (Hdis e); [by eapply list_elem_of_lookup_2 |]. rewrite E. by eapply list_elem_of_lookup_2. }
    clear - Hne Hi Hpa Hfit H0. pose proof (offset_of_range va).
    pose proof (Z.mod_pos_bound u PageSize ltac:(done)). unfold PageSize in *. nia.
  - intros q Hq. cbn. by rewrite lookup_insert_ne.
Qed.

(** C21.  [~AddrSpace] after a load unmarks exactly the frames of the
    program and drops its page table. *)
Theorem delete_AddrSpace_spec bm m p F S0 :
  rep bm NumPhysPages (list_to_set F ∪ S0) -> frames_ok F -> Forall (.∉ S0) F ->
  tables m !! p = Some (table_of F) ->
  exists bm', delete_AddrSpace (mkAddrSpace (Some p) (Z.of_nat (length F))) bm m =
      Ok (bm', set_tables m (delete p (tables m))) /\ rep bm' NumPhysPages S0.
Proof.
  intros Hrep [Hnd Hr] Hnew Ht. unfold delete_AddrSpace. cbn [as_pageTable numPages]. rewrite Ht.
  match goal with |- context [ofold ?g bm _] =>
    destruct (ofold_seqZ (fun i b => rep b NumPhysPages (list_to_set (drop (Z.to_nat i) F) ∪ S0)) g
      0 (Z.of_nat (length F)) bm) as (bm' & -> & HI)
  end; [lia | done | |].
  - intros i b Hi HI. destruct (lookup_lt_is_Some_2 F (Z.to_nat i)) as [fr Hf]; [lia |].
    rewrite (arr_get_lookup _ i (mkEntry (Z.of_nat (Z.to_nat i)) fr true false false false))
      by (first [lia | by rewrite lookup_table_of, Hf]).
    cbn [obind physicalPage]. rewrite Forall_lookup in Hr, Hnew.
    destruct (bm_Clear b NumPhysPages _ fr HI (Hr _ _ Hf)) as (b' & -> & HI').
    exists b'. split; [done |].
    replace (list_to_set (drop (Z.to_nat (i + 1)) F) ∪ S0)
      with ((list_to_set (drop (Z.to_nat i) F) ∪ S0) ∖ {[fr]}); [done |].
    rewrite (drop_S F fr (Z.to_nat i)) by done.
    replace (Datatypes.S (Z.to_nat i)) with (Z.to_nat (i + 1)) by lia.
    assert (fr ∉ drop (Z.to_nat (i + 1)) F) as Hnin.
    { intros [j Hj]%list_elem_of_lookup. rewrite lookup_drop in Hj.
      pose proof (NoDup_lookup _ _ _ _ Hnd Hf Hj). lia. }
    pose proof (Hnew _ _ Hf). apply set_eq. intros x. rewrite list_to_set_cons. set_solver.
  - cbn [obind]. exists bm'. split; [done |]. cbv beta in HI.
    rewrite drop_ge in HI by lia. by rewrite list_to_set_nil, union_empty_l_L in HI.
Qed.

(** [AddrSpace::Translate] through a page table: no look at [valid], and a
    negative frame is not caught before the ASSERT. *)
Lemma AS_Translate_paged s m p t va w e :
  as_pageTable s = Some p -> paged m p t -> numPages s = pageTableSize m -> 0 <= va -> va / PageSize < numPages s ->
  t !! Z.to_nat (va / PageSize) = Some e ->
  AS_Translate s va w m =
    if w && readOnly e then Ok (Fault ReadOnlyException, m)
    else if physicalPage e >=? NumPhysPages then Ok (Fault BusErrorException, m)
    else
      let paddr := u32 (physicalPage e * PageSize + va mod PageSize) in
      assert! paddr <? MemorySize;
      Ok (Phys paddr, set_tables m (<[p := <[Z.to_nat (va / PageSize) :=
        mkEntry (virtualPage e) (physicalPage e) (valid e) (readOnly e) true (if w then true else dirty e)]> t]> (tables m))).
Proof.
  intros Hs (_ & _ & Ht & Hsz) En Hva Hlt He. unfold AS_Translate. rewrite Z.geb_leb, (proj2 (Z.leb_gt _ _)) by done.
  rewrite Hs. unfold get_entry, set_entry. rewrite Ht.
  assert (0 <= va / PageSize) as Hv0 by (by apply Z.div_pos).
  rewrite (arr_get_lookup t _ e Hv0 He). cbn [obind].
  destruct (w && readOnly e); [done |]. destruct (physicalPage e >=? NumPhysPages); [done |].
  by rewrite arr_set_Ok by (apply lookup_lt_Some in He; lia).
Qed.

(** C22.  [AddrSpace::Translate] of the current address space against the
    machine's own translation of a byte access, for any page table: the two
    do the same exactly when the address is past the table, or its entry is
    valid and names a frame that is not negative or is refused as read-only
    by both.  On an entry that is not valid the machine raises a page fault
    and [AddrSpace::Translate] never does. *)
Theorem AS_Translate_agrees s m p t va w :
  let m1 := RestoreState s m in
  as_pageTable s = Some p -> paged m1 p t -> page_entries_ok t -> is_u32 va ->
  (AS_Translate s va w m1 = Translate m1 va 1 w <->
   forall e, va / PageSize < numPages s -> t !! Z.to_nat (va / PageSize) = Some e ->
     valid e = true /\ (0 <= physicalPage e \/ readOnly e && w = true)) /\
  (forall e, va / PageSize < numPages s -> t !! Z.to_nat (va / PageSize) = Some e -> valid e = false ->
     Translate m1 va 1 w = Ok (Fault PageFaultException, m1) /\
     forall m', AS_Translate s va w m1 <> Ok (Fault PageFaultException, m')).
Proof.
  intros m1 Hs Hp Hok Hva. rewrite (Translate_paged m1 p t) by (done || by left).
  assert (misaligned va 1 = false) as Hal by (unfold misaligned; by rewrite Z.mod_1_r).
  assert (0 <= va / PageSize) as Hv0 by (apply Z.div_pos; [apply Hva | done]).
  unfold translate_spec. rewrite Hal. unfold page_of, offset_of. rewrite (u32_id va) by done.
  change (pageTableSize m1) with (numPages s).
  destruct (Z.leb_spec (numPages s) (va / PageSize)) as [Hle|Hlt].
  { unfold AS_Translate. rewrite Z.geb_leb, (proj2 (Z.leb_le _ _)) by done. split; [|intros; lia].
    split; [intros _ e ?; lia | done]. }
  destruct (lookup_lt_is_Some_2 t (Z.to_nat (va / PageSize))) as [e He].
  { destruct Hp as (_ & _ & _ & Hsz). change (pageTableSize m1) with (numPages s) in Hsz. lia. }
  rewrite (AS_Translate_paged s m1 p t va w e) by (done || apply Hva). rewrite He.
  assert (forall (P : TranslationEntry -> Prop), (forall e', va / PageSize < numPages s -> Some e = Some e' -> P e') <-> P e) as Hone.
  { intros P. split; [intros H; by apply H | intros H e' _ [= <-]; done]. }
  rewrite (Hone (fun e => valid e = true /\ _)), (Hone (fun e => valid e = false -> _)).
  pose proof (Z.mod_pos_bound va PageSize ltac:(done)) as Hmod. rewrite (andb_comm w), Z.geb_leb.
  destruct (valid e) eqn:Hvld; cbn [negb].
  - split; [|done]. destruct (readOnly e && w); [split; [by auto | done] |].
    destruct (Z.leb_spec NumPhysPages (physicalPage e)) as [Hge|Hlt'].
    { rewrite (proj2 (Z.ltb_ge _ _) Hge), andb_false_r. cbn [negb]. split; [|done]. intros _. split; [done |]. left. unfold NumPhysPages in *. lia. }
    rewrite (proj2 (Z.ltb_lt _ _) Hlt'), andb_true_r. destruct (Z.leb_spec 0 (physicalPage e)) as [H0|H0]; cbn [negb].
    + split; [by auto |]. intros _. unfold NumPhysPages, PageSize in *.
      rewrite u32_id by (unfold is_u32; lia). rewrite (proj2 (Z.ltb_lt _ MemorySize)) by (unfold MemorySize, NumPhysPages, PageSize; lia).
      cbn [assert_ obind]. do 5 f_equal. apply list_eq. intros j. rewrite lookup_touch.
      destruct (decide (Z.to_nat (va / 128) = j)) as [<-|Hne].
      * rewrite list_lookup_insert_eq by (by eapply lookup_lt_Some). rewrite He. cbn. unfold touch. by rewrite Hvld.
      * rewrite list_lookup_insert_ne by done. by destruct (t !! j).
    + split; [|intros [_ [?|?]]; [lia | done]]. cbn zeta. by destruct (_ <? MemorySize).
  - match goal with |- (?x = _ <-> _) /\ _ => assert (forall m', x <> Ok (Fault PageFaultException, m')) as Hnf end.
    { intros m'. destruct (readOnly e && w); [done |]. destruct (NumPhysPages <=? physicalPage e); [done |].
      cbn zeta. by destruct (u32 _ <? MemorySize). }
    split.
    + split; [|by intros [? _]]. intros Heq. exfalso. revert Heq. apply Hnf.
    + intros _. split; [done |]. intros m'. apply Hnf.
Qed.

End Properties.

End AddrSpace.

Module AddrSpaceWitness.
Import Bitmap Machine Stub AddrSpace OneFileHost.

(** The file "f" holds three bytes of code; the descriptor 0 is open. *)
Definition disk1 : fsys := (open f_name O_RDWR {| bytes := [1; 2; 3]; offs := ∅ |}).2.
Definition header1 : NoffHeader :=
  mkNoff NOFFMAGIC (mkSegment 0 0 3) (mkSegment 0 0 0) (mkSegment 0 0 0) (mkSegment 0 0 0).

Lemma reads_succeed_fsys : reads_succeed (W := fsys).
Proof.
  intros fd n w [ino o] _ Ho. apply off_of_Some in Ho as (_ & Ho & _). cbn. rewrite Ho. cbn. lia.
Qed.

Lemma disk1_open : opens disk1 !! 0 = Some (0, 0).
Proof. apply opens_off. by exists 0. Qed.

Lemma header1_ok : header_ok [1; 2; 3] header1.
Proof. repeat split; cbn; lia. Qed.

Lemma new_Machine_wf : mem_wf (new_Machine false).
Proof.
  split; [vm_compute; reflexivity |]. unfold new_Machine. cbn [mainMemory].
  apply Forall_replicate. unfold is_byte. lia.
Qed.

End AddrSpaceWitness.
Import Machine AddrSpace AddrSpaceWitness.

Lemma Load_memory_spec_witness :
  exists bm bm' F m' p w',
    Load_memory bm (new_Machine false) (Stub.new_OpenFile 0) header1 9 disk1
      = Ok (Some (mkAddrSpace (Some p) 9), bm', m', w') /\ Z.of_nat (length F) = 9 /\
    vbyte F (mainMemory m') 2 = Some 3.
Proof.
  destruct (Bitmap.rep_new NumPhysPages ltac:(done)) as (bm & _ & Hrep). exists bm.
  destruct (Load_memory_spec (BC := Bitmap.bitmap_contract) bm (new_Machine false) (Stub.new_OpenFile 0) header1
    disk1 0 0 [1; 2; 3] ∅ 9 reads_succeed_fsys disk1_open eq_refl eq_refl header1_ok new_Machine_wf Hrep eq_refl)
    as (_ & HL).
  destruct (HL ltac:(vm_compute; discriminate)) as (bm' & F & m' & p & w' & E & HF & _ & _ & _ & _ & _ & _ & _ & Hv & _).
  exists bm', F, m', p, w'. split; [exact E |]. split; [exact HF |].
  apply (Hv 2). vm_compute. split; [discriminate | reflexivity].
Defined.

Lemma memory_isolation_witness :
  exists m', Machine.WriteMem 8 4 7 (tt, MachineWitness.one_page) = Ok (true, (tt, m')) /\
    vbyte [5] (mainMemory m') 1 = vbyte [5] (mainMemory MachineWitness.one_page) 1.
Proof.
  destruct (memory_isolation tt MachineWitness.one_page 1 [MachineWitness.page0] [5] 8 4 7 392
    MachineWitness.one_page_paged MachineWitness.one_page_entries (or_intror (or_intror eq_refl))
    MachineWitness.one_page_mem) as (m' & E & Hv & _).
  - intros e ->%list_elem_of_singleton. apply (bool_decide_unpack _). vm_compute. exact I.
  - split; [apply NoDup_singleton | by constructor].
  - reflexivity.
  - exists m'. split; [exact E | apply Hv].
Defined.

Lemma delete_AddrSpace_spec_witness : exists bm bm' m',
  delete_AddrSpace (mkAddrSpace (Some 1%positive) 1) bm
    (set_tables (new_Machine false) {[1%positive := table_of [4]]}) = Ok (bm', m') /\
  Bitmap.bm_rep bm' NumPhysPages ∅.
Proof.
  destruct (Bitmap.rep_new NumPhysPages ltac:(done)) as (bm0 & _ & Hrep0).
  destruct (Bitmap.rep_Mark bm0 NumPhysPages ∅ 4 Hrep0 ltac:(done)) as (bm & _ & Hrep).
  exists bm.
  destruct (delete_AddrSpace_spec (BC := Bitmap.bitmap_contract) bm
    (set_tables (new_Machine false) {[1%positive := table_of [4]]}) 1 [4] ∅) as (bm' & E & Hr).
  - change (list_to_set [4] ∪ ∅ : gset Z) with ({[4]} ∪ ∅ ∪ ∅ : gset Z).
    replace ({[4]} ∪ ∅ ∪ ∅ : gset Z) with ({[4]} ∪ ∅ : gset Z) by set_solver. exact Hrep.
  - split; [apply NoDup_singleton | by constructor].
  - constructor; [set_solver | constructor].
  - apply lookup_singleton_eq.
  - exists bm'. eexists. split; [exact E | exact Hr].
Defined.

Lemma AS_Translate_agrees_witness :
  AS_Translate (mkAddrSpace (Some 1%positive) 1) 9 true
    (RestoreState (mkAddrSpace (Some 1%positive) 1) MachineWitness.one_page)
  = Translate (RestoreState (mkAddrSpace (Some 1%positive) 1) MachineWitness.one_page) 9 1 true.
Proof.
  apply (AS_Translate_agrees (mkAddrSpace (Some 1%positive) 1) MachineWitness.one_page 1 [MachineWitness.page0]).
  - reflexivity.
  - exact MachineWitness.one_page_paged.
  - exact MachineWitness.one_page_entries.
  - split; [discriminate | reflexivity].
  - intros e _ [= <-]. split; [reflexivity | left; discriminate].
Defined.
