(* ===== verification/Threads.v ===== *)
(** * Kernel threads: thread.{h,cc}, scheduler.{h,cc}, synch.{h,cc}

    The scheduler and the synchronisation primitives over an explicit
    kernel state.  A thread that is not running is inside [SWITCH]: its
    kernel stack is modelled by its return points ([frame]s), and a switch
    ends by resuming the frame on top of the next thread's stack.  Between
    two calls of the kernel a thread executes [Code], a function on the
    machine and on the rest of the kernel's data ([E], a parameter that
    the process and semaphore tables instantiate).

    Interrupts: [SetLevel] changes the level; what enabling interrupts may
    let happen ([OneTick]: an interrupt handler that does a [V], the time
    slice's [Yield]) are separate events of the step function, possible
    exactly when interrupts are on or the machine is idle.

    The theorems about this model are in ThreadsProofs.v. *)

From S2P Require Import Prelude LinkedList Machine AddrSpace.

Module Threads.
Import Machine AddrSpace.

(** ** Data *)

Inductive ThreadStatus := JUST_CREATED | RUNNING | READY | BLOCKED.
Inductive IntStatus := IntOff | IntOn.

#[export] Instance ThreadStatus_eq_dec : EqDecision ThreadStatus.
Proof. solve_decision. Defined.
#[export] Instance IntStatus_eq_dec : EqDecision IntStatus.
Proof. solve_decision. Defined.

Notation tid := nat.

(** A semaphore is private to a lock, or free-standing. *)
Inductive sid := SUser (n : nat) | SLock (n : nat).

#[export] Instance sid_eq_dec : EqDecision sid.
Proof. solve_decision. Defined.
#[export] Instance sid_countable : Countable sid.
Proof.
  refine (inj_countable' (fun s => match s with SUser n => inl n | SLock n => inr n end)
    (fun x => match x with inl n => SUser n | inr n => SLock n end) _).
  by intros [].
Defined.

Record Semaphore := mkSemaphore { value : Z; queue : list tid }.

Section Threads.
Context {E : Type}.

(** Kernel code of a thread between two calls of the primitives: it may
    read who runs it ([kernel->currentThread], its name).  [CJump] goes to
    a labelled program point, the head of a loop; [created] stores the new
    object's pointer in the kernel's data; [CHeld lk] is
    [ASSERT(lk->IsHeldByCurrentThread())]. *)
Inductive prog :=
| Return
| Code (f : tid -> list Z -> Machine -> E -> outcome (Machine * E * call))
with call :=
| CGo (p : prog)
| CJump (label : nat)
| CP (s : nat) (p : prog)
| CV (s : nat) (p : prog)
| CYield (p : prog)
| CFork (name : list Z) (func : prog) (created : tid -> E -> E) (k : tid -> prog)
| CFinish
| CHalt
| CNewSem (initialValue : Z) (created : nat -> E -> E) (k : nat -> prog)
| CDelSem (s : nat) (p : prog)
| CNewLock (k : nat -> prog)
| CAcquire (lk : nat) (p : prog)
| CRelease (lk : nat) (p : prog)
| CHeld (lk : nat) (p : prog)
| CDelLock (lk : nat) (p : prog)
| CSetSpace (s : AddrSpace) (p : prog).

(** The code at each label. *)
Class Procs := procs : nat -> prog.

(** Return points on a kernel stack: the body of the thread; ThreadRoot of
    a thread not started; [Yield] and the loop of [P], with the [oldLevel]
    to restore; [Acquire] after its [P]; [Finish], never returned to. *)
Inductive frame :=
| FProg (p : prog)
| FRoot (p : prog)
| FYield (oldLevel : IntStatus)
| FP (s : sid) (oldLevel : IntStatus)
| FAcquired (lk : nat)
| FDead.

Record Thread := mkThread {
  name : list Z;
  status : ThreadStatus;
  userRegisters : list Z;
  space : option AddrSpace;
  stack : list frame
}.

(** [new Thread(threadName)]; its [userRegisters] are not initialised, and
    are saved before they are first restored. *)
Definition new_Thread (threadName : list Z) : Thread :=
  mkThread threadName JUST_CREATED (replicate (Z.to_nat NumTotalRegs) 0) None [].

(** Executing, or in the loop of [Sleep(finishing)] with no one to run. *)
Inductive Mode := Executing | Idling (finishing : bool).

Record Kern := mkKern {
  level : IntStatus;
  mode : Mode;
  currentThread : tid;
  threads : gmap tid Thread;
  readyList : list tid;
  toBeDestroyed : option tid;
  sems : gmap sid Semaphore;
  locks : gmap nat (option tid);     (* lockHolder *)
  machine : Machine;
  extra : E
}.

Definition set_level l (k : Kern) := mkKern l (mode k) (currentThread k) (threads k) (readyList k)
  (toBeDestroyed k) (sems k) (locks k) (machine k) (extra k).
Definition set_mode m (k : Kern) := mkKern (level k) m (currentThread k) (threads k) (readyList k)
  (toBeDestroyed k) (sems k) (locks k) (machine k) (extra k).
Definition set_current t (k : Kern) := mkKern (level k) (mode k) t (threads k) (readyList k)
  (toBeDestroyed k) (sems k) (locks k) (machine k) (extra k).
Definition set_threads t (k : Kern) := mkKern (level k) (mode k) (currentThread k) t (readyList k)
  (toBeDestroyed k) (sems k) (locks k) (machine k) (extra k).
Definition set_ready l (k : Kern) := mkKern (level k) (mode k) (currentThread k) (threads k) l
  (toBeDestroyed k) (sems k) (locks k) (machine k) (extra k).
Definition set_tbd t (k : Kern) := mkKern (level k) (mode k) (currentThread k) (threads k) (readyList k)
  t (sems k) (locks k) (machine k) (extra k).
Definition set_sems s (k : Kern) := mkKern (level k) (mode k) (currentThread k) (threads k) (readyList k)
  (toBeDestroyed k) s (locks k) (machine k) (extra k).
Definition set_locks l (k : Kern) := mkKern (level k) (mode k) (currentThread k) (threads k) (readyList k)
  (toBeDestroyed k) (sems k) l (machine k) (extra k).
Definition set_machine m (k : Kern) := mkKern (level k) (mode k) (currentThread k) (threads k) (readyList k)
  (toBeDestroyed k) (sems k) (locks k) m (extra k).
Definition set_extra e (k : Kern) := mkKern (level k) (mode k) (currentThread k) (threads k) (readyList k)
  (toBeDestroyed k) (sems k) (locks k) (machine k) e.

Definition with_status (st : ThreadStatus) (t : Thread) :=
  mkThread (name t) st (userRegisters t) (space t) (stack t).
Definition with_stack (s : list frame) (t : Thread) :=
  mkThread (name t) (status t) (userRegisters t) (space t) s.
Definition with_regs (r : list Z) (t : Thread) :=
  mkThread (name t) (status t) r (space t) (stack t).
Definition with_space (s : option AddrSpace) (t : Thread) :=
  mkThread (name t) (status t) (userRegisters t) s (stack t).

(** Dereferences of [Thread *] and [Semaphore *]. *)
Definition get_thread (k : Kern) (t : tid) : outcome Thread :=
  match threads k !! t with Some th => Ok th | None => Trap Undefined end.
Definition upd_thread (t : tid) (f : Thread -> Thread) (k : Kern) : outcome Kern :=
  let! th := get_thread k t in Ok (set_threads (<[t := f th]> (threads k)) k).
Definition get_sem (k : Kern) (s : sid) : outcome Semaphore :=
  match sems k !! s with Some x => Ok x | None => Trap Undefined end.
Definition put_sem (s : sid) (x : Semaphore) (k : Kern) : Kern := set_sems (<[s := x]> (sems k)) k.

Definition setStatus (st : ThreadStatus) (t : tid) (k : Kern) : outcome Kern :=
  upd_thread t (with_status st) k.
Definition set_stack (st : list frame) (k : Kern) : outcome Kern :=
  upd_thread (currentThread k) (with_stack st) k.

(** [Interrupt::SetLevel], without the tick. *)
Definition SetLevel (now : IntStatus) (k : Kern) : IntStatus * Kern := (level k, set_level now k).

Definition is_off (k : Kern) : bool := bool_decide (level k = IntOff).

(** ** Scheduler *)

Definition ReadyToRun (t : tid) (k : Kern) : outcome Kern :=
  assert! is_off k;
  let! k := setStatus READY t k in
  let! l := ListSpec.Append (readyList k) t in
  Ok (set_ready l k).

Definition FindNextToRun (k : Kern) : outcome (option tid * Kern) :=
  assert! is_off k;
  match readyList k with
  | [] => Ok (None, k)
  | _ => let! ' (t, l) := ListSpec.RemoveFront (readyList k) in Ok (Some t, set_ready l k)
  end.

(** [Thread::~Thread]. *)
Definition delete_Thread (t : tid) (k : Kern) : outcome Kern :=
  let! _ := get_thread k t in
  assert! negb (bool_decide (t = currentThread k));
  Ok (set_threads (delete t (threads k)) k).

Definition CheckToBeDestroyed (k : Kern) : outcome Kern :=
  match toBeDestroyed k with
  | Some t => let! k := delete_Thread t k in Ok (set_tbd None k)
  | None => Ok k
  end.

(** [SaveUserState], [RestoreUserState]: register by register. *)
Definition SaveUserState (t : tid) (k : Kern) : outcome Kern :=
  let! th := get_thread k t in
  let! r := ofold (fun r i => let! v := ReadRegister (machine k) i in arr_set r i v)
              (userRegisters th) (seqZ 0 NumTotalRegs) in
  Ok (set_threads (<[t := with_regs r th]> (threads k)) k).

Definition RestoreUserState (t : tid) (k : Kern) : outcome Kern :=
  let! th := get_thread k t in
  let! m := ofold (fun m i => let! v := arr_get (userRegisters th) i in WriteRegister m i v)
              (machine k) (seqZ 0 NumTotalRegs) in
  Ok (set_machine m k).

(** [Scheduler::Run] before [SWITCH]. *)
Definition Run_before (nextThread : tid) (finishing : bool) (k : Kern) : outcome Kern :=
  let oldThread := currentThread k in
  assert! is_off k;
  let! k :=
    (if finishing then
       assert! bool_decide (toBeDestroyed k = None);
       Ok (set_tbd (Some oldThread) k)
     else Ok k) in
  let! th := get_thread k oldThread in
  let! k := (match space th with Some _ => SaveUserState oldThread k | None => Ok k end) in
  setStatus RUNNING nextThread (set_current nextThread k).

(** [Scheduler::Run] after [SWITCH] returned to [oldThread]. *)
Definition Run_after (oldThread : tid) (k : Kern) : outcome Kern :=
  assert! is_off k;
  let! k := CheckToBeDestroyed k in
  let! th := get_thread k oldThread in
  match space th with
  | Some s =>
      let! k := RestoreUserState oldThread k in
      Ok (set_machine (RestoreState s (machine k)) k)
  | None => Ok k
  end.

(** [Thread::Begin], called by ThreadRoot. *)
Definition Begin (this : tid) (k : Kern) : outcome Kern :=
  assert! bool_decide (this = currentThread k);
  let! k := CheckToBeDestroyed k in
  Ok (SetLevel IntOn k).2.

(** What happens in the thread [SWITCH] switched to, up to the next point
    where interrupts are on or a loop is at its test. *)
Definition resume (k : Kern) : outcome Kern :=
  let t := currentThread k in
  let! th := get_thread k t in
  match stack th with
  | FRoot p :: st => let! k := Begin t k in set_stack (FProg p :: st) k
  | FYield oldLevel :: st =>
      let! k := Run_after t k in
      let! k := set_stack st k in
      Ok (SetLevel oldLevel k).2
  | FP _ _ :: _ => Run_after t k
  | _ => Trap Undefined
  end.

Definition Run (nextThread : tid) (finishing : bool) (k : Kern) : outcome Kern :=
  let! k := Run_before nextThread finishing k in resume k.

(** ** Thread *)

(** The loop of [Sleep]; without a ready thread the machine idles. *)
Definition Sleep_loop (finishing : bool) (k : Kern) : outcome Kern :=
  let! ' (n, k) := FindNextToRun k in
  match n with
  | None => Ok (set_mode (Idling finishing) k)
  | Some nextThread => Run nextThread finishing (set_mode Executing k)
  end.

Definition Sleep (this : tid) (finishing : bool) (k : Kern) : outcome Kern :=
  assert! bool_decide (this = currentThread k);
  assert! is_off k;
  let! k := setStatus BLOCKED this k in
  Sleep_loop finishing k.

Definition Finish (this : tid) (k : Kern) : outcome Kern :=
  let k := (SetLevel IntOff k).2 in
  assert! bool_decide (this = currentThread k);
  let! k := set_stack [FDead] k in
  Sleep this true k.

(** [Yield]: a frame for the return from [Run] goes on the stack first. *)
Definition Yield (this : tid) (k : Kern) : outcome Kern :=
  let '(oldLevel, k) := SetLevel IntOff k in
  assert! bool_decide (this = currentThread k);
  let! ' (n, k) := FindNextToRun k in
  match n with
  | Some nextThread =>
      let! th := get_thread k this in
      let! k := set_stack (FYield oldLevel :: stack th) k in
      let! k := ReadyToRun this k in
      Run nextThread false k
  | None => Ok (SetLevel oldLevel k).2
  end.

(** [t->Fork(func, arg)]: the stack starts at ThreadRoot. *)
Definition Fork (t : tid) (func : prog) (k : Kern) : outcome Kern :=
  let! k := upd_thread t (with_stack [FRoot func]) k in
  let '(oldLevel, k) := SetLevel IntOff k in
  let! k := ReadyToRun t k in
  Ok (SetLevel oldLevel k).2.

(** ** Semaphore and Lock *)

(** [P] up to its loop: the rest [st] of the stack is where it returns. *)
Definition P_start (s : sid) (st : list frame) (k : Kern) : outcome Kern :=
  let '(oldLevel, k) := SetLevel IntOff k in set_stack (FP s oldLevel :: st) k.

(** One test of the loop of [P], and what follows it. *)
Definition P_loop (s : sid) (oldLevel : IntStatus) (st : list frame) (k : Kern) : outcome Kern :=
  let! x := get_sem k s in
  if value x =? 0 then
    let! q := ListSpec.Append (queue x) (currentThread k) in
    Sleep (currentThread k) false (put_sem s (mkSemaphore (value x) q) k)
  else
    let k := put_sem s (mkSemaphore (value x - 1) (queue x)) k in
    let! k := set_stack st k in
    Ok (SetLevel oldLevel k).2.

Definition V (s : sid) (k : Kern) : outcome Kern :=
  let '(oldLevel, k) := SetLevel IntOff k in
  let! x := get_sem k s in
  let! k :=
    (match queue x with
     | [] => Ok k
     | _ =>
         let! ' (t, q) := ListSpec.RemoveFront (queue x) in
         ReadyToRun t (put_sem s (mkSemaphore (value x) q) k)
     end) in
  let! x := get_sem k s in
  Ok (SetLevel oldLevel (put_sem s (mkSemaphore (value x + 1) (queue x)) k)).2.

(** A handler of a device interrupt, run with interrupts off. *)
Definition Interrupt_V (s : sid) (k : Kern) : outcome Kern :=
  let l := level k in
  let! k := V s (set_level IntOff k) in
  Ok (set_level l k).

(** ** Steps *)

(** The free-standing semaphores that exist; [new] takes another address. *)
Definition user_ids (m : gmap sid Semaphore) : gset nat :=
  list_to_set (omap (fun p => match p.1 with SUser n => Some n | SLock _ => None end) (map_to_list m)).

Context {PR : Procs}.

(** A call made by the code of the current thread; [st] is the rest of
    its stack. *)
Definition do_call (c : call) (st : list frame) (k : Kern) : outcome Kern :=
  let this := currentThread k in
  let continue p k := set_stack (FProg p :: st) k in
  match c with
  | CGo p => continue p k
  | CJump label => continue (procs label) k
  | CP s p => P_start (SUser s) (FProg p :: st) k
  | CV s p => let! k := continue p k in V (SUser s) k
  | CYield p => let! k := continue p k in Yield this k
  | CFork nm func created kont =>
      let t := fresh (dom (threads k)) in
      let k := set_extra (created t (extra k)) (set_threads (<[t := new_Thread nm]> (threads k)) k) in
      let! k := continue (kont t) k in
      Fork t func k
  | CFinish => Finish this k
  | CHalt => Trap Halted
  | CNewSem v created kont =>
      let s := fresh (user_ids (sems k)) in
      continue (kont s) (set_extra (created s (extra k)) (put_sem (SUser s) (mkSemaphore v []) k))
  | CDelSem s p =>
      let! _ := get_sem k (SUser s) in
      continue p (set_sems (delete (SUser s) (sems k)) k)
  | CNewLock kont =>
      let lk := fresh (dom (locks k)) in
      continue (kont lk) (set_locks (<[lk := None]> (locks k))
                           (put_sem (SLock lk) (mkSemaphore 1 []) k))
  | CAcquire lk p => P_start (SLock lk) (FAcquired lk :: FProg p :: st) k
  | CRelease lk p =>
      match locks k !! lk with
      | None => Trap Undefined
      | Some holder =>
          assert! bool_decide (holder = Some this);
          let! k := continue p (set_locks (<[lk := None]> (locks k)) k) in
          V (SLock lk) k
      end
  | CHeld lk p =>
      match locks k !! lk with
      | None => Trap Undefined
      | Some holder => assert! bool_decide (holder = Some this); continue p k
      end
  | CDelLock lk p =>
      match locks k !! lk with
      | None => Trap Undefined
      | Some _ =>
          let! _ := get_sem k (SLock lk) in
          continue p (set_locks (delete lk (locks k)) (set_sems (delete (SLock lk) (sems k)) k))
      end
  | CSetSpace s p =>
      let! k := upd_thread this (with_space (Some s)) k in continue p k
  end.

(** One step of the current thread: the frame on top of its stack. *)
Definition exec_top (k : Kern) : outcome Kern :=
  let this := currentThread k in
  let! th := get_thread k this in
  match stack th with
  | FProg Return :: _ => Finish this k
  | FProg (Code f) :: st =>
      let! ' (m, e, c) := f this (name th) (machine k) (extra k) in
      do_call c st (set_extra e (set_machine m k))
  | FP s oldLevel :: st => P_loop s oldLevel st k
  | FAcquired lk :: st =>
      set_stack st (set_locks (<[lk := Some this]> (locks k)) k)
  | _ => Trap Undefined
  end.

Inductive event :=
| EvRun                  (* the current thread goes on *)
| EvPreempt              (* the timer: OneTick calls Yield *)
| EvIrq (s : nat) (device : E -> outcome E)
                         (* a device's handler changes its state and does V *)
| EvIdle.                (* the loop of Sleep looks again *)

Definition enabled (e : event) (k : Kern) : Prop :=
  match e with
  | EvRun => mode k = Executing
  | EvPreempt => mode k = Executing /\ level k = IntOn
  | EvIrq s device =>
      (level k = IntOn \/ exists f, mode k = Idling f) /\ is_Some (sems k !! SUser s) /\
      exists x, device (extra k) = Ok x
  | EvIdle => exists f, mode k = Idling f
  end.

Definition step (e : event) (k : Kern) : outcome Kern :=
  match e with
  | EvRun => exec_top k
  | EvPreempt => Yield (currentThread k) k
  | EvIrq s device => let! x := device (extra k) in Interrupt_V (SUser s) (set_extra x k)
  | EvIdle => match mode k with Idling f => Sleep_loop f k | Executing => Trap Undefined end
  end.

Fixpoint run (es : list event) (k : Kern) : outcome Kern :=
  match es with
  | [] => Ok k
  | e :: es' => let! k' := step e k in run es' k'
  end.

(** The main thread starts with interrupts enabled ([kernel->Initialize]). *)
Definition initial (main : list Z) (p : prog) (m : Machine) (e : E) : Kern :=
  mkKern IntOn Executing 0
    {[0%nat := mkThread main RUNNING (replicate (Z.to_nat NumTotalRegs) 0) None [FProg p]]}
    [] None ∅ ∅ m e.

End Threads.

Arguments Procs E : clear implicits.

End Threads.
