(* ===== verification/ThreadsProofs.v ===== *)
(** * Kernel threads: the invariant of the scheduler and what follows

    Over the model of Threads.v: every state the machine can reach is well
    formed, and the ASSERTs of thread.cc, scheduler.cc and synch.cc hold; no
    thread is lost; no wakeup is lost; locks exclude; context switches leave
    user registers alone; the ready list is served in order, and with the
    timer running no ready thread starves. *)

From S2P Require Import Prelude LinkedList Machine AddrSpace Threads.

Module ThreadsProofs.
Import Machine AddrSpace Threads.

Section Proofs.
Context {E : Type}.
Notation Kern := (@Kern E).
Notation Thread := (@Thread E).
Notation frame := (@frame E).

(** ** Saving and restoring registers *)

Definition regs_len (r : list Z) : Prop := length r = Z.to_nat NumTotalRegs.

Lemma regs_copy_step {A} (src dst : list A) (i : nat) a :
  length src = length dst -> src !! i = Some a ->
  <[i := a]> (take i src ++ drop i dst) = take (Datatypes.S i) src ++ drop (Datatypes.S i) dst.
Proof.
  intros Hl Ha. pose proof (lookup_lt_Some _ _ _ Ha).
  destruct (lookup_lt_is_Some_2 dst i ltac:(lia)) as [b Hb].
  rewrite insert_app_r_alt by (rewrite length_take; lia).
  rewrite length_take, Nat.min_l, Nat.sub_diag by lia.
  rewrite (drop_S dst b i Hb), (take_S_r src i a Ha). simpl. by rewrite <- app_assoc.
Qed.

Lemma SaveUserState_eq t (k : Kern) th :
  threads k !! t = Some th -> regs_len (registers (machine k)) -> regs_len (userRegisters th) ->
  SaveUserState t k = Ok (set_threads (<[t := with_regs (registers (machine k)) th]> (threads k)) k).
Proof.
  intros Ht Hm Hu. unfold SaveUserState, get_thread. rewrite Ht. cbn [obind].
  set (R := registers (machine k)) in *.
  match goal with |- context [ofold ?f _ _] =>
    destruct (ofold_seqZ (fun i r => r = take (Z.to_nat i) R ++ drop (Z.to_nat i) (userRegisters th))
                f 0 NumTotalRegs (userRegisters th)) as (r & -> & Hr)
  end; [done | done | |].
  - intros i r Hi ->. unfold regs_len in *.
    destruct (lookup_lt_is_Some_2 R (Z.to_nat i)) as [v Hv]; [lia |].
    unfold ReadRegister. rewrite (proj2 (Z.leb_le 0 i)), (proj2 (Z.ltb_lt i _)) by lia.
    cbn [andb assert_ obind]. fold R. rewrite (arr_get_lookup R i v) by (lia || done). cbn [obind].
    rewrite arr_set_Ok by (rewrite length_app, length_take, length_drop; lia).
    eexists. split; [done |]. replace (Z.to_nat (i + 1)) with (Datatypes.S (Z.to_nat i)) by lia.
    apply regs_copy_step; [congruence | done].
  - cbn [obind]. unfold regs_len in *. rewrite Z.add_0_l in Hr. rewrite take_ge, drop_ge, app_nil_r in Hr by lia.
    by rewrite Hr.
Qed.

Lemma RestoreUserState_eq t (k : Kern) th :
  threads k !! t = Some th -> regs_len (registers (machine k)) -> regs_len (userRegisters th) ->
  RestoreUserState t k = Ok (set_machine (set_registers (machine k) (userRegisters th)) k).
Proof.
  intros Ht Hm Hu. unfold RestoreUserState, get_thread. rewrite Ht. cbn [obind].
  set (U := userRegisters th) in *.
  match goal with |- context [ofold ?f _ _] =>
    destruct (ofold_seqZ (fun i m => m = set_registers (machine k)
                  (take (Z.to_nat i) U ++ drop (Z.to_nat i) (registers (machine k))))
                f 0 NumTotalRegs (machine k)) as (r & -> & Hr)
  end; [done | by destruct (machine k) | |].
  - intros i r Hi ->. unfold regs_len in *.
    destruct (lookup_lt_is_Some_2 U (Z.to_nat i)) as [v Hv]; [lia |].
    rewrite (arr_get_lookup U i v) by (lia || done). cbn [obind].
    unfold WriteRegister. rewrite (proj2 (Z.leb_le 0 i)), (proj2 (Z.ltb_lt i _)) by lia.
    cbn [andb assert_ obind registers set_registers].
    rewrite arr_set_Ok by (rewrite length_app, length_take, length_drop; lia). cbn [obind].
    eexists. split; [done |]. replace (Z.to_nat (i + 1)) with (Datatypes.S (Z.to_nat i)) by lia.
    f_equal. apply regs_copy_step; [congruence | done].
  - cbn [obind]. unfold regs_len in *. rewrite Z.add_0_l in Hr. rewrite take_ge, drop_ge, app_nil_r in Hr by lia.
    by rewrite Hr.
Qed.

(** ** The context switch, in one piece *)

Definition saved (m : Machine) (th : Thread) : Thread :=
  match space th with Some _ => with_regs (registers m) th | None => th end.

(** What resuming leaves of the stack. *)
Definition popped (st : list frame) : list frame :=
  match st with
  | FRoot p :: st' => FProg p :: st'
  | FYield _ :: st' => st'
  | _ => st
  end.

Definition restored (m : Machine) (th : Thread) : Machine :=
  match stack th, space th with
  | FRoot _ :: _, _ => m
  | _, Some s => RestoreState s (set_registers m (userRegisters th))
  | _, None => m
  end.

Definition resumed_level (st : list frame) : IntStatus :=
  match st with FP _ _ :: _ => IntOff | _ => IntOn end.

(** The kernel after a switch from [currentThread] (with record [o]) to
    [n] (with record [th]). *)
Definition switched (n : tid) (th : Thread) (o : Thread) (finishing : bool) (k : Kern) : Kern :=
  let T := <[n := with_stack (popped (stack th)) (with_status RUNNING th)]>
             (<[currentThread k := saved (machine k) o]> (threads k)) in
  mkKern (resumed_level (stack th)) (mode k) n
    (if finishing then delete (currentThread k) T else T)
    (readyList k) None (sems k) (locks k) (restored (machine k) th) (extra k).

Definition resumable_top (st : list frame) : Prop :=
  match st with
  | FRoot _ :: _ | FYield IntOn :: _ | FP _ _ :: _ => True
  | _ => False
  end.

Lemma Run_eq n finishing (k : Kern) o th :
  level k = IntOff -> toBeDestroyed k = None ->
  threads k !! currentThread k = Some o ->
  <[currentThread k := saved (machine k) o]> (threads k) !! n = Some th ->
  resumable_top (stack th) -> (finishing = true -> n <> currentThread k) ->
  regs_len (registers (machine k)) -> regs_len (userRegisters o) -> regs_len (userRegisters th) ->
  Run n finishing k = Ok (switched n th o finishing k).
Proof.
  intros Hl Htbd Ho Hn Htop Hfin Hm Huo Hun.
  destruct k as [lv md cur T rl tbd ss lks m e]. cbn in Hl, Htbd, Ho, Hn, Hfin, Hm. subst lv tbd.
  assert (Run_before n finishing (mkKern IntOff md cur T rl None ss lks m e) =
    Ok (mkKern IntOff md n (<[n := with_status RUNNING th]> (<[cur := saved m o]> T)) rl
          (if finishing then Some cur else None) ss lks m e)) as Hb.
  { unfold Run_before, get_thread. cbn [is_off level]. rewrite bool_decide_true by done. cbn [obind assert_ currentThread].
    unfold setStatus, upd_thread, get_thread.
    assert (forall tb, (let! k := (match space o with
                 | Some _ => SaveUserState cur (mkKern IntOff md cur T rl tb ss lks m e)
                 | None => Ok (mkKern IntOff md cur T rl tb ss lks m e) end) in
               let! th := get_thread (set_current n k) n in
               Ok (set_threads (<[n := with_status RUNNING th]> (threads (set_current n k))) (set_current n k))) =
            Ok (mkKern IntOff md n (<[n := with_status RUNNING th]> (<[cur := saved m o]> T)) rl tb ss lks m e)) as Hs.
    { intros tb. revert Hn. unfold saved, get_thread. destruct (space o) eqn:Hsp; intros Hn.
      - rewrite (SaveUserState_eq cur _ o) by done. cbn [obind threads set_current set_threads machine].
        rewrite Hn. done.
      - cbn [obind threads set_current]. rewrite insert_id in Hn by done. rewrite Hn.
        cbn [obind]. rewrite (insert_id T cur o) by done. done. }
    destruct finishing; cbn [obind assert_ toBeDestroyed];
      rewrite ?bool_decide_true by done; cbn [obind assert_ set_tbd threads]; rewrite Ho; apply Hs. }
  unfold Run. rewrite Hb. cbn [obind]. clear Hb.
  set (T1 := <[n := with_status RUNNING th]> (<[cur := saved m o]> T)).
  assert (T1 !! n = Some (with_status RUNNING th)) as Hn1 by apply lookup_insert_eq.
  (* the carcass of a finished thread is collected *)
  assert (forall lv, CheckToBeDestroyed (mkKern lv md n T1 rl (if finishing then Some cur else None) ss lks m e) =
    Ok (mkKern lv md n (if finishing then delete cur T1 else T1) rl None ss lks m e)) as Hck.
  { intros lv. unfold CheckToBeDestroyed, delete_Thread, get_thread. destruct finishing; [|done].
    cbn [toBeDestroyed threads currentThread]. unfold T1 at 1.
    rewrite lookup_insert_ne, lookup_insert_eq by (intros ->; by apply Hfin). cbn [obind].
    rewrite bool_decide_false by (intros ->; by apply Hfin). done. }
  set (T2 := if finishing then delete cur T1 else T1) in *.
  assert (T2 !! n = Some (with_status RUNNING th)) as Hn2.
  { unfold T2. destruct finishing; [|done]. rewrite lookup_delete_ne; [done |]. intros <-. by apply Hfin. }
  assert (forall st, <[n := with_stack st (with_status RUNNING th)]> T2 =
            (let T := <[n := with_stack st (with_status RUNNING th)]> (<[cur := saved m o]> T) in
             if finishing then delete cur T else T)) as HT.
  { intros st. unfold T2, T1. destruct finishing; cbn zeta.
    - rewrite <- delete_insert_ne by (intros <-; by apply Hfin). by rewrite insert_insert_eq.
    - by rewrite insert_insert_eq. }
  assert (Run_after n (mkKern IntOff md n T1 rl (if finishing then Some cur else None) ss lks m e) =
    Ok (mkKern IntOff md n T2 rl None ss lks
          (match space th with Some s => RestoreState s (set_registers m (userRegisters th)) | None => m end) e)) as Ha.
  { unfold Run_after. match goal with |- context [is_off ?k] => change (is_off k) with true end. cbn [obind assert_].
    rewrite Hck. cbn [obind]. unfold get_thread. cbn [threads]. rewrite Hn2. cbn [obind with_status space].
    destruct (space th); [|done]. rewrite (RestoreUserState_eq n _ (with_status RUNNING th)) by done. done. }
  unfold resume, get_thread. cbn [currentThread threads]. rewrite Hn1. cbn [obind with_status stack].
  unfold switched, restored, resumed_level, popped. cbn [currentThread threads mode readyList sems locks machine extra].
  destruct (stack th) as [|fr st] eqn:Est; [done |].
  destruct fr as [| p | [] | s lv | |]; cbn [resumable_top] in Htop; try done.
  - unfold Begin. cbn [currentThread]. rewrite bool_decide_true by done. cbn [obind assert_].
    rewrite Hck. cbn [obind]. unfold SetLevel, set_stack, upd_thread, get_thread, set_level.
    cbn [threads currentThread snd]. rewrite Hn2. cbn [obind]. cbn zeta in HT. rewrite <- HT. done.
  - rewrite Ha. cbn [obind]. unfold set_stack, upd_thread, get_thread.
    cbn [threads currentThread]. rewrite Hn2. cbn [obind]. cbn zeta in HT. rewrite <- HT. done.
  - rewrite Ha. cbn zeta in HT. rewrite <- HT. do 2 f_equal. rewrite <- Est.
    rewrite insert_id; [done |]. rewrite Hn2. by destruct th.
Qed.

(** ** The invariant

    [J k H]: the thread and semaphore structures are consistent, except
    that the threads of [H] are in the hands of the code (running, or
    between two queues). *)

(** What the caller of [P] goes on with. *)
Definition after_P (s : sid) (b : list frame) : Prop :=
  match s with
  | SUser _ => exists p, b = [FProg p]
  | SLock lk => exists p, b = [FAcquired lk; FProg p]
  end.

Definition body (st : list frame) : Prop :=
  (exists p, st = [FProg p]) \/ (exists lk p, st = [FAcquired lk; FProg p]).

Definition resumable (st : list frame) : Prop :=
  (exists p, st = [FRoot p]) \/ (exists b, body b /\ st = FYield IntOn :: b) \/
  (exists s b, after_P s b /\ st = FP s IntOn :: b).

(** The semaphore in whose [P] a thread is, and whether it has got the
    semaphore of [lk] without being the holder yet. *)
Definition top_sem (st : list frame) : option sid :=
  match st with FP s _ :: _ => Some s | _ => None end.
Definition acquiring (lk : nat) (st : list frame) : Prop :=
  match st with
  | FAcquired l :: _ | FYield _ :: FAcquired l :: _ => l = lk
  | _ => False
  end.
Definition uses (st : list frame) (s : sid) : Prop :=
  top_sem st = Some s \/ exists lk, FAcquired lk ∈ st /\ s = SLock lk.

Definition in_P (k : Kern) (s : sid) (t : tid) : bool :=
  match threads k !! t with Some th => bool_decide (top_sem (stack th) = Some s) | None => false end.

(** How many of the threads [l] are in [P] of [s]. *)
Fixpoint waking (k : Kern) (s : sid) (l : list tid) : Z :=
  match l with [] => 0 | t :: l' => Z.b2z (in_P k s t) + waking k s l' end.

Record J (k : Kern) (H : list tid) : Prop := {
  J_nodup : NoDup (H ++ readyList k);
  J_hand : forall t, t ∈ H -> is_Some (threads k !! t);
  J_ready : forall t, t ∈ readyList k ->
    exists th, threads k !! t = Some th /\ status th = READY /\ resumable (stack th);
  J_queue : forall s x t, sems k !! s = Some x -> t ∈ queue x ->
    t ∉ H /\ exists th b, threads k !! t = Some th /\ status th = BLOCKED /\
      after_P s b /\ stack th = FP s IntOn :: b;
  J_queue_nodup : forall s x, sems k !! s = Some x -> NoDup (queue x);
  J_placed : forall t th, threads k !! t = Some th ->
    t ∈ H \/ t ∈ readyList k \/ exists s x, sems k !! s = Some x /\ t ∈ queue x;
  J_uses : forall t th s, threads k !! t = Some th -> uses (stack th) s -> is_Some (sems k !! s);
  J_locks : forall lk, is_Some (locks k !! lk) <-> is_Some (sems k !! SLock lk);
  J_wakeup : forall s x, sems k !! s = Some x -> queue x <> [] -> value x <= waking k s (H ++ readyList k);
  J_regs : regs_len (registers (machine k)) /\ forall t th, threads k !! t = Some th -> regs_len (userRegisters th)
}.

(** Thread [t] has got the semaphore of [lk] and is about to be its holder. *)
Definition acq (k : Kern) (lk : nat) (t : tid) : Prop :=
  exists th, threads k !! t = Some th /\ acquiring lk (stack th).

(** Each lock is free, held, or about to be held by one thread. *)
Definition lock_free (k : Kern) (lk : nat) (v : Z) (h : option tid) : Prop :=
  v = 1 /\ h = None /\ forall t, ~ acq k lk t.
Definition lock_held (k : Kern) (lk : nat) (v : Z) (h : option tid) : Prop :=
  v = 0 /\ is_Some h /\ forall t, ~ acq k lk t.
Definition lock_taken (k : Kern) (lk : nat) (v : Z) (h : option tid) : Prop :=
  v = 0 /\ h = None /\ exists t, acq k lk t /\ forall u, acq k lk u -> u = t.

Definition M (k : Kern) : Prop :=
  forall lk h x, locks k !! lk = Some h -> sems k !! SLock lk = Some x ->
    lock_free k lk (value x) h \/ lock_held k lk (value x) h \/ lock_taken k lk (value x) h.

Definition inv (k : Kern) : Prop :=
  toBeDestroyed k = None /\ M k /\
  match mode k with
  | Executing =>
      J k [currentThread k] /\
      exists th, threads k !! currentThread k = Some th /\ status th = RUNNING /\
        ((body (stack th) /\ level k = IntOn) \/
         (exists s b, stack th = FP s IntOn :: b /\ after_P s b /\ level k = IntOff))
  | Idling finishing =>
      level k = IntOff /\ is_Some (threads k !! currentThread k) /\
      if (finishing : bool) then
        J k [currentThread k] /\
        exists th, threads k !! currentThread k = Some th /\ status th = BLOCKED /\ stack th = [FDead]
      else J k []
  end.

(** *** Basic facts *)

Lemma after_P_body s b : after_P s b -> body b.
Proof. destruct s; simpl; [left | right]; naive_solver. Qed.

Lemma resumable_is_top st : resumable st -> resumable_top st.
Proof. intros [(p&->)|[(b&_&->)|(s&b&_&->)]]; done. Qed.

Lemma J_unique_place k H t : J k H -> t ∈ H -> t ∉ readyList k.
Proof. intros [Hnd _ _ _ _ _ _ _ _ _] Ht Hr. apply NoDup_app in Hnd as (_ & Hd & _). by apply (Hd t). Qed.

Lemma J_queue_not_ready k H s x t : J k H -> sems k !! s = Some x -> t ∈ queue x -> t ∉ readyList k.
Proof.
  intros HJ Hs Ht Hr. destruct (J_queue _ _ HJ s x t Hs Ht) as (_ & th & b & Hth & Hst & _).
  destruct (J_ready _ _ HJ t Hr) as (th' & Hth' & Hst' & _). congruence.
Qed.

Lemma waking_app k s l1 l2 : waking k s (l1 ++ l2) = waking k s l1 + waking k s l2.
Proof. induction l1; simpl; lia. Qed.

Lemma waking_perm k s l1 l2 : l1 ≡ₚ l2 -> waking k s l1 = waking k s l2.
Proof. induction 1; simpl; lia. Qed.

Lemma waking_mono k k' s l :
  (forall t, t ∈ l -> in_P k s t = true -> in_P k' s t = true) -> waking k s l <= waking k' s l.
Proof.
  induction l as [|t l IH]; intros Hl; [done |]. simpl.
  assert (Z.b2z (in_P k s t) <= Z.b2z (in_P k' s t)).
  { specialize (Hl t ltac:(set_solver)). destruct (in_P k s t), (in_P k' s t); simpl; lia. }
  assert (waking k s l <= waking k' s l) by (apply IH; set_solver). lia.
Qed.

Lemma waking_nonneg k s l : 0 <= waking k s l.
Proof. induction l as [|t l IH]; simpl; [lia |]. destruct (in_P k s t); simpl; lia. Qed.

Lemma waking_ext k k' s l : threads k' = threads k -> waking k' s l = waking k s l.
Proof. intros Ht. induction l as [|t l IH]; simpl; [done |]. unfold in_P. by rewrite IH, Ht. Qed.

Lemma in_P_true k s t th : threads k !! t = Some th -> in_P k s t = true <-> top_sem (stack th) = Some s.
Proof. intros Ht. unfold in_P. rewrite Ht. apply bool_decide_eq_true. Qed.

(** [J] and [M] look at nothing but these. *)
Lemma J_ext k k' H :
  threads k' = threads k -> readyList k' = readyList k -> sems k' = sems k -> locks k' = locks k ->
  regs_len (registers (machine k')) -> J k H -> J k' H.
Proof.
  intros Ht Hr Hs Hl Hm [A B C D F G I L N R].
  assert (forall s l, waking k' s l = waking k s l) as Hw by (intros; by apply waking_ext).
  destruct R as [_ R].
  split; rewrite ?Ht, ?Hr, ?Hs, ?Hl; try done. intros s x ??. rewrite Hw. by apply N.
Qed.

Lemma M_same k k' :
  locks k' = locks k ->
  (forall lk x', sems k' !! SLock lk = Some x' -> exists x, sems k !! SLock lk = Some x /\ value x' = value x) ->
  (forall lk t, acq k' lk t <-> acq k lk t) -> M k -> M k'.
Proof.
  intros Hl Hs Ha HM lk h x'. rewrite Hl. intros Hlk Hx'.
  destruct (Hs lk x' Hx') as (x & Hx & ->). unfold lock_free, lock_held, lock_taken.
  destruct (HM lk h x Hlk Hx) as [(?&?&Hn)|[(?&?&Hn)|(?&?&t&Ht&Hu)]].
  - left. split_and!; [done | done |]. intros t. rewrite Ha. apply Hn.
  - right. left. split_and!; [done | done |]. intros t. rewrite Ha. apply Hn.
  - right. right. split_and!; [done | done |]. exists t. rewrite Ha. split; [done |].
    intros u. rewrite Ha. apply Hu.
Qed.

Lemma M_ext k k' : threads k' = threads k -> sems k' = sems k -> locks k' = locks k -> M k -> M k'.
Proof.
  intros Ht Hs Hl. apply M_same; [done | rewrite Hs; eauto |].
  intros lk t. unfold acq. by rewrite Ht.
Qed.

Lemma acq_upd (k : Kern) k' t th' lk u :
  threads k' = <[t := th']> (threads k) ->
  acq k' lk u <-> (u = t /\ acquiring lk (stack th')) \/ (u <> t /\ acq k lk u).
Proof.
  intros Ht. unfold acq. rewrite Ht. destruct (decide (u = t)) as [->|Hne].
  - rewrite lookup_insert_eq. naive_solver.
  - rewrite lookup_insert_ne by done. naive_solver.
Qed.

(** A thread record changes, not whether it is acquiring. *)
Lemma M_upd (k k' : Kern) t th th' :
  threads k !! t = Some th -> threads k' = <[t := th']> (threads k) -> sems k' = sems k -> locks k' = locks k ->
  (forall lk, acquiring lk (stack th') <-> acquiring lk (stack th)) -> M k -> M k'.
Proof.
  intros Ht Ht' Hs Hl Ha. apply M_same; [done | rewrite Hs; eauto |].
  intros lk u. rewrite (acq_upd k k' t th' lk u Ht'), Ha. unfold acq.
  destruct (decide (u = t)) as [->|]; [rewrite Ht; naive_solver | naive_solver].
Qed.

Lemma J_perm k H H' : H ≡ₚ H' -> J k H -> J k H'.
Proof.
  intros HP [A B C D F G I L N R]. split; try done.
  - by rewrite <- HP.
  - intros t. rewrite <- HP. apply B.
  - intros s x t. rewrite <- HP. apply D.
  - intros t th Ht. rewrite <- HP. by apply (G t th).
  - intros s x Hs Hq. rewrite <- (waking_perm k s (H ++ readyList k)) by (by rewrite HP). by apply N.
Qed.

(** The record of a thread in hand changes. *)
Lemma J_upd k H t th th' :
  J k (t :: H) -> threads k !! t = Some th ->
  (forall s, top_sem (stack th) = Some s -> top_sem (stack th') = Some s) ->
  (forall s, uses (stack th') s -> is_Some (sems k !! s)) -> regs_len (userRegisters th') ->
  J (set_threads (<[t := th']> (threads k)) k) (t :: H).
Proof.
  intros HJ Ht Htop Huse Hreg. pose proof HJ as [A B C D F G I L N R].
  assert (forall u, u <> t -> <[t := th']> (threads k) !! u = threads k !! u) as Hne
    by (intros; by apply lookup_insert_ne).
  split; cbn [threads readyList sems locks machine set_threads]; try done.
  - intros u [Hu|Hu]%elem_of_cons.
    + subst u. rewrite lookup_insert_eq. eauto.
    + destruct (decide (u = t)) as [->|]; [rewrite lookup_insert_eq; eauto | rewrite Hne by done].
      apply B. by right.
  - intros u Hu. rewrite Hne; [by apply C |]. intros ->. by apply (J_unique_place k (t :: H) t); [done | left |].
  - intros s x u Hs Hu. destruct (D s x u Hs Hu) as [Hn Hx]. split; [done |].
    rewrite Hne; [done |]. intros ->. apply Hn. by left.
  - intros u thu. destruct (decide (u = t)) as [->|]; [by left; left |]. rewrite Hne by done. apply G.
  - intros u thu s. destruct (decide (u = t)) as [->|].
    + rewrite lookup_insert_eq. intros [= <-]. apply Huse.
    + rewrite Hne by done. apply I.
  - intros s x Hs Hq. etrans; [by apply N |]. apply waking_mono. intros u _. unfold in_P. cbn [threads set_threads].
    destruct (decide (u = t)) as [->|]; [|by rewrite Hne].
    rewrite lookup_insert_eq, Ht, !bool_decide_eq_true. apply Htop.
  - destruct R as [R1 R2]. split; [done |]. intros u thu. destruct (decide (u = t)) as [->|].
    + rewrite lookup_insert_eq. by intros [= <-].
    + rewrite Hne by done. apply R2.
Qed.

(** [t] goes to the end of the ready list. *)
Lemma J_to_ready k H t th :
  J k (t :: H) -> threads k !! t = Some th -> resumable (stack th) ->
  J (set_ready (readyList k ++ [t]) (set_threads (<[t := with_status READY th]> (threads k)) k)) H.
Proof.
  intros HJ Ht Hres.
  assert (J (set_threads (<[t := with_status READY th]> (threads k)) k) (t :: H)) as HJ1.
  { apply (J_upd k H t th); try done; [exact (fun s => J_uses _ _ HJ t th s Ht) | exact (proj2 (J_regs _ _ HJ) t th Ht)]. }
  destruct HJ1 as [A B C D F G I L N R]. cbn [threads readyList sems locks machine set_threads] in *.
  split; cbn [threads readyList sems locks machine set_threads set_ready]; try done.
  - by rewrite app_assoc, Permutation_app_comm.
  - intros u Hu. apply B. by right.
  - intros u [Hu|Hu]%elem_of_app; [by apply C |]. apply list_elem_of_singleton in Hu as ->.
    rewrite lookup_insert_eq. eexists. by split_and!.
  - intros s x u Hs Hu. destruct (D s x u Hs Hu) as [Hn Hx]. split; [|done]. intros Hin. apply Hn. by right.
  - intros u thu Hu. destruct (G u thu Hu) as [[->|Hh]%elem_of_cons|[Hr|Hq]]; [| by left | | by auto].
    + right. left. apply elem_of_app. right. by apply list_elem_of_singleton.
    + right. left. apply elem_of_app. by left.
  - intros s x Hs Hq. etrans; [by apply (N s x) |]. apply Z.eq_le_incl.
    rewrite (waking_perm _ s ((t :: H) ++ readyList k) (H ++ readyList k ++ [t])).
    + clear. induction (H ++ readyList k ++ [t]); simpl; [done |]. by rewrite IHl.
    + rewrite (app_assoc H), (Permutation_app_comm _ [t]). done.
Qed.

(** The front of the ready list comes in hand. *)
Lemma J_from_ready k H n l :
  J k H -> readyList k = n :: l -> J (set_ready l k) (n :: H).
Proof.
  intros HJ Hr. pose proof HJ as [A B C D F G I L N R].
  assert ((n :: H) ++ l ≡ₚ H ++ readyList k) as HP by (rewrite Hr; simpl; apply Permutation_middle).
  split; cbn [threads readyList sems locks machine set_ready]; try done.
  - by rewrite HP.
  - intros u [->|Hu]%elem_of_cons; [|by apply B]. destruct (C n) as (th & -> & _); [|eauto]. rewrite Hr. by left.
  - intros u Hu. apply C. rewrite Hr. by right.
  - intros s x u Hs Hu. destruct (D s x u Hs Hu) as [Hn Hx]. split; [|done].
    intros [->|Hin]%elem_of_cons; [|done]. apply (J_queue_not_ready k H s x n HJ Hs Hu). rewrite Hr. by left.
  - intros u thu Hu. destruct (G u thu Hu) as [Hh|[Hx|Hq]]; [by left; right | | by auto].
    rewrite Hr in Hx. apply elem_of_cons in Hx as [->|]; [by left; left | by auto].
  - intros s x Hs Hq. etrans; [by apply (N s x) |]. apply Z.eq_le_incl.
    rewrite (waking_ext k (set_ready l k)) by done. by rewrite (waking_perm k s _ _ HP).
Qed.

(** A thread in hand waits: [P] found the value 0. *)
Lemma J_enqueue k H t th s x b :
  J k (t :: H) -> threads k !! t = Some th -> status th = BLOCKED ->
  stack th = FP s IntOn :: b -> after_P s b -> sems k !! s = Some x -> value x = 0 ->
  J (put_sem s (mkSemaphore (value x) (queue x ++ [t])) k) H.
Proof.
  intros HJ Ht Hst Hstk Hb Hs Hv. pose proof HJ as [A B C D F G I L N R].
  assert (forall u x', sems k !! s = Some x' -> u ∈ queue x' -> u <> t) as Hnt.
  { intros u x' Hs' Hu ->. destruct (D s x' t Hs' Hu) as [Hn _]. apply Hn. by left. }
  split; cbn [threads readyList sems locks machine put_sem set_sems]; try done.
  - simpl in A. by apply NoDup_cons in A as [_ A].
  - intros u Hu. apply B. by right.
  - intros s' x' u Hs' Hu. destruct (decide (s' = s)) as [->|Hne].
    + rewrite lookup_insert_eq in Hs'. injection Hs' as <-. cbn in Hu.
      apply elem_of_app in Hu as [Hu|Hu%list_elem_of_singleton].
      * destruct (D s x u Hs Hu) as [Hn Hx]. split; [|done]. intros Hin. apply Hn. by right.
      * subst u. split; [|by exists th, b]. simpl in A. apply NoDup_cons in A as [A _]. set_solver.
    + rewrite lookup_insert_ne in Hs' by done.
      destruct (D s' x' u Hs' Hu) as [Hn Hx]. split; [|done]. intros Hin. apply Hn. by right.
  - intros s' x'. destruct (decide (s' = s)) as [->|Hne].
    + rewrite lookup_insert_eq. intros [= <-]. cbn. apply NoDup_app. split_and!; [by apply (F s x) | | apply NoDup_singleton].
      intros u Hu ->%list_elem_of_singleton. by apply (Hnt t x).
    + rewrite lookup_insert_ne by done. apply F.
  - intros u thu Hu. destruct (G u thu Hu) as [[->|Hh]%elem_of_cons|[Hr|(s' & x' & Hs' & Hq)]]; [| by left | by auto |].
    + right. right. exists s. eexists. rewrite lookup_insert_eq. split; [done |]. cbn. apply elem_of_app. right. by left.
    + right. right. exists s'. destruct (decide (s' = s)) as [->|Hne].
      * eexists. rewrite lookup_insert_eq. split; [done |]. cbn. apply elem_of_app. left. congruence.
      * exists x'. by rewrite lookup_insert_ne.
  - intros u thu s' Hu Huse. destruct (decide (s' = s)) as [->|Hne]; [rewrite lookup_insert_eq; eauto |].
    rewrite lookup_insert_ne by done. by apply (I u thu).
  - intros lk. rewrite L. destruct (decide (SLock lk = s)) as [<-|Hne]; [|by rewrite lookup_insert_ne].
    rewrite lookup_insert_eq, Hs. split; eauto.
  - intros s' x' Hs' Hq.
    rewrite (waking_ext k) by done.
    destruct (decide (s' = s)) as [->|Hne].
    + rewrite lookup_insert_eq in Hs'. injection Hs' as <-. cbn. rewrite Hv. apply waking_nonneg.
    + rewrite lookup_insert_ne in Hs' by done. pose proof (N s' x' Hs' Hq) as Hw. simpl in Hw.
      assert (in_P k s' t = false) as E1; [|rewrite E1 in Hw; simpl in Hw; lia].
      apply not_true_iff_false. rewrite (in_P_true k s' t th Ht), Hstk. simpl. congruence.
Qed.

(** A semaphore's value changes, its queue loses the front or nothing. *)
Lemma J_value k H s x v q hd :
  J k H -> sems k !! s = Some x -> queue x = hd ++ q ->
  (q <> [] -> v <= waking k s (hd ++ H ++ readyList k)) ->
  J (put_sem s (mkSemaphore v q) k) (hd ++ H).
Proof.
  intros HJ Hs Hqx Hwake. pose proof HJ as [A B C D F G I L N R].
  assert (forall u, u ∈ hd -> u ∉ H ++ readyList k) as Hdis.
  { intros u Hu [Hh|Hr]%elem_of_app.
    - destruct (D s x u Hs) as [Hn _]; [rewrite Hqx; set_solver |]. done.
    - apply (J_queue_not_ready k H s x u HJ Hs); [rewrite Hqx; set_solver | done]. }
  pose proof (F s x Hs) as Hnd. rewrite Hqx in Hnd. apply NoDup_app in Hnd as (Hnh & Hhq & Hnq).
  split; cbn [threads readyList sems locks machine put_sem set_sems]; try done.
  - rewrite <- app_assoc. apply NoDup_app. by split_and!.
  - intros u [Hu|Hu]%elem_of_app; [|by apply B].
    destruct (D s x u Hs) as (_ & th & _ & -> & _); [rewrite Hqx; set_solver | eauto].
  - intros s' x' u Hs' Hu. destruct (decide (s' = s)) as [->|Hne].
    + rewrite lookup_insert_eq in Hs'. injection Hs' as <-. cbn in Hu.
      destruct (D s x u Hs) as [Hn Hx]; [rewrite Hqx; set_solver |]. split; [|done].
      intros [Hin|Hin]%elem_of_app; [by apply (Hhq u) | done].
    + rewrite lookup_insert_ne in Hs' by done. destruct (D s' x' u Hs' Hu) as [Hn Hx]. split; [|done].
      intros [Hin|Hin]%elem_of_app; [|done].
      destruct (D s x u Hs) as (_ & th & b & Hth & _ & _ & Hstk); [rewrite Hqx; set_solver |].
      destruct Hx as (th' & b' & Hth' & _ & _ & Hstk'). congruence.
  - intros s' x'. destruct (decide (s' = s)) as [->|Hne].
    + rewrite lookup_insert_eq. by intros [= <-].
    + rewrite lookup_insert_ne by done. apply F.
  - intros u thu Hu. destruct (G u thu Hu) as [Hh|[Hr|(s' & x' & Hs' & Hq)]]; [left; set_solver | by auto |].
    destruct (decide (s' = s)) as [->|Hne].
    + rewrite Hs in Hs'. injection Hs' as <-. rewrite Hqx in Hq. apply elem_of_app in Hq as [?|?]; [left; set_solver |].
      right. right. exists s. eexists. rewrite lookup_insert_eq. by split.
    + right. right. exists s', x'. by rewrite lookup_insert_ne.
  - intros u thu s' Hu Huse. destruct (decide (s' = s)) as [->|Hne]; [rewrite lookup_insert_eq; eauto |].
    rewrite lookup_insert_ne by done. by apply (I u thu).
  - intros lk. rewrite L. destruct (decide (SLock lk = s)) as [<-|Hne]; [|by rewrite lookup_insert_ne].
    rewrite lookup_insert_eq, Hs. split; eauto.
  - intros s' x' Hs' Hq. rewrite <- app_assoc.
    rewrite (waking_ext k) by done.
    destruct (decide (s' = s)) as [->|Hne].
    + rewrite lookup_insert_eq in Hs'. injection Hs' as <-. by apply Hwake.
    + rewrite lookup_insert_ne in Hs' by done. rewrite waking_app.
      pose proof (N s' x' Hs' Hq). pose proof (waking_nonneg k s' hd). lia.
Qed.

(** [P] succeeds: the value goes down and the thread leaves the loop. *)
Lemma J_P_done k H t th s x b :
  J k (t :: H) -> threads k !! t = Some th -> stack th = FP s IntOn :: b -> after_P s b ->
  sems k !! s = Some x ->
  J (set_threads (<[t := with_stack b th]> (threads k)) (put_sem s (mkSemaphore (value x - 1) (queue x)) k)) (t :: H).
Proof.
  intros HJ Ht Hstk Hb Hs. pose proof HJ as [A B C D F G I L N R].
  assert (forall u, u <> t -> <[t := with_stack b th]> (threads k) !! u = threads k !! u) as Hne
    by (intros; by apply lookup_insert_ne).
  assert (forall s', in_P (set_threads (<[t := with_stack b th]> (threads k)) k) s' t = false) as Hout.
  { intros s'. unfold in_P. cbn [threads set_threads]. rewrite lookup_insert_eq. apply bool_decide_eq_false.
    cbn. destruct s; destruct Hb as [p ->]; done. }
  split; cbn [threads readyList sems locks machine put_sem set_sems set_threads]; try done.
  - intros u Hu. destruct (decide (u = t)) as [->|]; [rewrite lookup_insert_eq; eauto | rewrite Hne by done]. by apply B.
  - intros u Hu. rewrite Hne; [by apply C |]. intros ->. by apply (J_unique_place k (t :: H) t); [done | left |].
  - intros s' x' u Hs' Hu.
    assert (exists x0, sems k !! s' = Some x0 /\ u ∈ queue x0) as (x0 & Hs0 & Hu0).
    { destruct (decide (s' = s)) as [->|]; [|rewrite lookup_insert_ne in Hs' by done; eauto].
      rewrite lookup_insert_eq in Hs'. injection Hs' as <-. eauto. }
    destruct (D s' x0 u Hs0 Hu0) as [Hn Hx]. split; [done |]. rewrite Hne; [done |]. intros ->. apply Hn. by left.
  - intros s' x'. destruct (decide (s' = s)) as [->|]; [|rewrite lookup_insert_ne by done; apply F].
    rewrite lookup_insert_eq. intros [= <-]. cbn. by apply (F s).
  - intros u thu. destruct (decide (u = t)) as [->|]; [by left; left |]. rewrite Hne by done. intros Hu.
    destruct (G u thu Hu) as [?|[?|(s' & x' & Hs' & Hq)]]; [by auto | by auto |]. right. right.
    exists s'. destruct (decide (s' = s)) as [->|]; [|exists x'; by rewrite lookup_insert_ne].
    rewrite lookup_insert_eq. eexists. split; [done |]. cbn. congruence.
  - intros u thu s' Hu Huse.
    assert (is_Some (sems k !! s')) as Hsome.
    { destruct (decide (u = t)) as [->|].
      - rewrite lookup_insert_eq in Hu. injection Hu as <-. cbn in Huse.
        apply (I t th s' Ht). rewrite Hstk. destruct Huse as [Htop|(lk & Hlk & ->)].
        + destruct s; destruct Hb as [p ->]; done.
        + right. exists lk. split; [by right | done].
      - rewrite Hne in Hu by done. by apply (I u thu). }
    destruct (decide (s' = s)) as [->|]; [rewrite lookup_insert_eq; eauto | by rewrite lookup_insert_ne].
  - intros lk. rewrite L. destruct (decide (SLock lk = s)) as [<-|Hn]; [|by rewrite lookup_insert_ne].
    rewrite lookup_insert_eq, Hs. split; eauto.
  - intros s' x' Hs' Hq.
    assert (forall l, waking (set_threads (<[t := with_stack b th]> (threads k)) k) s' l =
              waking k s' l - (if decide (s' = s) then Z.of_nat (length (filter (.= t) l)) else 0)) as Hw.
    { intros l. induction l as [|u l IH]; simpl; [by case_decide |]. rewrite IH. rewrite filter_cons.
      destruct (decide (u = t)) as [->|].
      - rewrite Hout. unfold in_P. rewrite Ht, Hstk. cbn [top_sem].
        case_decide as Hss; [subst s'; rewrite bool_decide_true by done; simpl; lia |].
        rewrite bool_decide_false by congruence. simpl. lia.
      - unfold in_P at 1. cbn [threads set_threads]. rewrite Hne by done. unfold in_P. case_decide; lia. }
    rewrite (waking_ext (set_threads (<[t := with_stack b th]> (threads k)) k)) by done.
    rewrite Hw. destruct (decide (s' = s)) as [->|Hn].
    + rewrite lookup_insert_eq in Hs'. injection Hs' as <-. cbn [value]. cbn in Hq.
      pose proof (N s x Hs Hq) as Hle.
      assert (length (filter (.= t) ((t :: H) ++ readyList k)) = 1%nat) as ->; [|lia].
      simpl in A. apply NoDup_cons in A as [A _]. simpl. rewrite filter_cons_True by done. simpl. f_equal.
      assert (forall l, t ∉ l -> length (filter (.= t) l) = 0%nat) as Hz; [|by apply Hz].
      clear. induction l as [|u l IH]; [done |]. intros Hn. apply not_elem_of_cons in Hn as [? ?].
      rewrite filter_cons_False by congruence. auto.
    + rewrite lookup_insert_ne in Hs' by done. pose proof (N s' x' Hs' Hq). lia.
  - destruct R as [R1 R2]. split; [done |]. intros u thu. destruct (decide (u = t)) as [->|].
    + rewrite lookup_insert_eq. intros [= <-]. by apply (R2 t th).
    + rewrite Hne by done. apply R2.
Qed.

(** Only registers of a thread change. *)
Lemma J_regs_upd k H t th r :
  J k H -> threads k !! t = Some th -> regs_len r ->
  J (set_threads (<[t := with_regs r th]> (threads k)) k) H.
Proof.
  intros [A B C D F G I L N R] Ht Hr.
  assert (forall u thu, <[t := with_regs r th]> (threads k) !! u = Some thu ->
    exists thu', threads k !! u = Some thu' /\ stack thu' = stack thu /\ status thu' = status thu) as Hback.
  { intros u thu. destruct (decide (u = t)) as [->|]; [|rewrite lookup_insert_ne by done; eauto].
    rewrite lookup_insert_eq. intros [= <-]. eauto. }
  assert (forall u thu, threads k !! u = Some thu ->
    exists thu', <[t := with_regs r th]> (threads k) !! u = Some thu' /\
      stack thu' = stack thu /\ status thu' = status thu) as Hforth.
  { intros u thu Hu. destruct (decide (u = t)) as [->|].
    - rewrite lookup_insert_eq. eexists. split; [done |]. rewrite Ht in Hu. by injection Hu as <-.
    - rewrite lookup_insert_ne by done. eauto. }
  split; cbn [threads readyList sems locks machine set_threads]; try done.
  - intros u Hu. destruct (B u Hu) as [thu Hthu]. destruct (Hforth u thu Hthu) as (?&?&_). eauto.
  - intros u Hu. destruct (C u Hu) as (thu & Hthu & Hst & Hres).
    destruct (Hforth u thu Hthu) as (thu' & ? & Hs1 & Hs2). exists thu'. by rewrite Hs1, Hs2.
  - intros s x u Hs Hu. destruct (D s x u Hs Hu) as (Hn & thu & b & Hthu & Hst & Hb & Hstk).
    split; [done |]. destruct (Hforth u thu Hthu) as (thu' & ? & Hs1 & Hs2). exists thu', b.
    rewrite Hs1, Hs2. done.
  - intros u thu Hu. destruct (Hback u thu Hu) as (thu' & Hu' & _). by apply (G u thu').
  - intros u thu s Hu. destruct (Hback u thu Hu) as (thu' & Hu' & <- & _). by apply (I u thu' s).
  - intros s x Hs Hq. etrans; [by apply N |]. apply waking_mono. intros u _. unfold in_P. cbn [threads set_threads].
    destruct (threads k !! u) as [thu|] eqn:Hu; [|done]. destruct (Hforth u thu Hu) as (thu' & -> & -> & _). done.
  - destruct R as [R1 R2]. split; [done |]. intros u thu. destruct (decide (u = t)) as [->|].
    + rewrite lookup_insert_eq. by intros [= <-].
    + rewrite lookup_insert_ne by done. apply R2.
Qed.

(** A dead thread disappears. *)
Lemma J_delete k H t th :
  J k (t :: H) -> threads k !! t = Some th -> top_sem (stack th) = None ->
  J (set_threads (delete t (threads k)) k) H.
Proof.
  intros HJ Ht Htop. pose proof HJ as [A B C D F G I L N R].
  assert (forall u, u <> t -> delete t (threads k) !! u = threads k !! u) as Hne
    by (intros; by apply lookup_delete_ne).
  simpl in A. apply NoDup_cons in A as [Hnin A].
  split; cbn [threads readyList sems locks machine set_threads]; try done.
  - intros u Hu. rewrite Hne; [apply B; by right |]. set_solver.
  - intros u Hu. rewrite Hne; [by apply C |]. set_solver.
  - intros s x u Hs Hu. destruct (D s x u Hs Hu) as [Hn Hx]. rewrite Hne; [|set_solver].
    split; [set_solver | done].
  - intros u thu Hu. apply lookup_delete_Some in Hu as [Hut Hu].
    destruct (G u thu Hu) as [Hh|?]; [left; set_solver | by right].
  - intros u thu s Hu. apply lookup_delete_Some in Hu as [Hut Hu]. by apply (I u thu).
  - intros s x Hs Hq. pose proof (N s x Hs Hq) as Hle. cbn [app waking] in Hle.
    assert (in_P k s t = false) as Ein.
    { unfold in_P. rewrite Ht, Htop. by apply bool_decide_eq_false. }
    rewrite Ein in Hle. simpl in Hle. etrans; [exact Hle |]. apply waking_mono.
    intros u Hu. unfold in_P. cbn [threads set_threads]. rewrite Hne; [done |]. set_solver.
  - destruct R as [R1 R2]. split; [done |]. intros u thu Hu. apply lookup_delete_Some in Hu as [_ Hu]. by apply (R2 u).
Qed.

(** A new thread. *)
Lemma J_new_thread k H t th :
  J k H -> threads k !! t = None -> (forall s, ~ uses (stack th) s) -> regs_len (userRegisters th) ->
  J (set_threads (<[t := th]> (threads k)) k) (t :: H).
Proof.
  intros HJ Ht Huse Hreg. pose proof HJ as [A B C D F G I L N R].
  assert (forall u, u <> t -> <[t := th]> (threads k) !! u = threads k !! u) as Hne
    by (intros; by apply lookup_insert_ne).
  assert (forall u, u ∈ H ++ readyList k -> u <> t) as Hnt.
  { intros u [Hu|Hu]%elem_of_app ->; [destruct (B t Hu) | destruct (C t Hu) as (?&?&_)]; congruence. }
  split; cbn [threads readyList sems locks machine set_threads]; try done.
  - simpl. apply NoDup_cons. split; [|done]. intros Hin. by apply (Hnt t).
  - intros u [->|Hu]%elem_of_cons; [rewrite lookup_insert_eq; eauto |].
    rewrite Hne; [by apply B |]. apply Hnt. set_solver.
  - intros u Hu. rewrite Hne; [by apply C |]. apply Hnt. set_solver.
  - intros s x u Hs Hu. destruct (D s x u Hs Hu) as (Hn & thu & b & Hx & Hy).
    assert (u <> t) by congruence. split; [set_solver |]. rewrite Hne by done. eauto.
  - intros u thu. destruct (decide (u = t)) as [->|Hut]; [left; by left |]. rewrite Hne by done.
    intros Hu. destruct (G u thu Hu) as [?|?]; [left; by right | by right].
  - intros u thu s. destruct (decide (u = t)) as [->|Hut].
    + rewrite lookup_insert_eq. intros [= <-] Hus. by apply Huse in Hus.
    + rewrite Hne by done. apply I.
  - intros s x Hs Hq. etrans; [by apply N |]. cbn [app waking].
    assert (waking k s (H ++ readyList k) <= waking (set_threads (<[t := th]> (threads k)) k) s (H ++ readyList k)).
    { apply waking_mono. intros u Hu. unfold in_P. cbn [threads set_threads]. by rewrite Hne by (by apply Hnt). }
    destruct (in_P _ s t); simpl; lia.
  - destruct R as [R1 R2]. split; [done |]. intros u thu. destruct (decide (u = t)) as [->|].
    + rewrite lookup_insert_eq. by intros [= <-].
    + rewrite Hne by done. apply R2.
Qed.

(** *** The switch *)

Lemma stack_saved m (o : Thread) : stack (saved m o) = stack o /\ status (saved m o) = status o.
Proof. unfold saved. by destruct (space o). Qed.

Lemma acquiring_popped lk st : resumable st -> acquiring lk (popped st) <-> acquiring lk st.
Proof.
  intros [(p&->)|[(b&Hb&->)|(s&b&_&->)]]; simpl; [done | | done].
  destruct Hb as [(p&->)|(l&p&->)]; done.
Qed.

Lemma J_saved k H o :
  J k H -> threads k !! currentThread k = Some o ->
  J (set_threads (<[currentThread k := saved (machine k) o]> (threads k)) k) H.
Proof.
  intros HJ Ho. unfold saved. destruct (space o).
  - apply J_regs_upd; [done | done | apply (J_regs _ _ HJ)].
  - apply (J_ext k); cbn [threads readyList sems locks machine set_threads]; try done.
    + by rewrite insert_id.
    + apply (J_regs _ _ HJ).
Qed.

Lemma popped_body st : resumable st ->
  (body (popped st) /\ resumed_level st = IntOn) \/
  (exists s b, popped st = FP s IntOn :: b /\ after_P s b /\ resumed_level st = IntOff).
Proof.
  intros [(p&->)|[(b&Hb&->)|(s&b&Hb&->)]]; simpl.
  - left. split; [left; eauto | done].
  - left. split; [done |]. done.
  - right. eauto.
Qed.

Lemma popped_uses st s : resumable st -> uses (popped st) s -> uses st s.
Proof.
  intros [(p&->)|[(b&Hb&->)|(s'&b&_&->)]]; simpl; [| |done].
  - intros [Ht|(lk&Hin&->)]; [done |]. right. exists lk. split; [|done].
    apply elem_of_cons in Hin as [?|Hin]; [done |]. by right.
  - intros [Ht|(lk&Hin&->)].
    + destruct Hb as [(p&->)|(l&p&->)]; done.
    + right. exists lk. split; [by right | done].
Qed.

Lemma switched_inv n th o (finishing : bool) (k : Kern) :
  mode k = Executing -> M k ->
  J k (n :: if finishing then [currentThread k] else []) ->
  threads k !! currentThread k = Some o ->
  <[currentThread k := saved (machine k) o]> (threads k) !! n = Some th ->
  resumable (stack th) -> (finishing = true -> stack o = [FDead]) ->
  inv (switched n th o finishing k).
Proof.
  intros Hmode HM HJ Ho Hn Hres Hfin.
  set (cur := currentThread k) in *. set (H := if finishing then [cur] else []) in *.
  set (k0 := set_threads (<[cur := saved (machine k) o]> (threads k)) k).
  assert (J k0 (n :: H)) as HJ0 by (by apply J_saved).
  assert (M k0) as HM0.
  { apply (M_upd k k0 cur o (saved (machine k) o)); try done.
    intros lk. by rewrite (proj1 (stack_saved (machine k) o)). }
  set (th' := with_stack (popped (stack th)) (with_status RUNNING th)).
  set (k1 := set_threads (<[n := th']> (threads k0)) k0).
  assert (J k1 (n :: H)) as HJ1.
  { apply (J_upd k0 H n th th'); try done.
    - intros s Hs. unfold th'. cbn [stack with_stack with_status].
      destruct Hres as [(p&Hp)|[(b&_&Hp)|(s'&b&_&Hp)]]; rewrite Hp in *; done.
    - intros s Hs. apply (J_uses _ _ HJ0 n th s Hn). by apply popped_uses.
    - apply (proj2 (J_regs _ _ HJ0) n th Hn). }
  assert (M k1) as HM1.
  { apply (M_upd k0 k1 n th th'); try done. intros lk. by apply acquiring_popped. }
  assert (threads k1 !! n = Some th') as Hn1 by apply lookup_insert_eq.
  assert (finishing = true -> n <> cur /\ threads k1 !! cur = Some (saved (machine k) o)) as Hcur.
  { intros ->. pose proof (J_nodup _ _ HJ) as Hnd. simpl in Hnd.
    assert (n <> cur) as Hne by (apply NoDup_cons in Hnd as [Hx _]; set_solver).
    split; [done |]. unfold k1, k0. cbn [threads set_threads]. rewrite lookup_insert_ne by done. apply lookup_insert_eq. }
  assert (regs_len (registers (restored (machine k) th))) as Hreg.
  { destruct (J_regs _ _ HJ0) as [R1 R2]. unfold restored. cbn in R1.
    destruct (stack th) as [|[]]; try done; destruct (space th); try done; exact (R2 n th Hn). }
  assert (exists k2, threads k2 = threads (switched n th o finishing k) /\ readyList k2 = readyList k /\
            sems k2 = sems k /\ locks k2 = locks k /\ J k2 [n] /\ M k2) as (k2 & Ht2 & Hr2 & Hs2 & Hl2 & HJ2 & HM2).
  { destruct finishing.
    - destruct (Hcur eq_refl) as [Hne Hc1]. exists (set_threads (delete cur (threads k1)) k1).
      split_and!; [done..| |].
      + apply (J_delete k1 [n] cur (saved (machine k) o)); [|done |].
        * apply (J_perm k1 [n; cur]); [constructor | done].
        * rewrite (proj1 (stack_saved _ _)), Hfin by done. done.
      + apply (M_same k1); [done | eauto | | done]. intros lk t. unfold acq. cbn [threads set_threads].
        destruct (decide (t = cur)) as [->|Htc]; [|by rewrite lookup_delete_ne].
        rewrite lookup_delete_eq, Hc1. split; [naive_solver |]. intros (tt & [= <-] & Hacq).
        by rewrite (proj1 (stack_saved _ _)), Hfin in Hacq by done.
    - exists k1. split_and!; done. }
  split; [done |]. split; [by apply (M_ext k2) |]. cbn [switched mode]. rewrite Hmode.
  split; [by apply (J_ext k2) |]. cbn [switched currentThread threads level].
  exists th'. split.
  - destruct finishing; [rewrite lookup_delete_ne by (destruct (Hcur eq_refl); done) |]; exact Hn1.
  - split; [done |]. by apply popped_body.
Qed.

(** *** What scheduling leaves alone

    The user registers and the address space of a thread that has begun,
    wherever the registers are; the locks that are held; the order of the
    ready list. *)

Definition root (st : list frame) : bool := match st with FRoot _ :: _ => true | _ => false end.

Definition user_state (k : Kern) (t : tid) : option (AddrSpace * list Z) :=
  match threads k !! t with
  | Some th =>
      match space th with
      | Some s =>
          if root (stack th) then None
          else Some (s, if decide (t = currentThread k) then registers (machine k) else userRegisters th)
      | None => None
      end
  | None => None
  end.

Record kept (k k' : Kern) : Prop := {
  kept_user : forall t u, user_state k t = Some u -> user_state k' t = Some u \/ threads k' !! t = None;
  kept_locks : forall lk h, locks k !! lk = Some (Some h) -> locks k' !! lk = Some (Some h)
}.

(** The ready list is served at the front and joined at the back. *)
Definition ready_moves (k k' : Kern) : Prop :=
  (currentThread k' = currentThread k /\ exists l, readyList k' = readyList k ++ l) \/
  (exists l, currentThread k' :: readyList k' = readyList k ++ l).

Definition post (k k' : Kern) : Prop := inv k' /\ kept k k' /\ ready_moves k k'.

(** A change that does not switch. *)
Record quiet (k k' : Kern) : Prop := {
  quiet_current : currentThread k' = currentThread k;
  quiet_user : forall t u, user_state k t = Some u -> user_state k' t = Some u;
  quiet_locks : forall lk h, locks k !! lk = Some (Some h) -> locks k' !! lk = Some (Some h);
  quiet_ready : exists l, readyList k' = readyList k ++ l
}.

Lemma quiet_trans k1 k2 k3 : quiet k1 k2 -> quiet k2 k3 -> quiet k1 k3.
Proof.
  intros [A1 B1 C1 [l1 D1]] [A2 B2 C2 [l2 D2]]. split; [congruence | eauto | eauto |].
  exists (l1 ++ l2). by rewrite D2, D1, app_assoc.
Qed.

Lemma quiet_post k k1 k2 : quiet k k1 -> post k1 k2 -> post k k2.
Proof.
  intros [A B C [l D]] (Hi & [U L] & Hr). split; [done |]. split; [split; eauto |].
  destruct Hr as [(E1 & l' & E2)|(l' & E2)]; [left | right].
  - split; [congruence |]. exists (l ++ l'). by rewrite E2, D, app_assoc.
  - exists (l ++ l'). by rewrite E2, D, app_assoc.
Qed.

Lemma quiet_ex k k1 (r : outcome Kern) :
  quiet k k1 -> (exists k', r = Ok k' /\ post k1 k') -> exists k', r = Ok k' /\ post k k'.
Proof. intros Hq (k' & -> & Hp). exists k'. split; [done |]. by apply (quiet_post k k1). Qed.

Lemma quiet_inv_post k k' : quiet k k' -> inv k' -> post k k'.
Proof. intros [A B C D] Hi. split; [done |]. split; [split; eauto | left; eauto]. Qed.

Lemma quiet_same k k' :
  currentThread k' = currentThread k -> threads k' = threads k -> machine k' = machine k ->
  (forall lk h, locks k !! lk = Some (Some h) -> locks k' !! lk = Some (Some h)) ->
  (exists l, readyList k' = readyList k ++ l) -> quiet k k'.
Proof.
  intros Hc Ht Hm Hl Hr. split; [done | | done | done]. intros t u. unfold user_state. by rewrite Ht, Hc, Hm.
Qed.

Lemma user_upd k k' t th th' :
  threads k !! t = Some th -> threads k' = <[t := th']> (threads k) ->
  space th' = space th -> userRegisters th' = userRegisters th ->
  (space th <> None -> root (stack th') = true -> root (stack th) = true) ->
  currentThread k' = currentThread k -> machine k' = machine k ->
  forall u x, user_state k u = Some x -> user_state k' u = Some x.
Proof.
  intros Ht Ht' Hs Hu Hroot Hc Hm u x. unfold user_state.
  rewrite Ht', Hc, Hm. destruct (decide (u = t)) as [->|Hne]; [|by rewrite lookup_insert_ne].
  rewrite lookup_insert_eq, Ht, Hs, Hu. destruct (space th); [|done].
  destruct (root (stack th)) eqn:E1; [done |]. destruct (root (stack th')); [by specialize (Hroot ltac:(done) eq_refl) | done].
Qed.

Lemma quiet_upd k k' t th th' :
  threads k !! t = Some th -> threads k' = <[t := th']> (threads k) ->
  space th' = space th -> userRegisters th' = userRegisters th ->
  (space th <> None -> root (stack th') = true -> root (stack th) = true) ->
  currentThread k' = currentThread k -> machine k' = machine k ->
  (forall lk h, locks k !! lk = Some (Some h) -> locks k' !! lk = Some (Some h)) ->
  (exists l, readyList k' = readyList k ++ l) -> quiet k k'.
Proof. intros. split; [done | | done | done]. by eapply user_upd. Qed.

Lemma app_nil_ex {A} (l : list A) : exists l', l = l ++ l'.
Proof. exists []. by rewrite app_nil_r. Qed.

Lemma switched_kept n th o (finishing : bool) (k : Kern) :
  threads k !! currentThread k = Some o ->
  <[currentThread k := saved (machine k) o]> (threads k) !! n = Some th ->
  (finishing = true -> n <> currentThread k) -> resumable (stack th) ->
  kept k (switched n th o finishing k).
Proof.
  intros Ho Hn Hfin Hres. split; [|done]. intros t u. unfold user_state at 1.
  set (cur := currentThread k) in *. set (k' := switched n th o finishing k).
  assert (finishing = false \/ t <> cur -> threads k' !! t =
            <[n := with_stack (popped (stack th)) (with_status RUNNING th)]>
              (<[cur := saved (machine k) o]> (threads k)) !! t) as Hk'.
  { intros Hx. unfold k', switched. cbn [threads]. destruct finishing; [|done].
    rewrite lookup_delete_ne; [done |]. intros Heq. destruct Hx as [?|Hx]; [done | by apply Hx]. }
  assert (root (popped (stack th)) = false) as Hpop
    by (destruct Hres as [(p&->)|[(b&[(p&->)|(l&p&->)]&->)|(s&b&_&->)]]; done).
  assert (root (stack th) = false -> forall s, space th = Some s ->
            registers (restored (machine k) th) = userRegisters th) as Hrest.
  { intros Hr s Hs. unfold restored. rewrite Hs. destruct (stack th) as [|[]]; done. }
  destruct (decide (t = cur)) as [->|Htc].
  - rewrite Ho. destruct (space o) as [s|] eqn:Hso; [|done].
    destruct (root (stack o)) eqn:Hro; [done |]. intros [= <-].
    destruct finishing.
    { right. unfold k', switched. cbn [threads]. by rewrite lookup_delete_eq. }
    left. unfold user_state. rewrite Hk' by (by left). unfold k' at 1. cbn [currentThread switched].
    destruct (decide (n = cur)) as [->|Hnc].
    + rewrite lookup_insert_eq in Hn. injection Hn as <-. rewrite lookup_insert_eq.
      cbn [space with_stack with_status stack]. unfold saved in *. rewrite Hso in *. cbn [space with_regs]. rewrite Hso.
      rewrite Hpop, decide_True by done. do 2 f_equal. unfold k'. cbn [machine switched].
      rewrite Hso. by rewrite (Hrest Hro s Hso).
    + rewrite lookup_insert_ne, lookup_insert_eq by done. unfold saved. rewrite Hso. cbn [space with_regs stack userRegisters].
      by rewrite Hso, Hro, decide_False by done.
  - intros Hu. left. unfold user_state. rewrite Hk' by (by right). unfold k' at 1. cbn [currentThread switched].
    destruct (decide (n = t)) as [->|Hnt].
    + rewrite lookup_insert_ne in Hn by done. rewrite Hn in Hu. rewrite lookup_insert_eq.
      cbn [space with_stack with_status stack]. destruct (space th) as [s|] eqn:Hs; [|done].
      destruct (root (stack th)) eqn:Hro; [done |]. rewrite Hpop, decide_True by done. rewrite <- Hu.
      unfold k'. cbn [machine switched]. by rewrite (Hrest eq_refl s eq_refl).
    + rewrite !lookup_insert_ne by done. rewrite <- Hu. destruct (threads k !! t) as [w|]; [|done].
      destruct (decide (t = n)) as [?|_]; [by subst |]. by destruct (decide (t = cur)).
Qed.

(** The two places that switch, with their preconditions. *)
Lemma Run_inv n (finishing : bool) (k : Kern) o :
  level k = IntOff -> toBeDestroyed k = None -> mode k = Executing -> M k ->
  J k (n :: if finishing then [currentThread k] else []) ->
  threads k !! currentThread k = Some o -> (finishing = true -> stack o = [FDead]) ->
  (forall th, threads k !! n = Some th -> resumable (stack th)) ->
  exists k', Run n finishing k = Ok k' /\ inv k' /\ kept k k' /\
    currentThread k' = n /\ readyList k' = readyList k.
Proof.
  intros Hl Htbd Hmode HM HJ Ho Hfin Hres.
  pose proof (J_saved _ _ _ HJ Ho) as HJ0.
  assert (exists th, <[currentThread k := saved (machine k) o]> (threads k) !! n = Some th /\ resumable (stack th))
    as (th & Hn & Hth).
  { destruct (decide (n = currentThread k)) as [->|Hne].
    - rewrite lookup_insert_eq. eexists. split; [done |]. rewrite (proj1 (stack_saved _ _)). by apply Hres.
    - rewrite lookup_insert_ne by done. destruct (J_hand _ _ HJ n) as [th Hth]; [by left |]. eauto. }
  assert (finishing = true -> n <> currentThread k) as Hne.
  { intros -> ->. pose proof (J_nodup _ _ HJ) as Hnd. simpl in Hnd. apply NoDup_cons in Hnd as [Hx _]. set_solver. }
  exists (switched n th o finishing k). split; [|split; [by apply switched_inv | split; [by apply switched_kept | done]]].
  destruct (J_regs _ _ HJ) as [R1 R2]. destruct (J_regs _ _ HJ0) as [_ R3].
  apply Run_eq; try done.
  - by apply resumable_is_top.
  - by apply (R2 (currentThread k)).
  - by apply (R3 n).
Qed.

Lemma Sleep_loop_inv (finishing : bool) (k : Kern) :
  level k = IntOff -> toBeDestroyed k = None -> M k ->
  J k (if finishing then [currentThread k] else []) ->
  (exists o, threads k !! currentThread k = Some o /\
     (finishing = true -> stack o = [FDead] /\ status o = BLOCKED)) ->
  exists k', Sleep_loop finishing k = Ok k' /\ post k k'.
Proof.
  intros Hl Htbd HM HJ (o & Ho & Hfin). unfold Sleep_loop, FindNextToRun, is_off. rewrite Hl.
  rewrite bool_decide_true by done. cbn [obind assert_].
  destruct (readyList k) as [|n l] eqn:Er; cbn [obind ListSpec.RemoveFront].
  - eexists. split; [done |]. apply quiet_inv_post; [apply quiet_same; eauto using app_nil_ex |].
    split; [done |]. split; [by apply (M_ext k) |].
    cbn [mode set_mode level currentThread threads]. split; [done |]. split; [eauto |].
    destruct finishing; [|by apply (J_ext k); try done; apply (J_regs _ _ HJ)].
    destruct (Hfin eq_refl). split; [apply (J_ext k); try done; apply (J_regs _ _ HJ) | eauto].
  - destruct (Run_inv n finishing (set_mode Executing (set_ready l k)) o) as (k' & HR & Hi & Hk & Hc & Hrl);
      cbn [set_mode set_ready level toBeDestroyed mode currentThread threads]; try done.
    + apply (J_ext (set_ready l k)); try done; [apply (J_regs _ _ HJ) |]. by apply J_from_ready.
    + intros ->. by destruct (Hfin eq_refl).
    + intros th Hth. destruct (J_ready _ _ HJ n) as (th' & Hth' & _ & Hr); [rewrite Er; by left |]. congruence.
    + exists k'. split; [done |]. split; [done |]. split; [by destruct Hk; split |].
      right. exists []. rewrite Hc, Hrl, Er. cbn. by rewrite app_nil_r.
Qed.

(** *** V *)

Definition woken (s : sid) (x : Semaphore) (k : Kern) : Kern :=
  match queue x with
  | [] => put_sem s (mkSemaphore (value x + 1) []) k
  | t :: q =>
      put_sem s (mkSemaphore (value x + 1) q)
        (set_ready (readyList k ++ [t]) (set_threads (alter (with_status READY) t (threads k)) k))
  end.

Lemma ReadyToRun_eq t (k : Kern) th :
  level k = IntOff -> threads k !! t = Some th -> t ∉ readyList k ->
  ReadyToRun t k =
    Ok (set_ready (readyList k ++ [t]) (set_threads (<[t := with_status READY th]> (threads k)) k)).
Proof.
  intros Hl Ht Hn. unfold ReadyToRun, is_off. rewrite Hl, bool_decide_true by done. cbn [obind assert_].
  unfold setStatus, upd_thread, get_thread. rewrite Ht. cbn [obind readyList set_threads].
  unfold ListSpec.Append. by rewrite decide_False.
Qed.

Lemma V_eq k H s x : J k H -> sems k !! s = Some x -> V s k = Ok (woken s x k).
Proof.
  intros HJ Hs. unfold V, SetLevel, get_sem. cbn [sems set_level]. rewrite Hs. cbn [obind]. unfold woken.
  destruct (queue x) as [|t q] eqn:Eq.
  - cbn [obind sems set_level]. rewrite Hs. cbn [obind]. rewrite Eq. by destruct k.
  - cbn [obind ListSpec.RemoveFront].
    destruct (J_queue _ _ HJ s x t Hs) as (_ & th & b & Ht & _); [rewrite Eq; by left |].
    rewrite (ReadyToRun_eq t _ th); [|done|done|].
    + cbn [obind sems set_ready set_threads put_sem set_sems]. rewrite lookup_insert_eq. cbn [obind value queue].
      unfold SetLevel, put_sem. cbn [snd sems set_sems set_level set_ready set_threads].
      rewrite insert_insert_eq, (alter_insert_Some _ _ _ th) by done. by destruct k.
    + apply (J_queue_not_ready k H s x t HJ Hs). rewrite Eq. by left.
Qed.

Lemma J_woken k H s x : J k H -> sems k !! s = Some x -> J (woken s x k) H.
Proof.
  intros HJ Hs. unfold woken. destruct (queue x) as [|t q] eqn:Eq.
  - by apply (J_value k H s x (value x + 1) [] []).
  - destruct (J_queue _ _ HJ s x t Hs) as (_ & th & b & Ht & _ & Hb & Hstk); [rewrite Eq; by left |].
    assert (J (put_sem s (mkSemaphore (value x + 1) q) k) (t :: H)) as HJ1.
    { apply (J_value k H s x (value x + 1) q [t]); [done | done | done |]. intros _.
      pose proof (J_wakeup _ _ HJ s x Hs) as Hw. rewrite Eq in Hw. specialize (Hw ltac:(done)).
      rewrite waking_app. simpl. rewrite (proj2 (in_P_true k s t th Ht)) by (by rewrite Hstk). simpl. lia. }
    apply (J_to_ready _ _ _ th) in HJ1; [| done | right; right; eauto].
    apply (J_ext _ _ _) with (6 := HJ1); try done; [|apply (J_regs _ _ HJ)].
    cbn [threads put_sem set_sems set_ready set_threads]. by apply alter_insert_Some.
Qed.

Lemma acq_woken k H s x lk t : J k H -> sems k !! s = Some x -> acq (woken s x k) lk t <-> acq k lk t.
Proof.
  intros HJ Hs. unfold woken. destruct (queue x) as [|u q] eqn:Eq; [done |].
  destruct (J_queue _ _ HJ s x u Hs) as (_ & th & b & Hu & _); [rewrite Eq; by left |].
  unfold acq. cbn [threads put_sem set_sems set_ready set_threads].
  destruct (decide (t = u)) as [->|Hne]; [|by rewrite lookup_alter_ne].
  rewrite lookup_alter_eq, Hu. split; naive_solver.
Qed.

Lemma M_woken_user k H n x : J k H -> sems k !! SUser n = Some x -> M k -> M (woken (SUser n) x k).
Proof.
  intros HJ Hs. apply M_same.
  - unfold woken. by destruct (queue x).
  - intros lk x' Hx'. exists x'. split; [|done]. unfold woken in Hx'.
    by destruct (queue x); cbn [sems put_sem set_sems set_ready set_threads] in Hx';
      rewrite lookup_insert_ne in Hx'.
  - intros lk t. by apply (acq_woken k H).
Qed.

(** *** The current thread *)

(** The current thread executes, with record [th]; [H] is in hand with it. *)
Definition at_work (k : Kern) (th : Thread) (H : list tid) : Prop :=
  toBeDestroyed k = None /\ M k /\ mode k = Executing /\ J k (currentThread k :: H) /\
  threads k !! currentThread k = Some th /\ status th = RUNNING.

Lemma at_work_inv k th : at_work k th [] ->
  (body (stack th) /\ level k = IntOn) \/
  (exists s b, stack th = FP s IntOn :: b /\ after_P s b /\ level k = IntOff) -> inv k.
Proof.
  intros (Htbd & HM & Hm & HJ & Ht & Hst) Hs. split; [done |]. split; [done |]. rewrite Hm. eauto.
Qed.

Lemma set_stack_at_work k th H st :
  at_work k th H -> top_sem (stack th) = None ->
  (forall lk, acquiring lk st <-> acquiring lk (stack th)) ->
  (forall s, uses st s -> is_Some (sems k !! s)) ->
  exists k', set_stack st k = Ok k' /\ at_work k' (with_stack st th) H /\
    k' = set_threads (<[currentThread k := with_stack st th]> (threads k)) k.
Proof.
  intros (Htbd & HM & Hm & HJ & Ht & Hst) Htop Hacq Huse.
  unfold set_stack, upd_thread, get_thread. rewrite Ht. cbn [obind].
  eexists. split; [done |]. split; [|done].
  split; [done |]. split; [by apply (M_upd k _ (currentThread k) th (with_stack st th)) |].
  split; [done |]. split; [|split; [apply lookup_insert_eq | done]].
  apply (J_upd k H _ th); try done.
  - intros s Hs. congruence.
  - apply (proj2 (J_regs _ _ HJ) _ th Ht).
Qed.

Lemma at_work_level k th H l : at_work k th H -> at_work (set_level l k) th H.
Proof.
  intros (Htbd & HM & Hm & HJ & Ht & Hst). split; [done |]. split; [by apply (M_ext k) |].
  split; [done |]. split; [|done]. apply (J_ext k); try done. apply (J_regs _ _ HJ).
Qed.

(** [P] up to its loop. *)
Lemma P_start_inv s b k th :
  at_work k th [] -> level k = IntOn -> top_sem (stack th) = None ->
  (forall lk, ~ acquiring lk (stack th)) -> after_P s b -> is_Some (sems k !! s) ->
  exists k', P_start s b k = Ok k' /\ post k k'.
Proof.
  intros Hw Hl Htop Hna Hb Hs. unfold P_start, SetLevel. rewrite Hl.
  destruct (set_stack_at_work (set_level IntOff k) th [] (FP s IntOn :: b)) as (k' & -> & Hw' & ->).
  - by apply at_work_level.
  - done.
  - intros lk. split; [done | by intros ?%Hna].
  - intros s' [[= <-]|(lk & Hin & ->)]; [done |]. cbn [sems set_level].
    destruct s as [n|l]; destruct Hb as [p ->].
    + set_solver.
    + assert (lk = l) as -> by set_solver. done.
  - eexists. split; [done |]. apply quiet_inv_post.
    + eapply quiet_upd; [apply Hw | done..|]. apply app_nil_ex.
    + eapply at_work_inv; [done |]. right. exists s, b. done.
Qed.

Lemma J_acquiring_top k H t th lk : J k H -> threads k !! t = Some th ->
  acquiring lk (stack th) -> is_Some (sems k !! SLock lk).
Proof.
  intros HJ Ht Ha. apply (J_uses _ _ HJ t th _ Ht). right. exists lk. split; [|done].
  destruct (stack th) as [|f st]; [done |]. destruct f; try done.
  - destruct st as [|f' st']; [done |]. destruct f'; try done. simpl in Ha. subst. right. by left.
  - simpl in Ha. subst. by left.
Qed.

(** Taking the semaphore of a lock makes the thread its next holder. *)
Lemma M_P_done k H th s x b :
  M k -> J k (currentThread k :: H) -> threads k !! currentThread k = Some th -> stack th = FP s IntOn :: b ->
  after_P s b -> sems k !! s = Some x -> value x <> 0 ->
  M (set_threads (<[currentThread k := with_stack b th]> (threads k))
       (put_sem s (mkSemaphore (value x - 1) (queue x)) k)).
Proof.
  intros HM HJ Ht Hstk Hb Hs Hv. set (k' := set_threads _ _).
  assert (forall lk t, acq k' lk t <-> (t = currentThread k /\ s = SLock lk) \/ acq k lk t) as Hacq.
  { intros lk t. rewrite (acq_upd k k' (currentThread k) (with_stack b th)) by done. cbn [stack with_stack].
    assert (forall lk, ~ acq k lk (currentThread k)) as Hno.
    { intros l (th' & Ht' & Ha). rewrite Ht in Ht'. injection Ht' as <-. by rewrite Hstk in Ha. }
    destruct s as [n|l]; destruct Hb as [p ->]; cbn [acquiring].
    - split; [naive_solver |]. intros [[_ ?]|Ha]; [done |]. right. split; [|done]. intros ->. by apply (Hno lk).
    - split; [naive_solver |]. intros [[-> [= ->]]|Ha]; [by left |]. right. split; [|done]. intros ->. by apply (Hno lk). }
  intros lk h x'. unfold lock_free, lock_held, lock_taken. intros Hlk Hx'. cbn in Hlk.
  unfold k' in Hx'. cbn [sems set_threads put_sem set_sems] in Hx'.
  destruct (decide (s = SLock lk)) as [->|Hne].
  - rewrite lookup_insert_eq in Hx'. injection Hx' as <-. cbn [value].
    destruct (HM lk h x Hlk Hs) as [(-> & -> & Hno)|[(?&_)|(?&_)]]; [|done|done].
    right. right. split; [lia |]. split; [done |]. exists (currentThread k). rewrite Hacq.
    split; [by left |]. intros u. rewrite Hacq. intros [[-> _]|Ha]; [done |]. by apply Hno in Ha.
  - rewrite lookup_insert_ne in Hx' by done.
    assert (forall t, acq k' lk t <-> acq k lk t) as Hsame by (intros t; rewrite Hacq; naive_solver).
    destruct (HM lk h x' Hlk Hx') as [(?&?&Hn)|[(?&?&Hn)|(?&?&t&Hta&Hu)]].
    + left. split_and!; [done | done |]. intros t. rewrite Hsame. apply Hn.
    + right. left. split_and!; [done | done |]. intros t. rewrite Hsame. apply Hn.
    + right. right. split_and!; [done | done |]. exists t. rewrite Hsame. split; [done |].
      intros u. rewrite Hsame. apply Hu.
Qed.

(** The loop of [P]: either the thread sleeps, or it takes the value. *)
Lemma P_loop_inv s b k th :
  at_work k th [] -> level k = IntOff -> stack th = FP s IntOn :: b -> after_P s b ->
  exists k', P_loop s IntOn b k = Ok k' /\ post k k'.
Proof.
  intros Hw Hl Hstk Hb. pose proof Hw as (Htbd & HM & Hm & HJ & Ht & Hst).
  destruct (J_uses _ _ HJ _ th s Ht) as [x Hx]; [left; by rewrite Hstk |].
  unfold P_loop, get_sem. rewrite Hx. cbn [obind].
  destruct (Z.eqb_spec (value x) 0) as [Hv|Hv].
  - unfold ListSpec.Append. rewrite decide_False.
    2:{ intros Hin. destruct (J_queue _ _ HJ s x _ Hx Hin) as [Hn _]. apply Hn. by left. }
    cbn [obind]. unfold Sleep. rewrite bool_decide_true by done. cbn [obind assert_].
    unfold is_off. cbn [level put_sem set_sems]. rewrite Hl, bool_decide_true by done. cbn [obind assert_].
    unfold setStatus, upd_thread, get_thread. cbn [threads put_sem set_sems currentThread]. rewrite Ht. cbn [obind].
    assert (J (set_threads (<[currentThread k := with_status BLOCKED th]> (threads k)) k) [currentThread k]) as HJ1.
    { apply (J_upd k [] _ th); try done; [exact (fun s => J_uses _ _ HJ _ th s Ht) | exact (proj2 (J_regs _ _ HJ) _ th Ht)]. }
    apply (J_enqueue _ [] _ (with_status BLOCKED th) s x b) in HJ1; try done; [|apply lookup_insert_eq].
    eapply quiet_ex; last apply Sleep_loop_inv; [eapply quiet_upd; [exact Ht | done..| apply app_nil_ex] | ..]; cbn [level toBeDestroyed currentThread threads set_threads]; try done.
    + apply (M_same k); [done | | |done].
      * intros lk x'. cbn [sems set_threads put_sem set_sems]. destruct (decide (s = SLock lk)) as [->|Hne].
        { rewrite lookup_insert_eq. intros [= <-]. eauto. }
        { rewrite lookup_insert_ne by done. eauto. }
      * intros lk t. rewrite (acq_upd k _ (currentThread k) (with_status BLOCKED th)) by done.
        unfold acq. destruct (decide (t = currentThread k)) as [->|]; [rewrite Ht; naive_solver | naive_solver].
    + eexists. rewrite lookup_insert_eq. done.
  - cbn [obind]. unfold set_stack, upd_thread, get_thread. cbn [threads put_sem set_sems currentThread].
    rewrite Ht. cbn [obind SetLevel snd]. eexists. split; [done |].
    pose proof (J_P_done k [] _ th s x b HJ Ht Hstk Hb Hx) as HJ1.
    set (k1 := set_threads (<[currentThread k := with_stack b th]> (threads k))
                 (put_sem s (mkSemaphore (value x - 1) (queue x)) k)) in *.
    assert (M k1) as HM1.
    { apply (M_P_done k [] th s x b); done. }
    apply quiet_inv_post; [eapply quiet_upd; [exact Ht | try done..| apply app_nil_ex]; by destruct (after_P_body _ _ Hb) as [(q&->)|(l&q&->)] |].
    apply (at_work_inv _ (with_stack b th)).
    + split; [done |]. split; [by apply (M_ext k1) |]. split; [done |].
      split; [|split; [apply lookup_insert_eq | done]].
      apply (J_ext k1); try done. apply (J_regs _ _ HJ).
    + left. split; [by eapply after_P_body | done].
Qed.

Lemma Finish_inv k th :
  at_work k th [] -> top_sem (stack th) = None -> (forall lk, ~ acquiring lk (stack th)) ->
  exists k', Finish (currentThread k) k = Ok k' /\ post k k'.
Proof.
  intros Hw Htop Hna. unfold Finish, SetLevel. cbn [snd currentThread set_level].
  rewrite bool_decide_true by done. cbn [obind assert_].
  destruct (set_stack_at_work (set_level IntOff k) th [] [FDead]) as (k1 & -> & Hw1 & ->).
  - by apply at_work_level.
  - done.
  - intros lk. split; [done | by intros ?%Hna].
  - intros s [?|(lk & Hin & _)]; [done | set_solver].
  - cbn [obind]. unfold Sleep. rewrite bool_decide_true by done. cbn [obind assert_].
    unfold is_off. cbn [level set_threads set_level]. rewrite bool_decide_true by done. cbn [obind assert_].
    unfold setStatus, upd_thread, get_thread.
    destruct Hw1 as (Htbd & HM & Hm & HJ & Ht & Hst).
    match goal with |- context [set_threads ?T (set_level IntOff k)] => set (k2 := set_threads T (set_level IntOff k)) in * end.
    change (currentThread k) with (currentThread k2).
    assert (level k2 = IntOff) as Hl by done.
    assert (quiet k k2) as Hq by (eapply quiet_upd; [apply Hw | done..| apply app_nil_ex]).
    clearbody k2. rewrite Ht. cbn [obind]. apply (quiet_ex k k2); [done |].
    eapply quiet_ex; last apply Sleep_loop_inv; [eapply quiet_upd; [exact Ht | done..| apply app_nil_ex] | ..]; cbn [level toBeDestroyed currentThread threads set_threads]; try done.
    + by apply (M_upd k2 _ (currentThread k2) (with_stack [FDead] th) (with_status BLOCKED (with_stack [FDead] th)) Ht).
    + apply (J_upd k2 [] _ (with_stack [FDead] th)); try done.
      * exact (fun s => J_uses _ _ HJ _ _ s Ht).
      * exact (proj2 (J_regs _ _ HJ) _ _ Ht).
    + eexists. rewrite lookup_insert_eq. done.
Qed.

Lemma Yield_inv k th :
  at_work k th [] -> level k = IntOn -> body (stack th) ->
  exists k', Yield (currentThread k) k = Ok k' /\ post k k'.
Proof.
  intros Hw Hl Hb. unfold Yield, SetLevel. rewrite Hl. cbn [currentThread set_level].
  rewrite bool_decide_true by done. cbn [obind assert_].
  unfold FindNextToRun, is_off. cbn [level set_level]. rewrite bool_decide_true by done. cbn [obind assert_ readyList].
  pose proof Hw as (Htbd & HM & Hm & HJ & Ht & Hst).
  change (readyList (set_level IntOff k)) with (readyList k).
  destruct (readyList k) as [|n l] eqn:Er; cbn [obind ListSpec.RemoveFront].
  { eexists. split; [done |]. cbn [snd]. apply quiet_inv_post; [apply quiet_same; eauto using app_nil_ex |].
    apply (at_work_inv _ th); [by do 2 apply at_work_level | by left]. }
  unfold get_thread. change (threads (set_ready l (set_level IntOff k))) with (threads k). rewrite Ht. cbn [obind].
  set (k1 := set_ready l (set_level IntOff k)).
  assert (J k1 [currentThread k; n]) as HJ1.
  { apply (J_perm _ [n; currentThread k]); [constructor |].
    apply (J_ext (set_ready l k)); try done; [apply (J_regs _ _ HJ) | by apply J_from_ready]. }
  assert (at_work k1 th [n]) as Hw1 by (split_and!; [done | by apply (M_ext k) | done..]).
  assert (top_sem (stack th) = None) as Htop by (destruct Hb as [(p&->)|(lk&p&->)]; done).
  destruct (set_stack_at_work k1 th [n] (FYield IntOn :: stack th)) as (k2 & Hs2 & Hw2 & Ek2).
  - done.
  - done.
  - intros lk. by destruct Hb as [(p&->)|(lk'&p&->)].
  - intros s [?|(lk & Hin & ->)]; [done |]. apply (J_uses _ _ HJ _ th _ Ht). right. exists lk.
    split; [|done]. apply elem_of_cons in Hin as [?|?]; done.
  - rewrite Hs2. cbn [obind].
    destruct Hw2 as (Htbd2 & HM2 & Hm2 & HJ2 & Ht2 & Hst2).
    assert (currentThread k2 = currentThread k) as Hcur by (by rewrite Ek2). rewrite Hcur in *.
    rewrite (ReadyToRun_eq _ k2 _) with (2 := Ht2); [| by rewrite Ek2 | by apply (J_unique_place k2 _ _ HJ2); left].
    cbn [obind].
    assert (resumable (FYield IntOn :: stack th)) as Hres by (right; left; eauto).
    pose proof (J_to_ready k2 [n] (currentThread k) _ HJ2 Ht2 Hres) as HJ3.
    match goal with |- context [Run n false ?K] => set (k3 := K) in * end.
    assert (forall u x, user_state k u = Some x -> user_state k3 u = Some x) as Huser.
    { intros u x Hux. eapply (user_upd k2 k3); [exact Ht2 | done..|].
      eapply (user_upd k k2); [exact Ht | by rewrite Ek2 | done | done | | done | by rewrite Ek2 | exact Hux].
      by destruct Hb as [(q&->)|(l'&q&->)]. }
    destruct (Run_inv n false k3 (with_status READY (with_stack (FYield IntOn :: stack th) th)))
      as (k' & HR & Hi & [HU HL] & Hc & Hrl); try done.
    + unfold k3. by rewrite Ek2.
    + by apply (M_upd k2 _ (currentThread k) _ (with_status READY (with_stack (FYield IntOn :: stack th) th)) Ht2).
    + unfold k3. cbn [currentThread set_ready set_threads threads]. rewrite Hcur. apply lookup_insert_eq.
    + intros thn. unfold k3. cbn [threads set_ready set_threads]. destruct (decide (n = currentThread k)) as [->|Hne].
      * rewrite lookup_insert_eq. by intros [= <-].
      * rewrite lookup_insert_ne by done. rewrite Ek2. cbn [threads set_threads k1 set_ready set_level currentThread].
        rewrite lookup_insert_ne by done. intros Hthn.
        destruct (J_ready _ _ HJ n) as (th' & Hth' & _ & Hr); [rewrite Er; by left |]. congruence.
    + exists k'. split; [done |]. split; [done |]. split; [split; [eauto |] |].
      * intros lk g Hlk. apply HL. unfold k3. by rewrite Ek2.
      * right. exists [currentThread k]. rewrite Hc, Hrl, Er. unfold k3. by rewrite Ek2.
Qed.

Lemma quiet_woken (k : Kern) H s x : J k H -> sems k !! s = Some x -> quiet k (woken s x k).
Proof.
  intros HJ Hs. unfold woken. destruct (queue x) as [|u q] eqn:Eq.
  - apply quiet_same; try done. apply app_nil_ex.
  - destruct (J_queue _ _ HJ s x u Hs) as (_ & th & b & Hu & _); [rewrite Eq; by left |].
    eapply quiet_upd; [exact Hu | by apply alter_insert_Some | done..|]. by exists [u].
Qed.

(** A [V] on a free-standing semaphore, by the current thread. *)
Lemma V_at_work k th n :
  at_work k th [] -> is_Some (sems k !! SUser n) -> body (stack th) -> level k = IntOn ->
  exists k', V (SUser n) k = Ok k' /\ post k k'.
Proof.
  intros Hw [x Hx] Hb Hl. destruct Hw as (Htbd & HM & Hm & HJ & Ht & Hst).
  rewrite (V_eq k _ _ x HJ Hx). eexists. split; [done |].
  apply quiet_inv_post; [by apply (quiet_woken k [currentThread k]) |].
  apply (at_work_inv _ th).
  - split_and!; try by (unfold woken; destruct (queue x)).
    + by apply (M_woken_user k [currentThread k]).
    + replace (currentThread (woken (SUser n) x k)) with (currentThread k) by (unfold woken; by destruct (queue x)).
      by apply J_woken.
    + unfold woken. destruct (queue x) as [|u q] eqn:Eq; [done |]. cbn [threads put_sem set_sems set_ready set_threads currentThread].
      rewrite lookup_alter_ne; [done |]. intros ->.
      destruct (J_queue _ _ HJ _ x (currentThread k) Hx) as [Hn _]; [rewrite Eq; by left |]. apply Hn. by left.
  - left. split; [done |]. unfold woken. by destruct (queue x).
Qed.

(** [Release] by the holder. *)
Lemma Release_at_work k th lk h :
  at_work k th [] -> locks k !! lk = Some (Some h) -> body (stack th) -> level k = IntOn ->
  exists k', V (SLock lk) (set_locks (<[lk := None]> (locks k)) k) = Ok k' /\ post (set_locks (<[lk := None]> (locks k)) k) k'.
Proof.
  intros (Htbd & HM & Hm & HJ & Ht & Hst) Hlk Hb Hl.
  destruct (proj1 (J_locks _ _ HJ lk)) as [x Hx]; [eauto |].
  set (k1 := set_locks (<[lk := None]> (locks k)) k).
  assert (J k1 [currentThread k]) as HJ1.
  { destruct HJ as [A B C D F G I L N R]. split; try done.
    - intros l. cbn [locks set_locks sems k1]. rewrite <- L. destruct (decide (l = lk)) as [->|Hne].
      + rewrite lookup_insert_eq, Hlk. split; eauto.
      + by rewrite lookup_insert_ne.
    - intros s y Hy Hq. rewrite (waking_ext k) by done. by apply (N s y). }
  assert (sems k1 !! SLock lk = Some x) as Hx1 by done.
  rewrite (V_eq k1 _ _ x HJ1 Hx1). eexists. split; [done |].
  assert (M (woken (SLock lk) x k1)) as HM1.
  { intros l g x' Hl' Hx'. unfold lock_free, lock_held, lock_taken.
    assert (forall t, acq (woken (SLock lk) x k1) l t <-> acq k l t) as Hacq.
    { intros t. by rewrite (acq_woken k1 [currentThread k]). }
    assert (locks (woken (SLock lk) x k1) = <[lk := None]> (locks k)) as El by (unfold woken; by destruct (queue x)).
    rewrite El in Hl'. destruct (decide (l = lk)) as [->|Hne].
    - rewrite lookup_insert_eq in Hl'. injection Hl' as <-.
      assert (value x' = value x + 1) as ->.
      { unfold woken in Hx'. destruct (queue x); cbn [sems put_sem set_sems set_ready set_threads] in Hx';
          rewrite lookup_insert_eq in Hx'; by injection Hx' as <-. }
      destruct (HM lk _ x Hlk Hx) as [(_&?&_)|[(-> & _ & Hno)|(_&?&_)]]; [done | | done].
      left. split; [done |]. split; [done |]. intros t. rewrite Hacq. apply Hno.
    - rewrite lookup_insert_ne in Hl' by done.
      assert (sems k !! SLock l = Some x') as Hx2.
      { unfold woken in Hx'. by destruct (queue x); cbn [sems put_sem set_sems set_ready set_threads] in Hx';
          rewrite lookup_insert_ne in Hx' by congruence. }
      destruct (HM l g x' Hl' Hx2) as [(?&?&Hn)|[(?&?&Hn)|(?&?&t&Hta&Hu)]].
      + left. split_and!; [done | done |]. intros t. rewrite Hacq. apply Hn.
      + right. left. split_and!; [done | done |]. intros t. rewrite Hacq. apply Hn.
      + right. right. split_and!; [done | done |]. exists t. rewrite Hacq. split; [done |].
        intros u. rewrite Hacq. apply Hu. }
  apply quiet_inv_post; [by apply (quiet_woken k1 [currentThread k]) |].
  apply (at_work_inv _ th).
  - split_and!; try by (unfold woken; destruct (queue x)).
    + exact HM1.
    + replace (currentThread (woken (SLock lk) x k1)) with (currentThread k) by (unfold woken; by destruct (queue x)).
      by apply J_woken.
    + unfold woken. destruct (queue x) as [|u q] eqn:Eq; [done |]. cbn [threads put_sem set_sems set_ready set_threads currentThread set_locks k1].
      rewrite lookup_alter_ne; [done |]. intros ->.
      destruct (J_queue _ _ HJ _ x (currentThread k) Hx) as [Hn _]; [rewrite Eq; by left |]. apply Hn. by left.
  - left. split; [done |]. unfold woken. by destruct (queue x).
Qed.

(** *** The calls that create or delete *)

(** Other semaphores and locks, with the same waiting threads. *)
Lemma J_sems (k : Kern) H S L :
  J k H ->
  (forall s x, queue x <> [] -> S !! s = Some x -> sems k !! s = Some x) ->
  (forall s x, sems k !! s = Some x -> queue x <> [] -> S !! s = Some x) ->
  (forall t th s, threads k !! t = Some th -> uses (stack th) s -> is_Some (S !! s)) ->
  (forall lk, is_Some (L !! lk) <-> is_Some (S !! SLock lk)) ->
  J (set_locks L (set_sems S k)) H.
Proof.
  intros [A B C D F G I LL N R] HS HS' HU HL.
  assert (forall x (t : tid), t ∈ queue x -> queue x <> []) as Hne by (intros x t Ht Hq; rewrite Hq in Ht; set_solver).
  split; cbn [threads readyList sems locks machine set_locks set_sems]; try done.
  - intros s x t Hs Ht. apply (D s x t); [|done]. by eapply HS; [eapply Hne |].
  - intros s x Hs. destruct (decide (queue x = [])) as [->|Hq]; [constructor |]. apply (F s). by apply HS.
  - intros t th Ht. destruct (G t th Ht) as [?|[?|(s & x & Hs & Hx)]]; [by left | by right; left |].
    right. right. exists s, x. split; [|done]. by eapply HS'; [|eapply Hne].
  - intros s x Hs Hq. rewrite (waking_ext k) by done. apply (N s x); [by apply HS | done].
Qed.

Lemma at_work_sems k th H S L :
  at_work k th H -> M (set_locks L (set_sems S k)) -> J (set_locks L (set_sems S k)) (currentThread k :: H) ->
  at_work (set_locks L (set_sems S k)) th H.
Proof. intros (? & _ & ? & _ & ? & ?) ??. do 5 (split; [done |]). done. Qed.

Lemma at_work_new_sem k th H n v :
  at_work k th H -> sems k !! SUser n = None -> at_work (put_sem (SUser n) (mkSemaphore v []) k) th H.
Proof.
  intros Hw Hn. pose proof Hw as (_ & HM & _ & HJ & _).
  replace (put_sem _ _ k) with (set_locks (locks k) (set_sems (<[SUser n := mkSemaphore v []]> (sems k)) k)) by done.
  apply at_work_sems; [done | |].
  - apply (M_same k); try done. intros lk x'. cbn [sems set_locks set_sems]. rewrite lookup_insert_ne by done. eauto.
  - apply J_sems; [done | | | |].
    + intros s x Hq. destruct (decide (s = SUser n)) as [->|]; [|by rewrite lookup_insert_ne].
      rewrite lookup_insert_eq. intros [= <-]. done.
    + intros s x Hs Hq. rewrite lookup_insert_ne; [done |]. intros <-. congruence.
    + intros t thr s Ht Hu. destruct (decide (s = SUser n)) as [->|]; [rewrite lookup_insert_eq; eauto |].
      rewrite lookup_insert_ne by done. by apply (J_uses _ _ HJ t thr).
    + intros lk. rewrite lookup_insert_ne by done. apply (J_locks _ _ HJ).
Qed.

Lemma at_work_del_sem k th H n x :
  at_work k th H -> sems k !! SUser n = Some x -> queue x = [] ->
  (forall t thr, threads k !! t = Some thr -> top_sem (stack thr) <> Some (SUser n)) ->
  at_work (set_sems (delete (SUser n) (sems k)) k) th H.
Proof.
  intros Hw Hn Hq Hno. pose proof Hw as (_ & HM & _ & HJ & _).
  replace (set_sems (delete (SUser n) (sems k)) k)
    with (set_locks (locks k) (set_sems (delete (SUser n) (sems k)) k)) by done.
  apply at_work_sems; [done | |].
  - apply (M_same k); try done. intros lk x'. cbn [sems set_locks set_sems]. rewrite lookup_delete_ne by done. eauto.
  - apply J_sems; [done | | | |].
    + intros s y Hy Hs. apply lookup_delete_Some in Hs. tauto.
    + intros s y Hs Hy. rewrite lookup_delete_ne; [done |]. intros <-. congruence.
    + intros t thr s Ht Hu. rewrite lookup_delete_ne; [by apply (J_uses _ _ HJ t thr) |].
      intros <-. destruct Hu as [Hu|(lk & _ & ?)]; [|done]. by apply (Hno t thr Ht).
    + intros lk. rewrite lookup_delete_ne by done. apply (J_locks _ _ HJ).
Qed.

Lemma at_work_new_lock k th H lk :
  at_work k th H -> locks k !! lk = None ->
  at_work (set_locks (<[lk := None]> (locks k)) (put_sem (SLock lk) (mkSemaphore 1 []) k)) th H.
Proof.
  intros Hw Hlk. pose proof Hw as (_ & HM & _ & HJ & _).
  assert (sems k !! SLock lk = None) as Hs.
  { apply eq_None_not_Some. intros Hs%(J_locks _ _ HJ). destruct Hs. congruence. }
  apply at_work_sems; [done | |].
  - intros l h x. cbn [locks sems set_locks set_sems]. destruct (decide (l = lk)) as [->|Hne].
    + rewrite !lookup_insert_eq. intros [= <-] [= <-]. left. split; [done |]. split; [done |].
      intros t (thr & Ht & Ha). destruct (J_acquiring_top k _ t thr lk HJ Ht Ha). congruence.
    + rewrite !lookup_insert_ne by congruence. apply HM.
  - apply J_sems; [done | | | |].
    + intros s x Hq. destruct (decide (s = SLock lk)) as [->|]; [|by rewrite lookup_insert_ne].
      rewrite lookup_insert_eq. by intros [= <-].
    + intros s x Hx Hq. rewrite lookup_insert_ne; [done |]. intros <-. congruence.
    + intros t thr s Ht Hu. destruct (decide (s = SLock lk)) as [->|]; [rewrite lookup_insert_eq; eauto |].
      rewrite lookup_insert_ne by done. by apply (J_uses _ _ HJ t thr).
    + intros l. destruct (decide (l = lk)) as [->|Hne].
      * rewrite !lookup_insert_eq. split; eauto.
      * rewrite !lookup_insert_ne by congruence. apply (J_locks _ _ HJ).
Qed.

Lemma at_work_code k th H m e :
  at_work k th H -> regs_len (registers m) -> at_work (set_extra e (set_machine m k)) th H.
Proof.
  intros (Htbd & HM & Hm & HJ & Ht & Hst) Hr. split; [done |]. split; [by apply (M_ext k) |].
  split; [done |]. split; [|done]. by apply (J_ext k).
Qed.

Lemma at_work_extra k th H x : at_work k th H -> at_work (set_extra x k) th H.
Proof.
  intros Hw. pose proof Hw as (_ & _ & _ & HJ & _).
  exact (at_work_code k th H (machine k) x Hw (proj1 (J_regs _ _ HJ))).
Qed.

(** [new Thread] and [Fork]. *)
Lemma new_Thread_at_work k th nm t :
  at_work k th [] -> threads k !! t = None ->
  at_work (set_threads (<[t := new_Thread nm]> (threads k)) k) th [t].
Proof.
  intros (Htbd & HM & Hm & HJ & Ht & Hst) Hn.
  assert (forall s, ~ uses (@nil frame) s) as Hu by (intros s [?|(?&?&_)]; [done | set_solver]).
  split; [done |]. split; [|split; [done |]].
  - apply (M_same k); [done | eauto | | done]. intros lk u. rewrite (acq_upd k _ t (new_Thread nm)) by done.
    unfold acq. cbn [stack new_Thread acquiring]. destruct (decide (u = t)) as [->|]; [rewrite Hn; naive_solver | naive_solver].
  - split; [|split; [|done]]; cbn [currentThread set_threads threads].
    + apply (J_perm _ [t; currentThread k]); [constructor |].
      apply (J_new_thread k [currentThread k] t (new_Thread nm)); done.
    + rewrite lookup_insert_ne; [done |]. intros ->. congruence.
Qed.

Lemma Fork_at_work k th t u func :
  at_work k th [t] -> threads k !! t = Some u -> stack u = [] -> space u = None ->
  body (stack th) -> level k = IntOn ->
  exists k', Fork t func k = Ok k' /\ post k k'.
Proof.
  intros (Htbd & HM & Hm & HJ & Ht & Hst) Hu Hsu Hsp Hb Hl.
  assert (t <> currentThread k) as Hne.
  { intros ->. pose proof (J_nodup _ _ HJ) as Hnd. simpl in Hnd. apply NoDup_cons in Hnd as [Hx _]. apply Hx. by left. }
  assert (J k [t; currentThread k]) as HJ0 by (apply (J_perm _ [currentThread k; t]); [constructor | done]).
  unfold Fork, upd_thread, get_thread. rewrite Hu. cbn [obind].
  set (u' := with_stack [FRoot func] u).
  assert (J (set_threads (<[t := u']> (threads k)) k) [t; currentThread k]) as HJ1.
  { apply (J_upd k _ t u); try done; [by rewrite Hsu | | exact (proj2 (J_regs _ _ HJ) t u Hu)].
    intros s [?|(lk & Hin & _)]; [done | by apply list_elem_of_singleton in Hin]. }
  unfold SetLevel. cbn [level set_threads].
  rewrite (ReadyToRun_eq t _ u'); [| done | apply lookup_insert_eq | by apply (J_unique_place _ _ t HJ1); left].
  cbn [obind]. eexists. split; [done |]. apply quiet_inv_post.
  { eapply quiet_upd; [exact Hu | cbn [threads SetLevel set_level set_ready set_threads snd]; by rewrite insert_insert_eq | done..| |].
    - done.
    - eauto. }
  pose proof (J_to_ready _ [currentThread k] t u' HJ1 (lookup_insert_eq _ _ _) ltac:(left; eauto)) as HJ2.
  apply (at_work_inv _ th); [|left; split; [done | exact Hl]].
  split; [done |]. split; [|split; [done |]]; [| split; [|split; [|done]]].
  - apply (M_upd k _ t u (with_status READY u')); try done.
    + cbn [threads SetLevel set_level set_ready set_threads snd]. by rewrite insert_insert_eq.
    + intros lk. by rewrite Hsu.
  - apply (J_ext _ _ _) with (6 := HJ2); try done. apply (J_regs _ _ HJ).
  - cbn [threads SetLevel set_level set_ready set_threads snd currentThread]. by rewrite !lookup_insert_ne.
Qed.

(** [Acquire] after its [P]. *)
Lemma Acquired_at_work k th lk p :
  at_work k th [] -> stack th = [FAcquired lk; FProg p] -> level k = IntOn ->
  exists k', set_stack [FProg p] (set_locks (<[lk := Some (currentThread k)]> (locks k)) k) = Ok k' /\ post k k'.
Proof.
  intros (Htbd & HM & Hm & HJ & Ht & Hst) Hstk Hl. set (cur := currentThread k) in *.
  destruct (J_acquiring_top k _ _ th lk HJ Ht) as [x Hx]; [by rewrite Hstk |].
  destruct (proj2 (J_locks _ _ HJ lk)) as [h Hlk]; [eauto |].
  assert (acq k lk cur) as Hacq by (exists th; by rewrite Hstk).
  destruct (HM lk h x Hlk Hx) as [(_&_&Hn)|[(_&_&Hn)|(Hv&->&t&Hta&Hu)]]; [by apply Hn in Hacq | by apply Hn in Hacq |].
  unfold set_stack, upd_thread, get_thread. cbn [currentThread threads set_locks]. fold cur. rewrite Ht. cbn [obind].
  eexists. split; [done |]. apply quiet_inv_post.
  { eapply quiet_upd; [exact Ht | done.. | | apply app_nil_ex]. intros l g Hl'. cbn [locks set_threads set_locks].
    rewrite lookup_insert_ne; [done |]. intros <-. congruence. }
  apply (at_work_inv _ (with_stack [FProg p] th)); [|left; split; [left; eauto | done]].
  set (k' := set_threads _ _).
  assert (forall l u, acq k' l u <-> u <> cur /\ acq k l u) as Hacq'.
  { intros l u. rewrite (acq_upd k k' cur (with_stack [FProg p] th)) by done. cbn [stack with_stack acquiring]. naive_solver. }
  split; [done |]. split; [|split; [done |]]; [| split; [|split; [apply lookup_insert_eq | done]]].
  - intros l g y Hl' Hy. unfold lock_free, lock_held, lock_taken. cbn [k' locks set_threads set_locks sems] in Hl', Hy.
    destruct (decide (l = lk)) as [->|Hne].
    + rewrite lookup_insert_eq in Hl'. injection Hl' as <-. assert (y = x) as -> by congruence.
      right. left. split; [done |]. split; [eauto |]. intros u. rewrite Hacq'. intros [Hne Hua].
      apply Hne. by rewrite (Hu u Hua), (Hu cur Hacq).
    + rewrite lookup_insert_ne in Hl' by done.
      assert (forall u, acq k' l u <-> acq k l u) as Hsame.
      { intros u. rewrite Hacq'. split; [tauto |]. intros Ha. split; [|done]. intros ->.
        destruct Ha as (th' & Ht' & Ha). assert (th' = th) as -> by congruence. rewrite Hstk in Ha. by simpl in Ha. }
      destruct (HM l g y Hl' Hy) as [(?&?&Hn)|[(?&?&Hn)|(?&?&v&Hva&Hvu)]].
      * left. split_and!; [done | done |]. intros u. rewrite Hsame. apply Hn.
      * right. left. split_and!; [done | done |]. intros u. rewrite Hsame. apply Hn.
      * right. right. split_and!; [done | done |]. exists v. rewrite Hsame. split; [done |].
        intros u. rewrite Hsame. apply Hvu.
  - assert (J (set_threads (<[cur := with_stack [FProg p] th]> (threads k)) k) [cur]) as HJ1.
    { apply (J_upd k [] cur th); try done; [by rewrite Hstk | | exact (proj2 (J_regs _ _ HJ) cur th Ht)].
      intros s [?|(l & Hin & ->)]; [done | by apply list_elem_of_singleton in Hin]. }
    apply (J_sems _ _ (sems k) (<[lk := Some cur]> (locks k))) in HJ1; [exact HJ1 | done | done | apply (J_uses _ _ HJ1) |].
    intros l. rewrite <- (J_locks _ _ HJ). destruct (decide (l = lk)) as [->|].
    + rewrite lookup_insert_eq, Hlk. split; eauto.
    + by rewrite lookup_insert_ne.
Qed.


Lemma fresh_user_id (k : Kern) : sems k !! SUser (fresh (user_ids (sems k))) = None.
Proof.
  apply eq_None_not_Some. intros [x Hx].
  apply (is_fresh (user_ids (sems k))). unfold user_ids at 2. apply elem_of_list_to_set, list_elem_of_omap.
  eexists (_, x). split; [by apply elem_of_map_to_list | done].
Qed.


(** *** Interrupts *)

Lemma woken_frame s x (k : Kern) :
  level (woken s x k) = level k /\ toBeDestroyed (woken s x k) = toBeDestroyed k /\ mode (woken s x k) = mode k /\
  currentThread (woken s x k) = currentThread k /\ machine (woken s x k) = machine k.
Proof. unfold woken. by destruct (queue x). Qed.

(** A [V] changes no thread in hand, and of the others only the status. *)
Lemma woken_thread s x (k : Kern) H t : J k H -> sems k !! s = Some x -> t ∈ H ->
  threads (woken s x k) !! t = threads k !! t.
Proof.
  intros HJ Hs Ht. unfold woken. destruct (queue x) as [|u q] eqn:Eq; [done |].
  cbn [threads put_sem set_sems set_ready set_threads]. rewrite lookup_alter_ne; [done |]. intros ->.
  destruct (J_queue _ _ HJ _ x t Hs) as [Hn _]; [rewrite Eq; by left | done].
Qed.

Lemma woken_is_Some s x (k : Kern) t : is_Some (threads k !! t) -> is_Some (threads (woken s x k) !! t).
Proof.
  intros Ht. unfold woken. destruct (queue x) as [|u q] eqn:Eq; [done |].
  cbn [threads put_sem set_sems set_ready set_threads]. by apply lookup_alter_is_Some.
Qed.

Lemma J_level (k : Kern) H l : J k H -> J (set_level l k) H.
Proof. intros HJ. apply (J_ext k); try done. apply (J_regs _ _ HJ). Qed.

Lemma M_level (k : Kern) l : M k -> M (set_level l k).
Proof. by apply M_ext. Qed.

Lemma Interrupt_V_inv k n :
  inv k -> (level k = IntOn \/ exists f, mode k = Idling f) -> is_Some (sems k !! SUser n) ->
  exists k', Interrupt_V (SUser n) k = Ok k' /\ post k k'.
Proof.
  intros (Htbd & HM & Hmode) Hen [x Hx]. unfold Interrupt_V.
  set (k0 := set_level IntOff k).
  assert (forall H, J k H -> V (SUser n) k0 = Ok (woken (SUser n) x k0) /\ M (woken (SUser n) x k0) /\
            J (woken (SUser n) x k0) H /\ forall t, t ∈ H -> threads (woken (SUser n) x k0) !! t = threads k !! t) as Hw.
  { intros H HJ. assert (J k0 H) as HJ0 by by apply J_level.
    split; [by apply (V_eq k0 H) |]. split; [by apply (M_woken_user k0 H), M_level |].
    split; [by apply J_woken |]. intros t. by apply (woken_thread _ _ k0 H). }
  destruct (woken_frame (SUser n) x k0) as (Fl & Ft & Fm & Fc & _).
  set (w := woken (SUser n) x k0) in *.
  assert (forall H, J k H -> (forall t, t ∈ H -> threads w !! t = threads k !! t) -> M w -> J w H ->
            inv (set_level (level k) w)) as Hinv.
  { intros H HJ HT HMw HJw. split; [by cbn; rewrite Ft |]. split; [by apply M_level |].
    cbn [mode set_level currentThread level threads]. rewrite Fm, Fc.
    change (mode k0) with (mode k). change (currentThread k0) with (currentThread k).
    destruct (mode k) as [|fin] eqn:Em.
    - destruct Hmode as (HJ1 & th & Ht & Hst & Hs). destruct (Hw _ HJ1) as (_ & _ & HJw1 & HT1).
      split; [by apply J_level |]. exists th. rewrite HT1 by (by left). done.
    - destruct Hmode as (Hl & Hsome & Hfin). split; [done |].
      split; [by apply (woken_is_Some (SUser n) x k0) |]. destruct fin.
      + destruct Hfin as (HJ1 & th & Ht & Hst & Hs). destruct (Hw _ HJ1) as (_ & _ & HJw1 & HT1).
        split; [by apply J_level |]. exists th. rewrite HT1 by (by left). done.
      + destruct (Hw _ Hfin) as (_ & _ & HJw1 & _). by apply J_level. }
  assert (exists H, J k H) as [H HJ].
  { destruct (mode k) as [|[]]; [exists [currentThread k] | exists [currentThread k] | exists []]; tauto. }
  destruct (Hw H HJ) as (-> & HMw & HJw & HTw). cbn [obind]. eexists. split; [done |].
  apply quiet_inv_post; [|by apply (Hinv H)].
  destruct (quiet_woken k0 H (SUser n) x) as [A B C D]; [by apply J_level | done |]. by split.
Qed.

(** *** One step *)

(** What the code must respect when it makes a call: semaphores and locks
    exist, and are deleted when nobody is in their [P] or holds them. *)
Definition call_safe (k : Kern) (c : @call E) : Prop :=
  match c with
  | CP s _ | CV s _ => is_Some (sems k !! SUser s)
  | CDelSem s _ =>
      exists x, sems k !! SUser s = Some x /\ queue x = [] /\
        forall t th, threads k !! t = Some th -> top_sem (stack th) <> Some (SUser s)
  | CDelLock lk _ =>
      locks k !! lk = Some None /\ forall t th, threads k !! t = Some th -> ~ uses (stack th) (SLock lk)
  | CAcquire lk _ => is_Some (locks k !! lk)
  | _ => True
  end.

(** And for the ASSERTs of [Lock]: that the caller holds it. *)
Definition call_ok (k : Kern) (c : @call E) : Prop :=
  call_safe k c /\
  match c with CRelease lk _ | CHeld lk _ => locks k !! lk = Some (Some (currentThread k)) | _ => True end.

(** The call that the current thread's code makes now. *)
Definition code_keeps (Q : @call E -> Prop) (k : Kern) : Prop :=
  forall th f st m e c, threads k !! currentThread k = Some th -> stack th = FProg (Code f) :: st ->
    f (currentThread k) (name th) (machine k) (extra k) = Ok (m, e, c) ->
    regs_len (registers m) /\ Q c.
Definition code_safe (k : Kern) : Prop := code_keeps (call_safe k) k.
Definition code_ok (k : Kern) : Prop := code_keeps (call_ok k) k.

(** The code of the current thread itself stops the machine. *)
Definition code_stops (k : Kern) (x : trap) : Prop :=
  exists th f, threads k !! currentThread k = Some th /\ stack th = [FProg (Code f)] /\
    (f (currentThread k) (name th) (machine k) (extra k) = Trap x \/
     x = Halted /\ exists m e, f (currentThread k) (name th) (machine k) (extra k) = Ok (m, e, CHalt)).

(** The effect of a call on the thread's address space and on the locks. *)
Definition call_effect (c : @call E) (k : Kern) : Kern :=
  match c with
  | CRelease lk _ => set_locks (<[lk := None]> (locks k)) k
  | CSetSpace s _ => set_threads (alter (with_space (Some s)) (currentThread k) (threads k)) k
  | _ => k
  end.

Lemma continue_at_work k th p q :
  at_work k th [] -> stack th = [FProg p] -> level k = IntOn ->
  exists k', set_stack [FProg q] k = Ok k' /\ at_work k' (with_stack [FProg q] th) [] /\
    k' = set_threads (<[currentThread k := with_stack [FProg q] th]> (threads k)) k /\ quiet k k' /\ inv k'.
Proof.
  intros Hw Hstk Hl.
  destruct (set_stack_at_work k th [] [FProg q]) as (k' & E1 & Hw' & E2);
    [done | by rewrite Hstk | by rewrite Hstk | |].
  - intros s [?|(l & Hin & ->)]; [done | by apply list_elem_of_singleton in Hin].
  - exists k'. split; [done |]. split; [done |]. split; [done |].
    split.
    { eapply quiet_upd; [apply Hw | by rewrite E2 | done.. | by rewrite E2 | by rewrite E2 | by rewrite E2 |].
      rewrite E2. apply app_nil_ex. }
    apply (at_work_inv _ _ Hw'). left. split; [left; eauto | by rewrite E2].
Qed.

Lemma CSetSpace_at_work k th s p :
  at_work k th [] -> stack th = [FProg p] ->
  exists k', upd_thread (currentThread k) (with_space (Some s)) k = Ok k' /\
    k' = call_effect (CSetSpace s p) k /\ at_work k' (with_space (Some s) th) [] /\ level k' = level k /\ currentThread k' = currentThread k.
Proof.
  intros (Htbd & HM & Hm & HJ & Ht & Hst) Hstk. unfold upd_thread, get_thread. rewrite Ht. cbn [obind].
  eexists. split; [done |].
  split; [cbn [call_effect]; by rewrite (alter_insert_Some _ _ _ th) |].
  split; [|done]. split; [done |].
  split; [by apply (M_upd k _ (currentThread k) th (with_space (Some s) th)) |].
  split; [done |]. split; [|split; [apply lookup_insert_eq | done]].
  apply (J_upd k [] _ th); try done.
  - exact (fun s => J_uses _ _ HJ _ th s Ht).
  - exact (proj2 (J_regs _ _ HJ) _ th Ht).
Qed.

Lemma quiet_sems (k k' : Kern) S : quiet (set_sems S k) k' -> quiet k k'.
Proof. intros [A B C D]. by split. Qed.

Lemma quiet_extra (k : Kern) x : quiet k (set_extra x k).
Proof. apply quiet_same; try done. apply app_nil_ex. Qed.

Lemma quiet_new_thread (k : Kern) t nm :
  threads k !! t = None -> quiet k (set_threads (<[t := new_Thread nm]> (threads k)) k).
Proof.
  intros Hn. split; [done | | done | apply app_nil_ex]. intros u x. unfold user_state. cbn [threads set_threads].
  destruct (decide (u = t)) as [->|]; [by rewrite Hn | by rewrite lookup_insert_ne].
Qed.

Context {PR : Procs E}.

Lemma at_work_del_lock k th lk x :
  at_work k th [] -> locks k !! lk = Some None -> sems k !! SLock lk = Some x ->
  (forall t thr, threads k !! t = Some thr -> ~ uses (stack thr) (SLock lk)) ->
  at_work (set_locks (delete lk (locks k)) (set_sems (delete (SLock lk) (sems k)) k)) th [].
Proof.
  intros Hw Hlk Hx Hno. pose proof Hw as (_ & HM & _ & HJ & _).
  assert (queue x = []) as Hq.
  { destruct (queue x) as [|t q] eqn:Eq; [done |]. exfalso.
    destruct (J_queue _ _ HJ _ x t Hx ltac:(rewrite Eq; left)) as (_ & thr & b & Ht & _ & _ & Hs).
    apply (Hno t thr Ht). left. by rewrite Hs. }
  apply at_work_sems; [done | |].
  - intros l h y. cbn [locks sems set_locks set_sems]. intros [Hne Hl]%lookup_delete_Some.
    rewrite lookup_delete_ne by congruence. by apply HM.
  - apply J_sems; [done | | | |].
    + intros s y Hy Hs. apply lookup_delete_Some in Hs. tauto.
    + intros s y Hs Hy. rewrite lookup_delete_ne; [done |]. intros <-. congruence.
    + intros t thr s Ht Hu. rewrite lookup_delete_ne; [by apply (J_uses _ _ HJ t thr) |].
      intros <-. by apply (Hno t thr Ht).
    + intros l. destruct (decide (l = lk)) as [->|Hne].
      * rewrite !lookup_delete_eq. split; intros []; done.
      * rewrite !lookup_delete_ne by congruence. apply (J_locks _ _ HJ).
Qed.

Lemma do_call_inv k th p c :
  at_work k th [] -> stack th = [FProg p] -> level k = IntOn -> call_ok k c ->
  (exists k', do_call c [] k = Ok k' /\ post (call_effect c k) k') \/ c = CHalt.
Proof.
  intros Hw Hstk Hl [Hok Hheld].
  assert (top_sem (stack th) = None) as Htop by by rewrite Hstk.
  assert (forall lk, ~ acquiring lk (stack th)) as Hna by (intros lk; rewrite Hstk; by intros []).
  pose proof Hw as (_ & _ & _ & HJ & Ht & _).
  destruct c as [q|lb|s q|s q|q|nm func created kont| | |v created kont|s q|kont|lk q|lk q|lk q|lk q|sp q]; cbn [do_call]; [..|by right | | | | | | | |].
  all: try left.
  - destruct (continue_at_work k th p q) as (k' & -> & _ & _ & Hq & Hi); eauto using quiet_inv_post.
  - destruct (continue_at_work k th p (procs lb)) as (k' & -> & _ & _ & Hq & Hi); eauto using quiet_inv_post.
  - apply (P_start_inv (SUser s) _ k th); eauto. exists q. done.
  - destruct (continue_at_work k th p q) as (k' & -> & Hw' & -> & Hq & _); [done..|]. cbn [obind].
    apply (quiet_ex _ _ _ Hq). apply (V_at_work _ _ s Hw'); [done | left; eauto | done].
  - destruct (continue_at_work k th p q) as (k' & -> & Hw' & -> & Hq & _); [done..|]. cbn [obind].
    apply (quiet_ex _ _ _ Hq). apply (Yield_inv _ _ Hw'); [done | left; eauto].
  - set (t := fresh (dom (threads k))).
    assert (threads k !! t = None) as Hf by apply not_elem_of_dom, is_fresh.
    pose proof (at_work_extra _ _ _ (created t (extra k)) (new_Thread_at_work k th nm t Hw Hf)) as Hw1.
    destruct (set_stack_at_work _ th [t] [FProg (kont t)] Hw1) as (k' & -> & Hw' & ->);
      [done | by rewrite Hstk | |].
    { intros s [?|(l & Hin & ->)]; [done | by apply list_elem_of_singleton in Hin]. }
    cbn [obind]. eapply quiet_ex;
      [|apply (Fork_at_work _ _ t (new_Thread nm) func Hw'); [| done | done | left; eauto | done]].
    + apply (quiet_trans _ (set_threads (<[t := new_Thread nm]> (threads k)) k)); [by apply quiet_new_thread |].
      apply (quiet_trans _ _ _ (quiet_extra _ (created t (extra k)))).
      eapply quiet_upd; [apply Hw1 | done..|]. apply app_nil_ex.
    + cbn [threads set_threads currentThread]. rewrite lookup_insert_ne; [apply lookup_insert_eq |].
      intros E1. change (currentThread k = t) in E1. congruence.
  - by apply (Finish_inv k th).
  - set (s := fresh (user_ids (sems k))).
    destruct (continue_at_work _ th p (kont s) (at_work_extra _ _ _ (created s (extra k)) (at_work_new_sem k th [] s v Hw (fresh_user_id k))))
      as (k' & -> & _ & _ & Hq & Hi); [done..|]. eexists. split; [done |]. apply quiet_inv_post; [|done].
    eapply quiet_sems. exact (quiet_trans _ _ _ (quiet_extra _ _) Hq).
  - destruct Hok as (x & Hx & Hq & Hno). unfold get_sem. rewrite Hx. cbn [obind].
    destruct (continue_at_work _ th p q (at_work_del_sem k th [] s x Hw Hx Hq Hno))
      as (k' & -> & _ & _ & Hqu & Hi); eauto using quiet_inv_post, quiet_sems.
  - set (lk := fresh (dom (locks k))).
    assert (locks k !! lk = None) as Hf by apply not_elem_of_dom, is_fresh.
    destruct (continue_at_work _ th p (kont lk) (at_work_new_lock k th [] lk Hw Hf)) as (k' & -> & _ & _ & Hq & Hi);
      [done..|]. eexists. split; [done |]. apply quiet_inv_post; [|done].
    refine (quiet_trans _ _ _ _ Hq). apply quiet_same; try done; [|apply app_nil_ex].
    intros l h Hl'. cbn [call_effect] in Hl'. cbn [locks set_locks]. rewrite lookup_insert_ne; [done |]. intros <-. congruence.
  - apply (P_start_inv (SLock lk) _ k th); eauto; [exists q; done | by apply (J_locks _ _ HJ)].
  - rewrite Hheld, bool_decide_true by done. cbn [obind assert_ call_effect].
    destruct (continue_at_work k th p q) as (k' & E1 & Hw' & E2 & _); [done..|].
    destruct (Release_at_work k' _ lk (currentThread k) Hw') as (k'' & E3 & Hi); [by rewrite E2 | left; eauto | by rewrite E2 |].
    exists k''. split.
    + rewrite <- E3, E2. unfold set_stack, upd_thread, get_thread.
      cbn [threads set_locks currentThread locks set_threads]. rewrite Ht. done.
    + refine (quiet_post _ _ _ _ Hi). rewrite E2.
      eapply quiet_upd; [exact Ht | done..|]. apply app_nil_ex.
  - rewrite Hheld, bool_decide_true by done. cbn [obind assert_].
    destruct (continue_at_work k th p q) as (k' & -> & _ & _ & Hq & Hi); eauto using quiet_inv_post.
  - destruct Hok as [Hlk Hno]. rewrite Hlk. destruct (proj1 (J_locks _ _ HJ lk)) as [x Hx]; [eauto |].
    unfold get_sem. rewrite Hx. cbn [obind].
    destruct (continue_at_work _ th p q (at_work_del_lock k th lk x Hw Hlk Hx Hno)) as (k' & -> & _ & _ & Hq & Hi); [done..|].
    eexists. split; [done |]. apply quiet_inv_post; [|done]. refine (quiet_trans _ _ _ _ Hq).
    apply quiet_same; try done; [|apply app_nil_ex].
    intros l h Hl'. cbn [call_effect] in Hl'. cbn [locks set_locks]. rewrite lookup_delete_ne; [done |]. intros <-. congruence.
  - destruct (CSetSpace_at_work k th sp p Hw Hstk) as (k1 & -> & E1 & Hw1 & Hl1 & _). cbn [obind].
    destruct (continue_at_work k1 _ p q Hw1) as (k' & -> & _ & _ & Hq & Hi); [done | congruence |].
    exists k'. split; [done |]. apply quiet_inv_post; [|done]. change (quiet (call_effect (CSetSpace sp p) k) k'). by rewrite <- E1.
Qed.

(** *** What a switch does to the ready list *)

Lemma assert_then_Ok {A} b (r : outcome A) a : (assert! b; r) = Ok a -> b = true /\ r = Ok a.
Proof. by destruct b. Qed.

Definition same_queue (k k' : Kern) : Prop :=
  currentThread k' = currentThread k /\ readyList k' = readyList k /\ mode k' = mode k.

Lemma upd_thread_queue t f (k k' : Kern) : upd_thread t f k = Ok k' -> same_queue k k'.
Proof. unfold upd_thread. by intros (th & _ & [= <-])%obind_Ok. Qed.

Lemma CheckToBeDestroyed_queue (k k' : Kern) : CheckToBeDestroyed k = Ok k' -> same_queue k k'.
Proof.
  unfold CheckToBeDestroyed, delete_Thread. destruct (toBeDestroyed k) as [t|]; [|by intros [= <-]].
  intros (k1 & Hk1 & [= <-])%obind_Ok. apply obind_Ok in Hk1 as (th & _ & Hk1).
  by apply assert_then_Ok in Hk1 as (_ & [= <-]).
Qed.

Lemma Run_after_queue t (k k' : Kern) : Run_after t k = Ok k' -> same_queue k k'.
Proof.
  unfold Run_after. intros (_ & Hk)%assert_then_Ok. apply obind_Ok in Hk as (k1 & Hk1%CheckToBeDestroyed_queue & Hk).
  apply obind_Ok in Hk as (th & _ & Hk). destruct (space th); [|by simplify_eq].
  apply obind_Ok in Hk as (k2 & Hk2 & [= <-]). unfold RestoreUserState in Hk2.
  apply obind_Ok in Hk2 as (? & _ & Hk2). by apply obind_Ok in Hk2 as (? & _ & [= <-]).
Qed.

Lemma resume_queue (k k' : Kern) : resume k = Ok k' -> same_queue k k'.
Proof.
  unfold resume, same_queue. intros (th & _ & Hk)%obind_Ok. destruct (stack th) as [|[] st]; try done.
  - apply obind_Ok in Hk as (k1 & Hk1 & (A1 & B1 & C1)%upd_thread_queue). unfold Begin in Hk1.
    apply assert_then_Ok in Hk1 as (_ & Hk1). apply obind_Ok in Hk1 as (k2 & (A2 & B2 & C2)%CheckToBeDestroyed_queue & [= <-]).
    cbn in *. by rewrite A1, B1, C1.
  - apply obind_Ok in Hk as (k1 & (A1 & B1 & C1)%Run_after_queue & Hk).
    apply obind_Ok in Hk as (k2 & (A2 & B2 & C2)%upd_thread_queue & [= <-]). cbn. split_and!; congruence.
  - by apply Run_after_queue in Hk.
Qed.

Lemma Run_queue n f (k k' : Kern) :
  Run n f k = Ok k' -> currentThread k' = n /\ readyList k' = readyList k /\ mode k' = mode k.
Proof.
  unfold Run. intros (k1 & Hk1 & (A & B & C)%resume_queue)%obind_Ok. rewrite A, B, C. clear A B C.
  unfold Run_before in Hk1. apply assert_then_Ok in Hk1 as (_ & Hk1).
  apply obind_Ok in Hk1 as (k2 & Hk2 & Hk1). apply obind_Ok in Hk1 as (th & _ & Hk1).
  apply obind_Ok in Hk1 as (k3 & Hk3 & (A & B & C)%upd_thread_queue). rewrite A, B, C. cbn.
  assert (readyList k3 = readyList k2 /\ mode k3 = mode k2) as [-> ->].
  { destruct (space th); [|by simplify_eq]. unfold SaveUserState in Hk3.
    apply obind_Ok in Hk3 as (? & _ & Hk3). by apply obind_Ok in Hk3 as (? & _ & [= <-]). }
  destruct f; [apply assert_then_Ok in Hk2 as (_ & [= <-]) | injection Hk2 as <-]; done.
Qed.

(** The thread at the front of the ready list is dispatched. *)
Definition dispatches (k k' : Kern) : Prop :=
  currentThread k' :: readyList k' = readyList k /\ mode k' = Executing.

Lemma Sleep_loop_queue f (k k' : Kern) :
  Sleep_loop f k = Ok k' -> readyList k <> [] -> dispatches k k'.
Proof.
  unfold Sleep_loop. intros (x & Hx & Hk)%obind_Ok Hne. unfold FindNextToRun in Hx.
  apply assert_then_Ok in Hx as (_ & Hx). destruct (readyList k) as [|n l] eqn:Er; [done |].
  cbn in Hx. injection Hx as <-. apply Run_queue in Hk as (A & B & C). split; [|done]. by rewrite A, B, Er.
Qed.

Lemma Yield_queue t (k k' : Kern) n l :
  Yield t k = Ok k' -> mode k = Executing -> readyList k = n :: l ->
  currentThread k' = n /\ readyList k' = l ++ [t] /\ mode k' = Executing.
Proof.
  unfold Yield, SetLevel. intros (_ & Hk)%assert_then_Ok Hm Er. unfold FindNextToRun in Hk.
  apply obind_Ok in Hk as (x & Hx & Hk). apply assert_then_Ok in Hx as (_ & Hx).
  change (readyList (set_level IntOff k)) with (readyList k) in Hx. rewrite Er in Hx.
  cbn in Hx. injection Hx as <-. apply obind_Ok in Hk as (th & _ & Hk).
  apply obind_Ok in Hk as (k1 & (A1 & B1 & C1)%upd_thread_queue & Hk).
  apply obind_Ok in Hk as (k2 & Hk2 & (A3 & B3 & C3)%Run_queue). unfold ReadyToRun in Hk2.
  apply assert_then_Ok in Hk2 as (_ & Hk2). apply obind_Ok in Hk2 as (k3 & (A2 & B2 & C2)%upd_thread_queue & Hk2).
  apply obind_Ok in Hk2 as (l' & Hl' & [= <-]). unfold ListSpec.Append in Hl'.
  destruct (decide _) in Hl'; [done |]. injection Hl' as <-. cbn in *. split; [done |]. split; [|congruence].
  rewrite B3, B2, B1. done.
Qed.

(** *** The step function *)

(** What the code of the current thread itself does in a step. *)
Definition effect (e : @event E) (k : Kern) : Kern :=
  match e, threads k !! currentThread k with
  | EvRun, Some th =>
      match stack th with
      | FProg (Code f) :: _ =>
          match f (currentThread k) (name th) (machine k) (extra k) with
          | Ok (m, x, c) => call_effect c (set_extra x (set_machine m k))
          | Trap _ => k
          end
      | _ => k
      end
  | EvIrq _ device, _ => match device (extra k) with Ok x => set_extra x k | Trap _ => k end
  | _, _ => k
  end.

Lemma inv_set_extra k x : inv k -> inv (set_extra x k).
Proof.
  intros (Htbd & HM & Hk). split; [done |]. split; [by apply (M_ext k) |].
  assert (forall H, J k H -> J (set_extra x k) H) as HJ
    by (intros H HJ; apply (J_ext k); try done; apply (J_regs _ _ HJ)).
  cbn [mode set_extra]. destruct (mode k) as [|[]].
  - destruct Hk as [? Hk]. split; [by apply HJ | exact Hk].
  - destruct Hk as (? & ? & ? & Hk). split; [done |]. split; [done |]. split; [by apply HJ | exact Hk].
  - destruct Hk as (? & ? & ?). split; [done |]. split; [done |]. by apply HJ.
Qed.

Lemma inv_at_work k : inv k -> mode k = Executing ->
  exists th, at_work k th [] /\
    ((body (stack th) /\ level k = IntOn) \/
     (exists s b, stack th = FP s IntOn :: b /\ after_P s b /\ level k = IntOff)).
Proof. intros (Htbd & HM & Hk) Hm. rewrite Hm in Hk. destruct Hk as (HJ & th & Ht & Hst & Hs). exists th. split; [|done]. do 5 (split; [done |]). done. Qed.

Lemma exec_top_spec k :
  inv k -> mode k = Executing -> code_ok k ->
  (exists k', exec_top k = Ok k' /\ post (effect EvRun k) k') \/
  (exists x, exec_top k = Trap x /\ code_stops k x).
Proof.
  intros Hi Hm Hok. destruct (inv_at_work k Hi Hm) as (th & Hw & Hs).
  pose proof Hw as (_ & _ & _ & HJ & Ht & _).
  unfold exec_top, effect, get_thread. rewrite Ht. cbn [obind].
  destruct Hs as [[[(p & Hstk)|(lk & p & Hstk)] Hl]|(s & b & Hstk & Hb & Hl)]; rewrite Hstk.
  - destruct p as [|f].
    + left. apply (Finish_inv k th Hw); [by rewrite Hstk | intros lk; rewrite Hstk; by intros []].
    + destruct (f (currentThread k) (name th) (machine k) (extra k)) as [[[m x] c]|x] eqn:Ef; cbn [obind].
      2:{ right. exists x. split; [done |]. exists th, f. eauto. }
      destruct (Hok th f [] m x c Ht Hstk Ef) as [Hr Hc].
      destruct (do_call_inv (set_extra x (set_machine m k)) th (Code f) c) as [?| ->]; eauto.
      * by apply at_work_code.
      * right. exists Halted. split; [done |]. exists th, f. split; [done |]. split; [done |]. right. eauto.
  - left. by apply (Acquired_at_work k th lk p).
  - left. by apply (P_loop_inv s b k th).
Qed.

(** A step that succeeds has passed the ASSERTs of the lock it releases. *)
Lemma safe_ok e k k' : code_safe k -> step e k = Ok k' -> e = EvRun -> code_ok k.
Proof.
  intros Hs Es -> th f st m x c Ht Hstk Hf. destruct (Hs th f st m x c Ht Hstk Hf) as [Hr Hc].
  split; [done |]. split; [done |]. cbn [step] in Es. unfold exec_top, get_thread in Es. rewrite Ht in Es. cbn [obind] in Es.
  rewrite Hstk, Hf in Es. cbn [obind] in Es.
  destruct c; try done; cbn [do_call locks currentThread set_extra set_machine] in Es;
    (destruct (locks k !! lk) as [h|]; [|done]); apply obind_Ok in Es as (u & Eu & _);
    by apply assert_Ok, bool_decide_eq_true_1 in Eu as ->.
Qed.

Lemma step_spec e k :
  inv k -> enabled e k -> (e = EvRun -> code_ok k) ->
  (exists k', step e k = Ok k' /\ post (effect e k) k') \/
  (e = EvRun /\ exists x, step e k = Trap x /\ code_stops k x).
Proof.
  intros Hi He Hok. destruct e as [| |s device|]; cbn [step enabled effect] in *.
  - destruct (exec_top_spec k Hi He (Hok eq_refl)) as [?|?]; [by left | by right].
  - left. destruct He as [Hm Hl]. destruct (inv_at_work k Hi Hm) as (th & Hw & [[Hb _]|(?&?&_&_&?)]); [|congruence].
    by apply (Yield_inv k th).
  - left. destruct He as (Hl & Hs & x & Hx). rewrite Hx. cbn [obind].
    apply Interrupt_V_inv; [by apply inv_set_extra | done | done].
  - left. destruct He as [f Hm]. rewrite Hm. destruct Hi as (Htbd & HM & Hk). rewrite Hm in Hk.
    destruct Hk as (Hl & [th Ht] & Hf). destruct f.
    + destruct Hf as (HJ & o & Ho & Hst & Hstk). apply Sleep_loop_inv; eauto.
    + apply Sleep_loop_inv; eauto. exists th. done.
Qed.

(** The states of a run whose code keeps its obligations. *)
Inductive reach (k0 : Kern) : Kern -> Prop :=
| reach_refl : reach k0 k0
| reach_step e k k' : reach k0 k -> enabled e k -> code_safe k -> step e k = Ok k' -> reach k0 k'.

Lemma initial_inv main p m (e : E) : regs_len (registers m) -> inv (initial main p m e).
Proof.
  intros Hm. split; [done |]. split; [by intros lk h x ?|]. split.
  - split; cbn [initial threads readyList sems locks machine app]; try done.
    + apply NoDup_singleton.
    + intros t ->%list_elem_of_singleton. by rewrite lookup_singleton_eq.
    + intros t Ht. set_solver.
    + intros t th [<- <-]%lookup_singleton_Some. left. by left.
    + intros t th s [<- <-]%lookup_singleton_Some [?|(lk & Hin & _)]; [done |]. by apply list_elem_of_singleton in Hin.
    + intros lk. rewrite !lookup_empty. split; intros []; done.
    + split; [done |]. by intros t th [<- <-]%lookup_singleton_Some.
  - eexists. split; [apply lookup_singleton_eq |]. split; [done |]. left. split; [left; eauto | done].
Qed.

Lemma reach_inv k0 k : inv k0 -> reach k0 k -> inv k.
Proof.
  intros Hi. induction 1 as [|e k k' _ IH He Hok Hs]; [done |].
  destruct (step_spec e k IH He (safe_ok e k k' Hok Hs)) as [(k1 & E1 & Hp)|(_ & x & E1 & _)]; [|congruence].
  rewrite E1 in Hs. injection Hs as <-. apply Hp.
Qed.

(** A step that succeeds, from a reachable state. *)
Lemma reach_post k0 e k k' : inv k0 -> reach k0 k -> enabled e k -> code_safe k -> step e k = Ok k' ->
  post (effect e k) k'.
Proof.
  intros Hi Hr He Hok Hs. destruct (step_spec e k (reach_inv _ _ Hi Hr) He (safe_ok e k k' Hok Hs)) as [(k1 & E1 & Hp)|(_ & x & E1 & _)];
    [|congruence]. rewrite E1 in Hs. by injection Hs as <-.
Qed.


(** ** Properties *)

(** C23.  From the boot state, every step the machine may take, whatever
    the interleaving of code, time slices and device interrupts, succeeds
    and keeps the kernel's structures consistent: no ASSERT of thread.cc,
    scheduler.cc or synch.cc fails and no freed thread or semaphore is
    touched, as long as the code that runs uses semaphores and locks that
    exist and releases the locks it holds; the only other outcome is that
    the code of the current thread itself stops the machine. *)
Theorem kernel_invariant main p m (x : E) k e :
  regs_len (registers m) -> reach (initial main p m x) k -> enabled e k -> code_ok k ->
  inv k /\
  ((exists k', step e k = Ok k' /\ inv k') \/
   (e = EvRun /\ exists t, step e k = Trap t /\ code_stops k t)).
Proof.
  intros Hm Hr He Hok. pose proof (reach_inv _ _ (initial_inv main p m x Hm) Hr) as Hi. split; [done |].
  destruct (step_spec e k Hi He (fun _ => Hok)) as [(k' & E1 & Hp & _)|Hs]; [left; eauto | by right].
Qed.

(** The number of threads in [P] of [s] that run or will run. *)
Definition coming (k : Kern) (s : sid) : Z := waking k s (currentThread k :: readyList k).

(** C24.  No wakeup is lost: while threads sleep on a semaphore, its value
    is at most the number of threads already woken that have still to take
    it; so when the machine idles with nothing ready, no thread sleeps on a
    semaphore with a positive value. *)
Theorem no_lost_wakeup main p m (x : E) k s y :
  regs_len (registers m) -> reach (initial main p m x) k -> sems k !! s = Some y -> queue y <> [] ->
  value y <= coming k s /\
  (readyList k = [] -> (exists f, mode k = Idling f) -> value y <= 0).
Proof.
  intros Hm Hr Hs Hq. destruct (reach_inv _ _ (initial_inv main p m x Hm) Hr) as (_ & _ & Hk).
  unfold coming. destruct (mode k) as [|[]].
  - destruct Hk as (HJ & _). split; [exact (J_wakeup _ _ HJ s y Hs Hq) | by intros _ [f ?]].
  - destruct Hk as (_ & _ & HJ & th & Ht & _ & Hstk). pose proof (J_wakeup _ _ HJ s y Hs Hq) as Hw.
    split; [exact Hw |]. intros Er _. rewrite Er in Hw. simpl in Hw. unfold in_P in Hw. rewrite Ht, Hstk in Hw. simpl in Hw. lia.
  - destruct Hk as (_ & _ & HJ). pose proof (J_wakeup _ _ HJ s y Hs Hq) as Hw. split.
    + simpl in *. destruct (in_P k s (currentThread k)); simpl; lia.
    + intros Er _. by rewrite Er in Hw.
Qed.

(** The current thread runs code that calls [Release] on [lk]. *)
Definition releases (k : Kern) (lk : nat) : Prop :=
  exists th f st m e p, threads k !! currentThread k = Some th /\ stack th = FProg (Code f) :: st /\
    f (currentThread k) (name th) (machine k) (extra k) = Ok (m, e, CRelease lk p).

(** Nobody has got the semaphore of a held lock without being the holder. *)
Lemma held_excludes (k : Kern) lk h t : inv k -> locks k !! lk = Some (Some h) -> ~ acq k lk t.
Proof.
  intros (_ & HM & Hk) Hlk.
  assert (exists H, J k H) as [H HJ].
  { destruct (mode k) as [|[]]; [exists [currentThread k] | exists [currentThread k] | exists []]; tauto. }
  destruct (proj1 (J_locks _ _ HJ lk)) as [y Hy]; [eauto |].
  destruct (HM lk (Some h) y Hlk Hy) as [(_&_&Hn)|[(_&_&Hn)|(_&?&_)]]; [apply Hn | apply Hn | done].
Qed.

(** C25.  Mutual exclusion: while a lock is held no other thread is past
    the semaphore inside [Acquire]; a thread that calls [Release] without
    being the holder fails its ASSERT; and whatever step succeeds, the
    holder changes only when the holder itself releases the lock. Nothing is
    asked of the code but that it uses semaphores and locks that exist and
    deletes none that is in use. *)
Theorem lock_mutual_exclusion main p m (x : E) k lk h :
  regs_len (registers m) -> reach (initial main p m x) k -> locks k !! lk = Some (Some h) ->
  (forall t, ~ acq k lk t) /\
  (releases k lk -> h <> currentThread k -> step EvRun k = Trap AssertFail) /\
  forall e k', enabled e k -> code_safe k -> step e k = Ok k' ->
    locks k' !! lk = Some (Some h) \/ (e = EvRun /\ h = currentThread k /\ releases k lk).
Proof.
  intros Hm Hr Hlk. pose proof (reach_inv _ _ (initial_inv main p m x Hm) Hr) as Hi. split; [|split].
  - intros t. by apply (held_excludes k lk h).
  - intros (th & f & st & m' & x' & q & Ht & Hstk & Hf) Hne. cbn [step]. unfold exec_top, get_thread.
    rewrite Ht. cbn [obind]. rewrite Hstk, Hf. cbn [obind do_call locks currentThread set_extra set_machine].
    rewrite Hlk, bool_decide_false by congruence. done.
  - intros e k' He Hok Hs. pose proof (safe_ok e k k' Hok Hs) as Hheld.
    pose proof (reach_post _ e k k' (initial_inv main p m x Hm) Hr He Hok Hs) as (_ & [_ HL] & _).
    destruct e as [| |s device|]; try (left; by apply HL).
    2:{ left. apply HL. cbn [effect]. by destruct (device (extra k)). }
    cbn [effect] in HL.
    destruct (threads k !! currentThread k) as [th|] eqn:Ht; [|left; by apply HL].
    destruct (stack th) as [|[[|f]| | | | |] st] eqn:Hstk; try (left; by apply HL).
    destruct (f (currentThread k) (name th) (machine k) (extra k)) as [[[m' x'] c]|] eqn:Ef; [|left; by apply HL].
    destruct c as [q|lb|s q|s q|q|nm func created kont| | |v created kont|s q|kont|l q|l q|l q|l q|sp q]; try (left; by apply HL).
    destruct (decide (l = lk)) as [->|Hne].
    + right. destruct (Hheld eq_refl th f st m' x' _ Ht Hstk Ef) as [_ [_ Hc]].
      rewrite Hlk in Hc. injection Hc as ->. split; [done |]. split; [done |].
      exists th, f, st, m', x', q. done.
    + left. apply HL. cbn [call_effect locks set_locks set_extra set_machine]. by rewrite lookup_insert_ne.
Qed.

(** The current thread's own code runs in this step. *)
Definition code_step (e : @event E) (k : Kern) : Prop :=
  e = EvRun /\ exists th f st, threads k !! currentThread k = Some th /\ stack th = FProg (Code f) :: st.

(** C13.  Context switches are transparent to user programs: a step leaves
    the user registers and the address space of every thread but the one
    whose code it runs exactly as they were, whether they are in the machine
    or saved in the thread, until the thread is gone. *)
Theorem user_state_private main p m (x : E) k e k' t u :
  regs_len (registers m) -> reach (initial main p m x) k -> enabled e k -> code_safe k -> step e k = Ok k' ->
  user_state k t = Some u -> t <> currentThread k \/ ~ code_step e k ->
  user_state k' t = Some u \/ threads k' !! t = None.
Proof.
  intros Hm Hr He Hok Hs Hu Ht.
  destruct (reach_post _ e k k' (initial_inv main p m x Hm) Hr He Hok Hs) as (_ & [HU _] & _).
  apply HU. destruct e as [| |s device|]; try done; [|cbn [effect]; by destruct (device (extra k))]. unfold effect.
  destruct (threads k !! currentThread k) as [th|] eqn:Hth; [|done].
  destruct (stack th) as [|[[|f]| | | | |] st] eqn:Hstk; try done.
  destruct Ht as [Ht|Ht]; [|exfalso; apply Ht; split; [done |]; exists th, f, st; done].
  destruct (f (currentThread k) (name th) (machine k) (extra k)) as [[[m' x'] c]|]; [|done].
  revert Hu. unfold user_state. destruct c; cbn [call_effect set_locks set_threads threads currentThread set_extra set_machine machine];
    rewrite ?lookup_alter_ne by congruence; destruct (threads k !! t) as [w|]; try done;
    by destruct (decide (t = currentThread k)).
Qed.

(** The threads that are current along a run. *)
Fixpoint trace (es : list (@event E)) (k : Kern) : list tid :=
  match es with
  | [] => []
  | e :: es' => match step e k with Ok k' => currentThread k' :: trace es' k' | Trap _ => [] end
  end.

Fixpoint run_ok (es : list (@event E)) (k : Kern) : Prop :=
  match es with
  | [] => True
  | e :: es' => enabled e k /\ code_safe k /\ forall k', step e k = Ok k' -> run_ok es' k'
  end.

(** First come, first served: the threads dispatched along a run are
    exactly those that leave the ready list at the front, in its order;
    threads that become ready join at the back. *)
Theorem ready_fifo es main p m (x : E) k k' :
  regs_len (registers m) -> reach (initial main p m x) k -> run_ok es k -> run es k = Ok k' ->
  exists served joined, served ++ readyList k' = readyList k ++ joined /\ served `sublist_of` trace es k /\
    (served = [] -> currentThread k' = currentThread k).
Proof.
  intros Hm. revert k. induction es as [|e es IH]; intros k Hr Hok Hrun; cbn [run trace run_ok] in *.
  { injection Hrun as ->. exists [], []. split; [by rewrite app_nil_r | done]. }
  apply obind_Ok in Hrun as (k1 & Hs & Hrun). rewrite Hs. destruct Hok as (He & Hok & Hk).
  destruct (IH k1) as (sv & jn & E1 & E2 & E3); [by apply (reach_step _ e k) | by apply Hk | done |].
  destruct (reach_post _ e k k1 (initial_inv main p m x Hm) Hr He Hok Hs) as (_ & _ & Hrdy).
  assert (readyList (effect e k) = readyList k /\ currentThread (effect e k) = currentThread k) as [Er Ec].
  { unfold effect. destruct e as [| |s device|]; try done; [|by destruct (device (extra k))]. destruct (threads k !! currentThread k) as [th|]; [|done].
    destruct (stack th) as [|[[|f]| | | | |] st]; try done. by destruct (f _ _ _ _) as [[[? ?] []]|]. }
  rewrite <- Er. destruct Hrdy as [(Hc & l & Hl)|(l & Hl)].
  - exists sv, (l ++ jn). rewrite E1, Hl, <- app_assoc. split; [done |]. split; [by apply sublist_cons |].
    intros Hn. rewrite (E3 Hn), Hc. by rewrite Ec.
  - exists (currentThread k1 :: sv), (l ++ jn). rewrite app_assoc, <- Hl. cbn. rewrite E1.
    split; [done |]. split; [by apply sublist_skip | done].
Qed.

(** The machine with its timer always firing: the current thread is
    preempted as soon as interrupts are on. *)
Definition tick (k : Kern) : outcome Kern :=
  step (if decide (level k = IntOn) then EvPreempt else EvRun) k.

Fixpoint ticks (n : nat) (k : Kern) : outcome Kern :=
  match n with O => Ok k | Datatypes.S n' => let! k1 := tick k in ticks n' k1 end.


Lemma P_loop_queue s b (k k' : Kern) :
  P_loop s IntOn b k = Ok k' -> readyList k <> [] ->
  dispatches k k' \/ (same_queue k k' /\ level k' = IntOn).
Proof.
  unfold P_loop. intros (x & _ & Hk)%obind_Ok Hne. destruct (value x =? 0).
  - left. apply obind_Ok in Hk as (q & _ & Hk). unfold Sleep in Hk.
    apply assert_then_Ok in Hk as (_ & Hk). apply assert_then_Ok in Hk as (_ & Hk).
    apply obind_Ok in Hk as (k1 & (A & B & C)%upd_thread_queue & Hk).
    apply Sleep_loop_queue in Hk as [D F]; [|by rewrite B]. split; [|done]. by rewrite D, B.
  - right. apply obind_Ok in Hk as (k1 & (A & B & C)%upd_thread_queue & [= <-]). done.
Qed.

Lemma ticks_S k k1 n : tick k = Ok k1 -> ticks (Datatypes.S n) k = ticks n k1.
Proof. intros H. cbn [ticks]. by rewrite H. Qed.

(** Two ticks at most dispatch the front of the ready list. *)
Lemma tick_yield k n l :
  inv k -> mode k = Executing -> level k = IntOn -> readyList k = n :: l ->
  exists k', tick k = Ok k' /\ inv k' /\ mode k' = Executing /\ currentThread k' = n /\
    exists j, readyList k' = l ++ j.
Proof.
  intros Hi Hm Hl Hr. unfold tick. rewrite decide_True by done.
  destruct (inv_at_work k Hi Hm) as (th & Hw & [[Hb _]|(?&?&_&_&?)]); [|congruence].
  destruct (Yield_inv k th Hw Hl Hb) as (k' & HY & Hi' & _).
  destruct (Yield_queue _ k k' n l HY Hm Hr) as (Hc & Hq & Hm'). exists k'. eauto 10.
Qed.

Lemma ticks_dispatch k n l :
  inv k -> mode k = Executing -> readyList k = n :: l ->
  exists m k', (m <= 2)%nat /\ ticks m k = Ok k' /\ inv k' /\ mode k' = Executing /\ currentThread k' = n /\
    exists j, readyList k' = l ++ j.
Proof.
  intros Hi Hm Hr. destruct (decide (level k = IntOn)) as [Hl|Hl].
  { destruct (tick_yield k n l Hi Hm Hl Hr) as (k' & Ht & Hrest). exists 1%nat, k'.
    rewrite (ticks_S _ _ _ Ht). split; [lia | done]. }
  destruct (inv_at_work k Hi Hm) as (th & Hw & [[_ ?]|(s & b & Hstk & Hb & Hoff)]); [done |].
  destruct (P_loop_inv s b k th Hw Hoff Hstk Hb) as (k1 & HP & Hi1 & _).
  assert (tick k = Ok k1) as Ht1.
  { unfold tick. rewrite decide_False by done. cbn [step]. unfold exec_top, get_thread.
    destruct Hw as (_ & _ & _ & _ & Ht & _). rewrite Ht. cbn [obind]. by rewrite Hstk. }
  destruct (P_loop_queue s b k k1 HP) as [[Hd Hm1]|[(Hc & Hq & Hm1) Hl1]]; [by rewrite Hr | |].
  - rewrite Hr in Hd. injection Hd as Hc Hq. exists 1%nat, k1. rewrite (ticks_S _ _ _ Ht1).
    split; [lia |]. split; [done |]. rewrite Hq. eauto using app_nil_ex.
  - destruct (tick_yield k1 n l Hi1) as (k2 & Ht2 & Hrest); [congruence | done | congruence |].
    exists 2%nat, k2. rewrite (ticks_S _ _ _ Ht1), (ticks_S _ _ _ Ht2). done.
Qed.

Lemma ticks_app n m k k1 : ticks n k = Ok k1 -> ticks (n + m) k = ticks m k1.
Proof.
  revert k. induction n as [|n IH]; intros k H; cbn in *; [by injection H as -> |].
  apply obind_Ok in H as (k2 & -> & H). cbn [obind]. by apply IH.
Qed.

Lemma ticks_reach k l1 t l2 :
  inv k -> mode k = Executing -> readyList k = l1 ++ t :: l2 ->
  exists n k', (n <= 2 * length l1 + 2)%nat /\ ticks n k = Ok k' /\ inv k' /\ currentThread k' = t.
Proof.
  revert k l2. induction l1 as [|a l1 IH]; intros k l2 Hi Hm Hr.
  - destruct (ticks_dispatch k t l2 Hi Hm Hr) as (n & k' & Hn & Ht & Hi' & _ & Hc & _). exists n, k'. done.
  - destruct (ticks_dispatch k a _ Hi Hm Hr) as (n & k1 & Hn & Ht & Hi1 & Hm1 & _ & j & Hj).
    rewrite <- app_assoc in Hj. destruct (IH k1 (l2 ++ j) Hi1 Hm1 Hj) as (m & k2 & Hm2 & Ht2 & Hrest).
    exists (n + m)%nat, k2. split; [simpl; lia |]. split; [|done]. by rewrite (ticks_app _ _ _ _ Ht).
Qed.

(** C28.  No starvation: with the timer preempting whoever runs, a thread
    with [length l1] threads before it on the ready list gets the processor
    within [2 * length l1 + 2] steps. *)
Theorem no_starvation main p m (x : E) k l1 t l2 :
  regs_len (registers m) -> reach (initial main p m x) k -> mode k = Executing ->
  readyList k = l1 ++ t :: l2 ->
  exists n k', (n <= 2 * length l1 + 2)%nat /\ ticks n k = Ok k' /\ currentThread k' = t.
Proof.
  intros Hm Hr Hmode Hrd.
  destruct (ticks_reach k l1 t l2 (reach_inv _ _ (initial_inv main p m x Hm) Hr) Hmode Hrd) as (n & k' & ? & ? & _ & ?).
  eauto.
Qed.

(** *** Checking the side conditions of a run by computation *)

Definition call_okb (k : Kern) (c : @call E) : bool :=
  match c with
  | CP s _ | CV s _ => bool_decide (is_Some (sems k !! SUser s))
  | CDelSem s _ =>
      match sems k !! SUser s with
      | Some x => bool_decide (queue x = []) &&
          bool_decide (map_Forall (fun _ th => top_sem (stack th) <> Some (SUser s)) (threads k))
      | None => false
      end
  | CAcquire lk _ => bool_decide (is_Some (locks k !! lk))
  | CRelease lk _ | CHeld lk _ => bool_decide (locks k !! lk = Some (Some (currentThread k)))
  | CDelLock _ _ => false
  | _ => true
  end.

Definition code_okb (k : Kern) : bool :=
  match threads k !! currentThread k with
  | Some th =>
      match stack th with
      | FProg (Code f) :: _ =>
          match f (currentThread k) (name th) (machine k) (extra k) with
          | Ok (m, e, c) => bool_decide (length (registers m) = Z.to_nat NumTotalRegs) && call_okb k c
          | Trap _ => true
          end
      | _ => true
      end
  | None => true
  end.

Definition enabledb (e : @event E) (k : Kern) : bool :=
  let idle := match mode k with Idling _ => true | Executing => false end in
  match e with
  | EvRun => negb idle
  | EvPreempt => negb idle && bool_decide (level k = IntOn)
  | EvIrq s device =>
      (bool_decide (level k = IntOn) || idle) && bool_decide (is_Some (sems k !! SUser s)) &&
      match device (extra k) with Ok _ => true | Trap _ => false end
  | EvIdle => idle
  end.

Lemma call_okb_spec k c : call_okb k c = true -> call_ok k c.
Proof.
  unfold call_ok. destruct c; cbn; try done; try (by intros H%bool_decide_eq_true_1).
  destruct (sems k !! SUser s) as [x|] eqn:Hx; [|done]. intros [Hq Hf]%andb_true_iff.
  apply bool_decide_eq_true_1 in Hq. apply bool_decide_eq_true_1 in Hf. split; [|done]. exists x. split; [done |]. by split.
Qed.

Lemma code_okb_spec k : code_okb k = true -> code_ok k.
Proof.
  unfold code_okb. intros H th f st m e c Ht Hstk Hf. rewrite Ht, Hstk, Hf in H.
  apply andb_true_iff in H as [H1%bool_decide_eq_true_1 H2%call_okb_spec]. done.
Qed.

Lemma ok_safe k : code_ok k -> code_safe k.
Proof. intros H th f st m e c H1 H2 H3. destruct (H th f st m e c H1 H2 H3) as (? & ? & _). done. Qed.

Lemma enabledb_spec e k : enabledb e k = true -> enabled e k.
Proof.
  unfold enabledb, enabled. destruct e as [| |s device|]; destruct (mode k) as [|f]; cbn; try done; eauto.
  - intros H%bool_decide_eq_true_1. done.
  - rewrite orb_false_r. destruct (device (extra k)) as [x|]; [|by rewrite andb_false_r].
    intros [[H1%bool_decide_eq_true_1 H2%bool_decide_eq_true_1]%andb_true_iff _]%andb_true_iff.
    split; [by left |]. split; [done |]. by exists x.
  - rewrite orb_true_r. destruct (device (extra k)) as [x|]; [|by rewrite andb_false_r].
    intros [H2%bool_decide_eq_true_1 _]%andb_true_iff.
    split; [right; by exists f |]. split; [done |]. by exists x.
Qed.

(** The state after the events [es], as long as they are possible. *)
Fixpoint after (es : list (@event E)) (k : Kern) : Kern :=
  match es with
  | [] => k
  | e :: es' =>
      if enabledb e k && code_okb k then
        match step e k with Ok k' => after es' k' | Trap _ => k end
      else k
  end.

Lemma after_reach es k0 k : reach k0 k -> reach k0 (after es k).
Proof.
  revert k. induction es as [|e es IH]; intros k Hr; [done |]. cbn [after].
  destruct (enabledb e k && code_okb k) eqn:Hb; [|done].
  apply andb_true_iff in Hb as [He%enabledb_spec Hc%code_okb_spec].
  destruct (step e k) as [k'|] eqn:Hs; [|done]. apply IH. by apply (reach_step k0 e k); [| | apply ok_safe |].
Qed.

End Proofs.
End ThreadsProofs.

(** ** The hypotheses can hold: a main thread that waits for its child *)

Module ThreadsWitness.
Import Machine AddrSpace Threads ThreadsProofs.

#[local] Instance no_labels : Procs unit := fun _ => Return.

Definition call_ (c : @call unit) : prog := Code (fun _ _ m x => Ok (m, x, c)).

(** The child takes the lock, gives the processor away while it holds it,
    releases it and wakes its parent. *)
Definition child (s lk : nat) : prog :=
  call_ (CSetSpace (mkAddrSpace (Some 1%positive) 2)
    (call_ (CAcquire lk (call_ (CYield (call_ (CRelease lk (call_ (CV s Return))))))))).

Definition parent : prog :=
  call_ (CNewLock (fun lk => call_ (CNewSem 0 (fun _ e => e) (fun s =>
    call_ (CFork [99] (child s lk) (fun _ e => e) (fun _ => call_ (CFork [100] (child s lk) (fun _ e => e) (fun _ =>
      call_ (CP s (call_ (CP s (call_ (CDelSem s (call_ CFinish)))))))))))))).

Definition boot : @Kern unit := initial [109] parent (new_Machine false) tt.
Definition steps (n : nat) : @Kern unit := after (replicate n EvRun) boot.

Lemma steps_reach n : reach boot (steps n).
Proof. apply after_reach, reach_refl. Qed.

Lemma boot_regs : regs_len (registers (new_Machine false)).
Proof. reflexivity. Qed.

Fixpoint run_okb (es : list (@event unit)) (k : @Kern unit) : bool :=
  match es with
  | [] => true
  | e :: es' =>
      enabledb e k && code_okb k && match step e k with Ok k' => run_okb es' k' | Trap _ => true end
  end.

Lemma run_okb_spec es k : run_okb es k = true -> run_ok es k.
Proof.
  revert k. induction es as [|e es IH]; intros k H; [done |]. cbn [run_okb] in H.
  apply andb_true_iff in H as [[He%enabledb_spec Hc%code_okb_spec]%andb_true_iff H].
  split; [done |]. split; [by apply ok_safe |]. intros k' Hs. rewrite Hs in H. by apply IH.
Qed.

End ThreadsWitness.

Import Machine AddrSpace Threads ThreadsProofs ThreadsWitness.
#[local] Existing Instance no_labels.

Lemma kernel_invariant_witness :
  inv (steps 10) /\
  ((exists k', step EvPreempt (steps 10) = Ok k' /\ inv k') \/
   (@EvPreempt unit = EvRun /\ exists t, step EvPreempt (steps 10) = Trap t /\ code_stops (steps 10) t)).
Proof.
  apply (kernel_invariant [109] parent (new_Machine false) tt); [reflexivity | apply steps_reach | |].
  - apply enabledb_spec. vm_compute. reflexivity.
  - apply code_okb_spec. vm_compute. reflexivity.
Defined.

Lemma no_lost_wakeup_witness :
  0 <= coming (steps 14) (SLock 0) /\
  (readyList (steps 14) = [] -> (exists f, mode (steps 14) = Idling f) -> 0 <= 0).
Proof.
  apply (no_lost_wakeup [109] parent (new_Machine false) tt (steps 14) (SLock 0) (mkSemaphore 0 [2%nat]));
    [reflexivity | apply steps_reach | vm_compute; reflexivity | discriminate].
Defined.

Lemma lock_mutual_exclusion_witness :
  (forall t, ~ acq (steps 12) 0 t) /\
  (locks (steps 13) !! 0%nat = Some (Some 1%nat) \/
   (@EvRun unit = EvRun /\ 1%nat = currentThread (steps 12) /\ releases (steps 12) 0)).
Proof.
  destruct (lock_mutual_exclusion [109] parent (new_Machine false) tt (steps 12) 0 1) as (Hacq & _ & H);
    [reflexivity | apply steps_reach | vm_compute; reflexivity |]. split; [exact Hacq |].
  apply (H EvRun (steps 13)); [| | vm_compute; reflexivity].
  - apply enabledb_spec. vm_compute. reflexivity.
  - apply ok_safe, code_okb_spec. vm_compute. reflexivity.
Defined.

Lemma user_state_private_witness :
  user_state (after [EvPreempt] (steps 10)) 1 = Some (mkAddrSpace (Some 1%positive) 2, replicate 40 0) \/
  threads (after [EvPreempt] (steps 10)) !! 1%nat = None.
Proof.
  apply (user_state_private [109] parent (new_Machine false) tt (steps 10) EvPreempt);
    [reflexivity | apply steps_reach | | | vm_compute; reflexivity | vm_compute; reflexivity |].
  - apply enabledb_spec. vm_compute. reflexivity.
  - apply ok_safe, code_okb_spec. vm_compute. reflexivity.
  - right. intros [H _]. discriminate H.
Defined.

Lemma ready_fifo_witness :
  exists served joined, served ++ readyList (steps 20) = readyList (steps 5) ++ joined /\
    served `sublist_of` trace (replicate 15 EvRun) (steps 5) /\
    (served = [] -> currentThread (steps 20) = currentThread (steps 5)).
Proof.
  apply (ready_fifo (replicate 15 EvRun) [109] parent (new_Machine false) tt);
    [reflexivity | apply steps_reach | | vm_compute; reflexivity].
  apply run_okb_spec. vm_compute. reflexivity.
Defined.

Lemma no_starvation_witness :
  exists n k', (n <= 4)%nat /\ ticks n (steps 4) = Ok k' /\ currentThread k' = 2%nat.
Proof.
  apply (no_starvation [109] parent (new_Machine false) tt (steps 4) [1%nat] 2%nat []);
    [reflexivity | apply steps_reach | vm_compute; reflexivity | vm_compute; reflexivity].
Defined.

