(* ===== verification/Synch.v ===== *)
(** * Condition variables and synchronised lists

    [Condition] of synch.cc and [SynchList] of synchlist.{h,cc} as programs
    over the thread model, with the waiting queues and the lists in the
    kernel's data [E]. *)

From S2P Require Import Prelude LinkedList Machine AddrSpace Threads ThreadsProofs.

Module Synch.
Import Machine AddrSpace Threads ThreadsProofs.

Section Programs.
Context {E : Type}.

(** Code that works on the kernel's data and then makes a call. *)
Definition go (f : E -> outcome (E * @call E)) : @prog E :=
  Code (fun _ _ m e => let! ' (e', c) := f e in Ok (m, e', c)).
Definition do_ (c : @call E) : @prog E := go (fun e => Ok (e, c)).

(** ** Condition *)

(** A condition variable at an address: its [waitQueue]. *)
Record Condition := mkCondition {
  waitQueue : E -> list nat;
  set_waitQueue : list nat -> E -> E
}.

Definition Wait (c : Condition) (conditionLock : nat) (k : @prog E) : @prog E :=
  do_ (CHeld conditionLock (do_ (CNewSem 0 (fun _ e => e) (fun waiter =>
    go (fun e =>
      let! q := ListSpec.Append (waitQueue c e) waiter in
      Ok (set_waitQueue c q e,
          CRelease conditionLock (do_ (CP waiter (do_ (CAcquire conditionLock (do_ (CDelSem waiter k)))))))))))).

Definition Signal (c : Condition) (conditionLock : nat) (k : @prog E) : @prog E :=
  do_ (CHeld conditionLock (go (fun e =>
    match waitQueue c e with
    | [] => Ok (e, CGo k)
    | _ =>
        let! ' (waiter, q) := ListSpec.RemoveFront (waitQueue c e) in
        Ok (set_waitQueue c q e, CV waiter k)
    end))).

(** [Broadcast]: [n] is at least the length of the queue. *)
Fixpoint Broadcast_loop (n : nat) (c : Condition) (conditionLock : nat) (k : @prog E) : @prog E :=
  go (fun e =>
    match waitQueue c e, n with
    | [], _ => Ok (e, CGo k)
    | _, O => Trap NoFuel
    | _, Datatypes.S n' => Ok (e, CGo (Signal c conditionLock (Broadcast_loop n' c conditionLock k)))
    end).

Definition Broadcast (c : Condition) (conditionLock : nat) (k : @prog E) : @prog E :=
  go (fun e => Ok (e, CGo (Broadcast_loop (length (waitQueue c e)) c conditionLock k))).

(** ** SynchList *)

Record SynchList (T : Type) := mkSynchList {
  list_ : E -> list T;
  set_list : list T -> E -> E;
  lock : E -> nat;
  set_lock : nat -> E -> E;
  listEmpty : Condition
}.
Arguments list_ {T}. Arguments set_list {T}. Arguments lock {T}. Arguments set_lock {T}. Arguments listEmpty {T}.

Context {T : Type} `{EqDecision T}.

Definition new_SynchList (l : SynchList T) (k : @prog E) : @prog E :=
  do_ (CNewLock (fun lk => go (fun e =>
    Ok (set_waitQueue (listEmpty l) [] (set_lock l lk (set_list l [] e)), CGo k)))).

(** The calls on the list's lock. *)
Definition with_lock (l : SynchList T) (f : nat -> @call E) : @prog E := go (fun e => Ok (e, f (lock l e))).

Definition SynchList_Append (l : SynchList T) (item : T) (k : @prog E) : @prog E :=
  with_lock l (fun lk => CAcquire lk (go (fun e =>
    let! q := ListSpec.Append (list_ l e) item in
    Ok (set_list l q e, CGo (Signal (listEmpty l) lk (do_ (CRelease lk k))))))).

(** [RemoveFront]; [self] is the label of its loop. *)
Definition RemoveFront_loop (l : SynchList T) (self : nat) (k : T -> @prog E) : @prog E :=
  go (fun e =>
    match list_ l e with
    | [] => Ok (e, CGo (Wait (listEmpty l) (lock l e) (do_ (CJump self))))
    | _ =>
        let! ' (item, q) := ListSpec.RemoveFront (list_ l e) in
        Ok (set_list l q e, CRelease (lock l e) (k item))
    end).

Definition SynchList_RemoveFront (l : SynchList T) (self : nat) : @prog E :=
  with_lock l (fun lk => CAcquire lk (do_ (CJump self))).

Definition SynchList_Apply (l : SynchList T) (func : T -> E -> E) (k : @prog E) : @prog E :=
  with_lock l (fun lk => CAcquire lk (go (fun e =>
    Ok (foldl (fun e x => func x e) e (list_ l e), CRelease lk k)))).

(** [~SynchList]: the lock has state of the kernel, with its semaphore. *)
Definition delete_SynchList (l : SynchList T) (k : @prog E) : @prog E := with_lock l (fun lk => CDelLock lk k).

End Programs.
Arguments Condition : clear implicits. Arguments SynchList : clear implicits.
Arguments list_ {E T}. Arguments set_list {E T}. Arguments lock {E T}. Arguments set_lock {E T}. Arguments listEmpty {E T}.

(** ** One operation at a time

    What the code of the current thread does, call by call, while no time
    slice ends: [here th stk e k] is [k] with the stack [stk] of the
    current thread [th] and the data [e]. *)

Section Calls.
Context {E : Type} {PR : Procs E}.
Notation Kern := (@Kern E).

Definition here (th : Thread) (stk : list frame) (e : E) (k : Kern) : Kern :=
  set_extra e (set_threads (<[currentThread k := with_stack stk th]> (threads k)) k).

Definition runs (n : nat) (k : Kern) : outcome Kern := run (replicate n EvRun) k.

Lemma runs_app n m k : runs (n + m) k = let! k' := runs n k in runs m k'.
Proof.
  unfold runs. rewrite replicate_add. revert k. induction n as [|n IH]; intros k; [done |].
  cbn [replicate app run]. destruct (step EvRun k) as [k'|]; [|done]. cbn [obind]. apply IH.
Qed.

Lemma runs_S n k : runs (Datatypes.S n) k = let! k' := exec_top k in runs n k'.
Proof. done. Qed.

Lemma runs_last x : (let! k' := x in runs 0 k') = x.
Proof. by destruct x. Qed.

Lemma get_here th stk e k : get_thread (here th stk e k) (currentThread k) = Ok (with_stack stk th).
Proof.
  unfold get_thread. change (threads (here th stk e k)) with (<[currentThread k := with_stack stk th]> (threads k)).
  by rewrite lookup_insert_eq.
Qed.

Lemma set_stack_here th stk stk' e k : set_stack stk' (here th stk e k) = Ok (here th stk' e k).
Proof.
  unfold set_stack, upd_thread. change (currentThread (here th stk e k)) with (currentThread k).
  rewrite get_here. cbn [obind]. unfold here. cbn. by rewrite insert_insert_eq.
Qed.

(** One step of code that only works on [E]. *)
Lemma go_here f st th e k :
  exec_top (here th (FProg (go f) :: st) e k) =
    let! ' (e', c) := f e in do_call c st (here th (FProg (go f) :: st) e' k).
Proof.
  unfold exec_top. cbn [currentThread here set_extra set_threads]. change (set_extra e _) with (here th (FProg (go f) :: st) e k).
  rewrite get_here. cbn. destruct (f e) as [[e' c]|]; done.
Qed.

Lemma do_here c st th e k :
  exec_top (here th (FProg (do_ c) :: st) e k) = do_call c st (here th (FProg (do_ c) :: st) e k).
Proof. unfold do_. by rewrite go_here. Qed.

Lemma CGo_here p st s0 th e k : do_call (CGo p) st (here th s0 e k) = Ok (here th (FProg p :: st) e k).
Proof. apply set_stack_here. Qed.
Lemma CJump_here j st s0 th e k : do_call (CJump j) st (here th s0 e k) = Ok (here th (FProg (procs j) :: st) e k).
Proof. apply set_stack_here. Qed.

Lemma CHeld_here lk p st s0 th e k : locks k !! lk = Some (Some (currentThread k)) ->
  do_call (CHeld lk p) st (here th s0 e k) = Ok (here th (FProg p :: st) e k).
Proof.
  intros Hl. cbn [do_call]. change (locks (here th s0 e k)) with (locks k). rewrite Hl.
  rewrite bool_decide_true by done. apply set_stack_here.
Qed.

(** [P] of a semaphore that is free. *)
Lemma P_here s b st th e k v q : sems k !! s = Some (mkSemaphore v q) -> v <> 0 ->
  exec_top (here th (FP s b :: st) e k) = Ok (here th st e (set_level b (put_sem s (mkSemaphore (v - 1) q) k))).
Proof.
  intros Hs Hv. unfold exec_top. change (currentThread (here _ _ _ k)) with (currentThread k). rewrite get_here.
  cbn [obind stack with_stack]. unfold P_loop, get_sem. change (sems (here _ _ _ k)) with (sems k).
  rewrite Hs. cbn [obind value queue]. rewrite (proj2 (Z.eqb_neq _ _) Hv).
  change (put_sem s ?x (here th ?st0 e k)) with (here th st0 e (put_sem s x k)).
  by rewrite set_stack_here.
Qed.

Lemma setStatus_here x th stk e k :
  setStatus x (currentThread k) (here th stk e k) = Ok (here (with_status x th) stk e k).
Proof.
  unfold setStatus, upd_thread. rewrite get_here. cbn [obind]. unfold here. cbn. by rewrite insert_insert_eq.
Qed.

Lemma P_block_here s b st th e k q : sems k !! s = Some (mkSemaphore 0 q) -> currentThread k ∉ q -> level k = IntOff ->
  exec_top (here th (FP s b :: st) e k) =
    Sleep_loop false (here (with_status BLOCKED th) (FP s b :: st) e (put_sem s (mkSemaphore 0 (q ++ [currentThread k])) k)).
Proof.
  intros Hs Hq Hl. unfold exec_top. change (currentThread (here _ _ _ k)) with (currentThread k). rewrite get_here.
  cbn [obind stack with_stack]. unfold P_loop, get_sem. change (sems (here _ _ _ k)) with (sems k).
  rewrite Hs. cbn [obind value queue Z.eqb]. unfold ListSpec.Append.
  change (currentThread (here _ _ _ k)) with (currentThread k). rewrite decide_False by done. cbn [obind].
  change (put_sem s ?x (here th ?st0 e k)) with (here th st0 e (put_sem s x k)). unfold Sleep, is_off.
  change (level (here _ _ _ ?k')) with (level k). change (currentThread (here _ _ _ ?k')) with (currentThread k).
  rewrite !bool_decide_true by done. cbn [assert_ obind]. set (k' := put_sem _ _ k).
  change (setStatus BLOCKED (currentThread k)) with (setStatus (E := E) BLOCKED (currentThread k')).
  by rewrite setStatus_here.
Qed.

Lemma P_start_here s b st s0 th e k : level k = b ->
  P_start s st (here th s0 e k) = Ok (here th (FP s b :: st) e (set_level IntOff k)).
Proof.
  intros <-. unfold P_start. cbn [SetLevel]. change (level (here _ _ _ k)) with (level k).
  change (set_level IntOff (here th s0 e k)) with (here th s0 e (set_level IntOff k)). apply set_stack_here.
Qed.

(** [V]: the first of the queue is made ready. *)
Lemma V_here s x th stk e k : sems k !! s = Some x ->
  (forall t, head (queue x) = Some t -> t <> currentThread k /\ is_Some (threads k !! t) /\ t ∉ readyList k) ->
  V s (here th stk e k) = Ok (here th stk e (woken s x k)).
Proof.
  intros Hs Hq. unfold V, woken, get_sem. cbn [SetLevel]. cbn [sems here set_extra set_threads set_level]. rewrite Hs. cbn [obind].
  destruct x as [v [|t q]]; cbn [queue value obind].
  - cbn [sems here set_extra set_threads set_level]. rewrite Hs. reflexivity.
  - destruct (Hq t eq_refl) as (Hne & [tht Ht] & Hnr). cbn [ListSpec.RemoveFront obind].
    unfold ReadyToRun, is_off, setStatus, upd_thread, get_thread. cbn.
    rewrite lookup_insert_ne by done. rewrite Ht. cbn [obind]. unfold ListSpec.Append. cbn.
    rewrite decide_False by done.
    rewrite bool_decide_true by done. cbn. rewrite lookup_insert_eq. cbn. unfold here, put_sem. cbn.
    rewrite insert_insert_eq, insert_insert_ne by done.
    assert (alter (with_status READY) t (threads k) = <[t := with_status READY tht]> (threads k)) as ->; [|done].
    apply map_eq. intros j. destruct (decide (t = j)) as [<-|]; simplify_map_eq; by rewrite ?Ht.
Qed.

End Calls.

(** ** What a synchronised list promises

    The fields of a list are apart from each other; the thread that uses it
    runs with interrupts on. *)

Class ListFields {E T} (l : SynchList E T) : Prop := {
  list_set_list q e : list_ l (set_list l q e) = q;
  list_set_wait q e : list_ l (set_waitQueue (listEmpty l) q e) = list_ l e;
  wait_set_list q e : waitQueue (listEmpty l) (set_list l q e) = waitQueue (listEmpty l) e;
  lock_set_list q e : lock l (set_list l q e) = lock l e;
  lock_set_wait q e : lock l (set_waitQueue (listEmpty l) q e) = lock l e
}.

Section Promises.
Context {E T : Type} `{EqDecision T} {PR : Procs E} (l : SynchList E T) `{LF : !ListFields l}.
Notation Kern := (@Kern E).
Implicit Types (k : Kern) (e : E).

(** The lock [lk] is free, and held by the current thread. *)
Definition lock_free (lk : nat) k : Prop :=
  locks k !! lk = Some None /\ sems k !! SLock lk = Some (mkSemaphore 1 []).
Definition holding (lk : nat) k : Kern :=
  set_locks (<[lk := Some (currentThread k)]> (locks k)) (put_sem (SLock lk) (mkSemaphore 0 []) k).

Lemma held_here lk k : level k = IntOn ->
  let k' := set_level IntOn (put_sem (SLock lk) (mkSemaphore (1 - 1) []) (set_level IntOff k)) in
  set_locks (<[lk := Some (currentThread k')]> (locks k')) k' = holding lk k.
Proof. destruct k. cbn. by intros ->. Qed.

Lemma acquire_here lk p st th s0 e k : level k = IntOn -> lock_free lk k ->
  (let! k1 := do_call (CAcquire lk p) st (here th s0 e k) in runs 2 k1) = Ok (here th (FProg p :: st) e (holding lk k)).
Proof.
  intros Hl [Hlk Hs]. cbn [do_call]. rewrite (P_start_here _ IntOn) by done. cbn [obind]. rewrite runs_S.
  rewrite (P_here _ _ _ _ _ _ 1 []) by done. cbn [obind]. rewrite runs_S. unfold exec_top.
  match goal with |- context [here th ?stk e ?k1] => set (k' := k1) end.
  change (currentThread (here _ _ _ k')) with (currentThread k'). rewrite get_here. cbn [obind stack with_stack].
  change (set_locks ?x (here th ?stk e k')) with (here th stk e (set_locks x k')). rewrite set_stack_here.
  unfold runs. cbn [obind replicate run]. subst k'. f_equal. by rewrite <- (held_here lk k Hl).
Qed.

Lemma release_here lk p st th s0 e k : lock_free lk k ->
  do_call (CRelease lk p) st (here th s0 e (holding lk k)) = Ok (here th (FProg p :: st) e k).
Proof.
  intros [Hlk Hs]. cbn [do_call].
  change (locks (here th s0 e (holding lk k))) with (<[lk := Some (currentThread k)]> (locks k)).
  rewrite lookup_insert_eq, bool_decide_true by done. cbn [assert_ obind].
  change (set_locks ?x (here th ?stk e (holding lk k))) with (here th stk e (set_locks x (holding lk k))).
  rewrite set_stack_here. cbn [obind].
  rewrite (V_here _ (mkSemaphore 0 [])); [|cbn; by rewrite lookup_insert_eq | done].
  unfold woken, holding, put_sem. cbn. rewrite !insert_insert_eq, !insert_id by done. by destruct k.
Qed.

Lemma acquire_steps lk p st th e k : level k = IntOn -> lock_free lk k ->
  runs 3 (here th (FProg (do_ (CAcquire lk p)) :: st) e k) = Ok (here th (FProg p :: st) e (holding lk k)).
Proof. intros. rewrite runs_S, do_here. by apply acquire_here. Qed.

(** The start of every operation: the lock is taken. *)
Lemma with_lock_here p st th e k : level k = IntOn -> lock_free (lock l e) k ->
  runs 3 (here th (FProg (with_lock l (fun lk => CAcquire lk (p lk))) :: st) e k) =
    Ok (here th (FProg (p (lock l e)) :: st) e (holding (lock l e) k)).
Proof.
  intros Hl Hf. rewrite runs_S. unfold with_lock. rewrite go_here. cbn [obind]. by apply acquire_here.
Qed.

Lemma CHeld_holding lk p st s0 th e k :
  do_call (CHeld lk p) st (here th s0 e (holding lk k)) = Ok (here th (FProg p :: st) e (holding lk k)).
Proof. apply CHeld_here. cbn. by rewrite lookup_insert_eq. Qed.

(** [Signal], with the lock held. *)
Lemma signal_none_here c lk p st th e k : waitQueue c e = [] ->
  runs 2 (here th (FProg (Signal c lk p) :: st) e (holding lk k)) = Ok (here th (FProg p :: st) e (holding lk k)).
Proof.
  intros Hw. rewrite runs_S. unfold Signal. rewrite do_here, CHeld_holding. cbn [obind].
  rewrite runs_S, go_here, Hw. cbn [obind]. by rewrite CGo_here.
Qed.

(** Who waits for [w] can be made ready. *)
Definition can_wake (w : nat) (x : Semaphore) k : Prop :=
  sems k !! SUser w = Some x /\
  forall t, head (queue x) = Some t -> t <> currentThread k /\ is_Some (threads k !! t) /\ t ∉ readyList k.

Lemma woken_holding w x lk k : woken (SUser w) x (holding lk k) = holding lk (woken (SUser w) x k).
Proof. unfold woken, holding, put_sem. destruct (queue x); cbn; by rewrite insert_insert_ne. Qed.

Lemma woken_lock_free w x lk k : lock_free lk k -> lock_free lk (woken (SUser w) x k).
Proof.
  intros [Hl Hs]. unfold woken, lock_free, put_sem. destruct (queue x); cbn; by rewrite lookup_insert_ne.
Qed.

Lemma signal_here c lk p st th e k w q x : waitQueue c e = w :: q -> can_wake w x k ->
  runs 2 (here th (FProg (Signal c lk p) :: st) e (holding lk k)) =
    Ok (here th (FProg p :: st) (set_waitQueue c q e) (holding lk (woken (SUser w) x k))).
Proof.
  intros Hw [Hs Hq]. rewrite runs_S. unfold Signal. rewrite do_here, CHeld_holding. cbn [obind].
  rewrite runs_S, go_here, Hw. cbn [ListSpec.RemoveFront obind do_call].
  change (currentThread (here _ _ _ _)) with (currentThread k).
  rewrite set_stack_here. cbn [obind]. rewrite (V_here _ x); [by rewrite woken_holding | | exact Hq].
  cbn. by rewrite lookup_insert_ne.
Qed.

(** The states of a thread inside [Wait]: asleep on [w], then woken. *)
Definition waiting (w lk self : nat) (st : list (@frame E)) : list (@frame E) :=
  FP (SUser w) IntOn :: FProg (do_ (CAcquire lk (do_ (CDelSem w (do_ (CJump self)))))) :: st.

(** [Wait], with the lock held: the thread gives the lock back and sleeps. *)
Lemma wait_here c lk self st th e k : level k = IntOn -> lock_free lk k ->
  Forall (fun v => is_Some (sems k !! SUser v)) (waitQueue c e) ->
  exists w, sems k !! SUser w = None /\
    runs 5 (here th (FProg (Wait c lk (do_ (CJump self))) :: st) e (holding lk k)) =
    Sleep_loop false (here (with_status BLOCKED th) (waiting w lk self st) (set_waitQueue c (waitQueue c e ++ [w]) e)
      (set_level IntOff (put_sem (SUser w) (mkSemaphore 0 [currentThread k]) k))).
Proof.
  intros Hl Hf Hw. set (w := fresh (user_ids (sems (holding lk k)))). exists w.
  assert (sems k !! SUser w = None) as Hn.
  { pose proof (fresh_user_id (holding lk k)) as H. fold w in H. cbn in H. by rewrite lookup_insert_ne in H. }
  split; [done |]. rewrite runs_S. unfold Wait. rewrite do_here, CHeld_holding. cbn [obind].
  rewrite runs_S, do_here. cbn [do_call].
  change (fresh (user_ids (sems (here _ _ _ _)))) with w.
  change (set_extra ?x (put_sem (SUser w) ?y (here th ?stk ?x0 (holding lk k))))
    with (here th stk x (put_sem (SUser w) y (holding lk k))). rewrite set_stack_here. cbn [obind].
  assert (put_sem (SUser w) (mkSemaphore 0 []) (holding lk k) = holding lk (put_sem (SUser w) (mkSemaphore 0 []) k)) as ->.
  { unfold holding, put_sem. cbn. by rewrite insert_insert_ne. }
  set (k1 := put_sem (SUser w) (mkSemaphore 0 []) k).
  assert (lock_free lk k1) as Hf1.
  { destruct Hf. split; [done |]. unfold k1, put_sem. cbn. by rewrite lookup_insert_ne. }
  rewrite runs_S, go_here. change (extra (here th ?a ?b (holding lk k))) with b.
  unfold ListSpec.Append. rewrite decide_False.
  2:{ intros Hin. rewrite Forall_forall in Hw. destruct (Hw w Hin) as [y Hy]. by rewrite Hn in Hy. }
  cbn [obind]. rewrite release_here by done. cbn [obind].
  rewrite runs_S, do_here. cbn [do_call]. rewrite (P_start_here _ IntOn) by done. cbn [obind]. rewrite runs_S.
  rewrite (P_block_here _ _ _ _ _ _ []);
    [|unfold k1, put_sem; cbn; by rewrite lookup_insert_eq | apply not_elem_of_nil | done].
  rewrite runs_last. do 2 f_equal. unfold k1, put_sem. cbn. by rewrite insert_insert_eq.
Qed.

Definition deleted (w : nat) k : Kern := set_level IntOn (set_sems (delete (SUser w) (sems k)) k).

(** The rest of [Wait], once woken: the lock is taken again. *)
Lemma woken_here w lk self st th e k : sems k !! SUser w = Some (mkSemaphore 1 []) -> lock_free lk k ->
  runs 6 (here th (waiting w lk self st) e k) = Ok (here th (FProg (procs self) :: st) e (holding lk (deleted w k))).
Proof.
  intros Hs Hf. unfold waiting. rewrite runs_S, (P_here _ _ _ _ _ _ 1 []) by done. cbn [obind].
  set (k1 := set_level IntOn _). assert (lock_free lk k1) as Hf1.
  { destruct Hf. split; [done |]. unfold k1, put_sem. cbn. by rewrite lookup_insert_ne. }
  change 5%nat with (3 + 2)%nat. rewrite runs_app, acquire_steps by done. cbn [obind].
  rewrite runs_S, do_here. cbn [do_call].
  unfold get_sem. change (sems (here _ _ _ (holding lk k1))) with (<[SLock lk := mkSemaphore 0 []]> (sems k1)).
  rewrite lookup_insert_ne by done. unfold k1 at 1, put_sem. cbn [sems set_level set_sems].
  rewrite lookup_insert_eq. cbn [obind].
  change (set_sems ?x (here th ?stk e (holding lk k1))) with (here th stk e (set_sems x (holding lk k1))).
  rewrite set_stack_here. cbn [obind]. rewrite runs_S, do_here, CJump_here. cbn [obind]. unfold runs. cbn [replicate run].
  do 2 f_equal. unfold k1, deleted, holding, put_sem. cbn.
  by rewrite delete_insert_ne, delete_insert_eq by done.
Qed.

(** The loop of [RemoveFront], with the lock held. *)
Lemma remove_here self kont st th e k x q : lock_free (lock l e) k -> list_ l e = x :: q ->
  runs 1 (here th (FProg (RemoveFront_loop l self kont) :: st) e (holding (lock l e) k)) =
    Ok (here th (FProg (kont x) :: st) (set_list l q e) k).
Proof.
  intros Hf Hq. rewrite runs_S. unfold RemoveFront_loop. rewrite go_here, Hq. cbn [ListSpec.RemoveFront obind].
  by rewrite release_here.
Qed.

Lemma remove_wait_here self kont st th e k : level k = IntOn -> lock_free (lock l e) k -> list_ l e = [] ->
  let c := listEmpty l in
  Forall (fun v => is_Some (sems k !! SUser v)) (waitQueue c e) ->
  exists w, sems k !! SUser w = None /\
    runs 6 (here th (FProg (RemoveFront_loop l self kont) :: st) e (holding (lock l e) k)) =
    Sleep_loop false (here (with_status BLOCKED th) (waiting w (lock l e) self st) (set_waitQueue c (waitQueue c e ++ [w]) e)
      (set_level IntOff (put_sem (SUser w) (mkSemaphore 0 [currentThread k]) k))).
Proof.
  intros Hl Hf Hq c Hw. destruct (wait_here c (lock l e) self st th e k Hl Hf Hw) as (w & Hn & E1).
  exists w. split; [done |]. rewrite runs_S. unfold RemoveFront_loop. rewrite go_here, Hq. cbn [obind].
  rewrite CGo_here. cbn [obind]. exact E1.
Qed.

(** [Append], up to its [Signal]. *)
Lemma append_here item kont st th e k :
  level k = IntOn -> lock_free (lock l e) k -> item ∉ list_ l e ->
  runs 4 (here th (FProg (SynchList_Append l item kont) :: st) e k) =
    Ok (here th (FProg (Signal (listEmpty l) (lock l e) (do_ (CRelease (lock l e) kont))) :: st)
      (set_list l (list_ l e ++ [item]) e) (holding (lock l e) k)).
Proof.
  intros Hl Hf Hi. change 4%nat with (3 + 1)%nat. rewrite runs_app. unfold SynchList_Append.
  rewrite (with_lock_here _ _ _ _ _ Hl Hf). cbn [obind]. rewrite runs_S, go_here.
  unfold ListSpec.Append. rewrite decide_False by done. cbn [obind]. by rewrite CGo_here.
Qed.

Lemma release_step lk p st th e k : lock_free lk k ->
  runs 1 (here th (FProg (do_ (CRelease lk p)) :: st) e (holding lk k)) = Ok (here th (FProg p :: st) e k).
Proof. intros Hf. by rewrite runs_S, do_here, release_here. Qed.

(** C29.  What a synchronised list promises its callers, for a thread that
    is not preempted in the call and finds the lock free.  [Append] puts
    the item at the end and, if threads wait for one, takes the first off
    the waiting queue and wakes it; an item that is in the list already
    fails the ASSERT of [List::Append].  [RemoveFront] takes the oldest
    item; with none it gives the lock back, joins the waiting queue on a
    semaphore of its own and sleeps.  Woken, it takes the lock again,
    deletes that semaphore and looks again: it takes the oldest item, or,
    when another thread took it first, goes back to sleep.  Every call that
    returns leaves the lock free and nothing else changed. *)
Theorem synchronised_list th st e k self kont rest :
  level k = IntOn -> lock_free (lock l e) k -> procs self = RemoveFront_loop l self kont ->
  let c := listEmpty l in
  let call p := here th (FProg p :: st) e k in
  let asleep w k' := Sleep_loop false (here (with_status BLOCKED th) (waiting w (lock l e) self st)
    (set_waitQueue c (waitQueue c e ++ [w]) e) (set_level IntOff (put_sem (SUser w) (mkSemaphore 0 [currentThread k]) k'))) in
  let alive k' := Forall (fun v => is_Some (sems k' !! SUser v)) (waitQueue c e) in
  (forall item, item ∉ list_ l e -> waitQueue c e = [] ->
     runs 7 (call (SynchList_Append l item rest)) =
       Ok (here th (FProg rest :: st) (set_list l (list_ l e ++ [item]) e) k)) /\
  (forall item w q x, item ∉ list_ l e -> waitQueue c e = w :: q -> can_wake w x k ->
     runs 7 (call (SynchList_Append l item rest)) =
       Ok (here th (FProg rest :: st) (set_waitQueue c q (set_list l (list_ l e ++ [item]) e)) (woken (SUser w) x k))) /\
  (forall item, item ∈ list_ l e -> runs 7 (call (SynchList_Append l item rest)) = Trap AssertFail) /\
  (forall x q, list_ l e = x :: q ->
     runs 5 (call (SynchList_RemoveFront l self)) = Ok (here th (FProg (kont x) :: st) (set_list l q e) k)) /\
  (list_ l e = [] -> alive k ->
     exists w, sems k !! SUser w = None /\ runs 10 (call (SynchList_RemoveFront l self)) = asleep w k) /\
  (forall w, sems k !! SUser w = Some (mkSemaphore 1 []) ->
     let resumed := here th (waiting w (lock l e) self st) e (set_level IntOff k) in
     (forall x q, list_ l e = x :: q ->
        runs 7 resumed = Ok (here th (FProg (kont x) :: st) (set_list l q e) (deleted w k))) /\
     (list_ l e = [] -> alive (deleted w k) ->
        exists w', sems (deleted w k) !! SUser w' = None /\ runs 12 resumed = asleep w' (deleted w k))).
Proof.
  intros Hl Hf Hself c call asleep alive. unfold call.
  assert (runs 4 (here th (FProg (SynchList_RemoveFront l self) :: st) e k) =
    Ok (here th (FProg (RemoveFront_loop l self kont) :: st) e (holding (lock l e) k))) as Hrem.
  { change 4%nat with (3 + 1)%nat. unfold SynchList_RemoveFront. rewrite runs_app, (with_lock_here _ _ _ _ _ Hl Hf).
    cbn [obind]. by rewrite runs_S, do_here, CJump_here, Hself. }
  split; [|split; [|split; [|split; [|split]]]].
  - intros item Hi Hw. change 7%nat with (4 + (2 + 1))%nat. rewrite runs_app, append_here by done. cbn [obind].
    rewrite runs_app, signal_none_here by (by rewrite wait_set_list). cbn [obind]. by rewrite release_step.
  - intros item w q x Hi Hw Hx. change 7%nat with (4 + (2 + 1))%nat. rewrite runs_app, append_here by done. cbn [obind].
    rewrite runs_app, (signal_here _ _ _ _ _ _ _ w q x) by (done || by rewrite wait_set_list). cbn [obind].
    by rewrite release_step by (by apply woken_lock_free).
  - intros item Hi. change 7%nat with (3 + 4)%nat. unfold SynchList_Append.
    rewrite runs_app, (with_lock_here _ _ _ _ _ Hl Hf). cbn [obind]. rewrite runs_S, go_here.
    unfold ListSpec.Append. by rewrite decide_True.
  - intros x q Hq. change 5%nat with (4 + 1)%nat. rewrite runs_app, Hrem. cbn [obind]. by rewrite (remove_here _ _ _ _ _ _ x q).
  - intros Hq Hw. destruct (remove_wait_here self kont st th e k Hl Hf Hq Hw) as (w & Hn & E1). exists w. split; [done |].
    change 10%nat with (4 + 6)%nat. rewrite runs_app, Hrem. exact E1.
  - intros w Hs. set (resumed := here th (waiting w (lock l e) self st) e (set_level IntOff k)).
    assert (runs 6 resumed = Ok (here th (FProg (RemoveFront_loop l self kont) :: st) e (holding (lock l e) (deleted w k)))) as Hr.
    { rewrite <- Hself. by apply (woken_here w (lock l e) self st th e (set_level IntOff k)). }
    assert (lock_free (lock l e) (deleted w k)) as Hf'.
    { destruct Hf. split; [done |]. unfold deleted. cbn. by rewrite lookup_delete_ne. }
    split.
    + intros x q Hq. change 7%nat with (6 + 1)%nat. rewrite runs_app, Hr. cbn [obind]. by rewrite (remove_here _ _ _ _ _ _ x q).
    + intros Hq Hw. destruct (remove_wait_here self kont st th e (deleted w k) eq_refl Hf' Hq Hw) as (w' & Hn & E1).
      exists w'. split; [done |]. change 12%nat with (6 + 6)%nat. rewrite runs_app, Hr. exact E1.
Qed.

End Promises.

#[export] Instance Semaphore_eq_dec : EqDecision Semaphore.
Proof. solve_decision. Defined.
#[export] Instance Mode_eq_dec : EqDecision Mode.
Proof. solve_decision. Defined.

End Synch.

(** ** Witness: one list, its lock free, one thread *)

Module SynchWitness.
Import Machine AddrSpace Threads Synch.

Record Data := mkData { items : list Z; the_lock : nat; waiters : list nat }.

Definition one_list : SynchList Data Z := {|
  list_ := items; lock := the_lock;
  set_list q e := mkData q (the_lock e) (waiters e);
  set_lock n e := mkData (items e) n (waiters e);
  listEmpty := {| waitQueue := waiters; set_waitQueue q e := mkData (items e) (the_lock e) q |} |}.

#[export] Instance one_list_fields : ListFields one_list.
Proof. by split. Qed.

#[export] Instance one_loop : Procs Data := fun self => RemoveFront_loop one_list self (fun _ => Return).

Definition thread0 : @Thread Data := mkThread [109] RUNNING [] None [].
Definition kern0 (e : Data) : @Kern Data :=
  mkKern IntOn Executing 0 {[0%nat := thread0]} [] None {[SLock 0 := mkSemaphore 1 []]} {[0%nat := None]}
    (new_Machine false) e.

Lemma kern0_free e : the_lock e = 0%nat -> lock_free (lock one_list e) (kern0 e).
Proof. intros He. cbn. rewrite He. split; vm_compute; reflexivity. Qed.

End SynchWitness.

Import Machine AddrSpace Threads Synch SynchWitness.

Lemma synchronised_list_witness :
  let e := mkData [5] 0 [] in
  runs 5 (here thread0 [FProg (SynchList_RemoveFront one_list 3)] e (kern0 e)) =
    Ok (here thread0 [FProg Return] (mkData [] 0 []) (kern0 e)) /\
  runs 7 (here thread0 [FProg (SynchList_Append one_list 6 Return)] e (kern0 e)) =
    Ok (here thread0 [FProg Return] (mkData [5; 6] 0 []) (kern0 e)).
Proof.
  intros e.
  destruct (synchronised_list one_list thread0 [] e (kern0 e) 3 (fun _ => Return) Return
    eq_refl (kern0_free e eq_refl) eq_refl) as (Happ & _ & _ & Hrem & _).
  split; [exact (Hrem 5 [] eq_refl) |].
  apply (Happ 6); [|reflexivity]. cbn. rewrite list_elem_of_singleton. lia.
Defined.
