(* ===== verification/Interrupt.v ===== *)
(** * The interrupt hardware and the devices: interrupt.{h,cc}, timer, alarm, console, stats

    Simulated time, the sorted list of pending interrupts and the devices
    that put themselves on it.  Threads.v takes timer and device interrupts
    as events that may happen whenever interrupts are enabled; this file
    models when the simulated hardware makes them happen.

    [pending] is the list specification [ListSpec] of LinkedList.v, which
    the pointer structure refines; its items are pointers, so each
    [PendingInterrupt] has an address.  The devices of the interface
    [Devices] are what the [CallBackObj]s are to this file; the concrete
    ones (timer with its alarm, console input and output) follow. *)

From Stdlib Require Import Sorted.
From S2P Require Import Prelude LinkedList Machine FileTable.

Module Interrupt.
Import Machine.

Inductive IntStatus := IntOff | IntOn.
Inductive IntType := TimerInt | DiskInt | ConsoleWriteInt | ConsoleReadInt | NetworkSendInt | NetworkRecvInt.

#[export] Instance IntStatus_eq_dec : EqDecision IntStatus.
Proof. solve_decision. Defined.
#[export] Instance IntType_eq_dec : EqDecision IntType.
Proof. solve_decision. Defined.
#[export] Instance MachineStatus_eq_dec : EqDecision MachineStatus.
Proof. solve_decision. Defined.

(** ** stats.h *)

Definition UserTick : Z := 1.
Definition SystemTick : Z := 10.
Definition ConsoleTime : Z := 100.
Definition TimerTicks : Z := 100.

Record Statistics := mkStats {
  totalTicks : Z; idleTicks : Z; systemTicks : Z; userTicks : Z;
  numDiskReads : Z; numDiskWrites : Z;
  numConsoleCharsRead : Z; numConsoleCharsWritten : Z;
  numPageFaults : Z; numPacketsSent : Z; numPacketsRecvd : Z
}.
Definition new_Statistics : Statistics := mkStats 0 0 0 0 0 0 0 0 0 0 0.

Definition set_ticks (total idle system user : Z) (st : Statistics) : Statistics :=
  mkStats total idle system user (numDiskReads st) (numDiskWrites st) (numConsoleCharsRead st)
    (numConsoleCharsWritten st) (numPageFaults st) (numPacketsSent st) (numPacketsRecvd st).
Definition set_counts (dr dw cr cw : Z) (st : Statistics) : Statistics :=
  mkStats (totalTicks st) (idleTicks st) (systemTicks st) (userTicks st) dr dw cr cw
    (numPageFaults st) (numPacketsSent st) (numPacketsRecvd st).

(** ** interrupt.h *)

Section Hardware.
(** The objects that can be called back, and the rest of the system. *)
Context {Obj : Type} `{EqDecision Obj} {D : Type}.

Record PendingInterrupt := mkPending { address : positive; callOnInterrupt : Obj; when : Z; type : IntType }.

#[export] Instance PendingInterrupt_eq_dec : EqDecision PendingInterrupt.
Proof. solve_decision. Defined.

Record Interrupt := mkInterrupt {
  level : IntStatus;
  pending : list PendingInterrupt;
  inHandler : bool;
  yieldOnReturn : bool;
  status : MachineStatus
}.

Record Sys := mkSys {
  interrupt : Interrupt;
  stats : Statistics;
  brk : positive;               (* the next address of [new] *)
  machine : option Machine;
  rest : D
}.

Definition PendingCompare (x y : PendingInterrupt) : Z :=
  if when x <? when y then -1 else if when y <? when x then 1 else 0.

Definition new_Interrupt : Interrupt := mkInterrupt IntOff [] false false SystemMode.

Definition set_level l (i : Interrupt) := mkInterrupt l (pending i) (inHandler i) (yieldOnReturn i) (status i).
Definition set_pending p (i : Interrupt) := mkInterrupt (level i) p (inHandler i) (yieldOnReturn i) (status i).
Definition set_inHandler b (i : Interrupt) := mkInterrupt (level i) (pending i) b (yieldOnReturn i) (status i).
Definition set_yield b (i : Interrupt) := mkInterrupt (level i) (pending i) (inHandler i) b (status i).
Definition set_status st (i : Interrupt) := mkInterrupt (level i) (pending i) (inHandler i) (yieldOnReturn i) st.
Definition on_int (f : Interrupt -> Interrupt) (s : Sys) : Sys :=
  mkSys (f (interrupt s)) (stats s) (brk s) (machine s) (rest s).
Definition on_stats (f : Statistics -> Statistics) (s : Sys) : Sys :=
  mkSys (interrupt s) (f (stats s)) (brk s) (machine s) (rest s).
Definition on_rest (f : D -> D) (s : Sys) : Sys :=
  mkSys (interrupt s) (stats s) (brk s) (machine s) (f (rest s)).

Definition now (s : Sys) : Z := totalTicks (stats s).

(** ** interrupt.cc, but for what calls back *)

Definition ChangeLevel (l : IntStatus) (s : Sys) : Sys := on_int (set_level l) s.

Definition YieldOnReturn (s : Sys) : outcome Sys :=
  assert! inHandler (interrupt s); Ok (on_int (set_yield true) s).

Definition Schedule (toCall : Obj) (fromNow : Z) (ty : IntType) (s : Sys) : outcome Sys :=
  let toOccur := mkPending (brk s) toCall (s32 (now s + fromNow)) ty in
  let s := mkSys (interrupt s) (stats s) (Pos.succ (brk s)) (machine s) (rest s) in
  assert! (0 <? fromNow);
  let! p := ListSpec.Insert PendingCompare (pending (interrupt s)) toOccur in
  Ok (on_int (set_pending p) s).

(** ** The rest of interrupt.cc *)

(** [callOnInterrupt->CallBack()], and [kernel->currentThread->Yield()]. *)
Context (CallBack : Obj -> Sys -> outcome Sys) (Yield : Sys -> outcome Sys).

(** The do-while loop of [CheckIfDue]; [fuel] bounds the calls. *)
Fixpoint fire (fuel : nat) (s : Sys) : outcome Sys :=
  match fuel with
  | O => Trap NoFuel
  | Datatypes.S fuel' =>
      let! ' (next, p) := ListSpec.RemoveFront (pending (interrupt s)) in
      let! s := CallBack (callOnInterrupt next) (on_int (set_pending p) s) in
      match pending (interrupt s) with
      | [] => Ok s
      | front :: _ => if when front <=? now s then fire fuel' s else Ok s
      end
  end.

Definition advance_clock (t : Z) (st : Statistics) : Statistics :=
  set_ticks t (s32 (idleTicks st + s32 (t - totalTicks st))) (systemTicks st) (userTicks st) st.

(** The calls of the loop are at most the pending interrupts: one that is
    scheduled meanwhile is for later. *)
Definition CheckIfDue (advanceClock : bool) (s : Sys) : outcome (bool * Sys) :=
  assert! bool_decide (level (interrupt s) = IntOff);
  match pending (interrupt s) with
  | [] => Ok (false, s)
  | next :: _ =>
      if (now s <? when next) && negb advanceClock then Ok (false, s)
      else
        let s := if now s <? when next then on_stats (advance_clock (when next)) s else s in
        let! m := (match machine s with
                   | Some m => let! m := DelayedLoad m 0 0 in Ok (Some m)
                   | None => Ok None
                   end) in
        let s := mkSys (set_inHandler true (interrupt s)) (stats s) (brk s) m (rest s) in
        let! s := fire (length (pending (interrupt s))) s in
        Ok (true, on_int (set_inHandler false) s)
  end.

Definition tick (st : Statistics) (mode : MachineStatus) : Statistics :=
  match mode with
  | SystemMode => set_ticks (s32 (totalTicks st + SystemTick)) (idleTicks st) (s32 (systemTicks st + SystemTick)) (userTicks st) st
  | _ => set_ticks (s32 (totalTicks st + UserTick)) (idleTicks st) (systemTicks st) (s32 (userTicks st + UserTick)) st
  end.

(** [OneTick] up to the test of [yieldOnReturn]. *)
Definition OneTick_check (s : Sys) : outcome Sys :=
  let s := on_stats (fun st => tick st (status (interrupt s))) s in
  let s := ChangeLevel IntOff s in
  let! ' (_, s) := CheckIfDue false s in
  Ok (ChangeLevel IntOn s).

Definition OneTick (s : Sys) : outcome Sys :=
  let oldStatus := status (interrupt s) in
  let! s := OneTick_check s in
  if yieldOnReturn (interrupt s) then
    let s := on_int (fun i => set_status SystemMode (set_yield false i)) s in
    let! s := Yield s in
    Ok (on_int (set_status oldStatus) s)
  else Ok s.

Definition SetLevel (l : IntStatus) (s : Sys) : outcome (IntStatus * Sys) :=
  let old := level (interrupt s) in
  assert! bool_decide (l = IntOff) || negb (inHandler (interrupt s));
  let s := ChangeLevel l s in
  let! s := (if bool_decide (l = IntOn) && bool_decide (old = IntOff) then OneTick s else Ok s) in
  Ok (old, s).

Definition Enable (s : Sys) : outcome Sys := let! ' (_, s) := SetLevel IntOn s in Ok s.

Definition Idle (s : Sys) : outcome Sys :=
  let s := on_int (set_status IdleMode) s in
  let! ' (fired, s) := CheckIfDue true s in
  if (fired : bool) then Ok (on_int (set_status SystemMode) s) else Trap Halted.

(** ** What handlers may do *)

Definition MaxDelay : Z := 2 * TimerTicks.

Definition same_clock (st st' : Statistics) : Prop :=
  totalTicks st' = totalTicks st /\ idleTicks st' = idleTicks st /\
  systemTicks st' = systemTicks st /\ userTicks st' = userTicks st.

(** A handler schedules interrupts for later, asks for a context switch
    and works on the rest of the system. *)
Inductive effect : Sys -> Sys -> Prop :=
| eff_done s : effect s s
| eff_schedule s o d ty s1 s2 : 0 < d <= MaxDelay -> Schedule o d ty s = Ok s1 -> effect s1 s2 -> effect s s2
| eff_yield s s1 s2 : YieldOnReturn s = Ok s1 -> effect s1 s2 -> effect s s2
| eff_rest s st m d s2 : same_clock (stats s) st -> effect (mkSys (interrupt s) st (brk s) m d) s2 -> effect s s2.

Class Handlers : Prop := {
  handler_effect o s s' : CallBack o s = Ok s' -> effect s s';
  handler_trap o s t : CallBack o s = Trap t -> t <> NoFuel /\ t <> Halted
}.

Definition sorted (l : list PendingInterrupt) : Prop := StronglySorted (LinkedList.cmp_le PendingCompare) l.

Record wf (s : Sys) : Prop := {
  wf_sorted : sorted (pending (interrupt s));
  wf_nodup : NoDup (address <$> pending (interrupt s));
  wf_brk : Forall (fun p => Pos.lt (address p) (brk s)) (pending (interrupt s));
  wf_now : 0 <= now s;
  wf_time : now s + MaxDelay < 2 ^ 31
}.

Definition due_by (t : Z) (p : PendingInterrupt) : Prop := when p <= t.
Definition after (t : Z) (p : PendingInterrupt) : Prop := t < when p.

#[export] Instance due_by_dec t p : Decision (due_by t p) := Z_le_dec _ _.
#[export] Instance after_dec t p : Decision (after t p) := Z_lt_dec _ _.

(** When [CheckIfDue] looks, and the clock then. *)
Definition fire_time (advanceClock : bool) (s : Sys) : Z :=
  match pending (interrupt s) with
  | next :: _ => if advanceClock then Z.max (now s) (when next) else now s
  | [] => now s
  end.
Definition clock_at (t : Z) (s : Sys) : Statistics :=
  if now s <? t then advance_clock t (stats s) else stats s.

(** The handlers of [l] are called one after the other, each taken from
    the front of the list. *)
Inductive fires : list PendingInterrupt -> Sys -> Sys -> Prop :=
| fires_nil s : fires [] s s
| fires_cons p l q s s1 s2 :
    pending (interrupt s) = p :: q -> CallBack (callOnInterrupt p) (on_int (set_pending q) s) = Ok s1 ->
    fires l s1 s2 -> fires (p :: l) s s2.

Lemma PendingCompare_le x y : LinkedList.cmp_le PendingCompare x y <-> when x <= when y.
Proof. unfold LinkedList.cmp_le, PendingCompare. destruct (Z.ltb_spec (when x) (when y)), (Z.ltb_spec (when y) (when x)); lia. Qed.

Lemma PendingCompare_lt x y : PendingCompare x y <? 0 = (when x <? when y).
Proof. unfold PendingCompare. destruct (Z.ltb_spec (when x) (when y)), (Z.ltb_spec (when y) (when x)); done || lia. Qed.

Lemma sorted_insert_after x l1 l2 : Forall (fun y => when y <= when x) l1 ->
  ListSpec.sorted_insert PendingCompare x (l1 ++ l2) = l1 ++ ListSpec.sorted_insert PendingCompare x l2.
Proof.
  induction 1 as [|y l1 Hy _ IH]; [done |]. cbn [app ListSpec.sorted_insert].
  rewrite PendingCompare_lt, (proj2 (Z.ltb_ge _ _)) by lia. by rewrite IH.
Qed.

Lemma insert_elem x y l : y ∈ ListSpec.sorted_insert PendingCompare x l <-> y = x \/ y ∈ l.
Proof. rewrite LinkedList.sorted_insert_perm. by rewrite elem_of_cons. Qed.

Lemma PendingCompare_order : LinkedList.compare_order PendingCompare.
Proof.
  split; intros x y.
  - unfold PendingCompare. destruct (Z.ltb_spec (when x) (when y)), (Z.ltb_spec (when y) (when x)); lia.
  - intros z Hxy%PendingCompare_le Hyz%PendingCompare_le. apply PendingCompare_le. lia.
Qed.

(** [Schedule] for later, with time left before the clock overflows. *)
Lemma Schedule_ok o d ty s : wf s -> 0 < d <= MaxDelay ->
  exists s', Schedule o d ty s = Ok s' /\ wf s' /\
    s' = mkSys (set_pending (ListSpec.sorted_insert PendingCompare (mkPending (brk s) o (now s + d) ty) (pending (interrupt s)))
                 (interrupt s)) (stats s) (Pos.succ (brk s)) (machine s) (rest s).
Proof.
  intros [Hs Hn Hb H0 Ht] Hd. unfold Schedule.
  rewrite (s32_id (now s + d)) by (unfold is_s32; lia). rewrite (proj2 (Z.ltb_lt 0 d)) by lia. cbn [obind assert_].
  unfold ListSpec.Insert. cbn [interrupt].
  set (x := mkPending _ _ _ _).
  assert (address x ∉ address <$> pending (interrupt s)) as Hx.
  { intros (p & Hp & Hin)%list_elem_of_fmap. pose proof (Forall_elem _ _ _ Hb Hin) as Hlt. cbn in Hlt, Hp. lia. }
  rewrite decide_False by (intros Hin; apply Hx; by apply list_elem_of_fmap_2).
  cbn [obind]. eexists. split; [done |]. split; [|done]. split; cbn [on_int interrupt set_pending pending brk stats now].
  - apply LinkedList.sorted_insert_sorted; [apply PendingCompare_order | done].
  - rewrite LinkedList.sorted_insert_perm. constructor; [done | done].
  - rewrite LinkedList.sorted_insert_perm. constructor; [cbn; lia |]. eapply Forall_impl; [exact Hb |]. cbn. lia.
  - exact H0.
  - exact Ht.
Qed.

(** What is due stays in front, in its order; what a handler adds is for
    later; clock, level and mode stay. *)
Record kept (due : list PendingInterrupt) (s s' : Sys) : Prop := {
  k_wf : wf s';
  k_clock : same_clock (stats s) (stats s');
  k_level : level (interrupt s') = level (interrupt s);
  k_handler : inHandler (interrupt s') = inHandler (interrupt s);
  k_status : status (interrupt s') = status (interrupt s);
  k_yield : yieldOnReturn (interrupt s) = true -> yieldOnReturn (interrupt s') = true;
  k_pending : forall later, pending (interrupt s) = due ++ later -> Forall (after (now s)) later ->
    exists later', pending (interrupt s') = due ++ later' /\ Forall (after (now s)) later' /\
      forall p, p ∈ later -> p ∈ later'
}.

Lemma same_clock_trans st1 st2 st3 : same_clock st1 st2 -> same_clock st2 st3 -> same_clock st1 st3.
Proof. intros (?&?&?&?) (?&?&?&?). split; [congruence |]. split; [congruence |]. split; congruence. Qed.

Lemma kept_refl due s : wf s -> kept due s s.
Proof. intros Hwf. split; try done. intros later ? ?. by exists later. Qed.

Lemma kept_trans due s1 s2 s3 : kept due s1 s2 -> kept due s2 s3 -> kept due s1 s3.
Proof.
  intros [W1 C1 L1 H1 S1 Y1 P1] [W2 C2 L2 H2 S2 Y2 P2]. split; try congruence.
  - by eapply same_clock_trans.
  - auto.
  - assert (now s2 = now s1) as En by apply C1.
    intros later Hp Ha. destruct (P1 later Hp Ha) as (l1 & Hp1 & Ha1 & Hi1).
    destruct (P2 l1 Hp1) as (l2 & Hp2 & Ha2 & Hi2); [by rewrite En |].
    exists l2. rewrite En in Ha2. split; [done |]. split; [done |]. auto.
Qed.

Lemma effect_kept due s s' : effect s s' -> wf s -> Forall (due_by (now s)) due -> kept due s s'.
Proof.
  intros He. induction He as [s|s o d ty s1 s2 Hd Hsch _ IH|s s1 s2 Hy _ IH|s st m d s2 Hc _ IH]; intros Hwf Hdue.
  - by apply kept_refl.
  - destruct (Schedule_ok o d ty s Hwf Hd) as (s1' & E & Hwf1 & Es). rewrite E in Hsch. injection Hsch as ->.
    eapply kept_trans; [|apply IH; [done | by rewrite Es]]. rewrite Es in Hwf1 |- *. split; try done.
    intros later Hp Ha. cbn [interrupt set_pending pending]. rewrite Hp, sorted_insert_after.
    + eexists. split; [done |]. split.
      * rewrite LinkedList.sorted_insert_perm. constructor; [unfold after; cbn; lia | done].
      * intros p Hin. apply insert_elem. by right.
    + eapply Forall_impl; [exact Hdue |]. unfold due_by. cbn. lia.
  - unfold YieldOnReturn in Hy. destruct (inHandler (interrupt s)) eqn:Eh; [|done]. injection Hy as <-.
    eapply kept_trans; [|apply IH; [|done]].
    + split; try done; [by destruct Hwf|]. intros later ? ?. by exists later.
    + by destruct Hwf.
  - assert (wf (mkSys (interrupt s) st (brk s) m d)) as Hwf1.
    { destruct Hwf as [? ? ? Hn Ht]. destruct Hc as [E _]. split; try done; unfold now in *; cbn; by rewrite E. }
    assert (now (mkSys (interrupt s) st (brk s) m d) = now s) as En by apply Hc.
    eapply kept_trans; [|apply IH; [done | by rewrite En]].
    split; try done. intros later ? ?. by exists later.
Qed.

(** What effects do without the invariant. *)
Lemma effect_modes s s' : effect s s' ->
  status (interrupt s') = status (interrupt s) /\ now s' = now s /\
  (yieldOnReturn (interrupt s) = true -> yieldOnReturn (interrupt s') = true) /\
  forall p, p ∈ pending (interrupt s) -> p ∈ pending (interrupt s').
Proof.
  induction 1 as [s|s o d ty s1 s2 _ Hs _ (E1 & E2 & E3 & E4)|s s1 s2 Hy _ (E1 & E2 & E3 & E4)|s st m d s2 Hc _ (E1 & E2 & E3 & E4)].
  - done.
  - unfold Schedule in Hs. destruct (0 <? d); [|done]. cbn [obind assert_] in Hs. unfold ListSpec.Insert in Hs.
    destruct (decide _); [done |]. injection Hs as <-. split; [done |]. split; [done |]. split; [done |].
    intros p Hp. apply E4, insert_elem. by right.
  - unfold YieldOnReturn in Hy. destruct (inHandler _); [|done]. injection Hy as <-. split; [done |]. split; [done |]. split; [auto |]. auto.
  - destruct Hc as [Hc _]. split; [done |]. split; [rewrite E2; exact Hc |]. split; [auto |]. auto.
Qed.

Lemma wf_pop p q s : wf s -> pending (interrupt s) = p :: q -> wf (on_int (set_pending q) s).
Proof.
  intros [Hs Hn Hb H0 Ht] E. rewrite E in Hs, Hn, Hb.
  inversion Hs. inversion Hn. inversion Hb. by split.
Qed.

Context `{HH : !Handlers}.

(** The loop calls exactly what is due. *)
Lemma fire_spec due p later s fuel :
  wf s -> pending (interrupt s) = p :: due ++ later ->
  Forall (due_by (now s)) (p :: due) -> Forall (after (now s)) later -> (length due < fuel)%nat ->
  (forall t, fire fuel s = Trap t -> t <> NoFuel /\ t <> Halted) /\
  forall s', fire fuel s = Ok s' -> fires (p :: due) s s' /\ kept [] (on_int (set_pending later) s) s'.
Proof.
  revert p s fuel later. induction due as [|p' due IH]; intros p s fuel later Hwf Hp Hdue Hlater Hf;
    (destruct fuel as [|fuel]; [cbn in Hf; lia |]); cbn [fire]; rewrite Hp; cbn [ListSpec.RemoveFront obind app];
    inversion Hdue as [|? ? Hp1 Hdue1]; subst.
  - pose proof (wf_pop _ _ _ Hwf Hp) as Hwf1.
    destruct (CallBack (callOnInterrupt p) (on_int (set_pending later) s)) as [s1|t] eqn:Ec; cbn [obind].
    2:{ split; [|done]. intros t' [= <-]. by apply handler_trap in Ec. }
    pose proof (effect_kept [] _ _ (handler_effect _ _ _ Ec) Hwf1 (Forall_nil_2 _)) as Hk.
    assert (now s1 = now s) as En by apply (k_clock _ _ _ Hk).
    destruct (k_pending _ _ _ Hk later eq_refl Hlater) as (later' & Hp' & Ha & _). cbn [app] in Hp'.
    assert (forall s', match pending (interrupt s1) with [] => Ok s1 | f :: _ => if when f <=? now s1 then fire fuel s1 else Ok s1 end
              = Ok s' -> s' = s1) as Hend.
    { intros s'. rewrite Hp'. destruct later' as [|f l]; [by intros [= <-] |].
      inversion Ha as [|? ? Hf' _]; subst. unfold after in Hf'. cbn in Hf'. rewrite (proj2 (Z.leb_gt _ _)) by (rewrite En; exact Hf').
      by intros [= <-]. }
    split.
    + rewrite Hp'. destruct later' as [|f l]; [done |]. inversion Ha as [|? ? Hf' _]; subst.
      unfold after in Hf'. cbn in Hf'. by rewrite (proj2 (Z.leb_gt _ _)) by (rewrite En; exact Hf').
    + intros s' ->%Hend. split; [|done]. eapply fires_cons; [exact Hp | exact Ec | constructor].
  - pose proof (wf_pop _ _ _ Hwf Hp) as Hwf1.
    destruct (CallBack (callOnInterrupt p) _) as [s1|t] eqn:Ec; cbn [obind].
    2:{ split; [|done]. intros t' [= <-]. by apply handler_trap in Ec. }
    pose proof (effect_kept (p' :: due) _ _ (handler_effect _ _ _ Ec) Hwf1 Hdue1) as Hk.
    assert (now s1 = now s) as En by apply (k_clock _ _ _ Hk).
    destruct (k_pending _ _ _ Hk later eq_refl Hlater) as (later' & Hp' & Ha & Hin).
    rewrite Hp'. cbn [app]. inversion Hdue1 as [|? ? Hp'1 _]; subst.
    rewrite (proj2 (Z.leb_le _ _)) by (rewrite En; exact Hp'1).
    destruct (IH p' s1 fuel later' (k_wf _ _ _ Hk) Hp') as [Hnf Hok]; [by rewrite En | by rewrite En | cbn in Hf; lia |].
    split; [exact Hnf |]. intros s' E. destruct (Hok s' E) as [Hfs Hk'].
    split; [by eapply fires_cons |]. eapply kept_trans; [|exact Hk'].
    destruct Hk as [W C L H S Y P]. split; try done.
    + destruct W as [W1 W2 W3 W4 W5]. rewrite Hp' in W1, W2, W3.
      assert (forall l : list PendingInterrupt, sorted ((p' :: due) ++ l) -> sorted l) as Hsuf.
      { generalize (p' :: due) as l0. induction l0 as [|x l0 IH0]; intros l; [done |]. intros Hs. inversion Hs; subst. by apply IH0. }
      split; cbn [on_int interrupt set_pending pending brk]; [by apply Hsuf | | | done | done].
      * rewrite fmap_app in W2. by apply NoDup_app in W2 as (_ & _ & ?).
      * by apply Forall_app in W3 as [_ ?].
    + intros l Hl Hal. cbn in Hl. subst l. exists later'. done.
Qed.

Lemma filter_none (P : PendingInterrupt -> Prop) `{forall x, Decision (P x)} l :
  (forall x, x ∈ l -> ~ P x) -> filter P l = [].
Proof.
  induction l as [|x l IH]; intros Hl; [done |]. rewrite filter_cons_False by (apply Hl; set_solver).
  apply IH. intros y Hy. apply Hl. set_solver.
Qed.

Lemma sorted_split t l : sorted l -> l = filter (due_by t) l ++ filter (after t) l.
Proof.
  unfold sorted. induction 1 as [|p l Hs IH Hp]; [done |]. rewrite !filter_cons.
  destruct (decide (due_by t p)) as [Hd|Hd], (decide (after t p)) as [Ha|Ha];
    unfold due_by, after in Hd, Ha; try lia; [by rewrite <- app_comm_cons, <- IH |].
  assert (filter (due_by t) l = []) as E.
  { apply filter_none. intros q Hq. rewrite Forall_forall in Hp.
    specialize (Hp q Hq). rewrite PendingCompare_le in Hp. unfold due_by. lia. }
  rewrite E in IH |- *. cbn [app] in IH |- *. by rewrite <- IH.
Qed.

Lemma Forall_filter_in (P : PendingInterrupt -> Prop) `{forall x, Decision (P x)} l : Forall P (filter P l).
Proof. apply Forall_forall. intros x Hx. by apply list_elem_of_filter in Hx as [? _]. Qed.

(** Where the loop starts from. *)
Definition to_handlers (t : Z) (m : option Machine) (s : Sys) : Sys :=
  mkSys (set_inHandler true (interrupt s)) (clock_at t s) (brk s) m (rest s).

Lemma fire_time_ge adv s : now s <= fire_time adv s.
Proof. unfold fire_time. destruct (pending _); [lia |]. destruct adv; lia. Qed.

Lemma now_to_handlers adv m s : now (to_handlers (fire_time adv s) m s) = fire_time adv s.
Proof.
  pose proof (fire_time_ge adv s). unfold now at 1, to_handlers, clock_at. cbn [stats].
  destruct (Z.ltb_spec (now s) (fire_time adv s)); [done |]. change (totalTicks (stats s)) with (now s). lia.
Qed.

(** The handlers' start as the code reaches it. *)
Lemma to_handlers_start adv m s next q :
  pending (interrupt s) = next :: q -> (now s <? when next) && negb adv = false ->
  let s1 := if now s <? when next then on_stats (advance_clock (when next)) s else s in
  mkSys (set_inHandler true (interrupt s1)) (stats s1) (brk s1) m (rest s1) = to_handlers (fire_time adv s) m s.
Proof.
  intros Ep Ee. cbn zeta. unfold to_handlers, clock_at, fire_time. rewrite Ep.
  destruct (Z.ltb_spec (now s) (when next)) as [H|H].
  - destruct adv; [|done]. by rewrite Z.max_r, (proj2 (Z.ltb_lt _ _)) by lia.
  - destruct adv; [rewrite Z.max_l by lia |]; by rewrite Z.ltb_irrefl.
Qed.

(** Nothing is due when the first is not. *)
Lemma none_due t s next q : wf s -> pending (interrupt s) = next :: q -> t < when next ->
  filter (due_by t) (next :: q) = [].
Proof.
  intros Hwf Ep Hlt. apply filter_none. intros p Hin. unfold due_by.
  pose proof (wf_sorted _ Hwf) as Hs. rewrite Ep in Hs. inversion Hs as [|? ? _ Hle]; subst.
  apply elem_of_cons in Hin as [->|Hin]; [lia |]. rewrite Forall_forall in Hle. specialize (Hle _ Hin).
  apply PendingCompare_le in Hle. lia.
Qed.

Lemma DelayedLoad_trap m r v t : DelayedLoad m r v = Trap t -> t = Undefined.
Proof. unfold DelayedLoad, arr_set. destruct ((0 <=? _) && _); [done |]. by intros [= <-]. Qed.

Lemma CheckIfDue_spec adv s :
  wf s -> level (interrupt s) = IntOff -> fire_time adv s + MaxDelay < 2 ^ 31 ->
  let t := fire_time adv s in
  let due := filter (due_by t) (pending (interrupt s)) in
  let later := filter (after t) (pending (interrupt s)) in
  (forall t, CheckIfDue adv s = Trap t -> t <> NoFuel /\ t <> Halted) /\
  forall b s', CheckIfDue adv s = Ok (b, s') ->
    (b = false /\ due = [] /\ s' = s) \/
    (b = true /\ due <> [] /\ exists m s1, fires due (to_handlers t m s) s1 /\
       kept [] (on_int (set_pending later) (to_handlers t m s)) s1 /\ s' = on_int (set_inHandler false) s1).
Proof.
  intros Hwf Hl Ht. cbn zeta. unfold CheckIfDue. rewrite Hl, bool_decide_true by done. cbn [obind assert_].
  pose proof (sorted_split (fire_time adv s) _ (wf_sorted _ Hwf)) as Hsplit.
  destruct (pending (interrupt s)) as [|next q] eqn:Ep; [split; [done |]; intros b s' [= <- <-]; by left |].
  destruct ((now s <? when next) && negb adv) eqn:Ee.
  { apply andb_true_iff in Ee as [Hlt%Z.ltb_lt Hadv]. destruct adv; [done |]. split; [done |]. intros b s' [= <- <-].
    left. split; [done |]. split; [|done]. apply (none_due _ s); [done | done |]. unfold fire_time. by rewrite Ep. }
  assert (due_by (fire_time adv s) next) as Hnext.
  { unfold fire_time, due_by. rewrite Ep. destruct adv; [lia |]. destruct (Z.ltb_spec (now s) (when next)); [done | lia]. }
  rewrite filter_cons, decide_True in Hsplit |- * by done.
  set (due := filter (due_by _) q) in *. set (later := filter (after _) _) in *.
  assert (forall m, wf (to_handlers (fire_time adv s) m s)) as Hgo.
  { intros m. pose proof (fire_time_ge adv s). destruct Hwf as [? ? ? H0 _].
    split; [done | done | done | rewrite now_to_handlers; lia | by rewrite now_to_handlers]. }
  match goal with |- context [obind ?d _] => destruct d as [m|e] eqn:Edl end; cbn [obind].
  2:{ split; [|done]. intros t [= <-]. destruct (machine _) as [m|]; [|done].
      destruct (DelayedLoad m 0 0) as [|t] eqn:E; [done |]. injection Edl as <-. by apply DelayedLoad_trap in E as ->. }
  rewrite (to_handlers_start adv m s next q Ep Ee). pose proof (Hgo m) as Hwf'. pose proof (now_to_handlers adv m s) as En.
  destruct (fire_spec due next later (to_handlers (fire_time adv s) m s)
    (length (pending (interrupt (to_handlers (fire_time adv s) m s)))) Hwf') as [Hnf Hok].
  - cbn. by rewrite Ep.
  - rewrite En. constructor; [done |]. apply Forall_filter_in.
  - rewrite En. apply Forall_filter_in.
  - apply (f_equal length) in Hsplit. rewrite length_app in Hsplit. cbn in Hsplit |- *. rewrite Ep. cbn. lia.
  - destruct (fire _ _) as [s1|e]; cbn [obind]; [|split; [|done]; intros t [= <-]; by apply Hnf].
    split; [done |]. intros b s' [= <- <-]. right. destruct (Hok s1 eq_refl) as [Hf Hk].
    split; [done |]. split; [done |]. exists m, s1. done.
Qed.

(** The accounts: every tick is idle, system or user time. *)
Record accounted (s : Sys) : Prop := {
  acc_sum : now s = idleTicks (stats s) + systemTicks (stats s) + userTicks (stats s);
  acc_idle : 0 <= idleTicks (stats s);
  acc_system : 0 <= systemTicks (stats s);
  acc_user : 0 <= userTicks (stats s)
}.

Lemma accounted_clock s s' : same_clock (stats s) (stats s') -> accounted s -> accounted s'.
Proof. intros (E1 & E2 & E3 & E4) [? ? ? ?]. unfold now in *. split; unfold now; congruence. Qed.

Lemma accounted_advance s t : accounted s -> now s <= t < 2 ^ 31 ->
  idleTicks (clock_at t s) + systemTicks (clock_at t s) + userTicks (clock_at t s) = t /\
  0 <= idleTicks (clock_at t s) /\ 0 <= systemTicks (clock_at t s) /\ 0 <= userTicks (clock_at t s) /\
  totalTicks (clock_at t s) = t.
Proof.
  intros [Hs Hi Hsy Hu] Ht. unfold clock_at, now in *. destruct (Z.ltb_spec (totalTicks (stats s)) t).
  - cbn [advance_clock set_ticks idleTicks systemTicks userTicks totalTicks].
    rewrite (s32_id (t - _)), s32_id by (unfold is_s32; lia). lia.
  - lia.
Qed.

Lemma CheckIfDue_accounts adv s b s' :
  wf s -> accounted s -> level (interrupt s) = IntOff -> fire_time adv s + MaxDelay < 2 ^ 31 ->
  CheckIfDue adv s = Ok (b, s') ->
  accounted s' /\ wf s' /\ now s' = (if b then fire_time adv s else now s) /\ level (interrupt s') = IntOff /\
  status (interrupt s') = status (interrupt s).
Proof.
  intros Hwf Hac Hl Ht E. destruct (CheckIfDue_spec adv s Hwf Hl Ht) as [_ H].
  destruct (H b s' E) as [(-> & _ & ->)|(-> & _ & m & s1 & _ & [Hwf' Hc Hl' _ Hst _ _] & ->)]; [done |].
  pose proof (fire_time_ge adv s) as Hge. unfold MaxDelay, TimerTicks in Ht.
  destruct (accounted_advance s (fire_time adv s) Hac ltac:(lia)) as (Hsum & H1 & H2 & H3 & Htot).
  assert (accounted s1 /\ now s1 = fire_time adv s) as [Ha En].
  { split.
    - apply (accounted_clock _ _ Hc). split; cbn; [|done..]. unfold now. cbn. lia.
    - destruct Hc as [Hc _]. cbn in Hc. unfold now. congruence. }
  split; [destruct Ha; by split |]. split; [destruct Hwf'; by split |]. split; [exact En |].
  split; [cbn; by rewrite Hl' |]. cbn. by rewrite Hst.
Qed.

Definition tick_of (mode : MachineStatus) : Z := if bool_decide (mode = SystemMode) then SystemTick else UserTick.

Lemma tick_accounts s mode : accounted s -> now s + SystemTick < 2 ^ 31 ->
  totalTicks (tick (stats s) mode) = now s + tick_of mode /\
  accounted (ChangeLevel IntOff (on_stats (fun st => tick st mode) s)).
Proof.
  intros [Hsum H1 H2 H3] Hroom. unfold SystemTick, now in *. unfold tick_of.
  assert (forall x, 0 <= x <= totalTicks (stats s) -> s32 (x + 10) = x + 10 /\ s32 (x + 1) = x + 1) as Hs.
  { intros x Hx. split; apply s32_id; unfold is_s32; lia. }
  destruct (Hs (totalTicks (stats s)) ltac:(lia)) as [Ht1 Ht2].
  destruct (Hs (systemTicks (stats s)) ltac:(lia)) as [Hsy _].
  destruct (Hs (userTicks (stats s)) ltac:(lia)) as [_ Hu].
  destruct mode; cbn [tick set_ticks totalTicks]; unfold SystemTick, UserTick; rewrite ?Ht1, ?Ht2; (split; [done |]); split;
    unfold now; cbn [ChangeLevel on_int on_stats stats tick set_ticks totalTicks idleTicks systemTicks userTicks];
    unfold SystemTick, UserTick; rewrite ?Ht1, ?Ht2, ?Hsy, ?Hu; lia.
Qed.

(** *** Effects of handlers *)

Lemma effect_one (s : Sys) st m (d : D) : same_clock (stats s) st -> effect s (mkSys (interrupt s) st (brk s) m d).
Proof. intros H. eapply eff_rest; [exact H | constructor]. Qed.

Lemma effect_trans (s1 s2 s3 : Sys) : effect s1 s2 -> effect s2 s3 -> effect s1 s3.
Proof.
  induction 1; intros H3; [done | eapply eff_schedule | eapply eff_yield | eapply eff_rest]; eauto.
Qed.

Lemma effect_schedule (s s' : Sys) o d ty : 0 < d <= MaxDelay -> Schedule o d ty s = Ok s' -> effect s s'.
Proof. intros Hd E. eapply eff_schedule; [exact Hd | exact E | constructor]. Qed.

Lemma Schedule_trap (s : Sys) o d ty t : Schedule o d ty s = Trap t -> t = AssertFail.
Proof.
  unfold Schedule. destruct (0 <? d); cbn [obind assert_]; [|by intros [= <-]].
  unfold ListSpec.Insert. destruct (decide _); cbn [obind]; [by intros [= <-] | done].
Qed.

(** ** Properties *)

(** C36.  The pending interrupts that are due when [CheckIfDue] looks,
    after it moved the clock on if the machine is idle, are fired exactly
    once each, in the order of their times and, at the same time, of their
    scheduling; no other one is; those left, and those handlers schedule
    meanwhile, are all for later.  The loop terminates. *)
Theorem due_interrupts_fire advanceClock s :
  wf s -> level (interrupt s) = IntOff -> fire_time advanceClock s + MaxDelay < 2 ^ 31 ->
  let t := fire_time advanceClock s in
  let due := filter (due_by t) (pending (interrupt s)) in
  sorted due /\ (forall t, CheckIfDue advanceClock s = Trap t -> t <> NoFuel) /\
  forall b s', CheckIfDue advanceClock s = Ok (b, s') ->
    (b = false /\ due = [] /\ s' = s) \/
    (b = true /\ due <> [] /\ (exists m s1, fires due (to_handlers t m s) s1 /\ s' = on_int (set_inHandler false) s1) /\
     wf s' /\ now s' = t /\ Forall (after t) (pending (interrupt s')) /\
     forall p, p ∈ pending (interrupt s) -> after t p -> p ∈ pending (interrupt s')).
Proof.
  intros Hwf Hl Ht. cbn zeta. destruct (CheckIfDue_spec advanceClock s Hwf Hl Ht) as [Hnf H].
  pose proof (sorted_split (fire_time advanceClock s) _ (wf_sorted _ Hwf)) as Hsplit.
  split; [|split; [intros e He; by apply (Hnf e He) |]].
  { pose proof (wf_sorted _ Hwf) as Hs. rewrite Hsplit in Hs. revert Hs. unfold sorted.
    generalize (filter (due_by (fire_time advanceClock s)) (pending (interrupt s))) as l.
    induction l as [|x l IH]; intros Hs; [constructor |]. inversion Hs as [|? ? Hs1 Hx]; subst.
    constructor; [by apply IH |]. by apply Forall_app in Hx as [? _]. }
  intros b s' E. destruct (H b s' E) as [?|(-> & Hd & m & s1 & Hf & [Hwf' Hc _ _ _ _ Hp] & ->)]; [by left | right].
  split; [done |]. split; [done |]. split; [by exists m, s1 |]. split; [destruct Hwf'; by split |].
  pose proof (now_to_handlers advanceClock m s) as En.
  destruct (Hp _ eq_refl) as (later' & Hp' & Ha & Hin).
  { eapply Forall_impl; [apply Forall_filter_in |]. intros p Hpa. unfold after in *.
    change (now (on_int _ _)) with (now (to_handlers (fire_time advanceClock s) m s)). lia. }
  cbn [app] in Hp'. cbn [on_int set_inHandler interrupt pending]. rewrite Hp'.
  split; [destruct Hc as [Hc _]; unfold now; cbn; etransitivity; [exact Hc | exact En] |].
  split; [change (now (on_int _ _)) with (now (to_handlers (fire_time advanceClock s) m s)) in Ha; by rewrite En in Ha |].
  intros p Hpin Hpa. apply Hin. by apply list_elem_of_filter.
Qed.

(** C37.  Simulated time: a tick moves the clock by [SystemTick] in system
    mode and [UserTick] otherwise and leaves interrupts on; an idle machine
    jumps to its next pending interrupt, not further, and halts only when
    there is none; every tick is accounted to exactly one of idle, system
    and user time. *)
Theorem time_accounting s :
  wf s -> accounted s -> now s + SystemTick + MaxDelay < 2 ^ 31 ->
  (forall s', OneTick_check s = Ok s' ->
     accounted s' /\ level (interrupt s') = IntOn /\ status (interrupt s') = status (interrupt s) /\
     now s' = now s + tick_of (status (interrupt s))) /\
  (pending (interrupt s) = [] -> level (interrupt s) = IntOff -> Idle s = Trap Halted) /\
  (forall s', fire_time true s + MaxDelay < 2 ^ 31 -> pending (interrupt s) <> [] -> level (interrupt s) = IntOff ->
     Idle s <> Trap Halted /\
     (Idle s = Ok s' -> accounted s' /\ status (interrupt s') = SystemMode /\ now s' = fire_time true s)).
Proof.
  intros Hwf Hac Hroom. unfold MaxDelay, TimerTicks, SystemTick in Hroom. split; [|split].
  - intros s' E. unfold OneTick_check in E. apply obind_Ok in E as ([b s1] & E & [= <-]).
    set (s0 := ChangeLevel IntOff _) in E.
    destruct (tick_accounts s (status (interrupt s)) Hac) as (En & Ha); [unfold SystemTick; lia |].
    assert (wf s0) as Hw.
    { destruct Hwf as [W1 W2 W3 W4 W5]. split; try done; change (now s0) with (totalTicks (tick (stats s) (status (interrupt s))));
        rewrite En; unfold tick_of, SystemTick, UserTick, MaxDelay, TimerTicks; case_bool_decide; lia. }
    assert (fire_time false s0 = now s0) as Et by (unfold fire_time; by destruct (pending _)).
    destruct (CheckIfDue_accounts false s0 b s1 Hw Ha eq_refl) as (Ha1 & _ & En1 & _ & Hst1); [rewrite Et; apply (wf_time _ Hw) | done |].
    split; [destruct Ha1; by split |]. split; [done |]. split; [exact Hst1 |].
    change (now (ChangeLevel IntOn s1)) with (now s1). rewrite En1, Et. unfold now at 1 2. cbn [s0]. destruct b; exact En.
  - intros Hp Hl. unfold Idle, CheckIfDue. cbn. by rewrite Hl, Hp.
  - intros s' Ht Hp Hl. unfold Idle. set (s0 := on_int (set_status IdleMode) s).
    assert (wf s0 /\ accounted s0) as [Hw Ha] by (destruct Hwf, Hac; by split).
    destruct (CheckIfDue_spec true s0 Hw Hl Ht) as [Htrap Hok].
    destruct (CheckIfDue true s0) as [[b s1]|t] eqn:E; cbn [obind].
    2:{ split; [|done]. intros [= ->]. by destruct (Htrap _ eq_refl). }
    destruct (CheckIfDue_accounts true s0 b s1 Hw Ha Hl Ht E) as (Ha1 & _ & En1 & _).
    destruct (Hok b s1 eq_refl) as [(_ & Hd & _)|(-> & _)].
    + exfalso. destruct (pending (interrupt s)) as [|next q] eqn:Ep; [done |]. revert Hd.
      unfold s0, fire_time. cbn [on_int interrupt set_status pending]. rewrite Ep, filter_cons_True; [done |]. unfold due_by. lia.
    + split; [done |]. intros [= <-]. split; [destruct Ha1; by split |]. split; [done | exact En1].
Qed.

End Hardware.

(** ** The devices *)

(** What they ask of the host, besides the file calls: [rand()], and
    [select()] on one descriptor. *)
Class HostDevices (W : Type) := { rand : W -> Z * W; select_ : Z -> W -> Z * W }.

Inductive Device := TheTimer | TheConsoleInput | TheConsoleOutput.

#[export] Instance Device_eq_dec : EqDecision Device.
Proof. solve_decision. Defined.

Record Devices (W : Type) := mkDevices {
  randomize : bool; disable : bool;                       (* timer.h *)
  incoming : Z; readFileNo : Z;                           (* console.h *)
  putBusy : bool; writeFileNo : Z;
  host : W
}.
Arguments mkDevices {W}. Arguments randomize {W}. Arguments disable {W}. Arguments incoming {W}.
Arguments readFileNo {W}. Arguments putBusy {W}. Arguments writeFileNo {W}. Arguments host {W}.

Section Devices.
Context {W : Type} `{HW : Host W} `{HD : !HostDevices W} {K : Type}.

(** The rest of the kernel, and the handlers [callWhenAvail] and
    [callWhenDone] of synchconsole.cc, which do [waitFor->V()] on it. *)
Notation Sys := (@Sys Device (Devices W * K)).
Context (inputAvail outputDone : K -> outcome K).

Definition upd_dev (f : Devices W -> Devices W) (s : Sys) : Sys := on_rest (fun r => (f r.1, r.2)) s.
Definition dev (s : Sys) : Devices W := (rest s).1.
Definition set_host (w : W) (d : Devices W) : Devices W :=
  mkDevices (randomize d) (disable d) (incoming d) (readFileNo d) (putBusy d) (writeFileNo d) w.
Definition set_incoming (c : Z) (d : Devices W) : Devices W :=
  mkDevices (randomize d) (disable d) c (readFileNo d) (putBusy d) (writeFileNo d) (host d).
Definition set_putBusy (b : bool) (d : Devices W) : Devices W :=
  mkDevices (randomize d) (disable d) (incoming d) (readFileNo d) b (writeFileNo d) (host d).
Definition on_kernel (f : K -> outcome K) (s : Sys) : outcome Sys :=
  let! k := f (rest s).2 in Ok (on_rest (fun r => (r.1, k)) s).

Definition RandomNumber (s : Sys) : Z * Sys :=
  let '(r, w) := rand (host (dev s)) in (u32 r, upd_dev (set_host w) s).

Definition PollFile (fd : Z) (s : Sys) : outcome (bool * Sys) :=
  let '(retVal, w) := select_ fd (host (dev s)) in
  let s := upd_dev (set_host w) s in
  assert! (retVal =? 0) || (retVal =? 1);
  Ok (negb (retVal =? 0), s).

(** *** timer.cc, alarm.cc *)

Definition Timer_SetInterrupt (s : Sys) : outcome Sys :=
  if negb (disable (dev s)) then
    if randomize (dev s) then
      let '(r, s) := RandomNumber s in
      Schedule TheTimer (1 + r mod (TimerTicks * 2)) TimerInt s
    else Schedule TheTimer TimerTicks TimerInt s
  else Ok s.

Definition Alarm_CallBack (s : Sys) : outcome Sys :=
  if negb (bool_decide (status (interrupt s) = IdleMode)) then YieldOnReturn s else Ok s.

Definition Timer_CallBack (s : Sys) : outcome Sys :=
  let! s := Alarm_CallBack s in Timer_SetInterrupt s.

(** *** console.cc *)

Definition count_read (st : Statistics) : Statistics :=
  set_counts (numDiskReads st) (numDiskWrites st) (s32 (numConsoleCharsRead st + 1)) (numConsoleCharsWritten st) st.
Definition count_written (st : Statistics) : Statistics :=
  set_counts (numDiskReads st) (numDiskWrites st) (numConsoleCharsRead st) (s32 (numConsoleCharsWritten st + 1)) st.

Definition EOF : Z := -1.

Definition ConsoleInput_CallBack (s : Sys) : outcome Sys :=
  assert! (incoming (dev s) =? EOF);
  let! ' (avail, s) := PollFile (readFileNo (dev s)) s in
  if negb avail then Schedule TheConsoleInput ConsoleTime ConsoleReadInt s
  else
    let! ' (readCount, buf, w) := Stub.ReadPartial (readFileNo (dev s)) [0] 1 (host (dev s)) in
    let s := upd_dev (set_host w) s in
    let! s :=
      (if readCount =? 0 then Ok s
       else
         assert! (readCount =? 1);
         let! c := arr_get buf 0 in
         Ok (on_stats count_read (upd_dev (set_incoming c) s))) in
    on_kernel inputAvail s.

Definition ConsoleInput_GetChar (s : Sys) : outcome (Z * Sys) :=
  let ch := incoming (dev s) in
  let! s := (if negb (ch =? EOF) then Schedule TheConsoleInput ConsoleTime ConsoleReadInt s else Ok s) in
  Ok (ch, upd_dev (set_incoming EOF) s).

Definition ConsoleOutput_CallBack (s : Sys) : outcome Sys :=
  let s := upd_dev (set_putBusy false) s in
  on_kernel outputDone (on_stats count_written s).

Definition ConsoleOutput_PutChar (ch : Z) (s : Sys) : outcome Sys :=
  assert! negb (putBusy (dev s));
  let! w := Stub.WriteFile (writeFileNo (dev s)) [ch] 1 (host (dev s)) in
  Schedule TheConsoleOutput ConsoleTime ConsoleWriteInt (upd_dev (set_putBusy true) (upd_dev (set_host w) s)).

Definition device_CallBack (o : Device) (s : Sys) : outcome Sys :=
  match o with
  | TheTimer => Timer_CallBack s
  | TheConsoleInput => ConsoleInput_CallBack s
  | TheConsoleOutput => ConsoleOutput_CallBack s
  end.

(** *** They are handlers *)

Context (V_traps : forall k t, inputAvail k = Trap t \/ outputDone k = Trap t -> t <> NoFuel /\ t <> Halted).

Lemma effect_dev f (s : Sys) : effect s (upd_dev f s).
Proof. by apply effect_one. Qed.

Lemma SetInterrupt_effect (s s' : Sys) : Timer_SetInterrupt s = Ok s' -> effect s s'.
Proof.
  unfold Timer_SetInterrupt. destruct (negb _); [|intros [= <-]; constructor].
  destruct (randomize _); [|by apply effect_schedule].
  unfold RandomNumber. destruct (rand _) as [r w]. intros E. eapply effect_trans; [apply effect_dev |].
  eapply effect_schedule; [|exact E]. pose proof (Z.mod_pos_bound (u32 r) (TimerTicks * 2) ltac:(done)).
  unfold MaxDelay. lia.
Qed.

Lemma on_kernel_effect f (s s' : Sys) : on_kernel f s = Ok s' -> effect s s'.
Proof. unfold on_kernel. destruct (f _) as [k|]; [|done]. intros [= <-]. by apply effect_one. Qed.

Lemma ConsoleInput_effect (s s' : Sys) : ConsoleInput_CallBack s = Ok s' -> effect s s'.
Proof.
  unfold ConsoleInput_CallBack, PollFile. destruct (_ =? EOF); [|done]. cbn [obind assert_].
  destruct (select_ _ _) as [rv w]. destruct (_ || _); [|done]. cbn [obind assert_].
  destruct (negb (negb _)).
  { intros E. eapply effect_trans; [apply effect_dev |]. eapply effect_schedule; [|exact E]. done. }
  destruct (Stub.ReadPartial _ _ _ _) as [[[n buf] w']|]; [|done]. cbn [obind].
  intros E. eapply effect_trans; [apply effect_dev |]. eapply effect_trans; [apply effect_dev |].
  destruct (n =? 0); cbn [obind] in E; [by eapply on_kernel_effect |].
  destruct (n =? 1); [|done]. cbn [obind assert_] in E. destruct (arr_get buf 0) as [c|]; [|done]. cbn [obind] in E.
  eapply effect_trans; [apply (effect_dev (set_incoming c)) |].
  eapply effect_trans; [|by eapply on_kernel_effect]. by apply effect_one.
Qed.

#[export] Instance device_handlers : Handlers device_CallBack.
Proof.
  split.
  - intros [| |] s s'; cbn [device_CallBack].
    + unfold Timer_CallBack, Alarm_CallBack. destruct (negb _); cbn [obind]; [|apply SetInterrupt_effect].
      destruct (YieldOnReturn s) as [s1|] eqn:E; [|done]. cbn [obind]. intros E'.
      eapply eff_yield; [exact E | by apply SetInterrupt_effect].
    + apply ConsoleInput_effect.
    + unfold ConsoleOutput_CallBack. intros E. eapply effect_trans; [|by eapply on_kernel_effect].
      eapply effect_trans; [apply (effect_dev (set_putBusy false)) | by apply effect_one].
  - assert (forall s t, Timer_SetInterrupt s = Trap t -> t = AssertFail) as Htimer.
    { intros s t. unfold Timer_SetInterrupt. destruct (negb _); [|done]. destruct (randomize _); [|apply Schedule_trap].
      destruct (RandomNumber s) as [r s1]. apply Schedule_trap. }
    assert (forall f (s : Sys) t, (forall k, f k = Trap t -> t <> NoFuel /\ t <> Halted) -> on_kernel f s = Trap t -> t <> NoFuel /\ t <> Halted) as Hk.
    { intros f s t Hf. unfold on_kernel. destruct (f (rest s).2) eqn:E; [done |]. intros [= <-]. by eapply Hf. }
    intros [| |] s t; cbn [device_CallBack].
    + unfold Timer_CallBack, Alarm_CallBack, YieldOnReturn.
      destruct (negb _); [destruct (inHandler _)|]; cbn [obind assert_]; [| by intros [= <-] |]; by intros ->%Htimer.
    + unfold ConsoleInput_CallBack, PollFile. destruct (_ =? EOF); [|by intros [= <-]]. cbn [obind assert_].
      destruct (select_ _ _) as [rv w]. destruct (_ || _); [|by intros [= <-]]. cbn [obind assert_].
      destruct (negb (negb _)); [by intros ->%Schedule_trap |].
      unfold Stub.ReadPartial, Stub.buf_fill. destruct (read _ _ _) as [[n d] w'].
      destruct (_ <=? _)%nat; [|by intros [= <-]]. cbn [obind].
      destruct (n =? 0); cbn [obind]; [by apply Hk; eauto |].
      destruct (n =? 1); [|by intros [= <-]]. cbn [obind assert_].
      unfold arr_get. cbn [Z.ltb Z.compare]. destruct (_ !! _); cbn [obind]; [apply Hk; eauto | by intros [= <-]].
    + unfold ConsoleOutput_CallBack. apply Hk. eauto.
Qed.

(** *** The time slice *)

(** The timer will ring within [MaxDelay]. *)
Definition timer_armed (s : Sys) : Prop :=
  disable (dev s) = false /\
  exists p, p ∈ pending (interrupt s) /\ callOnInterrupt p = TheTimer /\ when p <= now s + MaxDelay.

Lemma device_disable o (s s' : Sys) : device_CallBack o s = Ok s' -> disable (dev s') = disable (dev s).
Proof.
  assert (forall o d ty (s s' : Sys), Schedule o d ty s = Ok s' -> rest s' = rest s) as Hsch.
  { intros o1 d ty s1 s2. unfold Schedule. destruct (0 <? d); [|done]. cbn [obind assert_]. unfold ListSpec.Insert.
    destruct (decide _); [done |]. by intros [= <-]. }
  assert (forall f (s s' : Sys), on_kernel f s = Ok s' -> disable (dev s') = disable (dev s)) as Hk.
  { intros f s1 s2. unfold on_kernel. destruct (f _); [|done]. by intros [= <-]. }
  destruct o; cbn [device_CallBack].
  - unfold Timer_CallBack, Alarm_CallBack, YieldOnReturn. intros E. apply obind_Ok in E as (s1 & E1 & E).
    assert (rest s1 = rest s) as Er by (destruct (negb _); [destruct (inHandler _); [|done]|]; cbn [obind assert_] in E1; by injection E1 as <-).
    unfold Timer_SetInterrupt in E. destruct (negb (disable (dev s1))); unfold dev; rewrite <- Er; [|by injection E as <-].
    destruct (randomize (dev s1)); [|by rewrite (Hsch _ _ _ _ _ E)].
    unfold RandomNumber in E. destruct (rand _) as [r w]. by rewrite (Hsch _ _ _ _ _ E).
  - unfold ConsoleInput_CallBack, PollFile. destruct (_ =? EOF); [|done]. cbn [obind assert_].
    destruct (select_ _ _) as [rv w]. destruct (_ || _); [|done]. cbn [obind assert_].
    destruct (negb (negb _)); [intros E; unfold dev; by rewrite (Hsch _ _ _ _ _ E) |].
    destruct (Stub.ReadPartial _ _ _ _) as [[[n buf] w']|]; [|done]. cbn [obind].
    destruct (n =? 0); cbn [obind]; [by intros ->%Hk |]. destruct (n =? 1); [|done]. cbn [obind assert_].
    destruct (arr_get buf 0); [|done]. cbn [obind]. by intros ->%Hk.
  - unfold ConsoleOutput_CallBack. by intros ->%Hk.
Qed.

(** When the timer rings outside of idling, a context switch is asked for
    and the timer is set again. *)
Lemma Timer_rings (s s' : Sys) : Timer_CallBack s = Ok s' -> disable (dev s) = false ->
  (status (interrupt s) <> IdleMode -> yieldOnReturn (interrupt s') = true) /\
  (now s + MaxDelay < 2 ^ 31 -> 0 <= now s -> exists p, p ∈ pending (interrupt s') /\ callOnInterrupt p = TheTimer /\ after (now s) p /\ when p <= now s + MaxDelay).
Proof.
  unfold Timer_CallBack. intros E Hd. apply obind_Ok in E as (s1 & E1 & E).
  assert (now s1 = now s /\ dev s1 = dev s /\ (status (interrupt s) <> IdleMode -> yieldOnReturn (interrupt s1) = true)) as (En & Ed & Hy).
  { unfold Alarm_CallBack in E1. case_bool_decide as Hi; cbn [negb] in E1; [by injection E1 as <- |].
    unfold YieldOnReturn in E1. destruct (inHandler _); [|done]. by injection E1 as <-. }
  split; [intros Hst; apply (effect_modes _ _ (SetInterrupt_effect _ _ E)); auto |].
  intros Ht H0. unfold Timer_SetInterrupt in E. rewrite Ed, Hd in E. cbn [negb] in E.
  assert (forall d (s2 : Sys), 0 < d <= MaxDelay -> now s2 = now s -> Schedule TheTimer d TimerInt s2 = Ok s' ->
    exists p, p ∈ pending (interrupt s') /\ callOnInterrupt p = TheTimer /\ after (now s) p /\ when p <= now s + MaxDelay) as Hsch.
  { intros d s2 Hdd En2. unfold Schedule. rewrite (proj2 (Z.ltb_lt 0 d)) by lia. cbn [obind assert_]. unfold ListSpec.Insert.
    destruct (decide _); [done |]. intros [= <-]. eexists. split; [apply insert_elem; by left |]. split; [done |].
    cbn [when]. unfold after. cbn [when]. rewrite En2, s32_id by (unfold is_s32; lia). lia. }
  destruct (randomize _); [|by apply (Hsch TimerTicks s1)].
  unfold RandomNumber in E. destruct (rand _) as [r w].
  refine (Hsch _ (upd_dev (set_host w) s1) _ En E).
  pose proof (Z.mod_pos_bound (u32 r) (TimerTicks * 2) ltac:(done)). unfold MaxDelay. lia.
Qed.

(** The handlers called in one go, the timer's among them. *)
Lemma fires_timer l (s s' : Sys) : fires device_CallBack l s s' ->
  disable (dev s) = false -> 0 <= now s -> now s + MaxDelay < 2 ^ 31 -> Forall (due_by (now s)) l ->
  status (interrupt s') = status (interrupt s) /\ now s' = now s /\ disable (dev s') = false /\
  (yieldOnReturn (interrupt s) = true -> yieldOnReturn (interrupt s') = true) /\
  (forall p, p ∈ pending (interrupt s) -> after (now s) p -> p ∈ pending (interrupt s')) /\
  ((exists p, p ∈ l /\ callOnInterrupt p = TheTimer) ->
     (status (interrupt s) <> IdleMode -> yieldOnReturn (interrupt s') = true) /\
     exists p, p ∈ pending (interrupt s') /\ callOnInterrupt p = TheTimer /\ when p <= now s + MaxDelay).
Proof.
  induction 1 as [s|p l q s s1 s2 Hp Ec _ IH]; intros Hd H0 Ht Hdue.
  { split_and!; try done. by intros (p & Hp%elem_of_nil & _). }
  apply Forall_cons in Hdue as [Hdp Hdue].
  destruct (effect_modes _ _ (handler_effect _ _ _ _ Ec)) as (Est & En & Hy & Hin).
  change (now (on_int (set_pending q) s)) with (now s) in En. cbn [on_int interrupt set_pending status yieldOnReturn pending] in Est, Hy, Hin.
  pose proof (device_disable _ _ _ Ec) as Ed. change (dev (on_int (set_pending q) s)) with (dev s) in Ed.
  destruct IH as (Est2 & En2 & Hd2 & Hy2 & Hin2 & Htm2); [congruence | lia | lia | by rewrite En |].
  split; [congruence |]. split; [congruence |]. split; [done |]. split; [auto |]. rewrite En in Hin2, Htm2.
  split.
  - intros x Hx Ha. apply Hin2; [|done]. apply Hin. rewrite Hp in Hx. apply elem_of_cons in Hx as [->|]; [|done].
    unfold after, due_by in *. lia.
  - intros (x & Hx & Hc). apply elem_of_cons in Hx as [->|Hx].
    + rewrite Hc in Ec. cbn [device_CallBack] in Ec.
      destruct (Timer_rings _ _ Ec Hd) as [Hyy Harm].
      split; [intros Hst; apply Hy2, Hyy; exact Hst |].
      destruct (Harm Ht H0) as (x & Hx & Hcx & Ha & Hw). exists x. split; [|done]. apply Hin2; [done | exact Ha].
    + destruct (Htm2 ltac:(eauto)) as [Hy3 Hp3]. split; [|done]. rewrite Est in Hy3. done.
Qed.

(** User instructions with no context switch in between. *)
Inductive busy : nat -> Sys -> Sys -> Prop :=
| busy_none s : busy 0 s s
| busy_tick n s s1 s2 : OneTick_check device_CallBack s = Ok s1 -> yieldOnReturn (interrupt s1) = false ->
    busy n s1 s2 -> busy (S n) s s2.

Lemma OneTick_timer (s s' : Sys) :
  wf s -> accounted s -> now s + UserTick + MaxDelay < 2 ^ 31 -> status (interrupt s) = UserMode -> timer_armed s ->
  OneTick_check device_CallBack s = Ok s' ->
  timer_armed s' /\ wf s' /\ accounted s' /\ status (interrupt s') = UserMode /\ now s' = now s + UserTick /\
  (yieldOnReturn (interrupt s') = true \/
   forall p, p ∈ pending (interrupt s) -> callOnInterrupt p = TheTimer -> p ∈ pending (interrupt s') /\ after (now s') p).
Proof.
  intros Hwf Hac Hroom Hst (Hd & pt & Hpt & Hct & Hwt) E. unfold OneTick_check in E. apply obind_Ok in E as ([b s1] & E & [= <-]).
  rewrite Hst in E. set (s0 := ChangeLevel IntOff _) in E. unfold UserTick, MaxDelay, TimerTicks in Hroom.
  destruct (tick_accounts s UserMode Hac) as [En Ha]; [unfold SystemTick; lia |].
  change (totalTicks (tick (stats s) UserMode)) with (now s0) in En. change (tick_of UserMode) with 1 in En.
  assert (wf s0) as Hw.
  { destruct Hwf as [W1 W2 W3 W4 W5]. split; try done; rewrite En; unfold MaxDelay, TimerTicks; lia. }
  assert (fire_time false s0 = now s0) as Et by (unfold fire_time; by destruct (pending _)).
  assert (fire_time false s0 + MaxDelay < 2 ^ 31) as Htime by (rewrite Et; apply (wf_time _ Hw)).
  destruct (CheckIfDue_accounts device_CallBack false s0 b s1 Hw Ha eq_refl Htime E) as (Ha1 & Hw1 & En1 & _ & Hst1).
  assert (now s1 = now s + 1) as En1' by (rewrite En1, Et; destruct b; exact En).
  assert (forall s2 : Sys, wf s2 -> wf (ChangeLevel IntOn s2)) as Hwl by (intros s2 []; by split).
  assert (forall s2 : Sys, accounted s2 -> accounted (ChangeLevel IntOn s2)) as Hal by (intros s2 []; by split).
  change (status (interrupt s0)) with (status (interrupt s)) in Hst1. rewrite Hst in Hst1.
  destruct (CheckIfDue_spec device_CallBack false s0 Hw eq_refl Htime) as [_ H].
  destruct (H b s1 E) as [(-> & Hdue & ->)|(-> & Hdue & m & s2 & Hf & Hk & ->)].
  - assert (forall p, p ∈ pending (interrupt s) -> after (now s0) p) as Hafter.
    { intros p Hp. destruct (decide (after (now s0) p)) as [|Hn]; [done |]. exfalso.
      assert (p ∈ filter (due_by (fire_time false s0)) (pending (interrupt s0))) as Hin; [|rewrite Hdue in Hin; set_solver].
      apply list_elem_of_filter. split; [|done]. unfold due_by, after in *. lia. }
    split; [split; [done |]; exists pt; split; [done |]; split; [done |]; change (now (ChangeLevel _ _)) with (now s0); lia |].
    split; [by apply Hwl |]. split; [by apply Hal |]. split; [done |]. split; [exact En |]. right. intros p Hp _. split; [done | by apply Hafter].
  - set (sh := to_handlers (fire_time false s0) m s0) in *.
    assert (now sh = now s0) as Enh by (unfold sh; by rewrite now_to_handlers, Et).
    destruct (fires_timer _ _ _ Hf) as (Ef1 & Ef2 & Hd2 & _ & Hkeep & Hring); [exact Hd | | | |].
    { rewrite Enh. apply (wf_now _ Hw). } { rewrite Enh. apply (wf_time _ Hw). } { rewrite Enh, <- Et. apply Forall_filter_in. }
    split; [|split; [by apply Hwl |]; split; [by apply Hal |]; split; [done |]; split; [exact En1' |]].
    + split; [exact Hd2 |]. change (now (ChangeLevel _ _)) with (now s2). rewrite Ef2, Enh.
      destruct (decide (after (now s0) pt)) as [Hapt|Hdpt].
      * exists pt. split; [|split; [done | lia]]. apply Hkeep; [done | by rewrite Enh].
      * destruct Hring as [_ (p & Hp & Hc & Hwp)].
        { exists pt. split; [|done]. apply list_elem_of_filter. split; [|done]. unfold due_by, after in *. lia. }
        exists p. rewrite Enh in Hwp. done.
    + destruct (decide (Exists (fun p => callOnInterrupt p = TheTimer) (filter (due_by (fire_time false s0)) (pending (interrupt s0))))) as [Hex|Hno].
      * left. apply Exists_exists in Hex as (p & Hp & Hc). apply (proj1 (Hring ltac:(eauto))). unfold sh. cbn. by rewrite Hst.
      * right. intros p Hp Hc. assert (after (now s0) p) as Hap.
        { destruct (decide (after (now s0) p)) as [|Hn]; [done |]. exfalso. apply Hno, Exists_exists. exists p. split; [|done].
          apply list_elem_of_filter. split; [|done]. unfold due_by, after in *. lia. }
        split; [apply Hkeep; [done | by rewrite Enh] |]. change (now (ChangeLevel _ _)) with (now s2). by rewrite Ef2, Enh.
Qed.

(** C38.  The time slice: with the timer on, fewer than [MaxDelay] (200)
    user instructions run between two context switches the alarm asks for,
    whatever the other devices do; and the timer is set again each time. *)
Theorem time_slice n (s s' : Sys) :
  wf s -> accounted s -> status (interrupt s) = UserMode -> timer_armed s -> now s + 2 * MaxDelay < 2 ^ 31 ->
  busy n s s' -> Z.of_nat n < MaxDelay /\ timer_armed s'.
Proof.
  intros Hwf Hac Hst (Hd & p & Hp & Hc & Hw) Hroom Hb. set (T := now s + MaxDelay) in *.
  assert (timer_armed s) as Ht by (split; [done | by exists p]).
  assert (T + MaxDelay < 2 ^ 31) as HT by lia. assert (now s + UserTick + MaxDelay < 2 ^ 31) as Hr by (unfold UserTick, MaxDelay, TimerTicks in *; lia).
  assert (timer_armed s' /\ (n = 0%nat \/ now s + Z.of_nat n < T)) as [Hs' Hn].
  { clearbody T. clear Hd Hroom. induction Hb as [s|n s s1 s2 E Hy _ IH]; [split; [done | by left] |].
    destruct (OneTick_timer s s1 Hwf Hac Hr Hst Ht E) as (Ht1 & Hw1 & Ha1 & Hst1 & En1 & [Hy1|Hin]); [congruence |].
    destruct (Hin p Hp Hc) as [Hp1 Hap]. unfold after in Hap. unfold UserTick in *.
    destruct (IH Hw1 Ha1 Hst1 Hp1 Ht1 ltac:(lia)) as [Ht2 Hn]. split; [done |]. right.
    destruct Hn as [->|Hn]; lia. }
  split; [|done]. destruct Hn as [->|Hn]; [done | lia].
Qed.

End Devices.
End Interrupt.

(** ** Witnesses: the timer rings at 100, the console is polled *)

Module InterruptWitness.
Import Machine Interrupt OneFileHost.

#[export] Instance fsys_devices : HostDevices fsys := {| rand w := (7, w); select_ _ w := (0, w) |}.

Definition call : Device -> Sys -> outcome Sys := device_CallBack (W := fsys) (K := unit) Ok Ok.

Lemma call_handlers : Handlers call.
Proof. apply device_handlers. by intros k t [H|H]. Qed.

Definition sys (time : Z) (mode : MachineStatus) : @Sys Device (Devices fsys * unit) :=
  mkSys (mkInterrupt IntOff [mkPending 1 TheTimer 100 TimerInt; mkPending 2 TheConsoleInput 120 ConsoleReadInt] false false mode)
    (mkStats time 0 time 0 0 0 0 0 0 0 0) 3 None
    (mkDevices false false EOF 0 false 1 {| bytes := []; offs := ∅ |}, tt).

Lemma sys_wf time mode : 0 <= time < 1000 -> wf (sys time mode) /\ accounted (sys time mode).
Proof.
  intros Ht. split; split; try done; cbn; try lia.
  - repeat constructor. unfold LinkedList.cmp_le. by vm_compute.
  - apply (bool_decide_unpack _). by vm_compute.
  - repeat constructor.
  - unfold now, MaxDelay, TimerTicks. cbn. lia.
Qed.

End InterruptWitness.
Import Interrupt InterruptWitness OneFileHost.

Lemma due_interrupts_fire_witness : exists s',
  CheckIfDue call false (sys 110 Machine.UserMode) = Ok (true, s') /\ now s' = 110 /\
  Forall (after 110) (pending (interrupt s')).
Proof.
  destruct (sys_wf 110 Machine.UserMode ltac:(lia)) as [Hwf _].
  destruct (due_interrupts_fire call (HH := call_handlers) false (sys 110 Machine.UserMode) Hwf eq_refl ltac:(reflexivity))
    as (_ & _ & H).
  destruct (CheckIfDue call false (sys 110 Machine.UserMode)) as [[b s']|t] eqn:E; [|vm_compute in E; discriminate E].
  exists s'. destruct (H b s' eq_refl) as [(_ & Hd & _)|(-> & _ & _ & _ & Hn & Ha & _)].
  - vm_compute in Hd. discriminate Hd.
  - split; [reflexivity |]. split; [exact Hn | exact Ha].
Defined.

Lemma time_accounting_witness : exists s',
  OneTick_check call (sys 50 Machine.SystemMode) = Ok s' /\ now s' = 60 /\ accounted s'.
Proof.
  destruct (sys_wf 50 Machine.SystemMode ltac:(lia)) as [Hwf Hac].
  destruct (time_accounting call (HH := call_handlers) (sys 50 Machine.SystemMode) Hwf Hac ltac:(reflexivity)) as [H _].
  eexists. split; [vm_compute; reflexivity |].
  destruct (H _ ltac:(vm_compute; reflexivity)) as (Ha & _ & _ & Hn). split; [exact Hn | exact Ha].
Defined.

Lemma time_slice_witness : exists s',
  busy (W := fsys) (K := unit) Ok Ok 1 (sys 50 Machine.UserMode) s' /\ timer_armed s'.
Proof.
  destruct (sys_wf 50 Machine.UserMode ltac:(lia)) as [Hwf Hac].
  destruct (OneTick_check call (sys 50 Machine.UserMode)) as [s'|t] eqn:E; [|vm_compute in E; discriminate E].
  assert (yieldOnReturn (interrupt s') = false) as Hy by (vm_compute in E; injection E as <-; reflexivity).
  exists s'. assert (busy (W := fsys) (K := unit) Ok Ok 1 (sys 50 Machine.UserMode) s') as Hb.
  { eapply busy_tick; [exact E | exact Hy | apply busy_none]. }
  split; [exact Hb |].
  apply (time_slice Ok Ok ltac:(by intros k t [H|H]) 1 (sys 50 Machine.UserMode) s' Hwf Hac eq_refl).
  - split; [reflexivity |]. eexists. split; [left | split; [reflexivity | vm_compute; discriminate]].
  - reflexivity.
  - exact Hb.
Defined.
