(* ===== verification/Disk.v ===== *)
(** * The disk: machine/disk.{h,cc}, filesys/synchdisk.{h,cc}

    The simulated disk is a host file: a magic number and [NumSectors]
    sectors of [SectorSize] bytes.  A request transfers the sector at once
    and schedules the interrupt that reports it, after the latency of the
    disk arm and of the rotation; [SynchDisk] lets one thread at a time
    make a request and wait for its interrupt.

    [SectorDisk] is what the file system (FileSys.v) is written against:
    sectors that are read and written whole.  [transfer_laws] is the proof
    that the transfers of this disk, on a host whose calls on the file do
    not fail, are such a disk. *)

From S2P Require Import Prelude LinkedList Machine FileTable AddrSpace Threads Synch Interrupt.

Module Disk.
Import Stub Interrupt.

Definition SectorSize : Z := 128.
Definition SectorsPerTrack : Z := 32.
Definition NumTracks : Z := 32.
Definition NumSectors : Z := SectorsPerTrack * NumTracks.
Definition MagicNumber : Z := 0x456789ab.
Definition MagicSize : Z := 4.
Definition DiskSize : Z := MagicSize + NumSectors * SectorSize.
Definition RotationTime : Z := 500.
Definition SeekTime : Z := 500.

Record Disk := mkDisk {
  fileno : Z;
  active : bool;
  lastSector : Z;
  bufferInit : Z      (* when the track buffer started being loaded *)
}.

Definition set_active (b : bool) (d : Disk) : Disk := mkDisk (fileno d) b (lastSector d) (bufferInit d).

(** ** Latency; [t] is [totalTicks] *)

(** The seek time, and the rotation to the next sector boundary. *)
Definition TimeToSeek (newSector t : Z) (d : Disk) : Z * Z :=
  let newTrack := newSector `quot` SectorsPerTrack in
  let oldTrack := lastSector d `quot` SectorsPerTrack in
  let seek := Z.abs (newTrack - oldTrack) * SeekTime in
  let over := s32 (t + seek) `rem` RotationTime in
  (seek, if 0 <? over then RotationTime - over else 0).

Definition ModuloDiff (to from : Z) : Z :=
  let toOffset := to `rem` SectorsPerTrack in
  let fromOffset := from `rem` SectorsPerTrack in
  ((toOffset - fromOffset) + SectorsPerTrack) `rem` SectorsPerTrack.

Definition ComputeLatency (newSector : Z) (writing : bool) (t : Z) (d : Disk) : Z :=
  let '(seek, rotation) := TimeToSeek newSector t d in
  let timeAfter := s32 (t + seek + rotation) in
  if negb writing && (seek =? 0) &&
     (ModuloDiff newSector (bufferInit d `quot` RotationTime) <? s32 (timeAfter - bufferInit d) `quot` RotationTime)
  then RotationTime
  else
    let rotation := rotation + ModuloDiff newSector (timeAfter `quot` RotationTime) * RotationTime in
    seek + rotation + RotationTime.

Definition UpdateLast (newSector t : Z) (d : Disk) : Disk :=
  let '(seek, rotate) := TimeToSeek newSector t d in
  mkDisk (fileno d) (active d) newSector
    (if negb (seek =? 0) then s32 (t + seek + rotate) else bufferInit d).

(** ** Transfers *)

Section Transfer.
Context {W : Type} `{HW : Host W}.

(** The transfers of [ReadRequest] and [WriteRequest], to and from a whole
    sector in memory. *)
Definition transfer_in (fd sectorNumber : Z) (data : list Z) (w : W) : outcome (list Z * W) :=
  assert! (0 <=? sectorNumber) && (sectorNumber <? NumSectors);
  let! w := Lseek fd (SectorSize * sectorNumber + MagicSize) 0 w in
  Stub.Read fd data SectorSize w.

Definition transfer_out (fd sectorNumber : Z) (data : list Z) (w : W) : outcome W :=
  assert! (0 <=? sectorNumber) && (sectorNumber <? NumSectors);
  let! w := Lseek fd (SectorSize * sectorNumber + MagicSize) 0 w in
  WriteFile fd data SectorSize w.

(** An [int] as the host stores it. *)
Definition int_bytes (v : Z) : list Z :=
  [v mod 2 ^ 8; v / 2 ^ 8 mod 2 ^ 8; v / 2 ^ 16 mod 2 ^ 8; v / 2 ^ 24 mod 2 ^ 8].

(** [Disk::Disk], for the name of its file; [magic] is what [magicNum]
    holds before it is read. *)
Definition new_Disk (diskname magic : list Z) (w : W) : outcome (Disk * W) :=
  let! ' (fd, w) := OpenForReadWrite diskname false w in
  if 0 <=? fd then
    let! ' (b, w) := Stub.Read fd magic MagicSize w in
    let! magicNum := Machine.load_le b 0 4 in
    assert! magicNum =? MagicNumber;
    Ok (mkDisk fd false 0 0, w)
  else
    let! ' (fd, w) := OpenForWrite diskname w in
    let! w := WriteFile fd (int_bytes MagicNumber) MagicSize w in
    let! w := Lseek fd (DiskSize - 4) 0 w in
    let! w := WriteFile fd (int_bytes 0) 4 w in
    Ok (mkDisk fd false 0 0, w).

End Transfer.

Lemma u8_byte_mod v : u8 (v mod 2 ^ 8) = v mod 2 ^ 8.
Proof. unfold u8. by rewrite Z.mod_mod. Qed.

Lemma read_int_bytes pre v r i : Z.of_nat (length pre) = 4 * i ->
  AddrSpace.read_int (pre ++ int_bytes v ++ r) i = Ok (s32 v).
Proof.
  intros Hi. unfold AddrSpace.read_int. rewrite !fmap_app.
  assert (forall k x, int_bytes v !! k = Some x ->
    arr_get ((u8 <$> pre) ++ (u8 <$> int_bytes v) ++ (u8 <$> r)) (4 * i + Z.of_nat k) = Ok (u8 x)) as Hb.
  { intros k x Hk. apply arr_get_lookup; [lia |]. rewrite lookup_app_r by (rewrite length_fmap; lia).
    rewrite lookup_app_l by (rewrite !length_fmap; apply lookup_lt_Some in Hk; lia).
    rewrite list_lookup_fmap, length_fmap. replace (Z.to_nat _ - _)%nat with k by lia. by rewrite Hk. }
  cbn [Machine.load_le]. replace (4 * i + 1 + 1 + 1) with (4 * i + Z.of_nat 3) by lia.
  replace (4 * i + 1 + 1) with (4 * i + Z.of_nat 2) by lia. replace (4 * i + 1) with (4 * i + Z.of_nat 1) by lia.
  replace (arr_get _ (4 * i)) with (Ok (u8 (v mod 2 ^ 8))) by (by rewrite <- (Hb 0%nat _ eq_refl), Z.add_0_r).
  rewrite (Hb 1%nat _ eq_refl), (Hb 2%nat _ eq_refl), (Hb 3%nat _ eq_refl). cbn [obind].
  rewrite !u8_byte_mod. f_equal. rewrite <- (s32_u32 v). f_equal. unfold u32. dlia.
Qed.

(** ** Requests, in simulated time *)

Section Requests.
Context {Obj : Type} `{EqDecision Obj} (TheDisk : Obj) {W : Type} `{HW : Host W} {R : Type}.
Notation Sys := (@Sys Obj (Disk * W * R)).

Definition disk (s : Sys) : Disk := (rest s).1.1.
Definition upd_disk (f : Disk -> Disk) (w : W) (s : Sys) : Sys := on_rest (fun r => (f r.1.1, w, r.2)) s.

Definition count_disk_read (st : Statistics) : Statistics :=
  set_counts (s32 (numDiskReads st + 1)) (numDiskWrites st) (numConsoleCharsRead st) (numConsoleCharsWritten st) st.
Definition count_disk_write (st : Statistics) : Statistics :=
  set_counts (numDiskReads st) (s32 (numDiskWrites st + 1)) (numConsoleCharsRead st) (numConsoleCharsWritten st) st.

Definition ReadRequest (sectorNumber : Z) (data : list Z) (s : Sys) : outcome (list Z * Sys) :=
  let ticks := ComputeLatency sectorNumber false (now s) (disk s) in
  assert! negb (active (disk s));
  let! ' (data, w) := transfer_in (fileno (disk s)) sectorNumber data (rest s).1.2 in
  let s := upd_disk (fun d => UpdateLast sectorNumber (now s) (set_active true d)) w s in
  let! s := Schedule TheDisk ticks DiskInt (on_stats count_disk_read s) in
  Ok (data, s).

Definition WriteRequest (sectorNumber : Z) (data : list Z) (s : Sys) : outcome Sys :=
  let ticks := ComputeLatency sectorNumber true (now s) (disk s) in
  assert! negb (active (disk s));
  let! w := transfer_out (fileno (disk s)) sectorNumber data (rest s).1.2 in
  let s := upd_disk (fun d => UpdateLast sectorNumber (now s) (set_active true d)) w s in
  Schedule TheDisk ticks DiskInt (on_stats count_disk_write s).

(** [CallBack]; [callWhenDone] is [semaphore->V()] of [SynchDisk]. *)
Definition Disk_CallBack (done : R -> outcome R) (s : Sys) : outcome Sys :=
  let s := upd_disk (set_active false) (rest s).1.2 s in
  let! r := done (rest s).2 in
  Ok (on_rest (fun x => (x.1, r)) s).

End Requests.

(** ** SynchDisk *)

Section SynchDisk.
Import Threads Synch.
Context {E : Type}.

(** [lock], [semaphore] and the disk in the kernel's data; the disk's
    [CallBack] is a device event with a V of [semaphore]. *)
Context (lock : E -> nat) (semaphore : E -> nat)
        (ReadRequest_ : Z -> list Z -> E -> outcome (list Z * E)) (WriteRequest_ : Z -> list Z -> E -> outcome E).

Definition ReadSector (sectorNumber : Z) (data : list Z) (k : list Z -> @prog E) : @prog E :=
  go (fun e => Ok (e, CAcquire (lock e) (go (fun e =>
    let! ' (data, e) := ReadRequest_ sectorNumber data e in
    Ok (e, CP (semaphore e) (go (fun e => Ok (e, CRelease (lock e) (k data))))))))).

Definition WriteSector (sectorNumber : Z) (data : list Z) (k : @prog E) : @prog E :=
  go (fun e => Ok (e, CAcquire (lock e) (go (fun e =>
    let! e := WriteRequest_ sectorNumber data e in
    Ok (e, CP (semaphore e) (go (fun e => Ok (e, CRelease (lock e) k)))))))).

End SynchDisk.

(** ** The disk as its clients see it *)

(** Whole sectors; [good] is what a disk must satisfy for the calls to
    work, and every call keeps it. *)
Class SectorDisk (D : Type) := {
  read_sector : Z -> D -> outcome (list Z * D);
  write_sector : Z -> list Z -> D -> outcome D;
  sector : D -> Z -> list Z;
  good : D -> Prop
}.

Definition valid_sector (i : Z) : Prop := 0 <= i < NumSectors.

Class SectorLaws (D : Type) `{SectorDisk D} : Prop := {
  sector_length d i : good d -> valid_sector i -> Z.of_nat (length (sector d i)) = SectorSize;
  sector_bytes d i : good d -> valid_sector i -> Forall is_byte (sector d i);
  read_sector_ok d i : good d -> valid_sector i ->
    exists d', read_sector i d = Ok (sector d i, d') /\ good d' /\ forall j, valid_sector j -> sector d' j = sector d j;
  write_sector_ok d i b : good d -> valid_sector i -> Z.of_nat (length b) = SectorSize -> Forall is_byte b ->
    exists d', write_sector i b d = Ok d' /\ good d' /\ sector d' i = b /\
      forall j, valid_sector j -> j <> i -> sector d' j = sector d j;
  read_sector_bad d i : ~ valid_sector i -> read_sector i d = Trap AssertFail;
  write_sector_bad d i b : ~ valid_sector i -> write_sector i b d = Trap AssertFail
}.

(** *** The transfers to the host file are such a disk *)

Section HostDisk.
Context {W : Type} `{HW : Host W} `{HV : !HostView W} `{HL : !HostLaws W}.

(** The descriptor of the disk's file and its inode. *)
Context (fd ino : Z).

(** The host neither fails nor does less on this file. *)
Context (reads_succeed : AddrSpace.reads_succeed (W := W))
        (writes_succeed : forall fd b w i o, opens w !! fd = Some (i, o) -> 0 <= o -> o + Z.of_nat (length b) <= DiskSize ->
           (write fd b w).1 = Z.of_nat (length b)).

Definition disk_file (w : W) : list Z := default [] (content w !! ino).
Definition sector_of (c : list Z) (i : Z) : list Z :=
  take (Z.to_nat SectorSize) (drop (Z.to_nat (SectorSize * i + MagicSize)) c).

#[local] Instance host_disk : SectorDisk W := {|
  read_sector i w := transfer_in fd i (replicate (Z.to_nat SectorSize) 0) w;
  write_sector i b w := transfer_out fd i b w;
  sector w i := sector_of (disk_file w) i;
  good w := (exists o, opens w !! fd = Some (ino, o)) /\ DiskSize <= Z.of_nat (length (disk_file w)) /\
    Forall is_byte (disk_file w)
|}.

Lemma in_disk i : valid_sector i -> 0 <= SectorSize * i + MagicSize /\ SectorSize * i + MagicSize + SectorSize <= DiskSize.
Proof. unfold valid_sector, DiskSize, NumSectors, SectorSize, MagicSize, SectorsPerTrack, NumTracks. lia. Qed.

Lemma seek_sector i w o c : valid_sector i -> opens w !! fd = Some (ino, o) -> content w !! ino = Some c ->
  exists w', Lseek fd (SectorSize * i + MagicSize) 0 w = Ok w' /\ FileTable.moved w w' fd ino (SectorSize * i + MagicSize).
Proof.
  intros Hi Ho Hc. pose proof (in_disk i Hi) as Hd.
  destruct (FileTable.Lseek_spec fd (SectorSize * i + MagicSize) 0 w ino o c ltac:(lia) Ho Hc) as [(_ & w' & _ & E & Hm)|(Hn & _)].
  - by exists w'.
  - exfalso. apply Hn. unfold seek_target. cbn [Z.eqb].
    unfold valid_sector, DiskSize, NumSectors, SectorSize, MagicSize, SectorsPerTrack, NumTracks in *. lia.
Qed.

Lemma sector_of_splice c i j b : valid_sector i -> valid_sector j -> DiskSize <= Z.of_nat (length c) ->
  Z.of_nat (length b) = SectorSize ->
  sector_of (splice c (SectorSize * i + MagicSize) b) j = if decide (j = i) then b else sector_of c j.
Proof.
  intros Hi Hj Hc Hb. pose proof (in_disk i Hi). pose proof (in_disk j Hj). unfold sector_of, splice.
  rewrite take_app_le by lia. unfold SectorSize, MagicSize in *.
  apply list_eq. intros n. destruct (decide (n < 128)%nat) as [Hn|Hn].
  2:{ rewrite lookup_take_ge by lia. destruct (decide (j = i)) as [->|]; [rewrite lookup_ge_None_2; [done | lia] |].
      by rewrite lookup_take_ge by lia. }
  rewrite lookup_take_lt, lookup_drop by lia.
  destruct (decide (j = i)) as [->|Hne].
  - rewrite lookup_app_r by (rewrite length_take; lia). rewrite length_take, lookup_app_l by lia. f_equal. lia.
  - rewrite lookup_take_lt, lookup_drop by lia. destruct (decide (j < i)) as [Hlt|Hge].
    + rewrite lookup_app_l by (rewrite length_take; lia). by rewrite lookup_take_lt by lia.
    + rewrite lookup_app_r by (rewrite length_take; lia). rewrite length_take, lookup_app_r by lia.
      rewrite lookup_drop. f_equal. lia.
Qed.

#[local] Instance transfer_laws : SectorLaws W.
Proof.
  split.
  - intros w i (_ & Hl & _) Hi. cbn. unfold sector_of. pose proof (in_disk i Hi). rewrite length_take, length_drop.
    unfold SectorSize, DiskSize in *. lia.
  - intros w i (_ & _ & Hb) Hi. cbn. unfold sector_of. by apply Forall_take, Forall_drop.
  - intros w i ((o & Ho) & Hl & Hb) Hi. destruct (opens_content w fd ino o Ho) as (c & Hc & Hlc).
    assert (disk_file w = c) as Ec by (unfold disk_file; by rewrite Hc).
    destruct (seek_sector i w o c Hi Ho Hc) as (w1 & E1 & Hn1 & Hc1 & Ho1 & Hf1).
    cbn [read_sector host_disk]. unfold transfer_in. unfold valid_sector in Hi.
    rewrite (proj2 (Z.leb_le _ _)), (proj2 (Z.ltb_lt _ _)) by lia. cbn [andb obind assert_]. rewrite E1. cbn [obind].
    unfold Stub.Read. rewrite (u32_id SectorSize) by done.
    assert (opens w1 !! fd = Some (ino, SectorSize * i + MagicSize)) as Ho1' by (by rewrite Ho1, lookup_insert_eq).
    pose proof (reads_succeed fd SectorSize w1 _ ltac:(done) Ho1') as Hr.
    destruct (read fd SectorSize w1) as [[r d] w2] eqn:E. cbn in Hr.
    destruct (read_ok _ _ _ _ _ _ _ _ c E ltac:(done) Ho1') as [(-> & _)|(Hd & -> & Hn2 & Hc2 & Ho2 & Hf2)]; [by rewrite Hc1 | done |].
    assert (d = sector_of c i) as -> by done.
    assert (Z.of_nat (length (sector_of c i)) = SectorSize) as Hls.
    { pose proof (in_disk i Hi). unfold sector_of. rewrite length_take, length_drop. rewrite Ec in Hl. unfold SectorSize, DiskSize in *. lia. }
    rewrite FileTable.buf_fill_ok by (rewrite length_replicate; lia). cbn [obind].
    rewrite (proj2 (Z.eqb_eq _ _)) by done. cbn [obind assert_].
    assert (disk_file w2 = disk_file w) as Ef by (unfold disk_file; by rewrite Hc2, Hc1).
    exists w2. split; [|split].
    + cbn [sector host_disk]. rewrite Ec. do 2 f_equal. rewrite drop_ge by (rewrite length_replicate; lia). apply app_nil_r.
    + split; [|by rewrite Ef]. exists (SectorSize * i + MagicSize + Z.of_nat (length (sector_of c i))). by rewrite Ho2, lookup_insert_eq.
    + intros j _. cbn. by rewrite Ef.
  - intros w i b ((o & Ho) & Hl & Hb) Hi Hlb Hbb. destruct (opens_content w fd ino o Ho) as (c & Hc & Hlc).
    assert (disk_file w = c) as Ec by (unfold disk_file; by rewrite Hc). rewrite Ec in Hl, Hb.
    destruct (seek_sector i w o c Hi Ho Hc) as (w1 & E1 & Hn1 & Hc1 & Ho1 & Hf1).
    cbn [write_sector host_disk]. unfold transfer_out. pose proof Hi as Hi'. unfold valid_sector in Hi'.
    rewrite (proj2 (Z.leb_le _ _)), (proj2 (Z.ltb_lt _ _)) by lia. cbn [andb obind assert_]. rewrite E1. cbn [obind].
    unfold WriteFile. rewrite (u32_id SectorSize) by done. rewrite (proj2 (Z.leb_le _ _)), take_ge by lia.
    assert (opens w1 !! fd = Some (ino, SectorSize * i + MagicSize)) as Ho1' by (by rewrite Ho1, lookup_insert_eq).
    pose proof (in_disk i Hi) as Hd. pose proof (writes_succeed fd b w1 _ _ Ho1' ltac:(lia) ltac:(lia)) as Hr. clear Hd. destruct (write fd b w1) as [r w2] eqn:E. cbn in Hr. subst r.
    destruct (write_ok _ _ _ _ _ _ _ c E Ho1') as [(Hm1 & _)|(_ & Hn2 & Hc2 & Ho2 & Hf2)]; [by rewrite Hc1 | unfold SectorSize in *; lia |].
    rewrite (proj2 (Z.eqb_eq _ _)) by done. cbn [obind assert_].
    rewrite take_ge in Hc2 by lia.
    assert (disk_file w2 = splice c (SectorSize * i + MagicSize) b) as Ef by (unfold disk_file; by rewrite Hc2, Hc1, lookup_insert_eq).
    exists w2. split; [done |]. split; [|split].
    + split; [eexists; by rewrite Ho2, lookup_insert_eq |]. rewrite Ef. split.
      * rewrite FileTable.length_splice by (pose proof (in_disk i Hi); lia). lia.
      * unfold splice. apply Forall_app. split; [|apply Forall_app; split; [done | by apply Forall_drop]].
        apply Forall_take, Forall_app. split; [done |]. apply Forall_replicate. unfold is_byte. lia.
    + cbn [sector host_disk]. rewrite Ef, sector_of_splice by done. by rewrite decide_True.
    + intros j Hj Hne. cbn [sector host_disk]. rewrite Ef, sector_of_splice, Ec by done. by rewrite decide_False.
  - intros w i Hi. cbn. unfold transfer_in, valid_sector in *. destruct (Z.leb_spec 0 i), (Z.ltb_spec i NumSectors); done || lia.
  - intros w i b Hi. cbn. unfold transfer_out, valid_sector in *. destruct (Z.leb_spec 0 i), (Z.ltb_spec i NumSectors); done || lia.
Qed.

End HostDisk.
End Disk.
