(* ===== verification/Coff.v ===== *)
(** * Executables: coff2noff.c and its coff.h

    The program that turns the compiler's COFF files into the NOFF files
    [AddrSpace::Load] reads, over the host calls of FileTable.v.  It is a
    Unix program of its own: a function of its arguments and the host that
    ends with an exit code.  The theorem composes it with the loader. *)

From S2P Require Import Prelude Machine FileTable AddrSpace Disk.

Module Coff.
Import Machine Stub AddrSpace.

(** ** coff.h *)

Definition MIPSELMAGIC : Z := 0x0162.
Definition OMAGIC : Z := 263.             (* 0407 *)

Definition sizeof_filehdr : Z := 20.
Definition sizeof_aouthdr : Z := 56.
Definition sizeof_scnhdr : Z := 40.

(** The fields the program uses. *)
Record scnhdr := mkScnhdr { s_name : list Z; s_paddr : Z; s_size : Z; s_scnptr : Z }.

Definition read_short (b : list Z) (a : Z) : outcome Z := load_le (u8 <$> b) a 2.

Definition scnhdr_of (b : list Z) : outcome scnhdr :=
  let! paddr := read_int b 2 in
  let! size := read_int b 4 in
  let! ptr := read_int b 5 in
  Ok (mkScnhdr (take 8 b) paddr size ptr).

(** The array of [n] section headers in [b]. *)
Fixpoint sections_of (n : nat) (b : list Z) : outcome (list scnhdr) :=
  match n with
  | O => Ok []
  | S n' =>
      let! s := scnhdr_of b in
      let! l := sections_of n' (drop (Z.to_nat sizeof_scnhdr) b) in
      Ok (s :: l)
  end.

(** ** noff.h *)

Definition segment_bytes (s : Segment) : list Z :=
  Disk.int_bytes (virtualAddr s) ++ Disk.int_bytes (inFileAddr s) ++ Disk.int_bytes (size s).
Definition noff_bytes (h : NoffHeader) : list Z :=
  Disk.int_bytes (noffMagic h) ++ segment_bytes (code h) ++ segment_bytes (initData h) ++
  segment_bytes (readonlyData h) ++ segment_bytes (uninitData h).

Definition set_code s (h : NoffHeader) := mkNoff (noffMagic h) s (initData h) (readonlyData h) (uninitData h).
Definition set_initData s (h : NoffHeader) := mkNoff (noffMagic h) (code h) s (readonlyData h) (uninitData h).
Definition set_readonlyData s (h : NoffHeader) := mkNoff (noffMagic h) (code h) (initData h) s (uninitData h).
Definition set_uninitData s (h : NoffHeader) := mkNoff (noffMagic h) (code h) (initData h) (readonlyData h) s.
Definition with_size n (s : Segment) := mkSegment (virtualAddr s) (inFileAddr s) n.

(** ** The host and exits *)

(** [open(name, O_RDONLY)] and [open(name, O_WRONLY|O_CREAT|O_TRUNC)]. *)
Class ToolHost (W : Type) := { open_rdonly : list Z -> W -> Z * W; open_wronly : list Z -> W -> Z * W }.

Section Tool.
Context {W : Type} `{HH : Host W} `{TH : !ToolHost W}.

(** A computation ends or [exit]s with a code. *)
Definition tool (A : Type) : Type := W -> outcome ((Z + A) * W).
Definition ret {A} (a : A) : tool A := fun w => Ok (inr a, w).
Definition exit {A} (n : Z) : tool A := fun w => Ok (inl n, w).
Definition bind {A B} (m : tool A) (k : A -> tool B) : tool B := fun w =>
  let! ' (r, w) := m w in
  match r with inl n => Ok (inl n, w) | inr a => k a w end.
Definition lift {A} (m : outcome A) : tool A := fun w => let! a := m in Ok (inr a, w).
Definition host {A} (f : W -> A * W) : tool A := fun w => let '(a, w) := f w in Ok (inr a, w).
Notation "'do!' p <- m ; k" := (bind m (fun p => k)) (at level 10, p name, m at level 100, k at level 200).

(** What [malloc(n)] and local variables hold before they are written. *)
Context (garbage : Z -> list Z) (noff0 : NoffHeader).

Section Files.
Context (noffFileName : list Z).

(** [unlink(noffFileName); exit(1)]. *)
Definition give_up_file {A} : tool A := do! _ <- host (unlink noffFileName); exit 1.

Definition Read (fd : Z) (buf : list Z) (nBytes : Z) : tool (list Z) := fun w =>
  let '(r, d, w) := read fd (u32 nBytes) w in
  let! buf := buf_fill buf d in
  if negb (r =? nBytes) then give_up_file w else Ok (inr buf, w).

Definition Write (fd : Z) (buf : list Z) (nBytes : Z) : tool unit := fun w =>
  if u32 nBytes <=? Z.of_nat (length buf) then
    let '(r, w) := write fd (take (Z.to_nat (u32 nBytes)) buf) w in
    if negb (r =? nBytes) then give_up_file w else Ok (inr tt, w)
  else Trap Undefined.

Definition ReadStruct (fd size : Z) : tool (list Z) := Read fd (garbage size) size.

Definition str_text : list Z := [46; 116; 101; 120; 116].
Definition str_data : list Z := [46; 100; 97; 116; 97].
Definition str_rdata : list Z := [46; 114; 100; 97; 116; 97].
Definition str_bss : list Z := [46; 98; 115; 115].

(** The section's bytes, from [fdIn] to [fdOut]. *)
Definition copy_section (fdIn fdOut : Z) (s : scnhdr) : tool unit :=
  do! _ <- host (lseek fdIn (s_scnptr s) 0);
  do! buffer <- Read fdIn (garbage (s_size s)) (s_size s);
  Write fdOut buffer (s_size s).

Definition segment_at (inNoffFile : Z) (s : scnhdr) : Segment := mkSegment (s_paddr s) inNoffFile (s_size s).

(** The body of the loop over the sections: the header and [inNoffFile]. *)
Definition convert_section (fdIn fdOut : Z) (s : scnhdr) (x : NoffHeader * Z) : tool (NoffHeader * Z) :=
  let '(noffH, inNoffFile) := x in
  let next := s32 (inNoffFile + s_size s) in
  if s_size s =? 0 then ret (noffH, inNoffFile)
  else
    do! is_text <- lift (FileTable.strcmp_eq (s_name s) str_text);
    if (is_text : bool) then
      do! _ <- copy_section fdIn fdOut s; ret (set_code (segment_at inNoffFile s) noffH, next)
    else
    do! is_data <- lift (FileTable.strcmp_eq (s_name s) str_data);
    if (is_data : bool) then
      do! _ <- copy_section fdIn fdOut s; ret (set_initData (segment_at inNoffFile s) noffH, next)
    else
    do! is_rdata <- lift (FileTable.strcmp_eq (s_name s) str_rdata);
    if (is_rdata : bool) then
      do! _ <- copy_section fdIn fdOut s; ret (set_readonlyData (segment_at inNoffFile s) noffH, next)
    else
    do! is_bss <- lift (FileTable.strcmp_eq (s_name s) str_bss);
    if (is_bss : bool) then
      let u := uninitData noffH in
      if negb (size u =? 0) then
        if s_paddr s =? s32 (virtualAddr u + size u) then give_up_file
        else ret (set_uninitData (with_size (s32 (size u + s_size s)) u) noffH, inNoffFile)
      else ret (set_uninitData (mkSegment (s_paddr s) (inFileAddr u) (s_size s)) noffH, inNoffFile)
    else give_up_file.

Fixpoint convert_sections (fdIn fdOut : Z) (l : list scnhdr) (x : NoffHeader * Z) : tool (NoffHeader * Z) :=
  match l with
  | [] => ret x
  | s :: l => do! x <- convert_section fdIn fdOut s x; convert_sections fdIn fdOut l x
  end.

Definition swap_section (s : scnhdr) : scnhdr :=
  mkScnhdr (s_name s) (s32 (WordToHost HOST_IS_BIG_ENDIAN (u32 (s_paddr s))))
    (s32 (WordToHost HOST_IS_BIG_ENDIAN (u32 (s_size s)))) (s32 (WordToHost HOST_IS_BIG_ENDIAN (u32 (s_scnptr s)))).

Definition empty_header : NoffHeader :=
  mkNoff NOFFMAGIC (with_size 0 (code noff0)) (with_size 0 (initData noff0))
    (with_size 0 (readonlyData noff0)) (with_size 0 (uninitData noff0)).

(** [main] once both files are open. *)
Definition convert (fdIn fdOut : Z) : tool unit :=
  do! fileh <- ReadStruct fdIn sizeof_filehdr;
  do! f_magic <- lift (let! x := read_short fileh 0 in Ok (ShortToHost HOST_IS_BIG_ENDIAN x));
  do! f_nscns <- lift (let! x := read_short fileh 2 in Ok (ShortToHost HOST_IS_BIG_ENDIAN x));
  if negb (f_magic =? MIPSELMAGIC) then give_up_file
  else
    do! systemh <- ReadStruct fdIn sizeof_aouthdr;
    do! magic <- lift (let! x := read_short systemh 0 in Ok (ShortToHost HOST_IS_BIG_ENDIAN x));
    if negb (magic =? OMAGIC) then give_up_file
    else
      do! b <- Read fdIn (garbage (f_nscns * sizeof_scnhdr)) (f_nscns * sizeof_scnhdr);
      do! sections <- lift (sections_of (Z.to_nat f_nscns) b);
      do! _ <- host (lseek fdOut sizeof_NoffHeader 0);
      do! x <- convert_sections fdIn fdOut (swap_section <$> sections) (empty_header, sizeof_NoffHeader);
      do! _ <- host (lseek fdOut 0 0);
      do! _ <- Write fdOut (noff_bytes (SwapHeader HOST_IS_BIG_ENDIAN x.1)) sizeof_NoffHeader;
      do! _ <- host (close fdIn);
      do! _ <- host (close fdOut);
      exit 0.

End Files.

(** [main]; [argv] is the name of the program and its arguments. *)
Definition main (argv : list (list Z)) : tool unit :=
  match argv with
  | _ :: coffFileName :: rest =>
      do! fdIn <- host (open_rdonly coffFileName);
      if fdIn =? -1 then exit 1
      else
        match rest with
        | [] => fun _ => Trap Undefined          (* argv[2] is NULL *)
        | noffFileName :: _ =>
            do! fdOut <- host (open_wronly noffFileName);
            if fdIn =? -1 then exit 1
            else convert noffFileName fdIn fdOut
        end
  | _ => exit 1
  end.

End Tool.

(** ** What the two calls of open do *)

(** As [open_rdwr] and [open_creat] of [HostLaws]. *)
Class ToolLaws (W : Type) `{Host W, HostView W, ToolHost W} : Prop := {
  rdonly_ok n w r w' : open_rdonly n w = (r, w') ->
    (r = -1 /\ same_files w w') \/
    (0 <= r /\ r ∉ fds w /\ exists ino, names w !! n = Some ino /\ names w' = names w /\
       content w' = content w /\ opens w' = <[r := (ino, 0)]> (opens w) /\ fds w' = {[r]} ∪ fds w);
  wronly_ok n w r w' : open_wronly n w = (r, w') ->
    (r = -1 /\ same_files w w') \/
    (0 <= r /\ r ∉ fds w /\ exists ino, names w' = <[n := ino]> (names w) /\
       content w' = <[ino := []]> (content w) /\
       (forall i, names w !! n = Some i -> i = ino) /\
       (names w !! n = None -> forall fd o, opens w !! fd <> Some (ino, o)) /\
       opens w' = <[r := (ino, 0)]> (opens w) /\ fds w' = {[r]} ∪ fds w)
}.

(** ** Bytes and fields *)

Definition header_range (h : NoffHeader) : Prop :=
  let seg s := is_s32 (virtualAddr s) /\ is_s32 (inFileAddr s) /\ is_s32 (size s) in
  is_s32 (noffMagic h) /\ seg (code h) /\ seg (initData h) /\ seg (readonlyData h) /\ seg (uninitData h).

Lemma length_noff_bytes h : length (noff_bytes h) = 52%nat.
Proof. done. Qed.

Lemma noff_of_noff_bytes h r : header_range h -> noff_of_bytes (noff_bytes h ++ r) = Ok h.
Proof.
  intros (Hm & Hc & Hi & Hr & Hu).
  assert (forall pre s r i, Z.of_nat (length pre) = 4 * i -> is_s32 (virtualAddr s) /\ is_s32 (inFileAddr s) /\ is_s32 (size s) ->
    read_segment (pre ++ segment_bytes s ++ r) i = Ok s) as Hseg.
  { intros pre s r' i Hp (Hv & Hf & Hs). unfold read_segment, segment_bytes. rewrite <- !app_assoc.
    rewrite (Disk.read_int_bytes pre) by done. cbn [obind].
    rewrite (app_assoc pre), (Disk.read_int_bytes (pre ++ _)) by (rewrite length_app; cbn; lia). cbn [obind].
    rewrite (app_assoc (pre ++ _)), (Disk.read_int_bytes ((pre ++ _) ++ _)) by (rewrite !length_app; cbn; lia). cbn [obind].
    rewrite !s32_id by done. by destruct s. }
  unfold noff_of_bytes, noff_bytes. rewrite <- !app_assoc.
  rewrite (Disk.read_int_bytes [] (noffMagic h) _ 0 eq_refl : read_int (Disk.int_bytes _ ++ _) 0 = _). cbn [obind].
  rewrite (Hseg (Disk.int_bytes _)) by done. cbn [obind]. rewrite (app_assoc (Disk.int_bytes _)).
  rewrite (Hseg (Disk.int_bytes _ ++ _)) by done. cbn [obind]. rewrite (app_assoc (Disk.int_bytes _ ++ _)).
  rewrite (Hseg ((Disk.int_bytes _ ++ _) ++ _)) by done. cbn [obind]. rewrite (app_assoc ((Disk.int_bytes _ ++ _) ++ _)).
  rewrite (Hseg (((Disk.int_bytes _ ++ _) ++ _) ++ _)) by done. cbn [obind]. rewrite s32_id by done. by destruct h.
Qed.

(** Bytes of a file before what is written, and what is written. *)
Definition piece (c : list Z) (a n : Z) : list Z := take (Z.to_nat n) (drop (Z.to_nat a) c).

Lemma piece_splice_before c o b a n : 0 <= a -> 0 <= n -> a + n <= Z.of_nat (length c) -> a + n <= o ->
  piece (splice c o b) a n = piece c a n.
Proof.
  intros Ha Hn Hc Ho. unfold piece, splice. apply list_eq. intros k.
  destruct (decide (k < Z.to_nat n)%nat) as [Hk|Hk]; [|by rewrite !lookup_take_ge by lia].
  rewrite !lookup_take_lt, !lookup_drop by lia. rewrite lookup_app_l by (rewrite length_take, length_app, length_replicate; lia).
  rewrite lookup_take_lt by lia. by rewrite lookup_app_l by lia.
Qed.

Lemma piece_splice_at c o b : 0 <= o -> piece (splice c o b) o (Z.of_nat (length b)) = b.
Proof.
  intros Ho. unfold piece, splice. rewrite Nat2Z.id.
  rewrite drop_app_length' by (rewrite length_take, length_app, length_replicate; lia). by rewrite take_app_length.
Qed.

Lemma piece_header c b a n : Z.of_nat (length b) <= a -> a <= Z.of_nat (length c) -> piece (splice c 0 b) a n = piece c a n.
Proof.
  intros Hb Ha. unfold piece, splice. change (Z.to_nat 0) with 0%nat. rewrite take_0, app_nil_l, Nat.add_0_l.
  rewrite drop_app_ge, drop_drop by lia. do 2 f_equal. lia.
Qed.

(** The file [c] has the section, and the output the segment. *)
Definition has_section (c : list Z) (s : scnhdr) : Prop :=
  0 <= s_scnptr s /\ s_scnptr s + s_size s <= Z.of_nat (length c).


(** *** Sections by their names *)

Inductive kind := Text | Data | Rdata | Bss.

#[export] Instance kind_eq_dec : EqDecision kind.
Proof. solve_decision. Defined.

Definition is_named (lit : list Z) (s : scnhdr) : bool :=
  match FileTable.strcmp_eq (s_name s) lit with Ok b => b | Trap _ => false end.
Definition kind_of (s : scnhdr) : option kind :=
  if is_named str_text s then Some Text
  else if is_named str_data s then Some Data
  else if is_named str_rdata s then Some Rdata
  else if is_named str_bss s then Some Bss
  else None.

(** The nonempty section of a kind. *)
Definition is_kind (k : kind) (s : scnhdr) : Prop := s_size s <> 0 /\ kind_of s = Some k.
#[export] Instance is_kind_dec k s : Decision (is_kind k s) := and_dec _ _.
Definition section (l : list scnhdr) (k : kind) : option scnhdr := head (filter (is_kind k) l).

Definition segment (k : kind) (h : NoffHeader) : Segment :=
  match k with Text => code h | Data => initData h | Rdata => readonlyData h | Bss => uninitData h end.
Definition set_segment (k : kind) (s : Segment) (h : NoffHeader) : NoffHeader :=
  match k with Text => set_code s h | Data => set_initData s h | Rdata => set_readonlyData s h | Bss => set_uninitData s h end.

Lemma segment_set k k' s h : segment k (set_segment k' s h) = if decide (k = k') then s else segment k h.
Proof. by destruct k, k'. Qed.

Lemma noffMagic_set k s h : noffMagic (set_segment k s h) = noffMagic h.
Proof. by destruct k. Qed.

(** What a loader of COFF files would be told: the sections, where they
    are in the COFF file. *)
Definition direct_segment (l : list scnhdr) (k : kind) : Segment :=
  match section l k with Some s => mkSegment (s_paddr s) (s_scnptr s) (s_size s) | None => mkSegment 0 0 0 end.
Definition direct (l : list scnhdr) : NoffHeader :=
  mkNoff NOFFMAGIC (direct_segment l Text) (direct_segment l Data) (direct_segment l Rdata) (direct_segment l Bss).

(** A COFF file [c] the converter understands: its section headers [l],
    each nonempty one of a known kind, its bytes in the file. *)
Definition section_ok (c : list Z) (s : scnhdr) : Prop :=
  length (s_name s) = 8%nat /\ is_s32 (s_paddr s) /\ 0 <= s_size s /\
  (s_size s <> 0 -> exists k, kind_of s = Some k /\ (k <> Bss -> has_section c s)).

Definition data_size (l : list scnhdr) : Z := foldr (fun s n => s_size s + n) 0 l.

Record coff_file (c : list Z) (l : list scnhdr) : Prop := {
  cf_magic : read_short (piece c 0 sizeof_filehdr) 0 = Ok MIPSELMAGIC;
  cf_nscns : read_short (piece c 0 sizeof_filehdr) 2 = Ok (Z.of_nat (length l));
  cf_omagic : read_short (piece c sizeof_filehdr sizeof_aouthdr) 0 = Ok OMAGIC;
  cf_length : sizeof_filehdr + sizeof_aouthdr + sizeof_scnhdr * Z.of_nat (length l) <= Z.of_nat (length c) < 2 ^ 31;
  cf_sections : sections_of (length l) (piece c (sizeof_filehdr + sizeof_aouthdr) (sizeof_scnhdr * Z.of_nat (length l))) = Ok l;
  cf_ok : Forall (section_ok c) l;
  cf_unique k : (length (filter (is_kind k) l) <= 1)%nat
}.

Lemma strcmp_total b lit : (length lit < length b)%nat -> exists r, FileTable.strcmp_eq b lit = Ok r.
Proof.
  revert b. induction lit as [|d lit IH]; intros [|x b] Hl; cbn in *; try lia; [by eexists |].
  destruct (x =? d); [apply IH; lia | by eexists].
Qed.

Lemma section_snoc l s k : section (l ++ [s]) k =
  match section l k with Some s' => Some s' | None => if decide (is_kind k s) then Some s else None end.
Proof.
  unfold section. rewrite filter_app, filter_cons, filter_nil.
  destruct (filter (is_kind k) l); [by destruct (decide _) | done].
Qed.

(** ** Reading, writing, converting *)

Section Convert.
Context {W : Type} `{HH : Host W} `{HV : !HostView W} `{HL : !HostLaws W} `{TH : !ToolHost W} `{TL : !ToolLaws W}.
Context (garbage : Z -> list Z) (garbage_size : forall n, 0 <= n -> Z.of_nat (length (garbage n)) = n).

(** Reading an open file works, and writing up to the limit of its size. *)
Context (reads_succeed : AddrSpace.reads_succeed (W := W))
  (limit : Z) (limit_range : limit < 2 ^ 31)
  (writes_succeed : forall fd b w ino o, opens w !! fd = Some (ino, o) -> 0 <= o -> o + Z.of_nat (length b) <= limit ->
     (write fd b w).1 = Z.of_nat (length b)).

(** The files of the run: [fdIn] is open on inode [i] with content [c],
    [fdOut] at [p] on inode [j], whose content is [x]. *)
Record files_at (fdIn fdOut i j : Z) (c : list Z) (nm : gmap (list Z) Z) (x : list Z) (p : Z) (w : W) : Prop := {
  r_in : exists o, opens w !! fdIn = Some (i, o);
  r_out : opens w !! fdOut = Some (j, p);
  r_c : content w !! i = Some c;
  r_x : content w !! j = Some x;
  r_names : names w = nm
}.

Context (nf : list Z) (fdIn fdOut i j : Z) (c : list Z) (nm : gmap (list Z) Z)
  (fds_differ : fdIn <> fdOut) (files_differ : i <> j).
Notation running := (files_at fdIn fdOut i j c nm).

Lemma seek_in a x p w : running x p w -> 0 <= a < 2 ^ 31 ->
  exists w', host (lseek fdIn a 0) w = Ok (inr a, w') /\ running x p w' /\ opens w' !! fdIn = Some (i, a).
Proof.
  intros [[o Ho] Hp Hc Hx Hn] Ha.
  destruct (FileTable.Lseek_spec fdIn a 0 w i o c ltac:(lia) Ho Hc) as [(_ & w' & E & _ & En & Ec & Eo & _)|(H & _)].
  2:{ exfalso. apply H. exact Ha. }
  unfold host. unfold seek_target in *. cbn [Z.eqb] in *. rewrite E. exists w'. split; [done |].
  assert (opens w' !! fdIn = Some (i, a)) as Ea by (by rewrite Eo, lookup_insert_eq).
  split; [|done]. split; rewrite ?Ec, ?En; try done; [by exists a |]. by rewrite Eo, lookup_insert_ne.
Qed.

Lemma seek_out a x p w : running x p w -> 0 <= a < 2 ^ 31 ->
  exists w', host (lseek fdOut a 0) w = Ok (inr a, w') /\ running x a w'.
Proof.
  intros [[o Ho] Hp Hc Hx Hn] Ha.
  destruct (FileTable.Lseek_spec fdOut a 0 w j p x ltac:(lia) Hp Hx) as [(_ & w' & E & _ & En & Ec & Eo & _)|(H & _)].
  2:{ exfalso. apply H. exact Ha. }
  unfold host. unfold seek_target in *. cbn [Z.eqb] in *. rewrite E. exists w'. split; [done |].
  split; rewrite ?Ec, ?En; try done; [exists o; by rewrite Eo, lookup_insert_ne |]. by rewrite Eo, lookup_insert_eq.
Qed.

(** A read of what is there. *)
Lemma tool_Read_ok buf n o x p w : running x p w -> opens w !! fdIn = Some (i, o) ->
  0 <= o -> 0 <= n < 2 ^ 31 -> o + n <= Z.of_nat (length c) -> Z.of_nat (length buf) = n ->
  exists w', Read nf fdIn buf n w = Ok (inr (piece c o n), w') /\ running x p w' /\ opens w' !! fdIn = Some (i, o + n).
Proof.
  intros [_ Hp Hc Hx Hn] Ho H0 Hn31 Hin Hbuf. unfold Read. rewrite (u32_id n) by (unfold is_u32; lia).
  pose proof (reads_succeed fdIn n w _ ltac:(lia) Ho) as Hr. destruct (read fdIn n w) as [[r d] w'] eqn:E. cbn in Hr.
  destruct (read_ok _ _ _ _ _ _ _ _ c E ltac:(lia) Ho Hc) as [(-> & _)|(Hd & -> & En & Ec & Eo & _)]; [done |].
  assert (d = piece c o n) as -> by done.
  assert (Z.of_nat (length (piece c o n)) = n) as Hl by (unfold piece; rewrite length_take, length_drop; lia).
  unfold buf_fill. rewrite (proj2 (Nat.leb_le _ _)) by lia. cbn [obind]. rewrite Hl, Z.eqb_refl. cbn [negb].
  rewrite drop_ge, app_nil_r by lia. exists w'. split; [done |]. rewrite Hl in Eo.
  assert (opens w' !! fdIn = Some (i, o + n)) as Ea by (by rewrite Eo, lookup_insert_eq).
  split; [|done]. split; rewrite ?Ec, ?En; try done; [by exists (o + n) |]. by rewrite Eo, lookup_insert_ne.
Qed.

Lemma tool_Write_ok b x p w : running x p w -> 0 <= p -> p + Z.of_nat (length b) <= limit ->
  exists w', Write nf fdOut b (Z.of_nat (length b)) w = Ok (inr tt, w') /\ running (splice x p b) (p + Z.of_nat (length b)) w'.
Proof.
  intros [[o Ho] Hp Hc Hx Hn] Hp0 Hb. unfold Write. rewrite u32_id by (unfold is_u32; lia). rewrite Z.leb_refl.
  rewrite Nat2Z.id, firstn_all. pose proof (writes_succeed fdOut b w _ _ Hp Hp0 Hb) as Hr.
  destruct (write fdOut b w) as [r w'] eqn:E. cbn in Hr. subst r. rewrite Z.eqb_refl. cbn [negb]. exists w'. split; [done |].
  destruct (write_ok _ _ _ _ _ _ _ x E Hp Hx) as [(H & _)|(_ & En & Ec & Eo & _)]; [lia |].
  rewrite Nat2Z.id, firstn_all in Ec.
  split; rewrite ?En; try done.
  - exists o. by rewrite Eo, lookup_insert_ne.
  - by rewrite Eo, lookup_insert_eq.
  - by rewrite Ec, lookup_insert_ne.
  - by rewrite Ec, lookup_insert_eq.
Qed.

Lemma copy_section_ok s x p w : running x p w -> 0 <= p -> 0 <= s_size s -> p + s_size s <= limit -> has_section c s -> Z.of_nat (length c) < 2 ^ 31 ->
  exists w', copy_section garbage nf fdIn fdOut s w = Ok (inr tt, w') /\
    running (splice x p (piece c (s_scnptr s) (s_size s))) (p + s_size s) w'.
Proof.
  intros Hr Hp0 Hs Hsz [H0 H1] Hc. unfold copy_section, bind.
  destruct (seek_in (s_scnptr s) x p w Hr ltac:(lia)) as (w1 & -> & Hr1 & Ho1). cbn [obind].
  destruct (tool_Read_ok (garbage (s_size s)) (s_size s) (s_scnptr s) x p w1 Hr1 Ho1) as (w2 & -> & Hr2 & _); [lia | lia | lia | apply garbage_size; lia |].
  cbn [obind]. set (b := piece c (s_scnptr s) (s_size s)) in *.
  assert (Z.of_nat (length b) = s_size s) as Hl by (unfold b, piece; rewrite length_take, length_drop; lia).
  destruct (tool_Write_ok b x p w2 Hr2) as (w3 & E & Hr3); [lia | lia |]. rewrite Hl in E, Hr3. by exists w3.
Qed.

(** *** The loop *)

Definition segment_copied (x : list Z) (o : option scnhdr) (g : Segment) : Prop :=
  match o with
  | None => size g = 0
  | Some s => virtualAddr g = s_paddr s /\ size g = s_size s /\ sizeof_NoffHeader <= inFileAddr g /\
              inFileAddr g + size g <= Z.of_nat (length x) /\ piece x (inFileAddr g) (size g) = piece c (s_scnptr s) (s_size s)
  end.

(** After the sections [l], with [n] the end of the output. *)
Record converted (l : list scnhdr) (x : list Z) (h : NoffHeader) (n : Z) : Prop := {
  c_magic : noffMagic h = NOFFMAGIC;
  c_range : header_range h;
  c_end : sizeof_NoffHeader <= n <= sizeof_NoffHeader + data_size l /\ Z.of_nat (length x) <= n;
  c_data k : k <> Bss -> segment_copied x (section l k) (segment k h);
  c_bss : match section l Bss with
          | None => size (uninitData h) = 0
          | Some s => virtualAddr (uninitData h) = s_paddr s /\ size (uninitData h) = s_size s
          end
}.

Lemma convert_section_by_kind s h n : length (s_name s) = 8%nat -> s_size s <> 0 ->
  convert_section garbage nf fdIn fdOut s (h, n) =
  match kind_of s with
  | Some Bss =>
      let u := uninitData h in
      if negb (size u =? 0) then
        if s_paddr s =? s32 (virtualAddr u + size u) then give_up_file nf
        else ret (set_uninitData (with_size (s32 (size u + s_size s)) u) h, n)
      else ret (set_uninitData (mkSegment (s_paddr s) (inFileAddr u) (s_size s)) h, n)
  | Some k => bind (copy_section garbage nf fdIn fdOut s) (fun _ => ret (set_segment k (segment_at n s) h, s32 (n + s_size s)))
  | None => give_up_file nf
  end.
Proof.
  intros Hn Hs. unfold convert_section. rewrite (proj2 (Z.eqb_neq _ _) Hs).
  unfold kind_of, is_named.
  destruct (strcmp_total (s_name s) str_text) as [b1 E1]; [rewrite Hn; cbn; lia |].
  destruct (strcmp_total (s_name s) str_data) as [b2 E2]; [rewrite Hn; cbn; lia |].
  destruct (strcmp_total (s_name s) str_rdata) as [b3 E3]; [rewrite Hn; cbn; lia |].
  destruct (strcmp_total (s_name s) str_bss) as [b4 E4]; [rewrite Hn; cbn; lia |].
  rewrite E1, E2, E3, E4. destruct b1; [done |]. destruct b2; [done |]. destruct b3; [done |]. by destruct b4.
Qed.

Lemma header_range_set k g h : header_range h -> is_s32 (virtualAddr g) /\ is_s32 (inFileAddr g) /\ is_s32 (size g) ->
  header_range (set_segment k g h).
Proof. intros (?&?&?&?&?) ?. by destruct k. Qed.

Lemma data_size_app l l' : data_size (l ++ l') = data_size l + data_size l'.
Proof. unfold data_size. induction l as [|t l IH]; cbn [foldr app] in *; lia. Qed.

Lemma data_size_snoc l s : data_size (l ++ [s]) = data_size l + s_size s.
Proof. rewrite data_size_app. unfold data_size. cbn. lia. Qed.

Lemma data_size_nonneg l : Forall (section_ok c) l -> 0 <= data_size l.
Proof. unfold data_size. induction 1 as [|t l (_ & _ & ? & _) _ IH]; cbn [foldr]; lia. Qed.

Lemma segment_copied_splice x o g n b : segment_copied x o g -> Z.of_nat (length x) <= n -> 0 <= size g ->
  segment_copied (splice x n b) o g.
Proof.
  destruct o as [s|]; [|done]. intros (Hv & Hs & Hf & Hl & Hp) Hx Hg. unfold sizeof_NoffHeader in Hf.
  split; [done |]. split; [done |]. split; [done |]. split; [rewrite FileTable.length_splice; lia |].
  by rewrite piece_splice_before by lia.
Qed.

Lemma unique_new l s k : (length (filter (is_kind k) (l ++ [s])) <= 1)%nat -> is_kind k s -> section l k = None.
Proof.
  intros Hu Hk. rewrite filter_app, filter_cons_True, filter_nil, length_app in Hu by done. cbn in Hu.
  unfold section. destruct (filter (is_kind k) l); [done |]. cbn in Hu. lia.
Qed.

(** A section of a kind other than [k] leaves what is known of [k]. *)
Lemma section_other l s k k' : kind_of s = Some k' -> k <> k' -> section (l ++ [s]) k = section l k.
Proof.
  intros Hk Hne. rewrite section_snoc. rewrite decide_False by (intros [_ E]; congruence). by destruct (section l k).
Qed.

Lemma converted_sizes l x h n k : converted l x h n -> Forall (section_ok c) l -> 0 <= size (segment k h).
Proof.
  intros [_ _ _ Hd Hb] Hl.
  assert (forall s, section l k = Some s -> 0 <= s_size s) as Hs.
  { unfold section. intros s Hs. apply head_Some_elem_of, list_elem_of_filter in Hs as [_ Hs].
    by apply (Forall_elem _ _ _ Hl) in Hs as (_ & _ & ? & _). }
  destruct (decide (k = Bss)) as [->|Hk].
  - cbn. destruct (section l Bss) as [s|]; [destruct Hb as [_ ->]; auto | lia].
  - specialize (Hd k Hk). destruct (section l k) as [s|]; cbn in Hd; [destruct Hd as (_ & -> & _); auto | lia].
Qed.

Lemma convert_data l s k x h n w : Z.of_nat (length c) < 2 ^ 31 ->
  converted l x h n -> running x n w -> Forall (section_ok c) l -> section_ok c s ->
  is_kind k s -> k <> Bss -> section l k = None -> sizeof_NoffHeader + data_size (l ++ [s]) <= limit ->
  exists w' x', bind (copy_section garbage nf fdIn fdOut s) (fun _ => ret (set_segment k (segment_at n s) h, s32 (n + s_size s))) w
      = Ok (inr (set_segment k (segment_at n s) h, n + s_size s), w') /\
    converted (l ++ [s]) x' (set_segment k (segment_at n s) h) (n + s_size s) /\ running x' (n + s_size s) w'.
Proof.
  intros Hc Hcv Hr Hl (Hn & Hp & Hs & Hin) [Hs0 Hk] Hb Hnew Hsz. pose proof Hcv as [Hm Hrg [Hend Hx] Hd Hbss].
  destruct (Hin Hs0) as (k' & Hk' & Hsec). rewrite Hk in Hk'. injection Hk' as <-. specialize (Hsec Hb).
  rewrite data_size_snoc in Hsz. unfold sizeof_NoffHeader in *.
  unfold bind, ret. destruct (copy_section_ok s x n w Hr ltac:(lia) ltac:(lia) ltac:(lia) Hsec Hc) as (w' & -> & Hr'). cbn [obind].
  rewrite s32_id by (unfold is_s32; lia). eexists w', _. split; [done |]. split; [|exact Hr'].
  set (b := piece c (s_scnptr s) (s_size s)) in *.
  assert (Z.of_nat (length b) = s_size s) as Hlb by (unfold b, piece; destruct Hsec; rewrite length_take, length_drop; lia).
  split.
  - by rewrite noffMagic_set.
  - apply header_range_set; [done |]. cbn. unfold is_s32 in *. lia.
  - rewrite data_size_snoc. unfold sizeof_NoffHeader. split; [lia |]. rewrite FileTable.length_splice by lia. lia.
  - intros k' Hk'. rewrite segment_set. destruct (decide (k' = k)) as [->|Hne].
    + rewrite section_snoc, Hnew, decide_True by done. cbn. unfold sizeof_NoffHeader.
      split; [done |]. split; [done |]. split; [lia |]. split; [rewrite FileTable.length_splice by lia; lia |].
      rewrite <- Hlb at 1. rewrite piece_splice_at by lia. done.
    + rewrite (section_other l s k' k) by done. apply segment_copied_splice; [by apply Hd | done |]. by eapply converted_sizes.
  - rewrite (section_other l s Bss k) by (done || by intros <-). by destruct k.
Qed.

Lemma convert_section_ok l s x h n w : Z.of_nat (length c) < 2 ^ 31 ->
  converted l x h n -> running x n w -> Forall (section_ok c) l -> section_ok c s ->
  (forall k, (length (filter (is_kind k) (l ++ [s])) <= 1)%nat) -> sizeof_NoffHeader + data_size (l ++ [s]) <= limit ->
  exists h' n' x' w', convert_section garbage nf fdIn fdOut s (h, n) w = Ok (inr (h', n'), w') /\
    converted (l ++ [s]) x' h' n' /\ running x' n' w'.
Proof.
  intros Hc Hcv Hr Hl Hok Hu Hsz. pose proof Hok as (Hn & Hp & Hs & Hin).
  destruct (decide (s_size s = 0)) as [E0|Hs0].
  - exists h, n, x, w. unfold convert_section. rewrite E0. split; [done |]. split; [|done].
    assert (forall k, section (l ++ [s]) k = section l k) as Hsec.
    { intros k. rewrite section_snoc, decide_False by (by intros [? _]). by destruct (section l k). }
    destruct Hcv as [Hm Hrg Hend Hd Hb]. split; try done; [by rewrite data_size_snoc, E0, Z.add_0_r | | by rewrite Hsec].
    intros k Hk. rewrite Hsec. by apply Hd.
  - rewrite convert_section_by_kind by done. destruct (Hin Hs0) as (k & Hk & _). rewrite Hk.
    assert (is_kind k s) as Hks by done. pose proof (unique_new l s k (Hu k) Hks) as Hnew.
    destruct (decide (k = Bss)) as [->|Hb].
    2:{ destruct (convert_data l s k x h n w) as (w' & x' & E & Hcv' & Hr'); try done.
        exists (set_segment k (segment_at n s) h), (n + s_size s), x', w'. by destruct k. }
    destruct Hcv as [Hm Hrg Hend Hd Hbss]. rewrite Hnew in Hbss. cbv zeta. rewrite Hbss. cbn [Z.eqb negb].
    rewrite data_size_snoc in Hsz. unfold sizeof_NoffHeader in *. eexists _, n, x, w. split; [done |]. split; [|done].
    destruct Hrg as (?&?&?&?&(?&?&?)). split; try done.
    + cbn. split; [done |]. do 3 (split; [done |]). cbn. unfold is_s32 in *. destruct Hend. lia.
    + rewrite data_size_snoc. unfold sizeof_NoffHeader. destruct Hend. lia.
    + intros k Hk'. rewrite (section_other l s k Bss) by done. specialize (Hd k Hk'). by destruct k.
    + by rewrite section_snoc, Hnew, decide_True by done.
Qed.

Lemma convert_sections_ok l2 l1 x h n w : Z.of_nat (length c) < 2 ^ 31 ->
  converted l1 x h n -> running x n w -> Forall (section_ok c) (l1 ++ l2) ->
  (forall k, (length (filter (is_kind k) (l1 ++ l2)) <= 1)%nat) -> sizeof_NoffHeader + data_size (l1 ++ l2) <= limit ->
  exists h' n' x' w', convert_sections garbage nf fdIn fdOut l2 (h, n) w = Ok (inr (h', n'), w') /\
    converted (l1 ++ l2) x' h' n' /\ running x' n' w'.
Proof.
  intros Hc. revert l1 x h n w. induction l2 as [|s l2 IH]; intros l1 x h n w Hcv Hr Hl Hu Hsz.
  { rewrite app_nil_r. by exists h, n, x, w. }
  rewrite (app_assoc l1 [s] l2 : l1 ++ s :: l2 = _) in *.
  apply Forall_app in Hl as [Hl Hl2]. pose proof (proj1 (Forall_app _ _ _) Hl) as [Hl1 Hs].
  apply Forall_cons in Hs as [Hs _].
  rewrite data_size_app in Hsz. pose proof (data_size_nonneg l2 Hl2) as Hpos.
  destruct (convert_section_ok l1 s x h n w Hc Hcv Hr Hl1 Hs) as (h1 & n1 & x1 & w1 & E & Hcv1 & Hr1).
  { intros k. specialize (Hu k). rewrite filter_app, length_app in Hu. lia. }
  { lia. }
  cbn [convert_sections]. unfold bind. rewrite E. cbn [obind]. apply (IH (l1 ++ [s]) x1); try done; [by apply Forall_app | by rewrite data_size_app].
Qed.

(** *** The whole conversion *)

Lemma swap_section_id s : is_s32 (s_paddr s) -> is_s32 (s_size s) -> is_s32 (s_scnptr s) -> swap_section s = s.
Proof. intros. unfold swap_section. cbn [WordToHost HOST_IS_BIG_ENDIAN]. rewrite !s32_u32, !s32_id by done. by destruct s. Qed.

Lemma sections_of_s32 n b l : sections_of n b = Ok l -> swap_section <$> l = l.
Proof.
  revert b l. induction n as [|n IH]; intros b l; cbn [sections_of]; [by intros [= <-] |].
  intros E. apply obind_Ok in E as (s & Es & E). apply obind_Ok in E as (l' & El & [= <-]).
  cbn. f_equal; [|by eapply IH]. unfold scnhdr_of in Es.
  apply obind_Ok in Es as (a & Ea & Es). apply obind_Ok in Es as (z & Ez & Es). apply obind_Ok in Es as (p & Ep & [= <-]).
  assert (forall i v, read_int b i = Ok v -> is_s32 v) as Hr.
  { intros k v. unfold read_int. intros (u & _ & [= <-])%obind_Ok. apply s32_range. }
  apply swap_section_id; cbn; by eapply Hr.
Qed.

Lemma SwapHeader_id h : header_range h -> SwapHeader HOST_IS_BIG_ENDIAN h = h.
Proof.
  intros (Hm & Hc & Hi & Hr & Hu). assert (forall g, is_s32 (virtualAddr g) /\ is_s32 (inFileAddr g) /\ is_s32 (size g) ->
    swap_segment HOST_IS_BIG_ENDIAN g = g) as Hg.
  { intros g (?&?&?). unfold swap_segment. cbn [WordToHost HOST_IS_BIG_ENDIAN]. rewrite !s32_u32, !s32_id by done. by destruct g. }
  unfold SwapHeader. rewrite !Hg by done. cbn [WordToHost HOST_IS_BIG_ENDIAN]. rewrite s32_u32, s32_id by done. by destruct h.
Qed.

(** The result: the file the loader reads gives it what the COFF file
    would have given. *)
Record loads_as (out : list Z) (h : NoffHeader) (l : list scnhdr) : Prop := {
  l_header : noff_of_bytes (take 52 out) = Ok h;
  l_magic : noffMagic h = NOFFMAGIC;
  l_ok : header_ok c (direct l) -> header_ok out h;
  l_image : image out h = image c (direct l);
  l_size : addressSpaceSize h = addressSpaceSize (direct l)
}.

Lemma converted_segment l x h n k : converted l x h n -> Forall (section_ok c) l ->
  size (segment k h) = size (direct_segment l k) /\
  (k <> Bss -> 0 < size (segment k h) ->
   virtualAddr (segment k h) = virtualAddr (direct_segment l k) /\
   sizeof_NoffHeader <= inFileAddr (segment k h) /\ inFileAddr (segment k h) + size (segment k h) <= Z.of_nat (length x) /\
   piece x (inFileAddr (segment k h)) (size (segment k h)) = piece c (inFileAddr (direct_segment l k)) (size (direct_segment l k))).
Proof.
  intros [_ _ _ Hd Hb] Hl. unfold direct_segment. destruct (decide (k = Bss)) as [->|Hk].
  - split; [|done]. cbn. destruct (section l Bss) as [s|]; [by destruct Hb | done].
  - specialize (Hd k Hk). unfold segment_copied in Hd. destruct (section l k) as [s|]; cbn.
    + destruct Hd as (Hv & Hs & Hf & Hln & Hp). split; [done |]. by intros _ _.
    + split; [done |]. intros _. lia.
Qed.

Lemma converted_loads l x h n : converted l x h n -> Forall (section_ok c) l -> Z.of_nat (length x) < 2 ^ 31 ->
  loads_as (splice x 0 (noff_bytes h)) h l.
Proof.
  intros Hcv Hl Hx. pose proof Hcv as [Hm Hr _ _ _].
  set (out := splice x 0 (noff_bytes h)).
  assert (out = noff_bytes h ++ drop 52 x) as Eo by (unfold out, splice; by rewrite take_0).
  assert (Z.of_nat (length x) <= Z.of_nat (length out)) as Hlo by (unfold out; rewrite FileTable.length_splice by lia; lia).
  assert (forall k, k <> Bss -> segment_ok c (size (code (direct l)) + size (initData (direct l)) + size (readonlyData (direct l))) (direct_segment l k) ->
    segment_ok out (size (code h) + size (initData h) + size (readonlyData h)) (segment k h)) as Hok.
  { intros k Hk [Hs Hin]. destruct (converted_segment l x h n k Hcv Hl) as [Es Hseg]. split; [by rewrite Es |]. intros Hpos.
    destruct (Hseg Hk Hpos) as (Ev & Hf & Hln & _). rewrite <- Es in Hin. destruct (Hin Hpos) as (?&?&_).
    rewrite Ev. unfold sizeof_NoffHeader in Hf.
    rewrite (proj1 (converted_segment l x h n Text Hcv Hl) : size (code h) = size (code (direct l))).
    rewrite (proj1 (converted_segment l x h n Data Hcv Hl) : size (initData h) = size (initData (direct l))).
    rewrite (proj1 (converted_segment l x h n Rdata Hcv Hl) : size (readonlyData h) = size (readonlyData (direct l))). lia. }
  assert (forall k b, k <> Bss -> put_segment out (segment k h) b = put_segment c (direct_segment l k) b) as Hput.
  { intros k b Hk. destruct (converted_segment l x h n k Hcv Hl) as [Es Hseg]. unfold put_segment. rewrite <- Es.
    destruct (Z.ltb_spec 0 (size (segment k h))) as [Hpos|]; [|done]. destruct (Hseg Hk Hpos) as (-> & Hf & Hln & Hp).
    assert (piece out (inFileAddr (segment k h)) (size (segment k h)) =
      piece c (inFileAddr (direct_segment l k)) (size (segment k h))) as Hpo.
    { rewrite <- Es in Hp. rewrite <- Hp. unfold out. apply piece_header; [rewrite length_noff_bytes; exact Hf | lia]. }
    unfold piece in Hpo. by rewrite Hpo. }
  pose proof (fun k => proj1 (converted_segment l x h n k Hcv Hl)) as Es.
  pose proof (Es Text : size (code h) = size (code (direct l))) as E1. pose proof (Es Data : size (initData h) = size (initData (direct l))) as E2.
  pose proof (Es Rdata : size (readonlyData h) = size (readonlyData (direct l))) as E3. pose proof (Es Bss : size (uninitData h) = size (uninitData (direct l))) as E4.
  split; [| done | | |].
  - rewrite Eo, take_app_length' by done. rewrite <- (app_nil_r (noff_bytes h)). by apply noff_of_noff_bytes.
  - intros (H1 & H2 & H3 & H4 & H5). split; [by apply (Hok Text) |]. split; [by apply (Hok Data) |]. split; [by apply (Hok Rdata) |].
    by rewrite E1, E2, E3, E4.
  - unfold image, segmentSize. rewrite E1, E2, E3. rewrite (Hput Rdata), (Hput Data), (Hput Text) by done. done.
  - unfold addressSpaceSize. by rewrite E1, E2, E3, E4.
Qed.

Lemma ReadStruct_ok n o x p w : running x p w -> opens w !! fdIn = Some (i, o) ->
  0 <= o -> 0 <= n < 2 ^ 31 -> o + n <= Z.of_nat (length c) ->
  exists w', ReadStruct garbage nf fdIn n w = Ok (inr (piece c o n), w') /\ running x p w' /\ opens w' !! fdIn = Some (i, o + n).
Proof. intros. unfold ReadStruct. eapply tool_Read_ok; try done. apply garbage_size. lia. Qed.

Lemma noff_header_bytes h : length (noff_bytes h) = Z.to_nat sizeof_NoffHeader.
Proof. done. Qed.

Lemma empty_converted noff0 : header_range noff0 -> converted [] [] (empty_header noff0) sizeof_NoffHeader.
Proof.
  intros (_ & (?&?&_) & (?&?&_) & (?&?&_) & (?&?&_)). split.
  - done.
  - split; [done |]. unfold is_s32 in *. split_and!; cbn; lia.
  - unfold sizeof_NoffHeader. cbn. lia.
  - intros k Hk. cbn. by destruct k.
  - done.
Qed.

(** The descriptors are closed: whatever [close] returns, the files stay. *)
Lemma close_files fd w : fd ∈ fds w -> exists r w', host (close fd) w = Ok (inr r, w') /\ names w' = names w /\ content w' = content w /\
  fds w' = fds w ∖ {[fd]}.
Proof.
  intros Hf. unfold host. destruct (close fd w) as [r w'] eqn:E. exists r, w'. split; [done |].
  destruct (close_ok _ _ _ _ E Hf) as (_ & ? & ? & _ & ?). done.
Qed.

Lemma convert_ok noff0 l w : header_range noff0 -> coff_file c l -> sizeof_NoffHeader + data_size l <= limit ->
  running [] 0 w -> opens w !! fdIn = Some (i, 0) ->
  exists w' h out, convert garbage noff0 nf fdIn fdOut w = Ok (inl 0, w') /\
    names w' = nm /\ content w' !! i = Some c /\ content w' !! j = Some out /\ loads_as out h l.
Proof.
  intros H0 [Hmag Hns Hom [Hlen Hlt] Hsec Hok Hu] Hsz Hr Ho. unfold sizeof_filehdr, sizeof_aouthdr, sizeof_scnhdr in *.
  unfold convert, sizeof_filehdr, sizeof_aouthdr, sizeof_scnhdr. unfold bind at 1.
  destruct (ReadStruct_ok 20 0 [] 0 w Hr Ho) as (w1 & -> & Hr1 & Ho1); [lia..|]. cbn [obind Z.add].
  unfold bind at 1, lift. rewrite Hmag. cbn [obind]. unfold bind at 1. rewrite Hns. cbn [obind ShortToHost HOST_IS_BIG_ENDIAN].
  rewrite Z.eqb_refl. cbn [negb]. unfold bind at 1.
  destruct (ReadStruct_ok 56 20 [] 0 w1 Hr1 Ho1) as (w2 & -> & Hr2 & Ho2); [lia..|]. cbn [obind].
  unfold bind at 1. rewrite Hom. cbn [obind ShortToHost HOST_IS_BIG_ENDIAN]. rewrite Z.eqb_refl. cbn [negb]. unfold bind at 1.
  rewrite Z.mul_comm.
  destruct (tool_Read_ok (garbage (40 * Z.of_nat (length l))) (40 * Z.of_nat (length l)) (20 + 56) [] 0 w2 Hr2 Ho2) as (w3 & -> & Hr3 & Ho3);
    [lia | lia | lia | apply garbage_size; lia |]. cbn [obind].
  unfold bind at 1. rewrite Nat2Z.id, Hsec. cbn [obind]. unfold bind at 1.
  destruct (seek_out sizeof_NoffHeader [] 0 w3 Hr3) as (w4 & -> & Hr4); [done |]. cbn [obind].
  rewrite (sections_of_s32 _ _ _ Hsec). unfold bind at 1.
  destruct (convert_sections_ok l [] [] (empty_header noff0) sizeof_NoffHeader w4 Hlt (empty_converted noff0 H0) Hr4 Hok Hu Hsz)
    as (h & n & x & w5 & -> & Hcv & Hr5). cbn [obind app fst] in *. unfold bind at 1.
  destruct (seek_out 0 x n w5 Hr5) as (w6 & -> & Hr6); [done |]. cbn [obind]. unfold bind at 1.
  pose proof Hcv as [_ Hrange [Hn Hx] _ _]. rewrite SwapHeader_id by done.
  pose proof (data_size_nonneg l Hok).
  destruct (tool_Write_ok (noff_bytes h) x 0 w6 Hr6) as (w7 & E7 & Hr7); [done | unfold sizeof_NoffHeader in *; cbn; lia |]. change (Z.of_nat (length (noff_bytes h))) with sizeof_NoffHeader in E7.
  rewrite E7. cbn [obind]. destruct Hr7 as [[oi Hi7] Ho7 Hc7 Hx7 Hn7].
  unfold bind at 1. destruct (close_files fdIn w7) as (r8 & w8 & -> & En8 & Ec8 & Ef8); [by eapply opens_fds |]. cbn [obind].
  unfold bind. destruct (close_files fdOut w8) as (r9 & w9 & -> & En9 & Ec9 & _).
  { rewrite Ef8. apply elem_of_difference. split; [by eapply opens_fds |]. by intros ->%elem_of_singleton. }
  cbn [obind]. exists w9, h, (splice x 0 (noff_bytes h)). split; [done |].
  split; [congruence |]. split; [congruence |]. split; [congruence |]. apply (converted_loads l x h n); [done | done |]. lia.
Qed.

End Convert.

(** ** What is converted is what is loaded *)

Section Main.
Context {W : Type} `{HH : Host W} `{HV : !HostView W} `{HL : !HostLaws W} `{TH : !ToolHost W} `{TL : !ToolLaws W}.

(** C20.  From a COFF file with at most one nonempty section of each kind,
    to a different file, the converter exits with 0 and the new file is
    one the loader accepts: its header is read back, and [Load] builds
    from it the very image, of the same size, it would build from the
    sections in the COFF file; the COFF file is as it was. *)
Theorem coff2noff_loads garbage noff0 limit w pn cf nf i c l :
  (forall n, 0 <= n -> Z.of_nat (length (garbage n)) = n) -> header_range noff0 ->
  AddrSpace.reads_succeed (W := W) ->
  limit < 2 ^ 31 ->
  (forall fd b w ino o, opens w !! fd = Some (ino, o) -> 0 <= o -> o + Z.of_nat (length b) <= limit ->
     (write fd b w).1 = Z.of_nat (length b)) ->
  (forall w : W, (open_rdonly cf w).1 <> -1) -> (forall w : W, (open_wronly nf w).1 <> -1) ->
  names w !! cf = Some i -> names w !! nf <> Some i -> content w !! i = Some c -> coff_file c l ->
  sizeof_NoffHeader + data_size l <= limit ->
  exists w' j out h, main garbage noff0 [pn; cf; nf] w = Ok (inl 0, w') /\
    names w' !! nf = Some j /\ content w' !! j = Some out /\ content w' !! i = Some c /\ loads_as c out h l.
Proof.
  intros Hg H0 Hrd Hlim Hwr Hor How Hcf Hnf Hc Hcoff Hsz. unfold main, bind, host.
  pose proof (Hor w) as Hr. destruct (open_rdonly cf w) as [fdIn w1] eqn:E1. cbn in Hr.
  destruct (rdonly_ok _ _ _ _ E1) as [(-> & _)|(Hf0 & Hfresh & i' & Hi' & En1 & Ec1 & Eo1 & Ef1)]; [done |].
  rewrite Hcf in Hi'. injection Hi' as <-. cbn [obind]. rewrite (proj2 (Z.eqb_neq _ _) Hr).
  pose proof (How w1) as Hr2. destruct (open_wronly nf w1) as [fdOut w2] eqn:E2. cbn in Hr2.
  destruct (wronly_ok _ _ _ _ E2) as [(-> & _)|(Hg0 & Hfresh2 & j & En2 & Ec2 & Hold & Hnew & Eo2 & Ef2)]; [done |].
  cbn [obind].
  assert (fdIn <> fdOut) as Hfd by (rewrite Ef1 in Hfresh2; set_solver).
  assert (i <> j) as Hij.
  { intros <-. rewrite En1 in Hold, Hnew. destruct (names w !! nf) as [k|] eqn:Ek.
    - apply Hnf. f_equal. by apply Hold.
    - apply (Hnew eq_refl fdIn 0). by rewrite Eo1, lookup_insert_eq. }
  destruct (convert_ok garbage Hg Hrd limit Hlim Hwr nf fdIn fdOut i j c (names w2) Hfd Hij noff0 l w2 H0 Hcoff Hsz) as (w' & h & out & E & En & Eci & Ecj & Hl).
  - split.
    + exists 0. by rewrite Eo2, lookup_insert_ne, Eo1, lookup_insert_eq.
    + by rewrite Eo2, lookup_insert_eq.
    + by rewrite Ec2, lookup_insert_ne, Ec1.
    + by rewrite Ec2, lookup_insert_eq.
    + done.
  - by rewrite Eo2, lookup_insert_ne, Eo1, lookup_insert_eq.
  - exists w', j, out, h. split; [exact E |]. split; [by rewrite En, En2, lookup_insert_eq |]. done.
Qed.

End Main.

End Coff.

(** ** A host with two files *)

Module TwoFileHost.
Import Host Stub AddrSpace Coff.

(** Inode 0 is the file "in", 1 is "out"; descriptors with their offsets. *)
Record two := mkTwo { bytes_in : list Z; bytes_out : list Z; desc : gmap nat (bool * Z) }.

Definition name_in : list Z := [105; 110].
Definition name_out : list Z := [111; 117; 116].
Definition room : nat := 400.
Definition file (b : bool) (w : two) : list Z := take room (if b then bytes_out w else bytes_in w).
Arguments file : simpl never.

Definition at_fd (fd : Z) (w : two) : option (bool * Z) := if fd <? 0 then None else desc w !! Z.to_nat fd.
Definition with_desc (w : two) (d : gmap nat (bool * Z)) : two := mkTwo (file false w) (file true w) d.
Definition with_file (b : bool) (x : list Z) (w : two) : two :=
  if b then mkTwo (file false w) x (desc w) else mkTwo x (file true w) (desc w).
Definition set_fd (fd : Z) (p : bool * Z) (w : two) : two := with_desc w (<[Z.to_nat fd := p]> (desc w)).
Definition fresh_fd (w : two) : nat := fresh (dom (desc w)).

Definition which (n : list Z) : option bool :=
  if bool_decide (n = name_in) then Some false else if bool_decide (n = name_out) then Some true else None.
Definition open_at (n : list Z) (trunc : bool) (w : two) : Z * two :=
  match which n with
  | Some b =>
      let w' := if trunc then with_file b [] w else w in
      (Z.of_nat (fresh_fd w), set_fd (Z.of_nat (fresh_fd w)) (b, 0) w')
  | None => (-1, w)
  end.

#[export] Instance two_host : Host two := {|
  open n fl w := open_at n (match fl with O_RDWR => false | O_RDWR_CREAT_TRUNC => true end) w;
  close fd w :=
    match at_fd fd w with
    | Some _ => (0, with_desc w (delete (Z.to_nat fd) (desc w)))
    | None => (-1, w)
    end;
  read fd n w :=
    match at_fd fd w with
    | Some (b, o) =>
        let d := take (Z.to_nat n) (drop (Z.to_nat o) (file b w)) in
        (Z.of_nat (length d), d, set_fd fd (b, o + Z.of_nat (length d)) w)
    | None => (-1, [], w)
    end;
  write fd x w :=
    match at_fd fd w with
    | Some (b, o) =>
        if bool_decide (0 <= o /\ o + Z.of_nat (length x) <= Z.of_nat room)
        then (Z.of_nat (length x), set_fd fd (b, o + Z.of_nat (length x)) (with_file b (splice (file b w) o x) w))
        else (-1, w)
    | None => (-1, w)
    end;
  lseek fd off wh w :=
    match at_fd fd w with
    | Some (b, o) =>
        let t := seek_target o (Z.of_nat (length (file b w))) off wh in
        if bool_decide (0 <= t < 2 ^ 31) then (t, set_fd fd (b, t) w) else (-1, w)
    | None => (-1, w)
    end;
  unlink _ w := (-1, w); socket w := (-1, w); inet_addr _ := 0; connect _ _ _ w := (-1, w);
  set_timeout _ _ _ w := w; send _ _ w := (-1, w); recv _ _ w := (-1, [], w)
|}.

#[export] Instance two_tool : ToolHost two := {|
  open_rdonly n w := open_at n false w;
  open_wronly n w := open_at n true w
|}.

Definition ino (p : bool * Z) : Z * Z := (Z.b2z p.1, p.2).

#[export] Instance two_view : HostView two := {|
  names _ := {[name_in := 0; name_out := 1]};
  content w := {[0 := file false w; 1 := file true w]};
  opens w := kmap Z.of_nat (ino <$> desc w);
  fds w := dom (kmap (M2 := gmap Z) Z.of_nat (ino <$> desc w))
|}.

Lemma file_file b b' w : file b (mkTwo (file false w) (file true w) b') = file b w.
Proof. unfold file at 1. destruct b; cbn; unfold file; by rewrite take_take, Nat.min_id. Qed.

Lemma content_with_desc w d : content (with_desc w d) = content w.
Proof. cbn [content two_view]. unfold with_desc. by rewrite !file_file. Qed.

Lemma content_set fd p w : content (set_fd fd p w) = content w.
Proof. apply content_with_desc. Qed.

Lemma file_with_file b b' x w : (length x <= room)%nat -> file b' (with_file b x w) = if decide (b' = b) then x else file b' w.
Proof.
  intros Hx. assert (forall y : list Z, take room (take room y) = take room y) as Ht by (intros y; by rewrite take_take, Nat.min_id).
  destruct b, b'; cbn; (by apply take_ge) || apply Ht.
Qed.

Lemma content_file b x w : (length x <= room)%nat -> content (with_file b x w) = <[Z.b2z b := x]> (content w).
Proof.
  intros Hx. cbn [content two_view]. rewrite !file_with_file by done. apply map_eq. intros k.
  destruct b; cbn [Z.b2z]; (destruct (decide (k = 0)) as [->|]; [by simpl_map |]); (destruct (decide (k = 1)) as [->|]; by simpl_map).
Qed.

Lemma content_ino b w : content w !! Z.b2z b = Some (file b w).
Proof. by destruct b; cbn [content two_view Z.b2z]; simpl_map. Qed.

Lemma desc_file b x w : desc (with_file b x w) = desc w.
Proof. by destruct b. Qed.

Lemma opens_at fd w p : opens w !! fd = Some p <-> exists q, at_fd fd w = Some q /\ p = ino q.
Proof.
  cbn [opens two_view]. rewrite lookup_kmap_Some by apply _. unfold at_fd. split.
  - intros (k & -> & (q & Eq & Hq)%lookup_fmap_Some). rewrite (proj2 (Z.ltb_ge _ 0)), Nat2Z.id by lia. eauto.
  - intros (q & Hq & ->). destruct (Z.ltb_spec fd 0); [done |]. exists (Z.to_nat fd). rewrite Z2Nat.id by lia.
    by rewrite lookup_fmap, Hq.
Qed.

Lemma opens_set fd p w : 0 <= fd -> opens (set_fd fd p w) = <[fd := ino p]> (opens w).
Proof.
  intros Hfd. cbn [opens two_view set_fd with_desc desc]. rewrite fmap_insert, kmap_insert by apply _. by rewrite Z2Nat.id.
Qed.

Lemma two_opens_delete fd w : 0 <= fd -> opens (with_desc w (delete (Z.to_nat fd) (desc w))) = delete fd (opens w).
Proof.
  intros Hfd. cbn [opens two_view with_desc desc]. rewrite fmap_delete, kmap_delete by apply _. by rewrite Z2Nat.id.
Qed.

Lemma opens_file b x w : opens (with_file b x w) = opens w.
Proof. cbn [opens two_view]. by rewrite desc_file. Qed.

Lemma at_open w fd i o : opens w !! fd = Some (i, o) -> 0 <= fd /\ exists b, at_fd fd w = Some (b, o) /\ i = Z.b2z b.
Proof.
  intros ([b o'] & Hq & [= -> ->])%opens_at. split; [|by exists b]. unfold at_fd in Hq. by destruct (Z.ltb_spec fd 0).
Qed.

Lemma two_fds_keep w w' fd p p' : opens w !! fd = Some p -> opens w' = <[fd := p']> (opens w) -> fds w' = fds w.
Proof.
  intros Hp Ho. change (fds w') with (dom (opens w')). change (fds w) with (dom (opens w)).
  rewrite Ho, dom_insert_L. apply elem_of_dom_2 in Hp. set_solver.
Qed.

Lemma length_file b w : (length (file b w) <= room)%nat.
Proof. unfold file. rewrite length_take. lia. Qed.

Lemma two_fresh w : Z.of_nat (fresh_fd w) ∉ fds w.
Proof.
  change (fds w) with (dom (opens w)). intros [p Hp]%elem_of_dom. apply opens_at in Hp as (q & Hq & _). unfold at_fd in Hq.
  destruct (Z.ltb_spec (Z.of_nat (fresh_fd w)) 0); [done |]. rewrite Nat2Z.id in Hq. apply elem_of_dom_2 in Hq.
  by apply (is_fresh (dom (desc w))).
Qed.

Lemma which_names n : match which n with Some b => names (W := two) (mkTwo [] [] ∅) !! n = Some (Z.b2z b) | None => True end.
Proof. unfold which. case_bool_decide as H1; [by subst; simpl_map |]. case_bool_decide as H2; [by subst; simpl_map | done]. Qed.

(** An open that does not truncate, and one that does. *)
Lemma open_at_ok n (trunc : bool) w r w' : open_at n trunc w = (r, w') ->
  (r = -1 /\ same_files w w') \/
  (0 <= r /\ r ∉ fds w /\ exists b, names w !! n = Some (Z.b2z b) /\ names w' = names w /\
     content w' = (if trunc then <[Z.b2z b := []]> (content w) else content w) /\
     opens w' = <[r := (Z.b2z b, 0)]> (opens w) /\ fds w' = {[r]} ∪ fds w).
Proof.
  unfold open_at. pose proof (which_names n) as Hn. destruct (which n) as [b|]; [|intros [= <- <-]; by left].
  intros [= <- <-]. right. split; [lia |]. split; [apply two_fresh |]. exists b. split; [exact Hn |]. split; [done |].
  rewrite content_set. split; [destruct trunc; [by rewrite content_file by (cbn; lia) | done] |].
  match goal with |- opens ?w' = _ /\ _ => assert (opens w' = <[Z.of_nat (fresh_fd w) := (Z.b2z b, 0)]> (opens w)) as Ho end.
  { rewrite opens_set by lia. f_equal. destruct trunc; [apply opens_file | done]. }
  split; [exact Ho |]. change (fds w) with (dom (opens w)). rewrite <- dom_insert_L with (x := (Z.b2z b, 0)), <- Ho. done.
Qed.

#[export] Instance two_laws : HostLaws two.
Proof.
  split.
  - intros w fd p Hp. change (fds w) with (dom (opens w)). by apply elem_of_dom_2 in Hp.
  - intros w fd i o (_ & b & _ & ->)%at_open. exists (file b w). split; [apply content_ino |]. pose proof (length_file b w). unfold room in *. lia.
  - intros w fd Hin. change (fds w) with (dom (opens w)) in Hin. apply elem_of_dom in Hin as [[i o] Hp]. by destruct (at_open _ _ _ _ Hp).
  - intros n w r w' E. destruct (open_at_ok _ false _ _ _ E) as [?|(? & ? & b & ? & ? & ? & ? & ?)]; [by left | right]. eauto 10.
  - intros n w r w' E. destruct (open_at_ok _ true _ _ _ E) as [?|(? & ? & b & Hn & Hn' & ? & ? & ?)]; [by left | right].
    split; [done |]. split; [done |]. exists (Z.b2z b). split; [rewrite Hn'; symmetry; by apply insert_id |]. split; [done |].
    split; [intros i; rewrite Hn; by intros [= <-] |]. split; [by rewrite Hn | done].
  - intros fd w r w' E Hin. change (fds w) with (dom (opens w)) in Hin. apply elem_of_dom in Hin as [[i o] Hp].
    apply at_open in Hp as (Hfd & b & Hb & _). cbn in E. rewrite Hb in E. injection E as <- <-.
    split; [by left |]. split; [done |]. split; [apply content_with_desc |]. split; [by apply two_opens_delete |].
    change (dom (opens (with_desc w (delete (Z.to_nat fd) (desc w)))) = dom (opens w) ∖ {[fd]}). rewrite two_opens_delete by done. apply dom_delete_L.
  - intros fd n w r d w' i o c E Hn Hp Hc. pose proof (at_open _ _ _ _ Hp) as (Hfd & b & Hb & ->).
    rewrite content_ino in Hc. injection Hc as <-. cbn in E. rewrite Hb in E. injection E as <- <- <-. right.
    split; [done |]. split; [done |]. split; [done |]. split; [apply content_set |].
    split; [by apply opens_set |]. eapply two_fds_keep; [exact Hp | by apply opens_set].
  - intros fd x w r w' i o c E Hp Hc. pose proof (at_open _ _ _ _ Hp) as (Hfd & b & Hb & ->).
    rewrite content_ino in Hc. injection Hc as <-. cbn in E. rewrite Hb in E. case_bool_decide as Hr; [|injection E as <- <-; by left].
    injection E as <- <-. right. split; [lia |]. split; [done |]. rewrite Nat2Z.id, firstn_all, content_set.
    split; [apply content_file; pose proof (FileTable.length_splice (file b w) o x); pose proof (length_file b w); lia |].
    assert (opens (set_fd fd (b, o + Z.of_nat (length x)) (with_file b (splice (file b w) o x) w)) =
      <[fd := (Z.b2z b, o + Z.of_nat (length x))]> (opens w)) as Ho by (rewrite opens_set by done; by rewrite opens_file).
    split; [exact Ho |]. by eapply two_fds_keep.
  - intros fd off wh w r w' i o c E Hwh Hp Hc. pose proof (at_open _ _ _ _ Hp) as (Hfd & b & Hb & ->).
    rewrite content_ino in Hc. injection Hc as <-. cbn [lseek two_host] in E. rewrite Hb in E. cbn zeta.
    set (t := seek_target _ _ _ _) in *. clearbody t. case_bool_decide; injection E as <- <-; [|done].
    split; [done |]. split; [done |]. split; [apply content_set |]. split; [by apply opens_set |].
    eapply two_fds_keep; [exact Hp | by apply opens_set].
  - intros n w r w' [= <- <-]. by left.
  - intros w r w' [= <- <-]. by left.
  - by intros fd p a w r w' [= <- <-].
  - done.
  - by intros fd x w r w' [= <- <-].
  - by intros fd n w r d w' [= <- <- <-].
Qed.

#[export] Instance two_tool_laws : ToolLaws two.
Proof.
  split.
  - intros n w r w' E. destruct (open_at_ok _ false _ _ _ E) as [?|(? & ? & b & ? & ? & ? & ? & ?)]; [by left | right]. eauto 10.
  - intros n w r w' E. by apply (open_creat (W := two) n w r w').
Qed.

(** A COFF file with a text, a data and a bss section. *)
Definition zeros (n : Z) : list Z := replicate (Z.to_nat n) 0.
Definition scn (name : list Z) (paddr size ptr : Z) : list Z :=
  name ++ Disk.int_bytes paddr ++ Disk.int_bytes paddr ++ Disk.int_bytes size ++ Disk.int_bytes ptr ++ zeros 16.
Definition sections : list scnhdr :=
  [mkScnhdr (str_text ++ zeros 3) 0 8 196; mkScnhdr (str_data ++ zeros 3) 8 4 204; mkScnhdr (str_bss ++ zeros 4) 12 16 0].
Definition coff : list Z :=
  [98; 1; 3; 0] ++ zeros 16 ++ [7; 1] ++ zeros 54 ++
  concat ((fun s => scn (s_name s) (s_paddr s) (s_size s) (s_scnptr s)) <$> sections) ++
  [12; 0; 0; 0; 1; 2; 3; 4] ++ [5; 6; 7; 8].

Lemma coff_is_coff : coff_file coff sections.
Proof.
  split; [vm_compute; reflexivity.. | | vm_compute; reflexivity | |].
  - split; vm_compute; [discriminate | reflexivity].
  - repeat (apply Forall_cons; split; [split; [reflexivity |]; split; [split; vm_compute; (reflexivity || discriminate) |];
      split; [vm_compute; discriminate |]; intros _ |]); [| | | constructor].
    + exists Text. split; [reflexivity |]. intros _. split; vm_compute; discriminate.
    + exists Data. split; [reflexivity |]. intros _. split; vm_compute; discriminate.
    + exists Bss. by split.
  - intros k. apply Nat.leb_le. by destruct k; vm_compute.
Qed.

Definition two0 : two := mkTwo coff [] ∅.
Definition noff0 : NoffHeader := mkNoff 0 (mkSegment 0 0 0) (mkSegment 0 0 0) (mkSegment 0 0 0) (mkSegment 0 0 0).

Lemma two_reads : AddrSpace.reads_succeed (W := two).
Proof. intros fd n w [i o] Hn (_ & b & Hb & _)%at_open. cbn. rewrite Hb. cbn. lia. Qed.

Lemma two_writes fd x (w : two) i o : opens w !! fd = Some (i, o) -> 0 <= o -> o + Z.of_nat (length x) <= 400 ->
  (write fd x w).1 = Z.of_nat (length x).
Proof.
  intros (_ & b & Hb & _)%at_open H0 Hx. cbn. rewrite Hb. rewrite bool_decide_true; [done |]. unfold room. lia.
Qed.

Lemma two_opens n trunc w : is_Some (which n) -> (open_at n trunc w).1 <> -1.
Proof. intros [b Hb]. unfold open_at. rewrite Hb. cbn. lia. Qed.

End TwoFileHost.
Import Host AddrSpace Coff TwoFileHost.

Lemma coff2noff_loads_witness : exists w' out h,
  main zeros noff0 [name_in; name_in; name_out] two0 = Ok (inl 0, w') /\ content w' !! 1 = Some out /\
  header_ok out h /\ image out h = [12; 0; 0; 0; 1; 2; 3; 4; 5; 6; 7; 8].
Proof.
  destruct (coff2noff_loads zeros noff0 400 two0 name_in name_in name_out 0 coff sections) as (w' & j & out & h & E & Hn & Ho & _ & Hl).
  - intros n Hn. unfold zeros. rewrite length_replicate. lia.
  - repeat split; vm_compute; (reflexivity || discriminate).
  - exact two_reads.
  - reflexivity.
  - exact two_writes.
  - intros w. apply (two_opens name_in false). by exists false.
  - intros w. apply (two_opens name_out true). by exists true.
  - reflexivity.
  - vm_compute. discriminate.
  - reflexivity.
  - exact coff_is_coff.
  - vm_compute. discriminate.
  - assert (Some j = Some 1) as [= ->] by (rewrite <- Hn; reflexivity).
    exists w', out, h. split; [exact E |]. split; [exact Ho |]. split.
    + apply (l_ok _ _ _ _ Hl). repeat split; vm_compute; (reflexivity || discriminate).
    + rewrite (l_image _ _ _ _ Hl). vm_compute. reflexivity.
Defined.
