(* ===== verification/Network.v ===== *)
(** * The network device: network.{h,cc} and the sockets of sysdep.cc

    One Nachos is a Unix process; its network device is a pair of datagram
    sockets.  The first part translates the socket routines and the device
    for one process; the second runs any number of devices that share a
    host, and shows that together they are a network that loses packets
    but neither reorders, repeats nor changes them. *)

From Stdlib Require Import SpecFloat.
From stdpp Require Import pretty.
From S2P Require Import Prelude LinkedList Machine FileTable AddrSpace Interrupt Disk.

Module Network.
Import Host Interrupt.

(** ** network.h *)

Record PacketHeader := mkPacketHeader { to : Z; from : Z; length_ : Z }.

Definition sizeof_PacketHeader : Z := 12.
Definition MaxWireSize : Z := 64.
Definition MaxPacketSize : Z := MaxWireSize - sizeof_PacketHeader.
Definition NetworkTime : Z := 100.

(** Three words in a buffer: a packet's header and, in post.h, a mail's. *)
Definition words3 (a b c : Z) : list Z := Disk.int_bytes a ++ Disk.int_bytes b ++ Disk.int_bytes c.
Definition read_words3 (b : list Z) : outcome (Z * Z * Z) :=
  let! x := AddrSpace.read_int b 0 in
  let! y := AddrSpace.read_int b 1 in
  let! z := AddrSpace.read_int b 2 in
  Ok (x, y, u32 z).

Definition header_bytes (h : PacketHeader) : list Z := words3 (to h) (from h) (length_ h).
Definition header_of (b : list Z) : outcome PacketHeader :=
  let! ' (x, y, z) := read_words3 b in Ok (mkPacketHeader x y z).

(** [bcopy(src, dst, n)], the rest of the buffer [dst] included. *)
Definition bcopy (src dst : list Z) (n : Z) : outcome (list Z) :=
  if (n <=? Z.of_nat (length src)) && (n <=? Z.of_nat (length dst))
  then Ok (take (Z.to_nat n) src ++ drop (Z.to_nat n) dst) else Trap Undefined.

(** The header at the start of [buffer] and data after it. *)
Definition concatenate (header data buffer : list Z) (n : Z) : outcome (list Z) :=
  let! d := bcopy data (drop (length header) buffer) n in Ok (header ++ d).

(** [sprintf(name, "SOCKET_%d", a)]. *)
Definition chars (s : string) : list Z := (fun c => Z.of_N (Ascii.N_of_ascii c)) <$> String.list_ascii_of_string s.
Definition sockName (a : Z) : list Z := chars "SOCKET_" ++ chars (pretty a).

(** ** Likelihoods

    A [double] of the host, and the 64-bit product of its floating point
    unit; an [unsigned] below 100 is exact in it. *)

Definition double (n : Z) : spec_float := binary_normalize 53 1024 n 0 false.
Definition extended (n : Z) : spec_float := binary_normalize 64 16384 n 0 false.

(** [x % 100 >= chanceToWork * 100]. *)
Definition is_lost (x : Z) (chanceToWork : spec_float) : bool :=
  SFleb (SFmul 64 16384 chanceToWork (double 100)) (extended (x mod 100)).

Definition clamp (reliability : spec_float) : spec_float :=
  if SFltb reliability (double 0) then double 0
  else if SFltb (double 1) reliability then double 1
  else reliability.

(** ** The host's datagram sockets

    socket(AF_UNIX, SOCK_DGRAM), bind, sendto, recvfrom and sleep, as one
    process sees them. *)
Class Datagrams (W : Type) := {
  dgram_socket : W -> Z * W;
  bind : Z -> list Z -> W -> Z * W;
  sendto : Z -> list Z -> list Z -> W -> Z * W;
  recvfrom : Z -> Z -> W -> Z * list Z * W;
  sleep : Z -> W -> W
}.

(** ** sysdep.cc *)

Section Sockets.
Context {W : Type} `{HW : Host W} `{HD : !HostDevices W} `{DG : Datagrams W}.

Definition OpenSocket (w : W) : outcome (Z * W) :=
  let '(sockID, w) := dgram_socket w in
  assert! 0 <=? sockID;
  Ok (sockID, w).

Definition CloseSocket (sockID : Z) (w : W) : W := (close sockID w).2.

Definition AssignNameToSocket (socketName : list Z) (sockID : Z) (w : W) : outcome W :=
  let w := (unlink socketName w).2 in
  let '(retVal, w) := bind sockID socketName w in
  assert! 0 <=? retVal;
  Ok w.

Definition DeAssignNameToSocket (socketName : list Z) (w : W) : W := (unlink socketName w).2.

(** With [PollFile]. *)
Definition PollSocket (sockID : Z) (w : W) : outcome (bool * W) :=
  let '(retVal, w) := select_ sockID w in
  assert! (retVal =? 0) || (retVal =? 1);
  Ok (negb (retVal =? 0), w).

Definition ReadFromSocket (sockID : Z) (buffer : list Z) (packetSize : Z) (w : W) : outcome (list Z * W) :=
  let '(retVal, data, w) := recvfrom sockID packetSize w in
  let! buffer := Stub.buf_fill buffer data in
  assert! retVal =? packetSize;
  Ok (buffer, w).

(** The loop of [SendToSocket] with [n] tries left. *)
Fixpoint send_tries (n : nat) (sockID : Z) (buffer : list Z) (packetSize : Z) (toName : list Z) (w : W) : outcome W :=
  match n with
  | O => Ok w
  | S n' =>
      let '(retVal, w) := sendto sockID (take (Z.to_nat packetSize) buffer) toName w in
      if retVal =? packetSize then Ok w
      else
        assert! retVal <? 0;
        send_tries n' sockID buffer packetSize toName (sleep 1 w)
  end.
Definition SendToSocket := send_tries 10.

End Sockets.

(** ** network.cc *)

Inductive NetObj := TheNetworkInput | TheNetworkOutput.

#[export] Instance NetObj_eq_dec : EqDecision NetObj.
Proof. solve_decision. Defined.

(** [kernel->hostName], and the members of [NetworkInput] and
    [NetworkOutput]. *)
Record Net := mkNet {
  hostName : Z;
  in_sock : Z; packetAvail : bool; inHdr : PacketHeader; inbox : list Z;
  out_sock : Z; chanceToWork : spec_float; sendBusy : bool
}.

Definition set_input (sock : Z) (avail : bool) (h : PacketHeader) (b : list Z) (n : Net) : Net :=
  mkNet (hostName n) sock avail h b (out_sock n) (chanceToWork n) (sendBusy n).
Definition set_in (h : PacketHeader) (b : list Z) (n : Net) : Net := set_input (in_sock n) (packetAvail n) h b n.
Definition set_output (sock : Z) (c : spec_float) (busy : bool) (n : Net) : Net :=
  mkNet (hostName n) (in_sock n) (packetAvail n) (inHdr n) (inbox n) sock c busy.
Definition set_busy (b : bool) (n : Net) : Net := set_output (out_sock n) (chanceToWork n) b n.

Section Device.
Context {W : Type} `{HW : Host W} `{HD : !HostDevices W} `{DG : Datagrams W} {K : Type}.

(** The rest of the kernel with the post office's handlers, and what
    [new char[n]] holds before it is written. *)
Context (inputAvail outputDone : K -> outcome K) (garbage : Z -> list Z).
Notation Sys := (@Sys NetObj (Net * W * K)).

Definition net (s : Sys) : Net := (rest s).1.1.
Definition world (s : Sys) : W := (rest s).1.2.
Definition upd_net (f : Net -> Net) (s : Sys) : Sys := on_rest (fun r => (f r.1.1, r.1.2, r.2)) s.
Definition set_world (w : W) (s : Sys) : Sys := on_rest (fun r => (r.1.1, w, r.2)) s.
Definition on_post (f : K -> outcome K) (s : Sys) : outcome Sys :=
  let! k := f (rest s).2 in Ok (on_rest (fun r => (r.1, k)) s).

Definition set_packets (sent recvd : Z) (st : Statistics) : Statistics :=
  mkStats (totalTicks st) (idleTicks st) (systemTicks st) (userTicks st) (numDiskReads st) (numDiskWrites st)
    (numConsoleCharsRead st) (numConsoleCharsWritten st) (numPageFaults st) sent recvd.
Definition count_sent (st : Statistics) : Statistics := set_packets (s32 (numPacketsSent st + 1)) (numPacketsRecvd st) st.
Definition count_recvd (st : Statistics) : Statistics := set_packets (numPacketsSent st) (s32 (numPacketsRecvd st + 1)) st.

Definition new_NetworkInput (s : Sys) : outcome Sys :=
  let! ' (sock, w) := OpenSocket (world s) in
  let! w := AssignNameToSocket (sockName (hostName (net s))) sock w in
  let s := upd_net (fun n => set_input sock false (mkPacketHeader (to (inHdr n)) (from (inHdr n)) 0) (inbox n) n) (set_world w s) in
  Schedule TheNetworkInput NetworkTime NetworkRecvInt s.

Definition delete_NetworkInput (s : Sys) : Sys :=
  let w := CloseSocket (in_sock (net s)) (world s) in
  set_world (DeAssignNameToSocket (sockName (hostName (net s))) w) s.

Definition NetworkInput_CallBack (s : Sys) : outcome Sys :=
  let! s := Schedule TheNetworkInput NetworkTime NetworkRecvInt s in
  if negb (length_ (inHdr (net s)) =? 0) then Ok s
  else
    let! ' (avail, w) := PollSocket (in_sock (net s)) (world s) in
    if negb avail then Ok (set_world w s)
    else
      let! ' (buffer, w) := ReadFromSocket (in_sock (net s)) (garbage MaxWireSize) MaxWireSize w in
      let! hdr := header_of buffer in
      assert! (to hdr =? hostName (net s)) && (length_ hdr <=? MaxPacketSize);
      let! b := bcopy (drop (Z.to_nat sizeof_PacketHeader) buffer) (inbox (net s)) (length_ hdr) in
      on_post inputAvail (on_stats count_recvd (upd_net (set_in hdr b) (set_world w s))).

Definition NetworkInput_Receive (data : list Z) (s : Sys) : outcome (PacketHeader * list Z * Sys) :=
  let hdr := inHdr (net s) in
  let s := upd_net (fun n => set_in (mkPacketHeader (to hdr) (from hdr) 0) (inbox n) n) s in
  let! data := (if negb (length_ hdr =? 0) then bcopy (inbox (net s)) data (length_ hdr) else Ok data) in
  Ok (hdr, data, s).

Definition new_NetworkOutput (reliability : spec_float) (s : Sys) : outcome Sys :=
  let! ' (sock, w) := OpenSocket (world s) in
  Ok (upd_net (set_output sock (clamp reliability) false) (set_world w s)).

Definition delete_NetworkOutput (s : Sys) : Sys :=
  set_world (CloseSocket (out_sock (net s)) (world s)) s.

Definition NetworkOutput_CallBack (s : Sys) : outcome Sys :=
  on_post outputDone (on_stats count_sent (upd_net (set_busy false) s)).

Definition NetworkOutput_Send (hdr : PacketHeader) (data : list Z) (s : Sys) : outcome Sys :=
  assert! negb (sendBusy (net s)) && (0 <? length_ hdr) && (length_ hdr <=? MaxPacketSize) &&
    (from hdr =? hostName (net s));
  let! s := Schedule TheNetworkOutput NetworkTime NetworkSendInt s in
  let '(r, w) := rand (world s) in
  if is_lost (u32 r) (chanceToWork (net s)) then Ok (set_world w s)
  else
    let! buffer := concatenate (header_bytes hdr) data (garbage MaxWireSize) (length_ hdr) in
    let! w := SendToSocket (out_sock (net s)) buffer MaxWireSize (sockName (to hdr)) w in
    Ok (set_world w s).

Definition network_CallBack (o : NetObj) (s : Sys) : outcome Sys :=
  match o with
  | TheNetworkInput => NetworkInput_CallBack s
  | TheNetworkOutput => NetworkOutput_CallBack s
  end.

End Device.


(** *** The callbacks are handlers of Interrupt.v *)

Section Handlers.
Context {W : Type} `{HW : Host W} `{HD : !HostDevices W} `{DG : Datagrams W} {K : Type}.
Context (inputAvail outputDone : K -> outcome K) (garbage : Z -> list Z).
Context (V_traps : forall k t, inputAvail k = Trap t \/ outputDone k = Trap t -> t <> NoFuel /\ t <> Halted).
Notation Sys := (@Sys NetObj (Net * W * K)).

Lemma on_post_effect f (s s' : Sys) : on_post f s = Ok s' -> effect s s'.
Proof. unfold on_post. destruct (f _) as [k|]; [|done]. intros [= <-]. by apply effect_one. Qed.

Lemma on_post_trap f (s : Sys) t : (forall k t, f k = Trap t -> t <> NoFuel /\ t <> Halted) ->
  on_post f s = Trap t -> t <> NoFuel /\ t <> Halted.
Proof. intros Hf. unfold on_post. destruct (f _) eqn:E; [done |]. intros [= <-]. by eapply Hf. Qed.

Lemma read_int_trap b i t : AddrSpace.read_int b i = Trap t -> t = Undefined.
Proof.
  unfold AddrSpace.read_int. cbn [Machine.load_le]. unfold arr_get.
  do 4 (destruct (_ <? 0); cbn [obind]; [by intros [= <-] |]; destruct (_ !! _); cbn [obind]; [|by intros [= <-]]). done.
Qed.

Lemma header_of_trap b t : header_of b = Trap t -> t = Undefined.
Proof.
  unfold header_of, read_words3.
  do 3 (match goal with |- context [AddrSpace.read_int b ?i] => destruct (AddrSpace.read_int b i) eqn:E; cbn [obind] end;
        [|by intros [= <-]; eapply read_int_trap]; clear E). done.
Qed.

Lemma NetworkInput_effect (s s' : Sys) : NetworkInput_CallBack inputAvail garbage s = Ok s' -> effect s s'.
Proof.
  unfold NetworkInput_CallBack. intros E. apply obind_Ok in E as (s1 & Es & E).
  eapply effect_trans; [by eapply effect_schedule; [|exact Es] |].
  destruct (negb _); [injection E as <-; constructor |].
  apply obind_Ok in E as ([avail w] & _ & E). destruct (negb avail); [injection E as <-; by apply effect_one |].
  apply obind_Ok in E as ([buffer w'] & _ & E). apply obind_Ok in E as (hdr & _ & E).
  apply obind_Ok in E as (_ & _ & E). apply obind_Ok in E as (b & _ & E).
  eapply effect_trans; [|by eapply on_post_effect]. by apply (effect_one s1 (count_recvd (stats s1))).
Qed.

Lemma NetworkInput_trap (s : Sys) t : NetworkInput_CallBack inputAvail garbage s = Trap t -> t <> NoFuel /\ t <> Halted.
Proof.
  unfold NetworkInput_CallBack. destruct (Schedule _ _ _ _) as [s1|] eqn:Es; [|intros [= <-]; by apply Schedule_trap in Es as ->].
  cbn [obind]. destruct (negb _); [done |]. unfold PollSocket. destruct (select_ _ _) as [r w].
  destruct (_ || _); [|by intros [= <-]]. cbn [obind assert_]. destruct (negb (negb _)); [done |].
  unfold ReadFromSocket, Stub.buf_fill. destruct (recvfrom _ _ _) as [[n d] w'].
  destruct (_ <=? _)%nat; [|by intros [= <-]]. cbn [obind]. destruct (n =? MaxWireSize); [|by intros [= <-]]. cbn [obind assert_].
  destruct (header_of _) as [h|] eqn:Eh; [|intros [= <-]; by apply header_of_trap in Eh as ->]. cbn [obind].
  destruct (_ && _); [|by intros [= <-]]. cbn [obind assert_]. unfold bcopy. destruct (_ && _); [|by intros [= <-]]. cbn [obind].
  apply on_post_trap. eauto.
Qed.

#[export] Instance network_handlers : Handlers (network_CallBack inputAvail outputDone garbage).
Proof.
  split.
  - intros [|] s s'; cbn [network_CallBack]; [apply NetworkInput_effect |]. unfold NetworkOutput_CallBack. intros E.
    eapply effect_trans; [|by eapply on_post_effect]. by apply (effect_one s (count_sent (stats s))).
  - intros [|] s t; cbn [network_CallBack]; [apply NetworkInput_trap |]. apply on_post_trap. eauto.
Qed.

End Handlers.

(** ** Headers and data in buffers *)

Lemma read_words3_bytes a b c r : read_words3 (words3 a b c ++ r) = Ok (s32 a, s32 b, u32 c).
Proof.
  unfold read_words3, words3. rewrite <- !app_assoc.
  rewrite (Disk.read_int_bytes [] a _ 0 eq_refl : AddrSpace.read_int (Disk.int_bytes a ++ _) 0 = _). cbn [obind].
  rewrite (Disk.read_int_bytes (Disk.int_bytes a) b) by done. cbn [obind].
  rewrite (app_assoc (Disk.int_bytes a)), (Disk.read_int_bytes _ c) by done. cbn [obind]. by rewrite u32_s32.
Qed.

Lemma read_words3_total b : (12 <= length b)%nat ->
  exists x y z, read_words3 b = Ok (x, y, z) /\ is_s32 x /\ is_s32 y /\ is_u32 z.
Proof.
  intros Hb. unfold read_words3.
  assert (forall i, 0 <= i <= 2 -> exists v, AddrSpace.read_int b i = Ok (s32 v)) as Hr.
  { intros i Hi. unfold AddrSpace.read_int.
    destruct (Machine.load_le_Ok (u8 <$> b) (4 * i) 4) as (v & -> & _); [lia | rewrite length_fmap; lia | |by exists v].
    apply Forall_fmap, Forall_true. intros x. apply Z.mod_pos_bound. lia. }
  destruct (Hr 0 ltac:(lia)) as [x ->], (Hr 1 ltac:(lia)) as [y ->], (Hr 2 ltac:(lia)) as [z ->]. cbn [obind].
  exists (s32 x), (s32 y), (u32 (s32 z)). repeat split; apply s32_range || apply u32_range.
Qed.

Definition header_range (h : PacketHeader) : Prop := is_s32 (to h) /\ is_s32 (from h) /\ is_u32 (length_ h).

Lemma length_header_bytes h : length (header_bytes h) = 12%nat.
Proof. done. Qed.

Lemma header_of_bytes h r : header_range h -> header_of (header_bytes h ++ r) = Ok h.
Proof.
  intros (Ht & Hf & Hl). unfold header_of, header_bytes. rewrite read_words3_bytes. cbn [obind].
  rewrite !s32_id, u32_id by done. by destruct h.
Qed.

Lemma header_of_total b : (12 <= length b)%nat -> exists h, header_of b = Ok h /\ header_range h.
Proof.
  intros Hb. destruct (read_words3_total b Hb) as (x & y & z & E & Hx & Hy & Hz).
  exists (mkPacketHeader x y z). unfold header_of. by rewrite E.
Qed.

Lemma bcopy_ok src dst n : 0 <= n <= Z.of_nat (length src) -> n <= Z.of_nat (length dst) ->
  exists b, bcopy src dst n = Ok b /\ take (Z.to_nat n) b = take (Z.to_nat n) src /\ length b = length dst.
Proof.
  intros Hs Hd. unfold bcopy. rewrite !(proj2 (Z.leb_le _ _)) by lia. eexists. split; [done |].
  split; [rewrite take_app_le by (rewrite length_take; lia); by rewrite take_take, Nat.min_id |].
  rewrite length_app, length_take, length_drop. lia.
Qed.

Lemma concatenate_ok h data buffer n : 0 <= n <= Z.of_nat (length data) ->
  Z.of_nat (length h) + n <= Z.of_nat (length buffer) ->
  exists b, concatenate h data buffer n = Ok (h ++ b) /\ take (Z.to_nat n) b = take (Z.to_nat n) data /\
    length (h ++ b) = length buffer.
Proof.
  intros Hn Hb. unfold concatenate. destruct (bcopy_ok data (drop (length h) buffer) n) as (b & -> & Ht & Hl); [lia | rewrite length_drop; lia |].
  cbn [obind]. exists b. split; [done |]. split; [done |]. rewrite length_app, Hl, length_drop. lia.
Qed.

Lemma chars_inj s s' : chars s = chars s' -> s = s'.
Proof.
  unfold chars. intros E.
  assert (String.list_ascii_of_string s = String.list_ascii_of_string s') as E'.
  { revert E. apply list_fmap_eq_inj. intros a b Hab. apply N2Z.inj in Hab.
    by rewrite <- (Ascii.ascii_N_embedding a), Hab, Ascii.ascii_N_embedding. }
  by rewrite <- (String.string_of_list_ascii_of_string s), E', String.string_of_list_ascii_of_string.
Qed.

#[export] Instance sockName_inj : Inj (=) (=) sockName.
Proof. intros a b E. unfold sockName in E. apply app_inv_head, chars_inj in E. by apply (inj pretty). Qed.

(** Likelihoods 1 and 0 are certainties, and these are what a reliability
    out of range becomes. *)
Lemma mod100 (P : Z -> bool) x : forallb P (seqZ 0 100) = true -> P (x mod 100) = true.
Proof.
  intros H. apply (proj1 (forallb_forall P _) H). apply list_elem_of_In, elem_of_seqZ.
  pose proof (Z.mod_pos_bound x 100). lia.
Qed.

Lemma never_lost x : is_lost x (double 1) = false.
Proof.
  apply negb_true_iff. apply (mod100 (fun x => negb (SFleb (SFmul 64 16384 (double 1) (double 100)) (extended x)))).
  by vm_compute.
Qed.

Lemma always_lost x : is_lost x (double 0) = true.
Proof. apply (mod100 (fun x => SFleb (SFmul 64 16384 (double 0) (double 100)) (extended x))). by vm_compute. Qed.

(** ** Any number of machines on one host *)

(** What the processes share: the unread datagrams of each bound name, and
    the name each process gave its sockets. *)
Class NetworkView (W : Type) := {
  queues : W -> gmap (list Z) (list (list Z));
  bound : W -> Z -> gmap Z (list Z)
}.

Definition same_net {W} `{NetworkView W} (w w' : W) : Prop := queues w' = queues w /\ bound w' = bound w.

(** The host as process [p] sees it, by the manual pages unix(7), send(2),
    recv(2) and select(2): datagrams of local sockets arrive in order,
    whole, once, or the call fails. *)
Class NetworkLaws (W : Type) (HD : Z -> HostDevices W) (DG : Z -> Datagrams W) `{NetworkView W} : Prop := {
  rand_net p w r w' : rand (HostDevices := HD p) w = (r, w') -> same_net w w';
  sleep_net p n w : same_net w (sleep (Datagrams := DG p) n w);
  select_net p fd w n q r w' : bound w p !! fd = Some n -> queues w !! n = Some q ->
    select_ (HostDevices := HD p) fd w = (r, w') ->
    same_net w w' /\ (r = -1 \/ r = match q with [] => 0 | _ => 1 end);
  sendto_net p fd b n w r w' : sendto (Datagrams := DG p) fd b n w = (r, w') ->
    (r = -1 /\ same_net w w') \/
    (r = Z.of_nat (length b) /\ exists q, queues w !! n = Some q /\
       queues w' = <[n := q ++ [b]]> (queues w) /\ bound w' = bound w);
  recvfrom_net p fd n size w r d w' m q : bound w p !! fd = Some n -> queues w !! n = Some (m :: q) -> 0 <= size ->
    recvfrom (Datagrams := DG p) fd size w = (r, d, w') ->
    (r = -1 /\ same_net w w') \/
    (d = take (Z.to_nat size) m /\ r = Z.of_nat (length d) /\
       queues w' = <[n := q]> (queues w) /\ bound w' = bound w)
}.

Definition packet : Type := PacketHeader * list Z.

Section Machines.
Context {W : Type} (HD : Z -> HostDevices W) (DG : Z -> Datagrams W)
  `{NV : !NetworkView W} `{NL : !NetworkLaws W HD DG}.

(** The post office's handlers, and memory that [new] returns. *)
Context {K : Type} (inputAvail outputDone : K -> outcome K) (garbage : Z -> list Z).
Context (handlers_return : forall k, exists k1 k2, inputAvail k = Ok k1 /\ outputDone k = Ok k2).
Context (garbage_size : forall n, 0 <= n -> Z.of_nat (length (garbage n)) = n).

(** Polling works, and so does reading what is there. *)
Context (select_succeeds : forall p fd w n, bound w p !! fd = Some n -> (select_ (HostDevices := HD p) fd w).1 <> -1)
  (recv_succeeds : forall p fd w n m q size, bound w p !! fd = Some n -> queues w !! n = Some (m :: q) ->
     (recvfrom (Datagrams := DG p) fd size w).1.1 <> -1).

Notation Sys := (@Sys NetObj (Net * W * K)).

(** What happens at a device: the kernel sends or receives, or one of its
    interrupts calls back. *)
Inductive op := OSend (hdr : PacketHeader) (data : list Z) | OReceive (data : list Z) | OInput | OOutput.

Definition run_op (i : Z) (o : op) (s : Sys) : outcome (option packet * Sys) :=
  match o with
  | OSend hdr data => let! s := NetworkOutput_Send (HD := HD i) (DG := DG i) garbage hdr data s in Ok (None, s)
  | OReceive data =>
      let! ' (hdr, data, s) := NetworkInput_Receive data s in
      Ok (if length_ hdr =? 0 then None else Some (hdr, take (Z.to_nat (length_ hdr)) data), s)
  | OInput => let! s := NetworkInput_CallBack (HD := HD i) (DG := DG i) inputAvail garbage s in Ok (None, s)
  | OOutput => let! s := NetworkOutput_CallBack outputDone s in Ok (None, s)
  end.

(** The machines by their addresses, and the host. *)
Definition Machines : Type := gmap Z Sys * W.

Definition run_at (x : Z * op) (ms : Machines) : outcome (option packet * Machines) :=
  match ms.1 !! x.1 with
  | Some s => let! ' (r, s) := run_op x.1 x.2 (set_world ms.2 s) in Ok (r, (<[x.1 := s]> ms.1, world s))
  | None => Trap Undefined
  end.

(** The packets received on the way, with their receivers. *)
Fixpoint run_ops (l : list (Z * op)) (ms : Machines) : outcome (list (Z * packet) * Machines) :=
  match l with
  | [] => Ok ([], ms)
  | x :: l =>
      let! ' (r, ms) := run_at x ms in
      let! ' (got, ms) := run_ops l ms in
      Ok (match r with Some p => (x.1, p) :: got | None => got end, ms)
  end.

(** *** The network as its users see it *)

(** A packet on the wire. *)
Definition decode (b : list Z) : packet :=
  match header_of b with
  | Ok h => (h, take (Z.to_nat (length_ h)) (drop (Z.to_nat sizeof_PacketHeader) b))
  | Trap _ => (mkPacketHeader 0 0 0, [])
  end.

Definition buffered (s : Sys) : list packet :=
  let n := net s in
  if length_ (inHdr n) =? 0 then [] else [(inHdr n, take (Z.to_nat (length_ (inHdr n))) (inbox n))].

(** The packets under way to machine [a], the next to arrive first. *)
Definition in_flight (a : Z) (ms : Machines) : list packet :=
  match ms.1 !! a with Some s => buffered s | None => [] end ++
  (decode <$> default [] (queues ms.2 !! sockName a)).

Definition sent_to (a : Z) (l : list (Z * op)) : list packet :=
  omap (fun x => match x.2 with
                 | OSend hdr data => if decide (to hdr = a) then Some (hdr, take (Z.to_nat (length_ hdr)) data) else None
                 | _ => None
                 end) l.
Definition got_at (a : Z) (got : list (Z * packet)) : list packet :=
  omap (fun x => if decide (x.1 = a) then Some x.2 else None) got.

(** *** Well-formed machines *)

Definition good_length (n : Z) : Prop := 0 < n <= MaxPacketSize.
Definition good_datagram (a : Z) (b : list Z) : Prop :=
  Z.of_nat (length b) = MaxWireSize /\ exists h, header_of b = Ok h /\ to h = a /\ good_length (length_ h).

Record device_ok (i : Z) (s : Sys) : Prop := {
  d_name : hostName (net s) = i;
  d_idle : sendBusy (net s) = false;
  d_header : length_ (inHdr (net s)) = 0 \/ good_length (length_ (inHdr (net s)));
  d_inbox : Z.of_nat (length (inbox (net s))) = MaxPacketSize;
  d_pending : Forall (fun p => Pos.lt (address p) (brk s)) (pending (interrupt s))
}.

Record machines_ok (ms : Machines) : Prop := {
  m_devices i s : ms.1 !! i = Some s -> device_ok i s;
  m_sockets i s : ms.1 !! i = Some s ->
    bound ms.2 i !! in_sock (net s) = Some (sockName i) /\ is_Some (queues ms.2 !! sockName i);
  m_wire a q : queues ms.2 !! sockName a = Some q -> Forall (good_datagram a) q
}.

(** A call the post office may make. *)
Definition legal (ms : Machines) (x : Z * op) : Prop :=
  is_Some (ms.1 !! x.1) /\
  match x.2 with
  | OSend hdr data =>
      is_s32 (to hdr) /\ is_s32 (from hdr) /\ good_length (length_ hdr) /\ from hdr = x.1 /\ length_ hdr <= Z.of_nat (length data)
  | OReceive data => MaxPacketSize <= Z.of_nat (length data)
  | _ => True
  end.

(** No device drops packets, and the host has room for them. *)
Definition lossless (ms : Machines) : Prop :=
  (forall i s, ms.1 !! i = Some s -> chanceToWork (net s) = double 1) /\
  (forall p fd b n w, is_Some (queues w !! n) -> (sendto (Datagrams := DG p) fd b n w).1 <> -1).

(** *** Each operation *)

Lemma same_net_refl (w : W) : same_net w w.
Proof. done. Qed.

Lemma same_net_trans (w1 w2 w3 : W) : same_net w1 w2 -> same_net w2 w3 -> same_net w1 w3.
Proof. intros [] []. split; congruence. Qed.

Lemma Schedule_net o d ty (s : Sys) : 0 < d -> Forall (fun p => Pos.lt (address p) (brk s)) (pending (interrupt s)) ->
  exists s', Schedule o d ty s = Ok s' /\ rest s' = rest s /\
    Forall (fun p => Pos.lt (address p) (brk s')) (pending (interrupt s')).
Proof.
  intros Hd Hp. unfold Schedule. rewrite (proj2 (Z.ltb_lt 0 d)) by lia. cbn [obind assert_ interrupt].
  unfold ListSpec.Insert. rewrite decide_False.
  2:{ intros Hin%(Forall_elem _ _ _ Hp). cbn in Hin. lia. }
  cbn [obind]. eexists. split; [done |]. split; [done |]. cbn.
  rewrite LinkedList.sorted_insert_perm. constructor; [cbn; lia |]. eapply Forall_impl; [exact Hp |]. cbn. lia.
Qed.

(** The tries of a send: at most one datagram leaves, whole. *)
Lemma send_tries_net p fd b name n w : Z.of_nat (length b) = MaxWireSize ->
  exists w', send_tries (DG := DG p) n fd b MaxWireSize name w = Ok w' /\
    (same_net w w' \/ exists q, queues w !! name = Some q /\ queues w' = <[name := q ++ [b]]> (queues w) /\ bound w' = bound w) /\
    ((n <> 0)%nat -> is_Some (queues w !! name) ->
       (forall w, is_Some (queues w !! name) -> (sendto (Datagrams := DG p) fd b name w).1 <> -1) -> ~ same_net w w').
Proof.
  intros Hb. revert w. induction n as [|n IH]; intros w; cbn [send_tries].
  { exists w. split; [done |]. split; [by left | done]. }
  rewrite take_ge by lia. destruct (sendto fd b name w) as [r w1] eqn:E.
  destruct (sendto_net _ _ _ _ _ _ _ E) as [[-> Hs]|(-> & q & Hq & Hq' & Hbd)].
  - cbn [Z.eqb MaxWireSize obind assert_ Z.ltb Z.compare].
    destruct (IH (sleep (Datagrams := DG p) 1 w1)) as (w' & -> & Hcase & Hsure).
    assert (same_net w (sleep (Datagrams := DG p) 1 w1)) as Hs' by (eapply same_net_trans; [exact Hs | apply sleep_net]).
    destruct Hs' as [Eq Eb]. exists w'. split; [done |]. unfold same_net in *. rewrite Eq, Eb in *. split; [done |].
    intros _ Hi Hok. exfalso. apply (Hok w Hi). by rewrite E.
  - rewrite Hb. rewrite Z.eqb_refl. exists w1. split; [done |]. split; [right; by exists q |].
    intros _ _ _ [Hqq _]. rewrite Hq' in Hqq. apply (f_equal (lookup name)) in Hqq.
    rewrite lookup_insert_eq, Hq in Hqq. injection Hqq as Hqq. apply (f_equal length) in Hqq. rewrite length_app in Hqq. cbn in Hqq. lia.
Qed.


(** How an operation of machine [i] moves packets: none but one it had
    buffered, the first of its socket's, or a new one. *)
Inductive moves (i : Z) (o : op) (s : Sys) : option packet -> Sys -> Prop :=
| moves_none r s' :
    queues (world s') = queues (world s) -> option_list r ++ buffered s' = buffered s ->
    (forall hdr data, o = OSend hdr data -> is_Some (queues (world s) !! sockName (to hdr)) ->
       (forall w, is_Some (queues w !! sockName (to hdr)) -> forall fd b, (sendto (Datagrams := DG i) fd b (sockName (to hdr)) w).1 <> -1) ->
       chanceToWork (net s) <> double 1) ->
    moves i o s r s'
| moves_in s' m q :
    queues (world s) !! sockName i = Some (m :: q) -> queues (world s') = <[sockName i := q]> (queues (world s)) ->
    buffered s = [] -> buffered s' = [decode m] -> (forall hdr data, o <> OSend hdr data) -> moves i o s None s'
| moves_out hdr data b q s' :
    o = OSend hdr data -> queues (world s) !! sockName (to hdr) = Some q ->
    queues (world s') = <[sockName (to hdr) := q ++ [b]]> (queues (world s)) ->
    good_datagram (to hdr) b -> decode b = (hdr, take (Z.to_nat (length_ hdr)) data) ->
    buffered s' = buffered s -> moves i o s None s'.

Definition same_device (s s' : Sys) : Prop :=
  in_sock (net s') = in_sock (net s) /\ chanceToWork (net s') = chanceToWork (net s) /\
  bound (world s') = bound (world s).

Lemma on_post_ok f (s : Sys) : (exists k, f (rest s).2 = Ok k) ->
  exists s', on_post f s = Ok s' /\ net s' = net s /\ world s' = world s /\ interrupt s' = interrupt s /\ brk s' = brk s.
Proof. intros [k E]. unfold on_post. rewrite E. cbn [obind]. by eexists. Qed.

Lemma device_ok_set i (s s' : Sys) : device_ok i s -> net s' = net s ->
  Forall (fun p => Pos.lt (address p) (brk s')) (pending (interrupt s')) -> device_ok i s'.
Proof. intros [] En Hp. split; by rewrite ?En. Qed.

Lemma Output_moves i (s : Sys) : device_ok i s ->
  exists s', run_op i OOutput s = Ok (None, s') /\ device_ok i s' /\ same_device s s' /\ moves i OOutput s None s'.
Proof.
  intros [Hn Hb Hh Hl Hp]. cbn [run_op]. unfold NetworkOutput_CallBack.
  destruct (on_post_ok outputDone (on_stats count_sent (upd_net (set_busy false) s))) as (s' & -> & En & Ew & Ei & Eb).
  { destruct (handlers_return (rest (on_stats count_sent (upd_net (set_busy false) s))).2) as (_ & k2 & _ & E). by exists k2. }
  cbn [obind]. exists s'. split; [done |].
  assert (net s' = set_busy false (net s)) as En' by exact En. assert (world s' = world s) as Ew' by exact Ew.
  split; [split; rewrite ?En'; try done; rewrite Ei, Eb; exact Hp |].
  split; [by split; [rewrite En' | rewrite En', Ew']|].
  apply moves_none; [by rewrite Ew' | unfold buffered; by rewrite En' | done].
Qed.

Lemma Receive_moves i data (s : Sys) : device_ok i s -> MaxPacketSize <= Z.of_nat (length data) ->
  exists r s', run_op i (OReceive data) s = Ok (r, s') /\ device_ok i s' /\ same_device s s' /\ moves i (OReceive data) s r s'.
Proof.
  intros [Hn Hb Hh Hl Hp] Hd. cbn [run_op]. unfold NetworkInput_Receive. set (h := inHdr (net s)) in *.
  set (s1 := upd_net _ s). change (inbox (net s1)) with (inbox (net s)).
  assert (device_ok i s1) as Hok1 by (split; try done; by left).
  assert (buffered s1 = []) as Eb by done.
  destruct (Z.eqb_spec (length_ h) 0) as [E0|E0]; cbn [negb].
  - cbn [obind]. rewrite E0. exists None, s1. split; [done |]. split; [done |]. split; [done |].
    apply moves_none; [done | | done]. unfold buffered at 2. fold h. by rewrite E0.
  - destruct Hh as [Hh|Hh]; [done |]. destruct (bcopy_ok (inbox (net s)) data (length_ h)) as (b & -> & Ht & _).
    { unfold good_length in Hh. lia. } { unfold good_length in Hh. lia. }
    cbn [obind]. rewrite (proj2 (Z.eqb_neq _ _) E0). eexists (Some _), s1. split; [done |]. split; [done |]. split; [done |].
    apply moves_none; [done | | done]. rewrite Eb, Ht. unfold buffered. fold h. by rewrite (proj2 (Z.eqb_neq _ _) E0).
Qed.

Lemma decode_bytes h b : header_range h -> decode (header_bytes h ++ b) = (h, take (Z.to_nat (length_ h)) b).
Proof. intros Hh. unfold decode. by rewrite header_of_bytes. Qed.

Lemma Send_moves i hdr data (s : Sys) : device_ok i s ->
  is_s32 (to hdr) -> is_s32 (from hdr) -> good_length (length_ hdr) -> from hdr = i -> length_ hdr <= Z.of_nat (length data) ->
  exists s', run_op i (OSend hdr data) s = Ok (None, s') /\ device_ok i s' /\ same_device s s' /\ moves i (OSend hdr data) s None s'.
Proof.
  intros Hok Hto Hfr Hlen Hfrom Hdata. pose proof Hok as [Hn Hb Hh Hl Hp]. cbn [run_op]. unfold NetworkOutput_Send.
  pose proof Hlen as [Hl0 Hl1]. rewrite Hb, (proj2 (Z.ltb_lt _ _) Hl0), (proj2 (Z.leb_le _ _) Hl1), Hfrom, Hn, Z.eqb_refl. cbn [negb andb obind assert_].
  destruct (Schedule_net TheNetworkOutput NetworkTime NetworkSendInt s) as (s1 & -> & Er & Hp1); [done | exact Hp |]. cbn [obind].
  assert (net s1 = net s) as En by (unfold net; by rewrite Er). assert (world s1 = world s) as Ew by (unfold world; by rewrite Er).
  rewrite En, Ew. destruct (rand (HostDevices := HD i) (world s)) as [x w1] eqn:Ex. destruct (rand_net _ _ _ _ Ex) as [Eq1 Ebd1].
  assert (forall w', device_ok i (set_world w' s1)) as Hdev by (intros w'; by eapply device_ok_set).
  assert (forall w', buffered (set_world w' s1) = buffered s) as Hbuf by (intros w'; unfold buffered; by rewrite <- En).
  assert (forall w', bound w' = bound w1 -> same_device s (set_world w' s1)) as Hsame.
  { intros w' E. split; [by rewrite <- En | split; [by rewrite <- En |]]. cbn. by rewrite E. }
  destruct (is_lost (u32 x) (chanceToWork (net s))) eqn:El.
  { exists (set_world w1 s1). do 3 (split; [auto |]). apply moves_none; [done | apply Hbuf |].
    intros ? ? [= <- <-] _ _ Hc. by rewrite Hc, never_lost in El. }
  destruct (concatenate_ok (header_bytes hdr) data (garbage MaxWireSize) (length_ hdr)) as (b & -> & Ht & Hlb).
  { lia. } { rewrite length_header_bytes, garbage_size by done. unfold MaxPacketSize, sizeof_PacketHeader in Hl1. lia. }
  assert (header_range hdr) as Hr by (split; [done |]; split; [done |]; unfold is_u32, MaxPacketSize, MaxWireSize, sizeof_PacketHeader in *; lia).
  cbn [obind]. unfold SendToSocket. destruct (send_tries_net i (out_sock (net s)) (header_bytes hdr ++ b) (sockName (to hdr)) 10 w1) as (w2 & -> & Hcase & Hsure).
  { by rewrite Hlb, garbage_size by done. }
  cbn [obind]. exists (set_world w2 s1). split; [done |]. split; [done |].
  destruct Hcase as [[Eq2 Eb2]|(q & Hq & Hq' & Hbd)].
  - split; [by apply Hsame |]. apply moves_none; [cbn; congruence | apply Hbuf |].
    intros ? ? [= <- <-] Hi Hok' _. apply Hsure; [done | by rewrite Eq1 | intros; by apply Hok' |]. by split.
  - split; [by apply Hsame |]. eapply moves_out; [done | by rewrite <- Eq1 | cbn; by rewrite Hq', Eq1 | | | apply Hbuf].
    + split; [by rewrite Hlb, garbage_size by done |]. exists hdr. by rewrite header_of_bytes.
    + by rewrite decode_bytes, Ht.
Qed.

Lemma Input_moves i (s : Sys) q : device_ok i s ->
  bound (world s) i !! in_sock (net s) = Some (sockName i) -> queues (world s) !! sockName i = Some q ->
  Forall (good_datagram i) q ->
  exists s', run_op i OInput s = Ok (None, s') /\ device_ok i s' /\ same_device s s' /\ moves i OInput s None s'.
Proof.
  intros Hok Hbd Hq Hgood. pose proof Hok as [Hn Hb Hh Hl Hp]. cbn [run_op]. unfold NetworkInput_CallBack.
  destruct (Schedule_net TheNetworkInput NetworkTime NetworkRecvInt s) as (s1 & -> & Er & Hp1); [done | exact Hp |]. cbn [obind].
  assert (net s1 = net s) as En by (unfold net; by rewrite Er). assert (world s1 = world s) as Ew by (unfold world; by rewrite Er).
  rewrite En, Ew. assert (forall w', device_ok i (set_world w' s1)) as Hdev by (intros w'; by eapply device_ok_set).
  assert (forall w', buffered (set_world w' s1) = buffered s) as Hbuf by (intros w'; unfold buffered; by rewrite <- En).
  assert (forall w', bound w' = bound (world s) -> same_device s (set_world w' s1)) as Hsame.
  { intros w' E. split; [by rewrite <- En | split; [by rewrite <- En |]]. exact E. }
  destruct (Z.eqb_spec (length_ (inHdr (net s))) 0) as [E0|E0]; cbn [negb].
  2:{ exists s1. split; [done |]. split; [by eapply device_ok_set |].
      split; [split; [by rewrite En | by rewrite En, Ew] |].
      apply moves_none; [by rewrite Ew | unfold buffered; by rewrite En | done]. }
  unfold PollSocket. destruct (select_ (HostDevices := HD i) (in_sock (net s)) (world s)) as [r w1] eqn:Esel.
  destruct (select_net _ _ _ _ _ _ _ Hbd Hq Esel) as [[Eq1 Ebd1] Hr].
  pose proof (select_succeeds _ _ _ _ Hbd) as Hne. rewrite Esel in Hne. destruct Hr as [Hr| ->]; [done |].
  destruct q as [|m q]; cbn [Z.eqb Pos.eqb orb obind assert_ negb].
  { exists (set_world w1 s1). do 3 (split; [auto |]). apply moves_none; [done | apply Hbuf | done]. }
  unfold ReadFromSocket. destruct (recvfrom (Datagrams := DG i) (in_sock (net s)) MaxWireSize w1) as [[r d] w2] eqn:Erecv.
  rewrite <- Ebd1 in Hbd. rewrite <- Eq1 in Hq.
  pose proof (recv_succeeds _ _ _ _ _ _ MaxWireSize Hbd Hq) as Hne2. rewrite Erecv in Hne2.
  destruct (recvfrom_net _ _ _ MaxWireSize _ _ _ _ _ _ Hbd Hq ltac:(done) Erecv) as [(-> & _)|(-> & -> & Hq2 & Hbd2)]; [done |].
  apply Forall_cons in Hgood as [(Hlm & h & Hh' & Hto & Hlen) Hgood]. rewrite take_ge in * by (unfold MaxWireSize in *; lia).
  unfold Stub.buf_fill. pose proof (garbage_size MaxWireSize ltac:(done)) as Hg. rewrite (proj2 (Nat.leb_le _ _)) by lia. cbn [obind].
  rewrite drop_ge, app_nil_r by lia. rewrite (proj2 (Z.eqb_eq _ _) Hlm). cbn [obind assert_]. rewrite Hh'. cbn [obind].
  rewrite Hto, Hn, Z.eqb_refl. pose proof Hlen as [Hl0 Hl1]. rewrite (proj2 (Z.leb_le _ _) Hl1). cbn [andb obind assert_].
  destruct (bcopy_ok (drop (Z.to_nat sizeof_PacketHeader) m) (inbox (net s)) (length_ h)) as (b & -> & Ht & Hlb).
  { rewrite length_drop. unfold MaxPacketSize, MaxWireSize, sizeof_PacketHeader in *. lia. } { lia. }
  cbn [obind]. set (s2 := on_stats _ _).
  destruct (on_post_ok inputAvail s2) as (s' & -> & En' & Ew' & Ei & Eb).
  { destruct (handlers_return (rest s2).2) as (k1 & _ & E & _). by exists k1. }
  cbn [obind]. exists s'. split; [done |].
  assert (net s' = set_in h b (net s)) as En2 by (rewrite En'; unfold s2; cbn; by rewrite <- En).
  assert (world s' = w2) as Ew2 by exact Ew'.
  split; [split; rewrite ?En2, ?Ei, ?Eb; try done; [by right | cbn; lia] |].
  split; [split; [by rewrite En2 | by rewrite En2, Ew2, Hbd2, Ebd1] |].
  eapply moves_in; [by rewrite <- Eq1 | rewrite Ew2, Hq2; by rewrite Eq1 | unfold buffered; by rewrite E0 | | done].
  unfold buffered, decode. rewrite En2, Hh'. cbn [set_in set_input inHdr inbox].
  rewrite (proj2 (Z.eqb_neq _ _)) by lia. by rewrite Ht.
Qed.

(** *** The machines together *)

(** The packets [dl] join those under way to [a], at their end. *)
Definition delivers (a : Z) (got : list (Z * packet)) (ms ms' : Machines) (dl : list packet) : Prop :=
  got_at a got ++ in_flight a ms' = in_flight a ms ++ dl.

Lemma got_one (a i : Z) (r : option packet) :
  got_at a (match r with Some p => [(i, p)] | None => [] end) = if decide (i = a) then option_list r else [].
Proof. by destruct r; cbn; destruct (decide (i = a)). Qed.

Lemma moves_delivers i o s r s' (ms : Machines) a :
  ms.1 !! i = Some s -> moves i o (set_world ms.2 s) r s' ->
  (forall i s, ms.1 !! i = Some s -> is_Some (queues ms.2 !! sockName i)) ->
  exists dl, dl `sublist_of` sent_to a [(i, o)] /\ (lossless ms -> is_Some (ms.1 !! a) -> dl = sent_to a [(i, o)]) /\
    delivers a (match r with Some p => [(i, p)] | None => [] end) ms (<[i := s']> ms.1, world s') dl.
Proof.
  intros Hs Hm Hsock. unfold delivers. rewrite got_one. unfold in_flight. cbn [fst snd].
  destruct Hm as [r s' Hq Hb Hloss|s' m q Hq Hq' Hb Hb' Hno|hdr data b q s' -> Hq Hq' Hgood Hdec Hb].
  - exists []. split; [apply sublist_nil_l |]. split.
    + intros [Hc Hroom] [sa Ha]. destruct o as [hdr data| | |]; [|done..]. cbn. destruct (decide (to hdr = a)) as [<-|]; [|done].
      exfalso. apply (Hloss hdr data eq_refl); [by eapply Hsock | intros; by apply Hroom | exact (Hc i s Hs)].
    + rewrite Hq, app_nil_r. change (queues (world (set_world ms.2 s))) with (queues ms.2). destruct (decide (i = a)) as [<-|Hne].
      * rewrite lookup_insert_eq, Hs, app_assoc, Hb. done.
      * by rewrite lookup_insert_ne by done.
  - exists []. assert (sent_to a [(i, o)] = []) as -> by (destruct o as [hdr data| | |]; [by destruct (Hno hdr data) | done..]).
    split; [done |]. split; [done |]. rewrite Hq', app_nil_r. change (queues (world (set_world ms.2 s))) with (queues ms.2) in *.
    destruct (decide (i = a)) as [<-|Hne].
    + rewrite !lookup_insert_eq, Hs, Hb', Hq. change (buffered s) with (buffered (set_world ms.2 s)). by rewrite Hb.
    + rewrite lookup_insert_ne by done. rewrite lookup_insert_ne by (by intros E%(inj sockName)). done.
  - exists (sent_to a [(i, OSend hdr data)]). split; [done |]. split; [done |].
    rewrite Hq'. change (queues (world (set_world ms.2 s))) with (queues ms.2) in *. cbn [sent_to omap list_omap snd].
    replace (if decide (i = a) then option_list (@None packet) else []) with (@nil packet) by (by destruct (decide _)).
    replace (match <[i := s']> ms.1 !! a with Some s0 => buffered s0 | None => [] end)
      with (match ms.1 !! a with Some s0 => buffered s0 | None => [] end).
    2:{ destruct (decide (i = a)) as [<-|Hne]; [by rewrite lookup_insert_eq, Hs, Hb | by rewrite lookup_insert_ne by done]. }
    cbn [app]. rewrite <- app_assoc. f_equal. destruct (decide (to hdr = a)) as [<-|Hne].
    + rewrite lookup_insert_eq, Hq. cbn [from_option id]. rewrite fmap_app. cbn. by rewrite Hdec.
    + rewrite lookup_insert_ne by (by intros E%(inj sockName)). by rewrite app_nil_r.
Qed.

Lemma moves_wire i o s r s' a q : moves i o s r s' ->
  (forall a q, queues (world s) !! sockName a = Some q -> Forall (good_datagram a) q) ->
  queues (world s') !! sockName a = Some q -> Forall (good_datagram a) q.
Proof.
  intros Hm Hw. destruct Hm as [r s' Hq _ _|s' m q1 Hq Hq' _ _ _|hdr data b q1 s' _ Hq Hq' Hgood _ _].
  - rewrite Hq. apply Hw.
  - rewrite Hq'. destruct (decide (i = a)) as [<-|Hne].
    + rewrite lookup_insert_eq. intros [= <-]. by apply Hw, Forall_cons in Hq as [_ ?].
    + rewrite lookup_insert_ne by (by intros E%(inj sockName)). apply Hw.
  - rewrite Hq'. destruct (decide (to hdr = a)) as [<-|Hne].
    + rewrite lookup_insert_eq. intros [= <-]. apply Forall_app. split; [by apply Hw | by apply Forall_singleton].
    + rewrite lookup_insert_ne by (by intros E%(inj sockName)). apply Hw.
Qed.

Lemma moves_bound i o s r s' n : moves i o s r s' -> is_Some (queues (world s) !! n) -> is_Some (queues (world s') !! n).
Proof.
  intros Hm Hn. destruct Hm as [r s' Hq _ _|s' m q1 Hq Hq' _ _ _|hdr data b q1 s' _ Hq Hq' _ _ _].
  - by rewrite Hq.
  - rewrite Hq'. apply lookup_insert_is_Some'. auto.
  - rewrite Hq'. apply lookup_insert_is_Some'. auto.
Qed.

Lemma run_op_moves i o (s : Sys) (ms : Machines) : machines_ok ms -> legal ms (i, o) -> ms.1 !! i = Some s ->
  exists r s', run_op i o (set_world ms.2 s) = Ok (r, s') /\ device_ok i s' /\
    same_device (set_world ms.2 s) s' /\ moves i o (set_world ms.2 s) r s'.
Proof.
  intros Hms [_ Hl] Hs. pose proof (m_devices _ Hms i s Hs) as Hd.
  assert (device_ok i (set_world ms.2 s)) as Hd' by (destruct Hd; by split).
  destruct (m_sockets _ Hms i s Hs) as [Hbd [q Hq]].
  destruct o as [hdr data|data| |]; cbn [fst snd] in Hl.
  - destruct Hl as (Hto & Hfr & Hlen & Hfrom & Hdata).
    destruct (Send_moves i hdr data _ Hd' Hto Hfr Hlen Hfrom Hdata) as (s' & H). by exists None, s'.
  - destruct (Receive_moves i data _ Hd' Hl) as (r & s' & H). by exists r, s'.
  - destruct (Input_moves i _ q Hd' Hbd Hq (m_wire _ Hms i q Hq)) as (s' & H). by exists None, s'.
  - destruct (Output_moves i _ Hd') as (s' & H). by exists None, s'.
Qed.

Lemma run_at_step x (ms : Machines) : machines_ok ms -> legal ms x ->
  exists r ms', run_at x ms = Ok (r, ms') /\ machines_ok ms' /\ dom ms'.1 = dom ms.1 /\ (lossless ms -> lossless ms') /\
    forall a, exists dl, dl `sublist_of` sent_to a [x] /\ (lossless ms -> is_Some (ms.1 !! a) -> dl = sent_to a [x]) /\
      delivers a (match r with Some p => [(x.1, p)] | None => [] end) ms ms' dl.
Proof.
  intros Hms Hl. destruct x as [i o]. destruct (Hl) as [[s Hs] _]. cbn [fst] in Hs.
  destruct (run_op_moves i o s ms Hms Hl Hs) as (r & s' & E & Hd & (Hsk & Hc & Hb) & Hm).
  unfold run_at. cbn [fst snd]. rewrite Hs, E. cbn [obind]. eexists r, _. split; [done |].
  assert (forall i s, ms.1 !! i = Some s -> is_Some (queues ms.2 !! sockName i)) as Hq by (intros; by eapply m_sockets).
  split; [split; cbn [fst snd] |].
  - intros j sj [[<- <-]|[Hne Hj]]%lookup_insert_Some; [done | by apply (m_devices _ Hms)].
  - rewrite Hb. intros j sj [[<- <-]|[Hne Hj]]%lookup_insert_Some.
    + rewrite Hsk. split; [apply (m_sockets _ Hms i s Hs) |]. eapply moves_bound; [exact Hm |]. by eapply Hq.
    + split; [apply (m_sockets _ Hms j sj Hj) |]. eapply moves_bound; [exact Hm |]. by eapply Hq.
  - intros a q. eapply moves_wire; [exact Hm |]. apply (m_wire _ Hms).
  - split; [cbn [fst]; by rewrite dom_insert_lookup_L |]. split.
    + intros [Hch Hroom]. split; [|exact Hroom]. cbn [fst].
      intros j sj [[<- <-]|[Hne Hj]]%lookup_insert_Some; [rewrite Hc; exact (Hch i s Hs) | by apply (Hch j)].
    + intros a. by apply (moves_delivers i o s r s').
Qed.

Lemma got_app a g g' : got_at a (g ++ g') = got_at a g ++ got_at a g'.
Proof. apply omap_app. Qed.

(** C2.  However any number of machines send packets, take them, and have
    their device interrupts happen, no ASSERT of the devices fails, and for
    each machine the packets it took, with those under way to it, are in
    order and unchanged those that were under way and those sent to it
    since, none of them twice; where likelihoods are 1 and the host accepts
    what is sent to a bound socket, all of them. *)
Theorem network_is_fifo l (ms : Machines) : machines_ok ms -> Forall (legal ms) l ->
  exists got ms', run_ops l ms = Ok (got, ms') /\ machines_ok ms' /\
    forall a, got_at a got ++ in_flight a ms' `sublist_of` in_flight a ms ++ sent_to a l /\
      (lossless ms -> is_Some (ms.1 !! a) -> got_at a got ++ in_flight a ms' = in_flight a ms ++ sent_to a l).
Proof.
  revert ms. induction l as [|x l IH]; intros ms Hms Hl.
  { exists [], ms. split; [done |]. split; [done |]. intros a. cbn. by rewrite app_nil_r. }
  apply Forall_cons in Hl as [Hx Hl]. destruct (run_at_step x ms Hms Hx) as (r & ms1 & E & Hms1 & Hdom & Hls & Hdl).
  assert (forall i, is_Some (ms.1 !! i) <-> is_Some (ms1.1 !! i)) as Hdom' by (intros i; by rewrite <- !elem_of_dom, Hdom).
  destruct (IH ms1 Hms1) as (got & ms2 & E2 & Hms2 & Hrun).
  { eapply Forall_impl; [exact Hl |]. intros y [Hy Hy']. split; [by apply Hdom' | exact Hy']. }
  cbn [run_ops]. rewrite E. cbn [obind]. rewrite E2. cbn [obind]. eexists _, ms2. split; [done |]. split; [done |].
  intros a. destruct (Hdl a) as (dl & Hsub & Hall & Hd), (Hrun a) as [Hrs Hra].
  set (g := match r with Some p => [(x.1, p)] | None => [] end) in *.
  replace (match r with Some p => (x.1, p) :: got | None => got end) with (g ++ got) by (by destruct r).
  change (x :: l) with ([x] ++ l). unfold sent_to in *. rewrite got_app, omap_app, <- app_assoc, (app_assoc (in_flight a ms)).
  unfold delivers in Hd. split.
  - etrans; [by apply sublist_app; [reflexivity | exact Hrs] |]. rewrite app_assoc, Hd.
    apply sublist_app; [|reflexivity]. by apply sublist_app.
  - intros Hlo Ha. rewrite (Hra (Hls Hlo)) by (by apply Hdom'). rewrite app_assoc, Hd. by rewrite (Hall Hlo Ha).
Qed.

End Machines.

End Network.

(** ** A host with sockets *)

Module Sea.
Import Host Interrupt Network.

(** The unread datagrams of the bound names, the names of each process's
    sockets, and a pseudo-random sequence. *)
Record sea := mkSea { mailbags : gmap (list Z) (list (list Z)); names : gmap Z (gmap Z (list Z)); seed : Z }.

Definition socket_name (p fd : Z) (w : sea) : option (list Z) := (default ∅ (names w !! p)) !! fd.

#[export] Instance sea_view : NetworkView sea := {|
  queues := mailbags;
  bound w p := default ∅ (names w !! p)
|}.

(** Descriptor 4 is the first socket of a process, 5 the second. *)
#[export] Instance sea_devices (p : Z) : HostDevices sea := {|
  rand w := (seed w, mkSea (mailbags w) (names w) ((seed w * 69 + 13) mod 1000));
  select_ fd w :=
    match socket_name p fd w with
    | Some n => (match default [] (mailbags w !! n) with [] => 0 | _ => 1 end, w)
    | None => (0, w)
    end
|}.

#[export] Instance sea_sockets (p : Z) : Datagrams sea := {|
  dgram_socket w := (if decide (default ∅ (names w !! p) = ∅) then 4 else 5, w);
  bind fd n w := (0, mkSea (<[n := []]> (mailbags w)) (<[p := <[fd := n]> (default ∅ (names w !! p))]> (names w)) (seed w));
  sendto fd b n w :=
    match mailbags w !! n with
    | Some q => (Z.of_nat (length b), mkSea (<[n := q ++ [b]]> (mailbags w)) (names w) (seed w))
    | None => (-1, w)
    end;
  recvfrom fd size w :=
    match socket_name p fd w with
    | Some n =>
        match mailbags w !! n with
        | Some (m :: q) =>
            let d := take (Z.to_nat size) m in
            (Z.of_nat (length d), d, mkSea (<[n := q]> (mailbags w)) (names w) (seed w))
        | _ => (-1, [], w)
        end
    | None => (-1, [], w)
    end;
  sleep _ w := w
|}.

(** A host without files. *)
#[export] Instance sea_host : Host sea := {|
  open _ _ w := (-1, w); close _ w := (0, w); read _ _ w := (-1, [], w); write _ _ w := (-1, w);
  lseek _ _ _ w := (-1, w); unlink n w := (0, mkSea (delete n (mailbags w)) (names w) (seed w));
  socket w := (-1, w); inet_addr _ := 0; connect _ _ _ w := (-1, w); set_timeout _ _ _ w := w;
  send _ _ w := (-1, w); recv _ _ w := (-1, [], w)
|}.

#[export] Instance sea_laws : NetworkLaws sea sea_devices sea_sockets.
Proof.
  split.
  - intros p w r w' [= <- <-]. done.
  - intros p n w. done.
  - intros p fd w n q r w' Hb Hq. cbn. unfold socket_name. cbn in Hb, Hq. rewrite Hb, Hq. intros [= <- <-]. split; [done |]. right. by destruct q.
  - intros p fd b n w r w'. cbn. destruct (mailbags w !! n) as [q|] eqn:Eq; intros [= <- <-]; [right; split; [done |]; by exists q | by left].
  - intros p fd n size w r d w' m q Hb Hq Hs. cbn. unfold socket_name. cbn in Hb, Hq. rewrite Hb, Hq. intros [= <- <- <-]. by right.
Qed.

Lemma sea_selects p fd (w : sea) n : bound w p !! fd = Some n -> (select_ (HostDevices := sea_devices p) fd w).1 <> -1.
Proof. intros Hb. cbn. unfold socket_name. cbn in Hb. rewrite Hb. by destruct (default [] _). Qed.

Lemma sea_receives p fd (w : sea) n m q size : bound w p !! fd = Some n -> queues w !! n = Some (m :: q) ->
  (recvfrom (Datagrams := sea_sockets p) fd size w).1.1 <> -1.
Proof. intros Hb Hq. cbn. unfold socket_name. cbn in Hb, Hq. rewrite Hb, Hq. cbn. lia. Qed.

(** A machine whose device has just been made. *)
Definition zeros (n : Z) : list Z := replicate (Z.to_nat n) 0.
Definition no_device (i : Z) : Net := mkNet i 0 false (mkPacketHeader 0 0 0) (zeros MaxPacketSize) 0 (double 0) false.
Definition new_machine (i : Z) (reliability : spec_float) (w : sea) : outcome (@Sys NetObj (Net * sea * unit)) :=
  let! s := new_NetworkInput (HW := sea_host) (DG := sea_sockets i)
              (mkSys new_Interrupt new_Statistics 1 None (no_device i, w, tt)) in
  new_NetworkOutput (DG := sea_sockets i) reliability s.

(** Machines 0 and 1 with reliable devices. *)
Definition two_machines : outcome (Machines (W := sea) (K := unit)) :=
  let! s0 := new_machine 0 (double 1) (mkSea ∅ ∅ 0) in
  let! s1 := new_machine 1 (double 2) (world s0) in
  Ok (<[0 := s0]> (<[1 := s1]> ∅), world s1).

#[export] Instance spec_float_eq_dec : EqDecision spec_float.
Proof. solve_decision. Defined.

(** Machines with nothing on the wire, as they are after their start. *)
Definition started (ms : Machines (W := sea) (K := unit)) : Prop :=
  map_Forall (fun i s =>
    hostName (net s) = i /\ sendBusy (net s) = false /\ length_ (inHdr (net s)) = 0 /\
    Z.of_nat (length (inbox (net s))) = MaxPacketSize /\ chanceToWork (net s) = double 1 /\
    Forall (fun p => Pos.lt (address p) (brk s)) (pending (interrupt s)) /\
    bound ms.2 i !! in_sock (net s) = Some (sockName i) /\ queues ms.2 !! sockName i = Some []) ms.1 /\
  map_Forall (fun _ q => q = []) (queues ms.2).

Lemma started_ok ms : started ms -> machines_ok ms /\ lossless sea_sockets ms.
Proof.
  intros [Hd Hq]. split; split.
  - intros i s Hs. destruct (Hd i s Hs) as (H1 & H2 & H3 & H4 & H5 & H6 & _). split; auto.
  - intros i s Hs. destruct (Hd i s Hs) as (_ & _ & _ & _ & _ & _ & H7 & H8). split; [done |]. by rewrite H8.
  - intros a q Ha. apply Hq in Ha as ->. constructor.
  - intros i s Hs. by apply (Hd i s Hs).
  - intros p fd b n w [q Hi]. cbn in *. rewrite Hi. cbn. lia.
Qed.

End Sea.
Import Interrupt Network Sea.

Definition three_ops : list (Z * op) :=
  [(0, OSend (mkPacketHeader 1 0 3) [7; 8; 9]); (1, OInput); (1, OReceive (zeros MaxPacketSize))].

Lemma network_is_fifo_witness :
  exists ms got ms', two_machines = Ok ms /\ run_ops sea_devices sea_sockets Ok Ok zeros three_ops ms = Ok (got, ms') /\
    got_at 1 got ++ in_flight 1 ms' = in_flight 1 ms ++ [(mkPacketHeader 1 0 3, [7; 8; 9])].
Proof.
  assert (match two_machines with
          | Ok ms => bool_decide (started ms /\ is_Some (ms.1 !! 0) /\ is_Some (ms.1 !! 1)) | Trap _ => false end = true) as H
    by (vm_compute; reflexivity).
  destruct two_machines as [ms|]; [|discriminate H]. apply bool_decide_eq_true in H as (H & H0 & H1).
  apply started_ok in H as [Hms Hls].
  assert (Forall (legal ms) three_ops) as Hl.
  { constructor; [split; [exact H0 |] | constructor; [by split | constructor; [by split | constructor]]].
    repeat split; vm_compute; (reflexivity || discriminate). }
  destruct (network_is_fifo sea_devices sea_sockets Ok Ok zeros (fun k => ex_intro _ k (ex_intro _ k (conj eq_refl eq_refl)))
    ltac:(intros n Hn; unfold zeros; rewrite length_replicate; lia) sea_selects sea_receives three_ops ms Hms Hl)
    as (got & ms' & Er & _ & H).
  exists ms, got, ms'. split; [reflexivity |]. split; [exact Er |]. apply (H 1); [exact Hls | exact H1].
Defined.
