(* ===== verification/Post.v ===== *)
(** * The post office: post.{h,cc}, and Kernel::NetworkTest

    Mailboxes over the network device of Network.v, as programs over the
    thread model: the postal worker, [Send] and [Receive], and the two
    machine test of kernel.cc, which is run to its end on two kernels that
    share a host. *)

From S2P Require Import Prelude LinkedList Machine FileTable Threads Synch Interrupt Network.

Module Post.
Import Host Network Threads Synch.

(** ** post.h *)

Record MailHeader := mkMailHeader { mto : Z; mfrom : Z; mlength : Z }.

Definition sizeof_MailHeader : Z := 12.
Definition MaxMailSize : Z := MaxPacketSize - sizeof_MailHeader.

Record Mail := mkMail { pktHdr : PacketHeader; mailHdr : MailHeader; data : list Z }.

Definition mail_bytes (h : MailHeader) : list Z := words3 (mto h) (mfrom h) (mlength h).
Definition mail_of (b : list Z) : outcome MailHeader :=
  let! ' (x, y, z) := read_words3 b in Ok (mkMailHeader x y z).

(** A [SynchList] of pointers to mail. *)
Record MailBox := mkBox { messages : list (positive * Mail); lock_ : nat; waiting : list nat }.
Definition no_box : MailBox := mkBox [] 0 [].

#[export] Instance PacketHeader_eq_dec : EqDecision PacketHeader.
Proof. solve_decision. Defined.
#[export] Instance MailHeader_eq_dec : EqDecision MailHeader.
Proof. solve_decision. Defined.
#[export] Instance Mail_eq_dec : EqDecision Mail.
Proof. solve_decision. Defined.

(** *** The parts of the code that do not block *)

Section Pure.
(** What [new char[n]] holds. *)
Context (garbage : Z -> list Z).

Definition new_Mail (pktH : PacketHeader) (mailH : MailHeader) (msgData : list Z) : outcome Mail :=
  assert! mlength mailH <=? MaxMailSize;
  let! d := bcopy msgData (garbage MaxMailSize) (mlength mailH) in
  Ok (mkMail pktH mailH d).

(** [PostOfficeOutput::Send] up to [Acquire]: the packet. *)
Definition Send_packet (hostName : Z) (pktHdr : PacketHeader) (mailHdr : MailHeader) (data : list Z)
    : outcome (PacketHeader * list Z) :=
  assert! mlength mailHdr <=? MaxMailSize;
  assert! 0 <=? mto mailHdr;
  let pktHdr := mkPacketHeader (to pktHdr) hostName (u32 (mlength mailHdr + sizeof_MailHeader)) in
  let! buffer := concatenate (mail_bytes mailHdr) data (garbage MaxPacketSize) (mlength mailHdr) in
  Ok (pktHdr, buffer).

(** [PostalDelivery] between [Receive] and [Put]: the mail's header and
    its data. *)
Definition sort_mail (numBoxes : Z) (buffer : list Z) : outcome (MailHeader * list Z) :=
  let! mailHdr := mail_of buffer in
  assert! (0 <=? mto mailHdr) && (mto mailHdr <? numBoxes);
  assert! mlength mailHdr <=? MaxMailSize;
  Ok (mailHdr, drop (Z.to_nat sizeof_MailHeader) buffer).

(** [MailBox::Get] after [RemoveFront]. *)
Definition open_mail (mail : Mail) (data_ : list Z) : outcome (PacketHeader * MailHeader * list Z) :=
  let! d := bcopy (data mail) data_ (mlength (mailHdr mail)) in Ok (pktHdr mail, mailHdr mail, d).

End Pure.

(** ** The post office in the kernel *)

Section Post.
Context {W : Type} `{HW : Host W} `{HD : !Interrupt.HostDevices W} `{DG : Datagrams W} (garbage : Z -> list Z).

(** The device (with a flag that its callback sets), the members of
    [PostOfficeInput] and [PostOfficeOutput], the addresses of mail, the
    buffer of the worker, and for the test its buffer and what it prints. *)
Record PostOffice := mkPost {
  device : @Interrupt.Sys NetObj (Net * W * bool);
  messageAvailable : nat; boxes : list MailBox; numBoxes : Z;
  messageSent : nat; sendLock : nat;
  brk : positive; worker_buffer : list Z;
  test_buffer : list Z; printed : list (list Z * Z * Z)
}.

Definition set_device d (e : PostOffice) := mkPost d (messageAvailable e) (boxes e) (numBoxes e) (messageSent e)
  (sendLock e) (brk e) (worker_buffer e) (test_buffer e) (printed e).
Definition set_available s (e : PostOffice) := mkPost (device e) s (boxes e) (numBoxes e) (messageSent e)
  (sendLock e) (brk e) (worker_buffer e) (test_buffer e) (printed e).
Definition set_boxes b n (e : PostOffice) := mkPost (device e) (messageAvailable e) b n (messageSent e)
  (sendLock e) (brk e) (worker_buffer e) (test_buffer e) (printed e).
Definition set_sender s l (e : PostOffice) := mkPost (device e) (messageAvailable e) (boxes e) (numBoxes e) s
  l (brk e) (worker_buffer e) (test_buffer e) (printed e).
Definition set_brk a (e : PostOffice) := mkPost (device e) (messageAvailable e) (boxes e) (numBoxes e) (messageSent e)
  (sendLock e) a (worker_buffer e) (test_buffer e) (printed e).
Definition set_worker b (e : PostOffice) := mkPost (device e) (messageAvailable e) (boxes e) (numBoxes e) (messageSent e)
  (sendLock e) (brk e) b (test_buffer e) (printed e).
Definition set_test b p (e : PostOffice) := mkPost (device e) (messageAvailable e) (boxes e) (numBoxes e) (messageSent e)
  (sendLock e) (brk e) (worker_buffer e) b p.

Notation P := (@prog PostOffice).

Definition host_name (e : PostOffice) : Z := hostName (net (device e)).

(** [boxes[i].messages]. *)
Definition box (i : Z) (e : PostOffice) : MailBox := default no_box (boxes e !! Z.to_nat i).
Definition upd_box (i : Z) (f : MailBox -> MailBox) (e : PostOffice) : PostOffice :=
  set_boxes (<[Z.to_nat i := f (box i e)]> (boxes e)) (numBoxes e) e.
Definition the_box (i : Z) : SynchList PostOffice (positive * Mail) := {|
  list_ e := messages (box i e); lock e := lock_ (box i e);
  set_list l := upd_box i (fun b => mkBox l (lock_ b) (waiting b));
  set_lock n := upd_box i (fun b => mkBox (messages b) n (waiting b));
  listEmpty := {| waitQueue e := waiting (box i e);
                  set_waitQueue q := upd_box i (fun b => mkBox (messages b) (lock_ b) q) |} |}.

(** *** MailBox *)

Definition Put (i : Z) (pktHdr : PacketHeader) (mailHdr : MailHeader) (data : list Z) (k : P) : P :=
  go (fun e =>
    let! mail := new_Mail garbage pktHdr mailHdr data in
    Ok (set_brk (Pos.succ (brk e)) e, CGo (SynchList_Append (the_box i) (brk e, mail) k))).

(** [Get] waits at the label [self], where [Get_loop] goes on. *)
Definition Get (i : Z) (self : nat) : P := SynchList_RemoveFront (the_box i) self.
Definition Get_loop (i : Z) (self : nat) (data : PostOffice -> list Z) (k : PacketHeader -> MailHeader -> list Z -> P) : P :=
  RemoveFront_loop (the_box i) self (fun mail => go (fun e =>
    let! ' (p, m, d) := open_mail mail.2 (data e) in Ok (e, CGo (k p m d)))).

(** *** PostOfficeInput *)

Fixpoint new_boxes (n : nat) (i : Z) (k : P) : P :=
  match n with
  | O => k
  | Datatypes.S n' => new_SynchList (the_box i) (new_boxes n' (i + 1) k)
  end.

(** The label of the worker's loop. *)
Definition worker_label : nat := 0.
Definition PostalDelivery : P := go (fun e => Ok (set_worker (garbage MaxPacketSize) e, CJump worker_label)).
Definition PostalDelivery_loop : P :=
  go (fun e => Ok (e, CP (messageAvailable e) (go (fun e =>
    let! ' (pktHdr, buffer, s) := NetworkInput_Receive (worker_buffer e) (device e) in
    let! ' (mailHdr, data) := sort_mail (numBoxes e) buffer in
    Ok (set_worker buffer (set_device s e), CGo (Put (mto mailHdr) pktHdr mailHdr data (do_ (CJump worker_label)))))))).

Definition postal_worker : list Z := chars "postal worker".

Definition new_PostOfficeInput (nBoxes : Z) (k : P) : P :=
  do_ (CNewSem 0 set_available (fun _ =>
    go (fun e => Ok (set_boxes (replicate (Z.to_nat nBoxes) no_box) nBoxes e, CGo (new_boxes (Z.to_nat nBoxes) 0
      (go (fun e =>
        let! s := new_NetworkInput (device e) in
        Ok (set_device s e, CFork postal_worker PostalDelivery (fun _ e => e) (fun _ => k)))))))) ).

Definition Receive (i : Z) (self : nat) : P :=
  go (fun e => assert! (0 <=? i) && (i <? numBoxes e); Ok (e, CGo (Get i self))).
Definition Receive_loop (i : Z) (self : nat) (data : PostOffice -> list Z) (k : PacketHeader -> MailHeader -> list Z -> P) : P :=
  Get_loop i self data (fun p m d => go (fun e => assert! mlength m <=? MaxMailSize; Ok (e, CGo (k p m d)))).

(** *** PostOfficeOutput *)

Definition new_PostOfficeOutput (reliability : SpecFloat.spec_float) (k : P) : P :=
  do_ (CNewSem 0 (fun s e => set_sender s (sendLock e) e) (fun _ =>
    do_ (CNewLock (fun lk => go (fun e =>
      let! s := new_NetworkOutput reliability (device e) in
      Ok (set_device s (set_sender (messageSent e) lk e), CGo k)))))).

Definition Send (pktHdr : PacketHeader) (mailHdr : MailHeader) (data : list Z) (k : P) : P :=
  go (fun e =>
    let! ' (pktHdr, buffer) := Send_packet garbage (host_name e) pktHdr mailHdr data in
    Ok (e, CAcquire (sendLock e) (go (fun e =>
      let! s := NetworkOutput_Send garbage pktHdr buffer (device e) in
      Ok (set_device s e, CP (messageSent e) (go (fun e => Ok (e, CRelease (sendLock e) k)))))))).

(** *** The callbacks, as device events of Threads.v

    The V on [messageAvailable] or [messageSent] is the event's; a poll
    that finds no packet is none. *)
Definition take_pending (o : NetObj) (s : @Interrupt.Sys NetObj (Net * W * bool)) : outcome (@Interrupt.Sys NetObj (Net * W * bool)) :=
  match list_find (fun p => Interrupt.callOnInterrupt p = o) (Interrupt.pending (Interrupt.interrupt s)) with
  | Some (i, _) =>
      Ok (Interrupt.on_rest (fun r => (r.1, false)) (Interrupt.on_int (fun x => Interrupt.set_pending (delete i (Interrupt.pending x)) x) s))
  | None => Trap Undefined
  end.
Definition network_event (o : NetObj) (e : PostOffice) : outcome PostOffice :=
  let! s := take_pending o (device e) in
  let! s := network_CallBack (fun _ => Ok true) (fun _ => Ok true) garbage o s in
  if (Interrupt.rest s).2 then Ok (set_device s e) else Trap Undefined.

(** ** Kernel::NetworkTest *)

(** [cout << buffer]. *)
Fixpoint c_string (b : list Z) : outcome (list Z) :=
  match b with
  | [] => Trap Undefined
  | c :: b => if c =? 0 then Ok [] else let! s := c_string b in Ok (c :: s)
  end.

Definition hello : list Z := chars "Hello there!".
Definition got_it : list Z := chars "Got it!".
Definition mail_to (box_ : Z) (text : list Z) : MailHeader := mkMailHeader box_ 1 (Z.of_nat (length text) + 1).

Definition print_got (p : PacketHeader) (m : MailHeader) (buffer : list Z) (e : PostOffice) : outcome PostOffice :=
  let! s := c_string buffer in
  Ok (set_test buffer (printed e ++ [(s, from p, mfrom m)]) e).

(** Up to the first [Receive], between the two, and after the second. *)
Definition NetworkTest (done : P) : P :=
  go (fun e => Ok (e, CGo (
    if (host_name e =? 0) || (host_name e =? 1) then
      let farHost := if host_name e =? 0 then 1 else 0 in
      Send (mkPacketHeader farHost 0 0) (mail_to 0 hello) (hello ++ [0]) (Receive 0 1)
    else done))).
Definition NetworkTest_1 : P :=
  Receive_loop 0 1 test_buffer (fun inPktHdr inMailHdr buffer => go (fun e =>
    let! e := print_got inPktHdr inMailHdr buffer e in
    Ok (e, CGo (Send (mkPacketHeader (from inPktHdr) 0 0) (mail_to (mfrom inMailHdr) got_it) (got_it ++ [0]) (Receive 1 2))))).
Definition NetworkTest_2 (done : P) : P :=
  Receive_loop 1 2 test_buffer (fun inPktHdr inMailHdr buffer => go (fun e =>
    let! e := print_got inPktHdr inMailHdr buffer e in Ok (e, CGo done))).

(** [main] with -N: the post offices are made, the test is run, and the
    machine halts. *)
Definition network_main (reliability : SpecFloat.spec_float) : P :=
  new_PostOfficeInput 10 (new_PostOfficeOutput reliability (NetworkTest (do_ CHalt))).

#[export] Instance network_labels : Procs PostOffice := fun label =>
  match label with
  | 0%nat => PostalDelivery_loop
  | 1%nat => NetworkTest_1
  | _ => NetworkTest_2 (do_ CHalt)
  end.

End Post.
Arguments PostOffice : clear implicits.


(** ** What is sent is what is received *)

Section RoundTrip.
#[local] Ltac sizes := change MaxMailSize with 40 in *; change MaxPacketSize with 52 in *; change sizeof_MailHeader with 12 in *.

Context (garbage : Z -> list Z) (garbage_size : forall n, 0 <= n -> Z.of_nat (length (garbage n)) = n).

Definition mail_range (h : MailHeader) : Prop := is_s32 (mto h) /\ is_s32 (mfrom h) /\ 0 <= mlength h <= MaxMailSize.

Lemma mail_of_bytes h r : mail_range h -> mail_of (mail_bytes h ++ r) = Ok h.
Proof.
  intros (Ht & Hf & Hl). unfold mail_of, mail_bytes. rewrite read_words3_bytes. cbn [obind].
  rewrite !s32_id, u32_id by (done || (sizes; unfold is_u32; lia)).
  by destruct h.
Qed.

(** C4.  What a thread passes to [Send], with a length the post office
    accepts and a box of the receiver: the packet is addressed to the same
    machine, from the sender, with a length the device accepts; from any
    buffer of the receiver's that holds the packet's bytes, whatever is
    behind them, the worker recovers the mail header and the box, and what
    [Receive] copies to its caller are the bytes sent and both headers. *)
Theorem mail_round_trip host ph mh text numBoxes :
  mail_range mh -> 0 <= mto mh < numBoxes -> mlength mh <= Z.of_nat (length text) ->
  exists pkt payload, Send_packet garbage host ph mh text = Ok (pkt, payload) /\
    to pkt = to ph /\ from pkt = host /\ good_length (length_ pkt) /\
    forall b, take (Z.to_nat (length_ pkt)) b = take (Z.to_nat (length_ pkt)) payload -> Z.of_nat (length b) = MaxPacketSize ->
    exists mail, sort_mail numBoxes b = Ok (mh, drop 12 b) /\ new_Mail garbage pkt mh (drop 12 b) = Ok mail /\
      forall user, mlength mh <= Z.of_nat (length user) ->
      exists d, open_mail mail user = Ok (pkt, mh, d) /\
        take (Z.to_nat (mlength mh)) d = take (Z.to_nat (mlength mh)) text.
Proof.
  intros Hr Hto Hdata. pose proof Hr as (_ & _ & Hl). set (n := mlength mh) in *.
  sizes.
  assert (u32 (n + 12) = n + 12) as En by (apply u32_id; unfold is_u32; lia).
  unfold Send_packet. fold n. sizes. rewrite En, !(proj2 (Z.leb_le _ _)) by lia. cbn [obind assert_].
  destruct (concatenate_ok (mail_bytes mh) text (garbage 52) n) as (p & -> & Hp & Hlp).
  { lia. } { rewrite garbage_size by done. cbn; lia. }
  cbn [obind]. eexists _, _. split; [done |]. split; [done |]. split; [done |]. cbn [length_].
  split; [unfold good_length; sizes; lia |]. intros b Hb Hlb.
  assert (b = mail_bytes mh ++ drop 12 b /\ take (Z.to_nat n) (drop 12 b) = take (Z.to_nat n) text) as [Eb Ed].
  { replace (Z.to_nat (n + 12)) with (12 + Z.to_nat n)%nat in Hb by lia.
    split.
    - rewrite <- (take_drop 12 b) at 1. f_equal. apply (f_equal (take 12)) in Hb.
      by rewrite !take_take, !Nat.min_l in Hb by lia.
    - apply (f_equal (drop 12)) in Hb. rewrite <- !take_drop_commute in Hb. by rewrite Hb, <- Hp. }
  destruct (bcopy_ok (drop 12 b) (garbage 40) n) as (d & Ec & Hd & Hld).
  { rewrite length_drop. lia. } { rewrite garbage_size by done. lia. }
  exists (mkMail (mkPacketHeader (to ph) host (n + 12)) mh d).
  unfold sort_mail, new_Mail. sizes. rewrite Eb at 1. rewrite mail_of_bytes by done. cbn [obind]. fold n.
  rewrite (proj2 (Z.leb_le 0 _)), (proj2 (Z.ltb_lt _ _)), (proj2 (Z.leb_le n 40)) by lia.
  cbn [andb obind assert_]. rewrite Ec. split; [done |]. split; [done |]. intros user Hu. unfold open_mail. cbn [mailHdr data pktHdr]. fold n.
  destruct (bcopy_ok d user n) as (d' & -> & Hd' & _); [|lia |].
  { rewrite Hld, garbage_size by done. lia. }
  cbn [obind]. exists d'. split; [done |]. by rewrite Hd', Hd.
Qed.

End RoundTrip.

End Post.

(** ** Two machines *)

Module TwoMachines.
Import Machine Host Interrupt Network Sea Threads Synch Post.

Notation Kernel := (@Kern (PostOffice sea)).

(** Machine [i] before its post office is made. *)
Definition no_post (i : Z) : PostOffice sea :=
  mkPost (mkSys new_Interrupt new_Statistics 1 None (no_device i, mkSea ∅ ∅ 0, false)) 0 [] 0 0 0 1 [] (zeros MaxMailSize) [].
Definition off (i : Z) : Kernel :=
  initial (chars "main") (network_main (HW := sea_host) (HD := sea_devices i) (DG := sea_sockets i) zeros (double 1))
    (new_Machine false) (no_post i).

Definition machine_step (i : Z) (e : event) (k : Kernel) : outcome Kernel :=
  step (PR := network_labels (HD := sea_devices i) (DG := sea_sockets i) zeros) e k.

Definition event_of (i : Z) (o : NetObj) (k : Kernel) : option event :=
  let f := network_event (HD := sea_devices i) (DG := sea_sockets i) zeros o in
  match f (extra k) with
  | Ok _ => Some (EvIrq (match o with TheNetworkInput => messageAvailable (extra k) | TheNetworkOutput => messageSent (extra k) end) f)
  | Trap _ => None
  end.

(** A machine that is on, its post office when it halted, or neither. *)
Inductive power := On (k : Kernel) | Off (printed : list (list Z * Z * Z)) | Crashed (t : trap).

Definition host_of (k : Kernel) : sea := Network.world (device (extra k)).
Definition with_host (w : sea) (k : Kernel) : Kernel :=
  set_extra (set_device (set_world w (device (extra k))) (extra k)) k.

(** One step of machine [i]: the current thread's; when it idles, that of
    a ready thread, a packet that was sent, or one that arrives. *)
Definition choose (i : Z) (k : Kernel) : option event :=
  match Threads.mode k, Threads.readyList k with
  | Executing, _ => Some EvRun
  | Idling _, _ :: _ => Some EvIdle
  | Idling _, [] =>
      match event_of i TheNetworkOutput k with
      | Some e => Some e
      | None => event_of i TheNetworkInput k
      end
  end.

(** [Interrupt::Halt] deletes the devices. *)
Definition halt (k : Kernel) : sea :=
  Network.world (delete_NetworkOutput (delete_NetworkInput (HW := sea_host) (device (extra k)))).

Definition turn (i : Z) (x : power * sea) : power * sea :=
  match x with
  | (On k, w) =>
      let k := with_host w k in
      match choose i k with
      | None => (On k, w)
      | Some e =>
          match machine_step i e k with
          | Ok k' => (On k', host_of k')
          | Trap Halted => (Off (printed (extra k)), halt k)
          | Trap t => (Crashed t, w)
          end
      end
  | _ => x
  end.

Definition turns (n : nat) (i : Z) (x : power * sea) : power * sea := Nat.iter n (turn i) x.

(** [n] rounds of [a] steps of machine 0 and [b] of machine 1. *)
Fixpoint rounds (n a b : nat) (p0 p1 : power) (w : sea) : power * power :=
  match n with
  | O => (p0, p1)
  | Datatypes.S n' =>
      let '(p0, w) := turns a 0 (p0, w) in
      let '(p1, w) := turns b 1 (p1, w) in
      rounds n' a b p0 p1 w
  end.

Definition boot_steps : nat := 27.
Definition test (n a b : nat) : power * power :=
  let '(p0, w) := turns boot_steps 0 (On (off 0), mkSea ∅ ∅ 0) in
  let '(p1, w) := turns boot_steps 1 (On (off 1), w) in
  rounds n a b p0 p1 w.

(** Both have halted, each with the other's message and its
    acknowledgement printed. *)
Definition heard (far : Z) (x : power) : bool :=
  match x with
  | Off out => bool_decide (out = [(hello, far, 1); (got_it, far, 1)])
  | _ => false
  end.
Definition both_heard (x : power * power) : bool := heard 1 x.1 && heard 0 x.2.

(** C5.  [Kernel::NetworkTest] on machines 0 and 1, booted with reliable
    networks: however many steps at a time, up to 8, each of the two
    makes, both get the other's message and then its acknowledgement, from
    the right machine and box, no ASSERT fails, and both halt within 200
    rounds. *)
Theorem network_test_completes a b : (1 <= a <= 8)%nat -> (1 <= b <= 8)%nat -> both_heard (test 200 a b) = true.
Proof.
  intros Ha Hb.
  assert (forallb (fun a => forallb (fun b => both_heard (test 200 a b)) (seq 1 8)) (seq 1 8) = true) as H
    by (vm_compute; reflexivity).
  pose proof (proj1 (forallb_forall _ _) H a ltac:(apply in_seq; lia)) as H'.
  apply (proj1 (forallb_forall _ _) H' b). apply in_seq. lia.
Qed.

End TwoMachines.
Import Network Post TwoMachines.

Lemma network_test_completes_witness : both_heard (test 200 3 7) = true.
Proof. apply (network_test_completes 3 7); lia. Defined.

Lemma mail_round_trip_witness : exists pkt payload mail d,
  Send_packet Sea.zeros 0 (mkPacketHeader 1 0 0) (mkMailHeader 2 1 3) [7; 8; 9] = Ok (pkt, payload) /\
  new_Mail Sea.zeros pkt (mkMailHeader 2 1 3) (drop 12 payload) = Ok mail /\
  open_mail mail (Sea.zeros 40) = Ok (pkt, mkMailHeader 2 1 3, d) /\ take 3 d = [7; 8; 9].
Proof.
  assert (forall n, 0 <= n -> Z.of_nat (length (Sea.zeros n)) = n) as Hz
    by (intros n Hn; unfold Sea.zeros; rewrite length_replicate; lia).
  destruct (mail_round_trip Sea.zeros Hz 0 (mkPacketHeader 1 0 0) (mkMailHeader 2 1 3) [7; 8; 9] 10)
    as (pkt & payload & E & _ & _ & _ & H); [repeat split; vm_compute; (reflexivity || discriminate).. |].
  destruct (H payload eq_refl) as (mail & _ & Em & Ho).
  { assert (match Send_packet Sea.zeros 0 (mkPacketHeader 1 0 0) (mkMailHeader 2 1 3) [7; 8; 9] with
            | Ok (_, b) => Z.of_nat (length b) =? MaxPacketSize | Trap _ => false end = true) as Hl by (vm_compute; reflexivity).
    rewrite E in Hl. apply Z.eqb_eq in Hl. lia. }
  destruct (Ho (Sea.zeros 40)) as (d & Eo & Ed); [vm_compute; discriminate |].
  exists pkt, payload, mail, d. split; [exact E |]. split; [exact Em |]. split; [exact Eo | exact Ed].
Defined.
