(* ===== verification/ConsoleTest.v ===== *)
(** * Kernel::ConsoleTest over the console device

    The synchronous console (synchconsole.{h,cc}) as programs over the
    thread model, on the device of Interrupt.v: here the interrupts of the
    device are those it has scheduled, each of which the simulated hardware
    delivers once.  The test of kernel.cc echoes what is typed until the
    end of the input; its theorem follows it through every interleaving. *)

From S2P Require Import Prelude LinkedList Machine FileTable Threads Synch Interrupt Network.

Module ConsoleTest.
Import Host Interrupt Threads Synch.
Import Network(chars).

Section Console.
Context {W : Type} `{HW : Host W} `{HD : !Interrupt.HostDevices W}.

(** The device (with a flag that its callbacks set), the members of
    [SynchConsoleInput] and [SynchConsoleOutput], and what goes to
    [cout]. *)
Record Desk := mkDesk {
  device : @Interrupt.Sys Interrupt.Device (Interrupt.Devices W * bool);
  in_lock : nat; in_waitFor : nat;
  out_lock : nat; out_waitFor : nat;
  cout : list (list Z)
}.

Definition set_device d (e : Desk) := mkDesk d (in_lock e) (in_waitFor e) (out_lock e) (out_waitFor e) (cout e).
Definition set_in l s (e : Desk) := mkDesk (device e) l s (out_lock e) (out_waitFor e) (cout e).
Definition set_out l s (e : Desk) := mkDesk (device e) (in_lock e) (in_waitFor e) l s (cout e).
Definition print (s : list Z) (e : Desk) :=
  mkDesk (device e) (in_lock e) (in_waitFor e) (out_lock e) (out_waitFor e) (cout e ++ [s]).

Notation P := (@prog Desk).
Notation Sys := (@Interrupt.Sys Interrupt.Device (Interrupt.Devices W * bool)).

(** ** The constructors of console.cc *)

Definition set_readFile (fd : Z) (d : Interrupt.Devices W) : Interrupt.Devices W :=
  Interrupt.mkDevices (Interrupt.randomize d) (Interrupt.disable d) (Interrupt.incoming d) fd
    (Interrupt.putBusy d) (Interrupt.writeFileNo d) (Interrupt.host d).
Definition set_writeFile (fd : Z) (d : Interrupt.Devices W) : Interrupt.Devices W :=
  Interrupt.mkDevices (Interrupt.randomize d) (Interrupt.disable d) (Interrupt.incoming d) (Interrupt.readFileNo d)
    (Interrupt.putBusy d) fd (Interrupt.host d).

Definition new_ConsoleInput (readFile : option (list Z)) (s : Sys) : outcome Sys :=
  let! ' (fd, w) :=
    (match readFile with
     | None => Ok (0, Interrupt.host (Interrupt.dev s))
     | Some name => Stub.OpenForReadWrite name true (Interrupt.host (Interrupt.dev s))
     end) in
  let s := Interrupt.upd_dev (fun d => Interrupt.set_incoming Interrupt.EOF (set_readFile fd (Interrupt.set_host w d))) s in
  Interrupt.Schedule Interrupt.TheConsoleInput Interrupt.ConsoleTime Interrupt.ConsoleReadInt s.

Definition new_ConsoleOutput (writeFile : option (list Z)) (s : Sys) : outcome Sys :=
  let! ' (fd, w) :=
    (match writeFile with
     | None => Ok (1, Interrupt.host (Interrupt.dev s))
     | Some name => Stub.OpenForWrite name (Interrupt.host (Interrupt.dev s))
     end) in
  Ok (Interrupt.upd_dev (fun d => Interrupt.set_putBusy false (set_writeFile fd (Interrupt.set_host w d))) s).

(** The destructors close what is not standard input or output. *)
Definition delete_ConsoleInput (s : Sys) : outcome Sys :=
  if negb (Interrupt.readFileNo (Interrupt.dev s) =? 0) then
    let! ' (_, w) := Stub.Close (Interrupt.readFileNo (Interrupt.dev s)) (Interrupt.host (Interrupt.dev s)) in
    Ok (Interrupt.upd_dev (Interrupt.set_host w) s)
  else Ok s.
Definition delete_ConsoleOutput (s : Sys) : outcome Sys :=
  if negb (Interrupt.writeFileNo (Interrupt.dev s) =? 1) then
    let! ' (_, w) := Stub.Close (Interrupt.writeFileNo (Interrupt.dev s)) (Interrupt.host (Interrupt.dev s)) in
    Ok (Interrupt.upd_dev (Interrupt.set_host w) s)
  else Ok s.

(** ** synchconsole.cc *)

Definition new_SynchConsoleInput (inputFile : option (list Z)) (k : P) : P :=
  go (fun e =>
    let! s := new_ConsoleInput inputFile (device e) in
    Ok (set_device s e, CNewLock (fun lock =>
      do_ (CNewSem 0 (fun waitFor => set_in lock waitFor) (fun _ => k))))).

Definition new_SynchConsoleOutput (outputFile : option (list Z)) (k : P) : P :=
  go (fun e =>
    let! s := new_ConsoleOutput outputFile (device e) in
    Ok (set_device s e, CNewLock (fun lock =>
      do_ (CNewSem 0 (fun waitFor => set_out lock waitFor) (fun _ => k))))).

Definition GetChar (k : Z -> P) : P :=
  go (fun e => Ok (e, CAcquire (in_lock e) (go (fun e => Ok (e, CP (in_waitFor e) (go (fun e =>
    let! ' (ch, s) := Interrupt.ConsoleInput_GetChar (device e) in
    Ok (set_device s e, CRelease (in_lock e) (k ch))))))))).

Definition PutChar (ch : Z) (k : P) : P :=
  go (fun e => Ok (e, CAcquire (out_lock e) (go (fun e =>
    let! s := Interrupt.ConsoleOutput_PutChar ch (device e) in
    Ok (set_device s e, CP (out_waitFor e) (go (fun e => Ok (e, CRelease (out_lock e) k)))))))).

(** ** kernel.cc *)

Definition newline : list Z := [10].
Definition banner : list Z :=
  chars "Testing the console device." ++ newline ++
  chars "Typed characters will be echoed, until ^D is typed." ++ newline ++
  chars "Note newlines are needed to flush input through UNIX." ++ newline.

(** The do-while loop, at its label. *)
Definition echo_label : nat := 0.
Definition echo_loop (done : P) : P :=
  GetChar (fun ch =>
    if ch =? Interrupt.EOF then go (fun e => Ok (print newline e, CGo done))
    else PutChar ch (do_ (CJump echo_label))).
Definition ConsoleTest : P := go (fun e => Ok (print banner e, CJump echo_label)).

#[export] Instance console_labels : Procs Desk := fun _ => echo_loop (do_ CHalt).

(** [Kernel::Initialize], of the consoles, and [main] with -C. *)
Definition console_main (consoleIn consoleOut : option (list Z)) : P :=
  new_SynchConsoleInput consoleIn (new_SynchConsoleOutput consoleOut ConsoleTest).

(** ** What may happen

    The main thread runs on; it is preempted; the loop of [Sleep] finds a
    ready thread; a scheduled interrupt of the keyboard or the display is
    delivered, when interrupts are on or the machine is idle. *)

Notation Kern := (@Kern Desk).

Inductive happening := Run | Preempt | Wake | Key | Shown.

#[export] Instance happening_eq_dec : EqDecision happening.
Proof. solve_decision. Defined.

(** The interrupt [CheckIfDue] takes off the list, and the handler. *)
Definition take_pending (o : Interrupt.Device) (s : Sys) : outcome Sys :=
  match list_find (fun p => Interrupt.callOnInterrupt p = o) (Interrupt.pending (Interrupt.interrupt s)) with
  | Some (i, _) =>
      Ok (Interrupt.on_rest (fun r => (r.1, false)) (Interrupt.on_int (fun x => Interrupt.set_pending (delete i (Interrupt.pending x)) x) s))
  | None => Trap Undefined
  end.

(** [callWhenAvail->CallBack()] and [callWhenDone->CallBack()] set the
    flag; their V comes after the handler's work on the device. *)
Definition deliver (o : Interrupt.Device) (waitFor : Desk -> nat) (k : Kern) : outcome Kern :=
  let e := extra k in
  let! s := take_pending o (device e) in
  let! s := Interrupt.device_CallBack (fun _ => Ok true) (fun _ => Ok true) o s in
  if (Interrupt.rest s).2 then step (EvIrq (waitFor e) (fun e => Ok (set_device s e))) k
  else Ok (set_extra (set_device s e) k).

Definition turn (h : happening) (k : Kern) : outcome Kern :=
  match h with
  | Run => step EvRun k
  | Preempt => step EvPreempt k
  | Wake => step EvIdle k
  | Key => deliver Interrupt.TheConsoleInput in_waitFor k
  | Shown => deliver Interrupt.TheConsoleOutput out_waitFor k
  end.

Definition idle (k : Kern) : bool := match mode k with Idling _ => true | Executing => false end.
Definition interruptible (k : Kern) : bool := bool_decide (level k = IntOn) || idle k.
Definition scheduled (o : Interrupt.Device) (k : Kern) : bool :=
  bool_decide (Exists (fun p => Interrupt.callOnInterrupt p = o) (Interrupt.pending (Interrupt.interrupt (device (extra k))))).

Definition may (h : happening) (k : Kern) : bool :=
  match h with
  | Run => negb (idle k)
  | Preempt => negb (idle k) && bool_decide (level k = IntOn)
  | Wake => idle k && negb (bool_decide (readyList k = []))
  | Key => interruptible k && scheduled Interrupt.TheConsoleInput k
  | Shown => interruptible k && scheduled Interrupt.TheConsoleOutput k
  end.

Inductive plays : list happening -> Kern -> Kern -> Prop :=
| plays_nil k : plays [] k k
| plays_cons h hs k k1 k2 : may h k = true -> turn h k = Ok k1 -> plays hs k1 k2 -> plays (h :: hs) k k2.

(** The main thread when interrupts are first enabled, after the four
    steps that make the two consoles. *)
Definition no_desk (w : W) : Desk :=
  mkDesk (Interrupt.mkSys Interrupt.new_Interrupt Interrupt.new_Statistics 1 None
    (Interrupt.mkDevices false false Interrupt.EOF 0 false 1 w, false)) 0 0 0 0 [].
Definition boot (consoleIn consoleOut : option (list Z)) (m : Machine.Machine) (w : W) : outcome Kern :=
  run [EvRun; EvRun; EvRun; EvRun] (initial (chars "main") (console_main consoleIn consoleOut) m (no_desk w)).

End Console.
Arguments Desk : clear implicits.

(** ** A terminal

    What the test needs of the host: [select], [read] and [write] on the
    standard descriptors, as their manual pages describe them.  [typed] is
    what will have been typed up to the end of the input, [shown] what was
    displayed; [select] says whether there is something to read. *)
Class TerminalView (W : Type) := { typed : W -> list Z; shown : W -> list Z }.

Class Terminal (W : Type) `{Host W, HostDevices W, TerminalView W} : Prop := {
  select_waits w r w' : select_ 0 w = (r, w') -> (r = 0 \/ r = 1) /\ typed w' = typed w /\ shown w' = shown w;
  read_next w n d w' : read 0 1 w = (n, d, w') -> shown w' = shown w /\
    match typed w with
    | [] => n = 0 /\ d = [] /\ typed w' = []
    | c :: l => n = 1 /\ d = [c] /\ typed w' = l
    end;
  write_shows c w n w' : write 1 [c] w = (n, w') -> n = 1 /\ shown w' = shown w ++ [c] /\ typed w' = typed w
}.

(** The characters up to the first that a [char] cannot tell from EOF. *)
Fixpoint up_to_eof (l : list Z) : list Z :=
  match l with
  | [] => []
  | c :: l => if c =? EOF then [] else c :: up_to_eof l
  end.

(** ** The device while the test runs *)

Section Device.
Context {W : Type} `{HW : Host W} `{HD : !HostDevices W} `{HV : !TerminalView W} `{HT : !Terminal W}.
Notation Sys := (@Interrupt.Sys Device (Devices W * bool)).

(** The keyboard waits for a key, has one for the test, met the end of the
    input, or was found there; the display is free, is at work on a
    character, or has shown it and the test has not heard. *)
Inductive keyboard := Waiting | Has (c : Z) | Ended | Gone.
Inductive display := Calm | Busy | Displayed.

Definition in_char (i : keyboard) : Z := match i with Has c => c | _ => EOF end.
Definition key_due (i : keyboard) : list Device := match i with Waiting => [TheConsoleInput] | _ => [] end.
Definition display_due (o : display) : list Device := match o with Busy => [TheConsoleOutput] | _ => [] end.

Definition world (d : Sys) : W := host (dev d).
Definition due (d : Sys) : list Device := callOnInterrupt <$> pending (interrupt d).

Record dev_ok (i : keyboard) (o : display) (d : Sys) : Prop := {
  dv_in : incoming (dev d) = in_char i;
  dv_char : forall c, i = Has c -> c <> EOF;
  dv_read : readFileNo (dev d) = 0;
  dv_write : writeFileNo (dev d) = 1;
  dv_busy : putBusy (dev d) = bool_decide (display_due o <> []);
  dv_due : due d ≡ₚ key_due i ++ display_due o;
  dv_fresh : Forall (fun p => (address p < brk d)%positive) (pending (interrupt d))
}.

(** What is still to be echoed, but for the character in the hands of the
    test: the one the keyboard has, and what will be typed. *)
Definition key_in (i : keyboard) : list Z := match i with Has c => [c] | _ => [] end.
Definition to_come (i : keyboard) (w : W) : list Z :=
  match i with Waiting | Has _ => up_to_eof (typed w) | _ => [] end.
Definition coming (i : keyboard) (w : W) : list Z := key_in i ++ to_come i w.

Lemma Schedule_due (s : Sys) o t ty : 0 < t -> Forall (fun p => (address p < Interrupt.brk s)%positive) (pending (interrupt s)) ->
  exists s', Schedule o t ty s = Ok s' /\ due s' ≡ₚ o :: due s /\ Interrupt.rest s' = Interrupt.rest s /\
    Forall (fun p => (address p < Interrupt.brk s')%positive) (pending (interrupt s')).
Proof.
  intros Ht Hf. unfold Schedule. rewrite (proj2 (Z.ltb_lt 0 t)) by done. cbn [obind assert_ Interrupt.interrupt].
  unfold ListSpec.Insert. rewrite decide_False.
  2:{ intros Hin. rewrite Forall_forall in Hf. specialize (Hf _ Hin). cbn in Hf. lia. }
  eexists. split; [reflexivity |]. unfold due. cbn [on_int interrupt set_pending pending Interrupt.rest Interrupt.brk].
  rewrite LinkedList.sorted_insert_perm. split; [done |]. split; [done |]. apply Forall_forall. intros p Hp.
  apply elem_of_cons in Hp as [->|Hp]; [cbn; lia |]. rewrite Forall_forall in Hf. specialize (Hf _ Hp). cbn in *. lia.
Qed.

Lemma take_pending_due (s : Sys) o l : due s ≡ₚ o :: l -> Forall (fun p => (address p < Interrupt.brk s)%positive) (pending (interrupt s)) ->
  exists s', take_pending o s = Ok s' /\ due s' ≡ₚ l /\ Interrupt.rest s' = ((Interrupt.rest s).1, false) /\
    Forall (fun p => (address p < Interrupt.brk s')%positive) (pending (interrupt s')).
Proof.
  intros Hd Hf. unfold take_pending. destruct (list_find _ _) as [[i p]|] eqn:E.
  - apply list_find_Some in E as (Hi & Hp & _). eexists. split; [reflexivity |]. pose proof (delete_Permutation _ _ _ Hi) as Hperm.
    unfold due in *. cbn [on_rest on_int interrupt set_pending pending Interrupt.rest Interrupt.brk].
    split; [|split; [done |]].
    + apply (fmap_Permutation callOnInterrupt) in Hperm. rewrite fmap_cons, Hp, Hd in Hperm.
      symmetry. exact (Permutation_cons_inv Hperm).
    + by apply Forall_delete.
  - exfalso. apply list_find_None in E. assert (o ∈ due s) as Ho by (rewrite Hd; left).
    apply list_elem_of_fmap in Ho as (p & -> & Hp). rewrite Forall_forall in E. by apply (E p Hp).
Qed.

Lemma getchar_ok i o (d : Sys) : dev_ok i o d -> i <> Waiting ->
  exists d', ConsoleInput_GetChar d = Ok (in_char i, d') /\ world d' = world d /\
    dev_ok (match i with Has _ => Waiting | _ => Gone end) o d'.
Proof.
  intros [H1 H2 H3 H4 H5 H6 H7] Hi. unfold ConsoleInput_GetChar. rewrite H1.
  destruct i as [|c| |]; [done | | |]; cbn [in_char].
  2,3: rewrite Z.eqb_refl; cbn [negb obind]; eexists; split; [reflexivity |]; split; [done |]; by split.
  rewrite (proj2 (Z.eqb_neq _ _)) by auto. cbn [negb].
  destruct (Schedule_due d TheConsoleInput ConsoleTime ConsoleReadInt) as (d' & -> & Hd & Hr & Hf); [done | done |].
  cbn [obind]. eexists. split; [reflexivity |]. unfold world, dev, upd_dev in *. cbn [on_rest Interrupt.rest fst snd interrupt Interrupt.brk].
  rewrite Hr. split; [done |]. split; unfold dev; cbn [on_rest Interrupt.rest fst]; rewrite ?Hr; try done.
  change (due d' ≡ₚ TheConsoleInput :: display_due o). by rewrite Hd, H6.
Qed.

Lemma putchar_ok i ch (d : Sys) : dev_ok i Calm d ->
  exists d', ConsoleOutput_PutChar ch d = Ok d' /\ dev_ok i Busy d' /\
    typed (world d') = typed (world d) /\ shown (world d') = shown (world d) ++ [ch].
Proof.
  intros [H1 H2 H3 H4 H5 H6 H7]. unfold ConsoleOutput_PutChar. rewrite H5, H4. cbn [negb bool_decide obind assert_].
  replace (negb (bool_decide (display_due Calm <> []))) with true by done. cbn [obind assert_].
  unfold Stub.WriteFile. change (u32 1 <=? Z.of_nat (length [ch])) with true. cbn match.
  change (take (Z.to_nat (u32 1)) [ch]) with [ch].
  destruct (write 1 [ch] (host (dev d))) as [n w'] eqn:Ew. apply write_shows in Ew as (-> & Es & Et). cbn [obind assert_ Z.eqb Pos.eqb].
  set (d1 := upd_dev _ _).
  destruct (Schedule_due d1 TheConsoleOutput ConsoleTime ConsoleWriteInt) as (d' & E & Hd & Hr & Hf); [done | done |].
  exists d'. split; [exact E |]. unfold world, dev. rewrite Hr. split; [|done].
  split; unfold dev; rewrite ?Hr; try done. rewrite Hd. unfold due, d1. cbn [upd_dev on_rest interrupt].
  fold (due d). rewrite H6, app_nil_r. by rewrite Permutation_app_comm.
Qed.

Notation called := (device_CallBack (fun _ : bool => Ok true) (fun _ => Ok true)).

Lemma shown_ok i (d : Sys) : dev_ok i Busy d ->
  exists d1 d', take_pending TheConsoleOutput d = Ok d1 /\ called TheConsoleOutput d1 = Ok d' /\ (Interrupt.rest d').2 = true /\
    world d' = world d /\ dev_ok i Displayed d'.
Proof.
  intros [H1 H2 H3 H4 H5 H6 H7].
  destruct (take_pending_due d TheConsoleOutput (key_due i)) as (d1 & E & Hd & Hr & Hf); [|done |].
  { rewrite H6. cbn. by rewrite Permutation_app_comm. }
  exists d1. eexists. split; [done |]. split; [reflexivity |]. split; [done |].
  unfold world, dev. cbn. rewrite Hr. split; [done |]. split; unfold dev, due; cbn; rewrite ?Hr; try done. by rewrite app_nil_r.
Qed.

(** A poll either finds nothing and is repeated, or ends the wait. *)
Lemma key_ok o (d : Sys) : dev_ok Waiting o d ->
  exists d1 d', take_pending TheConsoleInput d = Ok d1 /\ called TheConsoleInput d1 = Ok d' /\ shown (world d') = shown (world d) /\
    ((Interrupt.rest d').2 = false /\ dev_ok Waiting o d' /\ typed (world d') = typed (world d) \/
     (Interrupt.rest d').2 = true /\ exists i, i <> Waiting /\ i <> Gone /\ dev_ok i o d' /\ coming i (world d') = coming Waiting (world d)).
Proof.
  intros [H1 H2 H3 H4 H5 H6 H7].
  destruct (take_pending_due d TheConsoleInput (display_due o)) as (d1 & E & Hd & Hr & Hf); [done | done |].
  exists d1. cbn [device_CallBack]. unfold ConsoleInput_CallBack, PollFile, world, dev in *. rewrite Hr. cbn [fst].
  rewrite H1, H3. cbn [in_char]. change (EOF =? EOF) with true. cbn [obind assert_].
  destruct (select_ 0 _) as [r w1] eqn:Es. apply select_waits in Es as (Hrv & Et & Eh).
  replace ((r =? 0) || (r =? 1)) with true by (destruct Hrv as [-> | ->]; done). cbn [obind assert_]. rewrite negb_involutive.
  set (d2 := upd_dev (set_host w1) d1).
  assert (Interrupt.rest d2 = (set_host w1 (Interrupt.rest d).1, false)) as Hr2 by (unfold d2; cbn; by rewrite Hr).
  destruct (Z.eqb_spec r 0) as [_|_].
  - destruct (Schedule_due d2 TheConsoleInput ConsoleTime ConsoleReadInt) as (d' & E' & Hd' & Hr' & Hf'); [done | exact Hf |].
    exists d'. split; [done |]. split; [exact E' |]. rewrite Hr', Hr2. split; [exact Eh |]. left. split; [done |]. split; [|exact Et].
    split; unfold dev; rewrite ?Hr', ?Hr2; try done. rewrite Hd'. change (due d2) with (due d1). by rewrite Hd.
  - rewrite Hr2. cbn [fst host set_host readFileNo]. rewrite H3. unfold Stub.ReadPartial. change (u32 1) with 1. destruct (read 0 1 w1) as [[n b] w2] eqn:Er.
    apply read_next in Er as [Esh Er]. rewrite Et in Er. unfold coming, to_come.
    destruct (typed (host (Interrupt.rest d).1)) as [|c l] eqn:El; destruct Er as (-> & -> & Et2); cbn [Stub.buf_fill length Nat.leb obind Z.eqb app drop].
    + exists (on_rest (fun r => (r.1, true)) (upd_dev (set_host w2) d2)).
      unfold upd_dev, on_rest, on_kernel. cbn. rewrite Hr. cbn. split; [done |]. split; [done |]. split; [congruence |]. right. split; [done |].
      exists Ended. split; [done |]. split; [done |]. split; [|done]. split; try done; unfold dev; cbn; try done.
    + cbn. eexists. split; [done |]. split; [reflexivity |]. cbn. split; [congruence |]. right. split; [done |].
      destruct (Z.eqb_spec c EOF) as [->|Hc].
      * exists Ended. split; [done |]. split; [done |]. split; [|done]. split; try done; unfold dev; cbn; rewrite ?Hr; try done.
      * exists (Has c). split; [done |]. split; [done |]. split; [|cbn; by rewrite Et2].
        split; try done; unfold dev; cbn; rewrite ?Hr; try done. by intros ? [= <-].
Qed.

End Device.

(** ** Where the test is *)

Section Echo.
Context {W : Type} `{HW : Host W} `{HD : !HostDevices W} `{HV : !TerminalView W} `{HT : !Terminal W} (m : Machine.Machine).
Notation Sys := (@Interrupt.Sys Device (Devices W * bool)).
Notation D := (Desk W).
Notation P := (@prog D).
Notation K := (@Kern D).

(** The programs of the test from each of its calls on. *)
Definition after_read (ch : Z) : P :=
  if ch =? EOF then go (fun e => Ok (print newline e, CGo (do_ CHalt))) else PutChar ch (do_ (CJump echo_label)).
Definition read_it : P :=
  go (fun e => let! ' (ch, s) := ConsoleInput_GetChar (device e) in Ok (set_device s e, CRelease (in_lock e) (after_read ch))).
Definition wait_key : P := go (fun e => Ok (e, CP (in_waitFor e) read_it)).
Definition release_out : P := go (fun e => Ok (e, CRelease (out_lock e) (do_ (CJump echo_label)))).
Definition show_it (ch : Z) : P :=
  go (fun e => let! s := ConsoleOutput_PutChar ch (device e) in Ok (set_device s e, CP (out_waitFor e) release_out)).

Inductive place :=
| Starting | Top | InAcquire | InAcquired | InHeld | InP | InSleep | InWoken | InPassed
| Got (ch : Z) | OutAcquire (ch : Z) | OutAcquired (ch : Z) | OutHeld (ch : Z)
| OutP | OutSleep | OutWoken | OutPassed | Again | Finished.

Definition stack_at (p : place) : list (@frame D) :=
  match p with
  | Starting => [FProg ConsoleTest]
  | Top => [FProg (echo_loop (do_ CHalt))]
  | InAcquire => [FP (SLock 0) IntOn; FAcquired 0; FProg wait_key]
  | InAcquired => [FAcquired 0; FProg wait_key]
  | InHeld => [FProg wait_key]
  | InP | InSleep | InWoken => [FP (SUser 0) IntOn; FProg read_it]
  | InPassed => [FProg read_it]
  | Got ch => [FProg (after_read ch)]
  | OutAcquire ch => [FP (SLock 1) IntOn; FAcquired 1; FProg (show_it ch)]
  | OutAcquired ch => [FAcquired 1; FProg (show_it ch)]
  | OutHeld ch => [FProg (show_it ch)]
  | OutP | OutSleep | OutWoken => [FP (SUser 1) IntOn; FProg release_out]
  | OutPassed => [FProg release_out]
  | Again => [FProg (do_ (CJump echo_label))]
  | Finished => [FProg (do_ CHalt)]
  end.

Definition level_at (p : place) : IntStatus :=
  match p with
  | InAcquire | InP | InSleep | InWoken | OutAcquire _ | OutP | OutSleep | OutWoken => IntOff
  | _ => IntOn
  end.
Definition mode_at (p : place) : Mode :=
  match p with InSleep | InWoken | OutSleep | OutWoken => Idling false | _ => Executing end.
Definition status_at (p : place) : ThreadStatus :=
  match p with InSleep | OutSleep => BLOCKED | InWoken | OutWoken => READY | _ => RUNNING end.
Definition ready_at (p : place) : list nat := match p with InWoken | OutWoken => [0%nat] | _ => [] end.

(** The locks and their semaphores, and the semaphores that wait. *)
Definition in_free (p : place) : Z :=
  match p with InAcquired | InHeld | InP | InSleep | InWoken | InPassed => 0 | _ => 1 end.
Definition in_holder (p : place) : option nat :=
  match p with InHeld | InP | InSleep | InWoken | InPassed => Some 0%nat | _ => None end.
Definition out_free (p : place) : Z :=
  match p with OutAcquired _ | OutHeld _ | OutP | OutSleep | OutWoken | OutPassed => 0 | _ => 1 end.
Definition out_holder (p : place) : option nat :=
  match p with OutHeld _ | OutP | OutSleep | OutWoken | OutPassed => Some 0%nat | _ => None end.
Definition in_sem (p : place) (i : keyboard) : Semaphore :=
  match p with
  | InPassed => mkSemaphore 0 []
  | _ => mkSemaphore (match i with Has _ | Ended => 1 | _ => 0 end) (match p with InSleep => [0%nat] | _ => [] end)
  end.
Definition out_sem (p : place) (o : display) : Semaphore :=
  mkSemaphore (match o with Displayed => 1 | _ => 0 end) (match p with OutSleep => [0%nat] | _ => [] end).
Definition cout_at (p : place) : list (list Z) :=
  match p with Starting => [] | Finished => [banner; newline] | _ => [banner] end.

Definition conf (p : place) (i : keyboard) (o : display) (d : Sys) : K :=
  mkKern (level_at p) (mode_at p) 0
    {[0%nat := mkThread (chars "main") (status_at p) (replicate (Z.to_nat Machine.NumTotalRegs) 0) None (stack_at p)]}
    (ready_at p) None
    {[SLock 0 := mkSemaphore (in_free p) []; SUser 0 := in_sem p i; SLock 1 := mkSemaphore (out_free p) []; SUser 1 := out_sem p o]}
    {[0%nat := in_holder p; 1%nat := out_holder p]} m (mkDesk d 0 0 1 1 (cout_at p)).

(** What the devices may be doing at each place. *)
Definition has_input (i : keyboard) : Prop := i <> Waiting /\ i <> Gone.
Definition fits (p : place) (i : keyboard) (o : display) : Prop :=
  match p with
  | InSleep => i = Waiting /\ o = Calm
  | InWoken | InPassed => has_input i /\ o = Calm
  | Got ch => (ch = EOF <-> i = Gone) /\ o = Calm
  | OutAcquire ch | OutAcquired ch | OutHeld ch => ch <> EOF /\ i <> Gone /\ o = Calm
  | OutP => i <> Gone /\ o <> Calm
  | OutSleep => i <> Gone /\ o = Busy
  | OutWoken => i <> Gone /\ o = Displayed
  | Finished => i = Gone /\ o = Calm
  | _ => i <> Gone /\ o = Calm
  end.

(** The character in the hands of the test. *)
Definition in_hand (p : place) : list Z :=
  match p with
  | Got ch => if ch =? EOF then [] else [ch]
  | OutAcquire ch | OutAcquired ch | OutHeld ch => [ch]
  | _ => []
  end.

(** The steps to the end of this round, and of all. *)
Definition rank (p : place) (i : keyboard) (o : display) : nat :=
  match p with
  | Starting => 11 | Top => 10 | InAcquire => 9 | InAcquired => 8 | InHeld => 7
  | InP => match i with Waiting => 6 | _ => 3 end
  | InSleep => 5 | InWoken => 4 | InPassed => 2
  | Got ch => if ch =? EOF then 1 else 20
  | OutAcquire _ => 19 | OutAcquired _ => 18 | OutHeld _ => 17
  | OutP => match o with Busy => 16 | _ => 13 end
  | OutSleep => 15 | OutWoken => 14 | OutPassed => 12 | Again => 11
  | Finished => 0
  end.
Definition round : nat := 20.
Definition steps_left (p : place) (i : keyboard) (o : display) (d : Sys) : nat :=
  rank p i o + round * length (coming i (world d)).

(** [text] is displayed, or in the hands of the test, or to come. *)
Inductive at_work (text : list Z) : nat -> K -> Prop :=
| at_work_at p i o d : fits p i o -> dev_ok i o d -> shown (world d) ++ in_hand p ++ coming i (world d) = text ->
    at_work text (steps_left p i o d) (conf p i o d).


(** ** It stays at work *)

Lemma boots w : exists d, boot None None m w = Ok (conf Starting Waiting Calm d) /\ dev_ok Waiting Calm d /\ world d = w.
Proof.
  exists (mkSys (mkInterrupt Interrupt.IntOff [mkPending 1 TheConsoleInput 100 ConsoleReadInt] false false Machine.SystemMode)
    new_Statistics 2 None (mkDevices false false EOF 0 false 1 w, false)).
  split; [reflexivity |]. split; [|done]. split; try done. apply Forall_cons. by split.
Qed.

Lemma exec_go (k : K) f st th : threads k !! currentThread k = Some th -> stack th = FProg (go f) :: st ->
  exec_top k = let! ' (e, c) := f (extra k) in do_call c st (set_extra e k).
Proof.
  intros Ht Hs. unfold exec_top, get_thread. rewrite Ht. cbn [obind]. rewrite Hs. cbn [go].
  destruct (f (extra k)) as [[e c]|t]; [|done]. cbn [obind]. by destruct k.
Qed.

(** What is displayed stays displayed. *)
Definition on_screen (k : K) : list Z := shown (world (device (extra k))).
Definition grows (k k' : K) : Prop := on_screen k `prefix_of` on_screen k'.

Notation progress text n h k := (exists k' n', turn h k = Ok k' /\ at_work text n' k' /\ grows k k' /\ (n' <= n)%nat /\
  (h <> Preempt /\ h <> Key -> (n' < n)%nat)).

(** A step that leaves the device alone. *)
Lemma moves text h p p' i o o' d : turn h (conf p i o d) = Ok (conf p' i o' d) ->
  dev_ok i o' d -> shown (world d) ++ in_hand p ++ coming i (world d) = text -> in_hand p' = in_hand p ->
  fits p' i o' -> (rank p' i o' <= rank p i o)%nat -> (h <> Preempt /\ h <> Key -> rank p' i o' < rank p i o)%nat ->
  progress text (steps_left p i o d) h (conf p i o d).
Proof.
  intros Ht Hd Hx Eh Hf Hr Hs. eexists _, _. split; [exact Ht |]. split; [constructor; [done | done | by rewrite Eh] |].
  split; [by unfold grows, on_screen |]. unfold steps_left. split; [lia |]. intros [H1 H2]. specialize (Hs (conj H1 H2)). lia.
Qed.

(** The test takes the character of the keyboard. *)
Lemma takes text i d : fits InPassed i Calm -> dev_ok i Calm d ->
  shown (world d) ++ in_hand InPassed ++ coming i (world d) = text ->
  progress text (steps_left InPassed i Calm d) Run (conf InPassed i Calm d).
Proof.
  intros [[H1 H2] _] Hd Hx. destruct (getchar_ok i Calm d Hd H1) as (d' & Eg & Ew & Hd').
  assert (turn Run (conf InPassed i Calm d) =
    Ok (conf (Got (in_char i)) (match i with Has _ => Waiting | _ => Gone end) Calm d')) as Et.
  { cbn [turn step]. rewrite (exec_go (conf InPassed i Calm d) _ _ _ eq_refl eq_refl). cbn [extra conf device].
    rewrite Eg. cbn [obind]. destruct i; [done | reflexivity | reflexivity | done]. }
  destruct i as [|c| |]; [done | | | done]; (eexists _, _; split; [exact Et |]; split; [constructor; [|done |] | split; [unfold grows, on_screen; cbn; by rewrite Ew |]]).
  - pose proof (dv_char _ _ _ Hd c eq_refl). cbn. split; [|done]. split; [done | discriminate].
  - rewrite Ew. revert Hx. cbn. by rewrite (proj2 (Z.eqb_neq _ _)) by by eapply (dv_char _ _ _ Hd).
  - unfold steps_left, coming. rewrite Ew. cbn. rewrite (proj2 (Z.eqb_neq _ _)) by by eapply (dv_char _ _ _ Hd). unfold round. lia.
  - done.
  - rewrite Ew. exact Hx.
  - unfold steps_left, coming. rewrite Ew. cbn. lia.
Qed.

(** The test hands the display a character. *)
Lemma shows text i ch d : fits (OutHeld ch) i Calm -> dev_ok i Calm d ->
  shown (world d) ++ in_hand (OutHeld ch) ++ coming i (world d) = text ->
  progress text (steps_left (OutHeld ch) i Calm d) Run (conf (OutHeld ch) i Calm d).
Proof.
  intros (_ & Hi & _) Hd Hx. destruct (putchar_ok i ch d Hd) as (d' & Ep & Hd' & Et & Es).
  assert (coming i (world d') = coming i (world d)) as Ec by (unfold coming, to_come; by rewrite Et).
  exists (conf OutP i Busy d'). eexists. split.
  { cbn [turn step]. rewrite (exec_go (conf (OutHeld ch) i Calm d) _ _ _ eq_refl eq_refl). cbn [extra conf device].
    rewrite Ep. cbn [obind]. reflexivity. }
  split; [constructor; [done | done |] | split; [unfold grows, on_screen; cbn; rewrite Es; by eexists |]].
  - rewrite Es, Ec, <- app_assoc. exact Hx.
  - unfold steps_left. rewrite Ec. cbn. lia.
Qed.

#[local] Ltac fitting := first [done | cbn in *; unfold has_input in *; naive_solver].
#[local] Ltac steps_to q o := left; eapply (moves _ _ _ q _ _ o); [reflexivity | done | done | fitting | fitting | cbn; try case_match; lia | cbn; try case_match; lia].

Lemma run_at text p i o d : fits p i o -> dev_ok i o d -> shown (world d) ++ in_hand p ++ coming i (world d) = text ->
  may Run (conf p i o d) = true ->
  progress text (steps_left p i o d) Run (conf p i o d) \/ p = Finished.
Proof.
  intros Hf Hd Hx Hm. pose proof Hf as Hf'. destruct p as [| | | | | | | | |ch|ch|ch|ch| | | | | |]; cbn in Hf'; try discriminate Hm; try (by right).
  - steps_to Top o.
  - steps_to InAcquire o.
  - steps_to InAcquired o.
  - steps_to InHeld o.
  - steps_to InP o.
  - destruct i as [|c| |]; [steps_to InSleep o | steps_to InPassed o | steps_to InPassed o | by destruct Hf'].
  - destruct Hf' as [_ ->]. left. by apply takes.
  - destruct (Z.eqb_spec ch EOF) as [->|Hn].
    + steps_to Finished o.
    + pose proof (proj2 (Z.eqb_neq _ _) Hn) as En. left. apply (moves _ _ _ (OutAcquire ch) _ _ o); [|done | done | | by destruct Hf' as [[_ Hg] ->]; split_and!; auto | |].
      * unfold conf. cbn [stack_at]. unfold after_read. rewrite En. reflexivity.
      * cbn. by rewrite En.
      * cbn. rewrite En. lia.
      * cbn. rewrite En. lia.
  - steps_to (OutAcquired ch) o.
  - steps_to (OutHeld ch) o.
  - destruct Hf' as (_ & _ & ->). left. by apply shows.
  - destruct o; [by destruct Hf' | steps_to OutSleep Busy |].
    assert (dev_ok i Calm d) by (destruct Hd; by split). steps_to OutPassed Calm.
  - steps_to Again o.
  - steps_to Top o.
Qed.


Lemma preempt_at text p i o d : fits p i o -> dev_ok i o d -> shown (world d) ++ in_hand p ++ coming i (world d) = text ->
  may Preempt (conf p i o d) = true -> progress text (steps_left p i o d) Preempt (conf p i o d).
Proof.
  intros Hf Hd Hx Hm. destruct p; try discriminate Hm.
  all: eapply (moves _ _ _ _ i o o); [reflexivity | done | done | done | done | done | by intros [? _]].
Qed.

Lemma wake_at text p i o d : fits p i o -> dev_ok i o d -> shown (world d) ++ in_hand p ++ coming i (world d) = text ->
  may Wake (conf p i o d) = true -> progress text (steps_left p i o d) Wake (conf p i o d).
Proof.
  intros Hf Hd Hx Hm. destruct p; try discriminate Hm; cbn in Hf.
  - destruct Hf as [[H1 H2] ->]. destruct i as [|c| |]; [done | | | done].
    all: apply (moves _ _ _ InP _ Calm Calm); [reflexivity | done | done | done | done | cbn; lia | cbn; lia].
  - destruct Hf as [H1 ->].
    apply (moves _ _ _ OutP _ Displayed Displayed); [reflexivity | done | done | done | done | cbn; lia | cbn; lia].
Qed.

Lemma scheduled_at x p i o d : dev_ok i o d -> scheduled x (conf p i o d) = bool_decide (x ∈ key_due i ++ display_due o).
Proof.
  intros Hd. unfold scheduled. apply bool_decide_ext. rewrite <- (dv_due _ _ _ Hd), Exists_exists. unfold due. cbn [conf extra device].
  rewrite list_elem_of_fmap. naive_solver.
Qed.

(** A handler's V: the thread that waits becomes ready. *)
Definition key_wakes (p : place) : place := match p with InSleep => InWoken | p => p end.
Definition shown_wakes (p : place) : place := match p with OutSleep => OutWoken | p => p end.

Lemma key_at text p i o d : fits p i o -> dev_ok i o d -> shown (world d) ++ in_hand p ++ coming i (world d) = text ->
  may Key (conf p i o d) = true -> progress text (steps_left p i o d) Key (conf p i o d).
Proof.
  intros Hf Hd Hx Hm. unfold may in Hm. apply andb_true_iff in Hm as [Hi Hs]. rewrite (scheduled_at _ _ _ _ _ Hd) in Hs.
  apply bool_decide_eq_true in Hs. destruct i as [|c| |]; try (destruct o; set_solver).
  destruct (key_ok o d Hd) as (d1 & d' & Et & Ec & Es & [(Efl & Hd' & Ety)|(Efl & i & H1 & H2 & Hd' & Eco)]).
  - exists (conf p Waiting o d'). eexists. split.
    { cbn [turn]. unfold deliver. cbn [conf extra device]. rewrite Et. cbn [obind]. rewrite Ec. cbn [obind]. by rewrite Efl. }
    assert (coming Waiting (world d') = coming Waiting (world d)) as E by (unfold coming, to_come; by rewrite Ety).
    split; [constructor; [done | done |] | split; [unfold grows, on_screen; cbn; by rewrite Es |]].
    + by rewrite Es, E.
    + unfold steps_left. rewrite E. split; [done |]. by intros [_ ?].
  - exists (conf (key_wakes p) i o d'). eexists. split.
    { cbn [turn]. unfold deliver. cbn [conf extra device]. rewrite Et. cbn [obind]. rewrite Ec. cbn [obind]. rewrite Efl.
      destruct p; try discriminate Hi; destruct i; try reflexivity; try done; by destruct Hf as [[? _] _]. }
    split; [constructor; [|done |] | split; [unfold grows, on_screen; cbn; by rewrite Es |]].
    + destruct p; cbn in Hf |- *; unfold has_input; naive_solver.
    + rewrite Es, Eco. by destruct p.
    + unfold steps_left. rewrite Eco. split; [|by intros [_ ?]].
      destruct p; cbn; try case_match; try lia; by destruct i.
Qed.

Lemma shown_at text p i o d : fits p i o -> dev_ok i o d -> shown (world d) ++ in_hand p ++ coming i (world d) = text ->
  may Shown (conf p i o d) = true -> progress text (steps_left p i o d) Shown (conf p i o d).
Proof.
  intros Hf Hd Hx Hm. unfold may in Hm. apply andb_true_iff in Hm as [Hi Hs]. rewrite (scheduled_at _ _ _ _ _ Hd) in Hs.
  apply bool_decide_eq_true in Hs. destruct o; try (destruct i; set_solver).
  assert (p = OutSleep) as -> by (destruct p; cbn in Hf; first [done | discriminate Hi | naive_solver]).
  destruct (shown_ok i d Hd) as (d1 & d' & Et & Ec & Efl & Ew & Hd').
  exists (conf OutWoken i Displayed d'). eexists. split.
  { cbn [turn]. unfold deliver. cbn [conf extra device]. rewrite Et. cbn [obind]. rewrite Ec. cbn [obind]. by rewrite Efl. }
  split; [constructor; [|done |] | split; [unfold grows, on_screen; cbn; by rewrite Ew |]].
  - by destruct Hf.
  - by rewrite Ew.
  - unfold steps_left. rewrite Ew. cbn. lia.
Qed.

(** The machine halts when everything is displayed; deleting the consoles
    then succeeds. *)
Definition halts (text : list Z) (k : K) : Prop :=
  turn Run k = Trap Halted /\ cout (extra k) = [banner; newline] /\
  exists s, (let! s := delete_ConsoleInput (device (extra k)) in delete_ConsoleOutput s) = Ok s /\ shown (world s) = text.

Lemma turn_at_work text n k h : at_work text n k -> may h k = true ->
  progress text n h k \/ h = Run /\ halts text k.
Proof.
  intros [p i o d Hf Hd Hx] Hm. destruct h.
  - destruct (run_at text p i o d Hf Hd Hx Hm) as [H| ->]; [by left | right].
    destruct Hf as [-> ->]. split; [done |]. split; [reflexivity |]. split; [done |]. exists d. rewrite !app_nil_r in Hx.
    split; [|done]. unfold delete_ConsoleInput, delete_ConsoleOutput. cbn [conf extra device obind].
    rewrite (dv_read _ _ _ Hd). cbn [Z.eqb negb obind]. by rewrite (dv_write _ _ _ Hd).
  - left. by apply preempt_at.
  - left. by apply wake_at.
  - left. by apply key_at.
  - left. by apply shown_at.
Qed.

(** There is always something to do besides preempting. *)
Lemma never_stuck text n k : at_work text n k -> exists h, may h k = true /\ h <> Preempt.
Proof.
  intros [p i o d Hf Hd _]. destruct (decide (mode_at p = Executing)) as [Hm|Hm].
  { exists Run. split; [|done]. cbn. unfold idle. cbn [conf mode]. by rewrite Hm. }
  destruct p; try done; cbn in Hf.
  - exists Key. split; [|done]. unfold may. rewrite (scheduled_at _ _ _ _ _ Hd). by destruct Hf as [-> ->].
  - by exists Wake.
  - exists Shown. split; [|done]. unfold may. rewrite (scheduled_at _ _ _ _ _ Hd). destruct Hf as [_ ->].
    destruct i; reflexivity.
  - by exists Wake.
Qed.

(** What happens that is not the keyboard's or the timer's doing. *)
Definition own (h : happening) : bool := negb (bool_decide (h = Preempt) || bool_decide (h = Key)).
Definition own_steps (hs : list happening) : nat := length (filter (fun h => own h = true) hs).

Lemma plays_at_work text hs k k' : plays hs k k' -> forall n, at_work text n k ->
  exists n', at_work text n' k' /\ grows k k' /\ (own_steps hs + n' <= n)%nat.
Proof.
  induction 1 as [k|h hs k k1 k2 Hm Ht _ IH]; intros n Hw; [exists n; split; [done |]; split; [by unfold grows | by cbn] |].
  destruct (turn_at_work text n k h Hw Hm) as [(k1' & n1 & Ht' & Hw1 & Hg1 & Hle & Hlt)|[-> (Ht' & _)]]; [|congruence].
  assert (k1' = k1) as -> by congruence. destruct (IH n1 Hw1) as (n' & Hw' & Hg & Hn). exists n'.
  split; [done |]. split; [unfold grows in *; by etrans |].
  unfold own_steps in *. destruct (decide (own h = true)) as [Ho|Ho].
  - rewrite filter_cons_True by done. cbn [length]. destruct h; try done; specialize (Hlt ltac:(done)); lia.
  - rewrite filter_cons_False by done. lia.
Qed.


(** C27.  The console test echoes what is typed, for every interleaving of
    the main thread, preemptions and the console's own interrupts, and
    every delay of the keyboard: the two consoles are made; no ASSERT
    fails; what is displayed is always a beginning of what was typed before
    the end of the input (or the first character that reads as EOF), each
    character once and in order; something is always left to do; the thread
    and the display do at most 20 steps per character and 11 more; and when
    the machine halts, everything is displayed. *)
Theorem console_test_echoes w :
  let text := up_to_eof (typed w) in
  exists k0, boot None None m w = Ok k0 /\
  forall hs k, plays hs k0 k ->
    (exists echoed later, on_screen k = shown w ++ echoed /\ text = echoed ++ later) /\
    (own_steps hs <= 11 + round * length text)%nat /\
    (exists h, may h k = true /\ h <> Preempt) /\
    forall h, may h k = true -> (exists k', turn h k = Ok k') \/ (h = Run /\ halts (shown w ++ text) k).
Proof.
  intros text. destruct (boots w) as (d & Eb & Hd & Ew). eexists. split; [exact Eb |]. intros hs k Hp.
  assert (at_work (shown w ++ text) (11 + round * length text) (conf Starting Waiting Calm d)) as H0.
  { assert (coming Waiting (world d) = text) as Ec by by rewrite Ew.
    replace (11 + round * length text)%nat with (steps_left Starting Waiting Calm d) by (unfold steps_left; by rewrite Ec).
    refine (at_work_at (shown w ++ text) Starting Waiting Calm d (conj _ eq_refl) Hd _); [discriminate |].
    cbn [in_hand app]. by rewrite Ec, Ew. }
  destruct (plays_at_work _ _ _ _ Hp _ H0) as (n & Hw & [echoed Hg] & Hn).
  change (on_screen (conf Starting Waiting Calm d)) with (shown (world d)) in Hg. rewrite Ew in Hg.
  split; [|split; [lia |]; split; [by eapply never_stuck |]].
  - exists echoed. destruct Hw as [p i o d' Hf Hd' Hx]. exists (in_hand p ++ coming i (world d')).
    split; [done |]. change (shown (world d') = shown w ++ echoed) in Hg. rewrite Hg, <- app_assoc in Hx.
    by apply app_inv_head in Hx.
  - intros h Hm. destruct (turn_at_work _ n k h Hw Hm) as [(k' & _ & Ht & _)|Hh]; [left; by exists k' | by right].
Qed.

End Echo.
End ConsoleTest.

(** ** A terminal that makes the keyboard wait *)

Module Tty.
Import Host Interrupt ConsoleTest.

(** What will be typed, what is displayed, and the polls until the next
    key is there. *)
Record tty := mkTty { to_type : list Z; seen : list Z; patience : nat }.

#[export] Instance tty_host : Host tty := {|
  open _ _ w := (-1, w); close _ w := (-1, w); lseek _ _ _ w := (-1, w); unlink _ w := (-1, w);
  socket w := (-1, w); inet_addr _ := 0; connect _ _ _ w := (-1, w); set_timeout _ _ _ w := w;
  send _ _ w := (-1, w); recv _ _ w := (-1, [], w);
  read fd _ w :=
    match to_type w with
    | [] => (0, [], w)
    | c :: l => (1, [c], mkTty l (seen w) 2)
    end;
  write fd b w := (Z.of_nat (length b), mkTty (to_type w) (seen w ++ b) (patience w))
|}.
#[export] Instance tty_devices : HostDevices tty := {|
  rand w := (0, w);
  select_ _ w := match patience w with O => (1, w) | S n => (0, mkTty (to_type w) (seen w) n) end
|}.
#[export] Instance tty_view : TerminalView tty := {| typed := to_type; shown := seen |}.

#[export] Instance tty_terminal : Terminal tty.
Proof.
  split.
  - intros [l s [|n]] r w'; cbn; intros [= <- <-]; auto.
  - intros [[|c l] s p] n d w'; cbn; intros [= <- <- <-]; auto.
  - intros c [l s p] n w'; cbn; intros [= <- <-]; auto.
Qed.

(** One way to play: the thread when it can, else the display, else the
    keyboard. *)
Fixpoint play (n : nat) (k : @Threads.Kern (Desk tty)) : list happening :=
  match n with
  | O => []
  | S n' =>
      match list_find (fun h => may h k = true) [Run; Wake; Shown; Key] with
      | Some (_, h) => match turn h k with Ok k' => h :: play n' k' | Trap _ => [] end
      | None => []
      end
  end.
Fixpoint played (hs : list happening) (k : @Threads.Kern (Desk tty)) : outcome (@Threads.Kern (Desk tty)) :=
  match hs with
  | [] => Ok k
  | h :: hs => if may h k then let! k := turn h k in played hs k else Trap Undefined
  end.

Lemma played_plays hs k k' : played hs k = Ok k' -> plays hs k k'.
Proof.
  revert k. induction hs as [|h hs IH]; intros k; cbn; [intros [= ->]; constructor |].
  destruct (may h k) eqn:Hm; [|done]. intros (k1 & Ht & H)%obind_Ok. eapply plays_cons; eauto.
Qed.

End Tty.
Import ConsoleTest Tty.

(** "Hi" is typed, with a pause before each key. *)
Definition hi : tty := mkTty (Network.chars "Hi") [] 3.
Lemma hi_halts : match boot None None (Machine.new_Machine false) hi with
  | Ok k0 => match played (play 100 k0) k0 with Ok k => may Run k = true /\ turn Run k = Trap Halted | Trap _ => False end
  | Trap _ => False
  end.
Proof. vm_compute. split; reflexivity. Qed.

Lemma console_test_echoes_witness : exists k0 hs k s,
  boot None None (Machine.new_Machine false) hi = Ok k0 /\ plays hs k0 k /\ (own_steps hs <= 51)%nat /\
  turn Run k = Trap Halted /\
  (let! s := delete_ConsoleInput (device (Threads.extra k)) in delete_ConsoleOutput s) = Ok s /\
  shown (world s) = Network.chars "Hi".
Proof.
  destruct (console_test_echoes (Machine.new_Machine false) hi) as (k0 & Eb & H).
  pose proof hi_halts as R. rewrite Eb in R. exists k0, (play 100 k0).
  destruct (played (play 100 k0) k0) as [k|t] eqn:E; [|by destruct R].
  apply played_plays in E. destruct (H _ _ E) as (_ & Hn & _ & Hh). destruct R as [Hm Ht]. exists k.
  destruct (Hh Run Hm) as [[k' Hk]|(_ & _ & _ & s & Hs & Hx)]; [congruence | exists s].
  split; [exact Eb |]. split; [exact E |]. split; [exact Hn |]. split; [exact Ht |]. split; [exact Hs | exact Hx].
Defined.
