(* ===== verification/CommandLine.v ===== *)
(** * The command line: main of threads/main.cc, Kernel::Kernel, debug.cc

    Both [main] and the constructor of [Kernel] read all of [argv], each
    looking for its own options. [atoi] and [atof] of the C library are
    written out: conversion by digits, and to the nearest [double]. *)

From Stdlib Require Import SpecFloat.
From stdpp Require Import pretty.
From S2P Require Import Prelude FileTable Network.

Module CommandLine.
Import Network.

(** ** libc: numbers in strings (C locale) *)

Definition isspace (c : Z) : bool := (c =? 32) || ((9 <=? c) && (c <=? 13)).
Fixpoint skip_space (s : list Z) : list Z :=
  match s with
  | c :: s' => if isspace c then skip_space s' else s
  | [] => []
  end.

(** An optional sign: is it a minus? *)
Definition sign (s : list Z) : bool * list Z :=
  match s with
  | c :: s' => if c =? 45 then (true, s') else if c =? 43 then (false, s') else (false, s)
  | [] => (false, [])
  end.

(** The value of a digit up to base 16. *)
Definition digit (base c : Z) : option Z :=
  let c := FileTable.tolower c in
  let d := if (48 <=? c) && (c <=? 57) then c - 48 else if (97 <=? c) && (c <=? 102) then c - 87 else base in
  if d <? base then Some d else None.

(** The digits at the start: the value after [acc], their number, the rest. *)
Fixpoint digits (base acc n : Z) (s : list Z) : Z * Z * list Z :=
  match s with
  | c :: s' =>
      match digit base c with
      | Some d => digits base (base * acc + d) (n + 1) s'
      | None => (acc, n, s)
      end
  | [] => (acc, n, [])
  end.

(** [atoi(s)] is [strtol(s, NULL, 10)]; a [long] has 32 bits. *)
Definition atoi (s : list Z) : Z :=
  let '(minus, s) := sign (skip_space s) in
  let '(v, _, _) := digits 10 0 0 s in
  Z.max (- 2 ^ 31) (Z.min (2 ^ 31 - 1) (if minus then - v else v)).

(** The [double] nearest to [m * base ^ e]. *)
Definition scaled (minus : bool) (m base e : Z) : spec_float :=
  match m with
  | Zpos p =>
      if 0 <=? e then binary_normalize 53 1024 ((if minus then Z.opp else id) (m * base ^ e)) 0 minus
      else SFdiv 53 1024 (S754_finite minus p 0) (S754_finite false (Z.to_pos (base ^ (- e))) 0)
  | _ => S754_zero minus
  end.

Definition starts_with (pre s : list Z) : bool := bool_decide (map FileTable.tolower (take (length pre) s) = pre).

(** An exponent: [mark], a sign, at least one digit. *)
Definition exponent (mark : Z) (s : list Z) : Z :=
  match s with
  | c :: s' =>
      if FileTable.tolower c =? mark then
        let '(minus, s') := sign s' in
        let '(v, n, _) := digits 10 0 0 s' in
        if n =? 0 then 0 else if minus then - v else v
      else 0
  | [] => 0
  end.

(** Digits with a point: their value without it, their number, how many
    are behind it, the rest. *)
Definition mantissa (base : Z) (s : list Z) : Z * Z * Z * list Z :=
  let '(v, n, s) := digits base 0 0 s in
  match s with
  | c :: s' =>
      if c =? 46 then let '(v, k, s') := digits base v 0 s' in (v, n + k, k, s') else (v, n, 0, s)
  | [] => (v, n, 0, [])
  end.

(** [atof(s)] is [strtod(s, NULL)]. *)
Definition atof (s : list Z) : spec_float :=
  let '(minus, s) := sign (skip_space s) in
  if starts_with (chars "inf") s then S754_infinity minus
  else if starts_with (chars "nan") s then S754_nan
  else
    let '(v, n, k, r) := mantissa 16 (drop 2 s) in
    if starts_with (chars "0x") s && (0 <? n) then scaled minus v 2 (exponent 112 r - 4 * k)
    else
      let '(v, _, k, r) := mantissa 10 s in
      scaled minus v 10 (exponent 101 r - k).

(** ** debug.cc: the flags of -d *)

(** [strchr(s, c) != 0]; the search finds the NUL too. *)
Definition strchr (s : list Z) (c : Z) : bool := bool_decide (c ∈ s) || (c =? 0).

Definition Debug : Type := option (list Z).
Definition new_Debug (flagList : list Z) : Debug := Some flagList.
Definition IsEnabled (d : Debug) (flag : Z) : bool :=
  match d with
  | Some enableFlags => strchr enableFlags flag || strchr enableFlags 43
  | None => false
  end.

(** ** The variables of [main] and the members of [Kernel] *)

Record MainArgs := mkMainArgs {
  debugArg : list Z;
  userProgName : option (list Z);
  threadTestFlag : bool;
  consoleTestFlag : bool;
  networkTestFlag : bool;
  copyUnixFileName : option (list Z);
  copyNachosFileName : option (list Z);
  printFileName : option (list Z);
  removeFileName : option (list Z);
  dirListFlag : bool;
  dumpFlag : bool;
  cout : list (list Z)
}.

Definition set_debugArg (v : list Z) (o : MainArgs) : MainArgs :=
  mkMainArgs v (userProgName o) (threadTestFlag o) (consoleTestFlag o) (networkTestFlag o) (copyUnixFileName o) (copyNachosFileName o) (printFileName o) (removeFileName o) (dirListFlag o) (dumpFlag o) (cout o).
Definition set_userProg (v : list Z) (o : MainArgs) : MainArgs :=
  mkMainArgs (debugArg o) (Some v) (threadTestFlag o) (consoleTestFlag o) (networkTestFlag o) (copyUnixFileName o) (copyNachosFileName o) (printFileName o) (removeFileName o) (dirListFlag o) (dumpFlag o) (cout o).
Definition set_threadTest (o : MainArgs) : MainArgs :=
  mkMainArgs (debugArg o) (userProgName o) true (consoleTestFlag o) (networkTestFlag o) (copyUnixFileName o) (copyNachosFileName o) (printFileName o) (removeFileName o) (dirListFlag o) (dumpFlag o) (cout o).
Definition set_consoleTest (o : MainArgs) : MainArgs :=
  mkMainArgs (debugArg o) (userProgName o) (threadTestFlag o) true (networkTestFlag o) (copyUnixFileName o) (copyNachosFileName o) (printFileName o) (removeFileName o) (dirListFlag o) (dumpFlag o) (cout o).
Definition set_networkTest (o : MainArgs) : MainArgs :=
  mkMainArgs (debugArg o) (userProgName o) (threadTestFlag o) (consoleTestFlag o) true (copyUnixFileName o) (copyNachosFileName o) (printFileName o) (removeFileName o) (dirListFlag o) (dumpFlag o) (cout o).
Definition set_copy (from to : list Z) (o : MainArgs) : MainArgs :=
  mkMainArgs (debugArg o) (userProgName o) (threadTestFlag o) (consoleTestFlag o) (networkTestFlag o) (Some from) (Some to) (printFileName o) (removeFileName o) (dirListFlag o) (dumpFlag o) (cout o).
Definition set_print (v : list Z) (o : MainArgs) : MainArgs :=
  mkMainArgs (debugArg o) (userProgName o) (threadTestFlag o) (consoleTestFlag o) (networkTestFlag o) (copyUnixFileName o) (copyNachosFileName o) (Some v) (removeFileName o) (dirListFlag o) (dumpFlag o) (cout o).
Definition set_remove (v : list Z) (o : MainArgs) : MainArgs :=
  mkMainArgs (debugArg o) (userProgName o) (threadTestFlag o) (consoleTestFlag o) (networkTestFlag o) (copyUnixFileName o) (copyNachosFileName o) (printFileName o) (Some v) (dirListFlag o) (dumpFlag o) (cout o).
Definition set_dirList (o : MainArgs) : MainArgs :=
  mkMainArgs (debugArg o) (userProgName o) (threadTestFlag o) (consoleTestFlag o) (networkTestFlag o) (copyUnixFileName o) (copyNachosFileName o) (printFileName o) (removeFileName o) true (dumpFlag o) (cout o).
Definition set_dump (o : MainArgs) : MainArgs :=
  mkMainArgs (debugArg o) (userProgName o) (threadTestFlag o) (consoleTestFlag o) (networkTestFlag o) (copyUnixFileName o) (copyNachosFileName o) (printFileName o) (removeFileName o) (dirListFlag o) true (cout o).
Definition add_cout (l : list (list Z)) (o : MainArgs) : MainArgs :=
  mkMainArgs (debugArg o) (userProgName o) (threadTestFlag o) (consoleTestFlag o) (networkTestFlag o) (copyUnixFileName o) (copyNachosFileName o) (printFileName o) (removeFileName o) (dirListFlag o) (dumpFlag o) (cout o ++ l).

Record KernelArgs := mkKernelArgs {
  randomSlice : bool;
  seed : option Z;
  debugUserProg : bool;
  consoleIn : option (list Z);
  consoleOut : option (list Z);
  formatFlag : bool;
  reliability : spec_float;
  hostName : Z;
  kcout : list (list Z)
}.

Definition set_random (n : Z) (o : KernelArgs) : KernelArgs :=
  mkKernelArgs true (Some n) (debugUserProg o) (consoleIn o) (consoleOut o) (formatFlag o) (reliability o) (hostName o) (kcout o).
Definition set_step (o : KernelArgs) : KernelArgs :=
  mkKernelArgs (randomSlice o) (seed o) true (consoleIn o) (consoleOut o) (formatFlag o) (reliability o) (hostName o) (kcout o).
Definition set_consoleIn (v : list Z) (o : KernelArgs) : KernelArgs :=
  mkKernelArgs (randomSlice o) (seed o) (debugUserProg o) (Some v) (consoleOut o) (formatFlag o) (reliability o) (hostName o) (kcout o).
Definition set_consoleOut (v : list Z) (o : KernelArgs) : KernelArgs :=
  mkKernelArgs (randomSlice o) (seed o) (debugUserProg o) (consoleIn o) (Some v) (formatFlag o) (reliability o) (hostName o) (kcout o).
Definition set_format (o : KernelArgs) : KernelArgs :=
  mkKernelArgs (randomSlice o) (seed o) (debugUserProg o) (consoleIn o) (consoleOut o) true (reliability o) (hostName o) (kcout o).
Definition set_reliability (r : spec_float) (o : KernelArgs) : KernelArgs :=
  mkKernelArgs (randomSlice o) (seed o) (debugUserProg o) (consoleIn o) (consoleOut o) (formatFlag o) r (hostName o) (kcout o).
Definition set_hostName (n : Z) (o : KernelArgs) : KernelArgs :=
  mkKernelArgs (randomSlice o) (seed o) (debugUserProg o) (consoleIn o) (consoleOut o) (formatFlag o) (reliability o) n (kcout o).
Definition add_kcout (l : list (list Z)) (o : KernelArgs) : KernelArgs :=
  mkKernelArgs (randomSlice o) (seed o) (debugUserProg o) (consoleIn o) (consoleOut o) (formatFlag o) (reliability o) (hostName o) (kcout o ++ l).

(** The initial values. *)
Definition no_main_args : MainArgs :=
  mkMainArgs [] None false false false None None None None false false [].
Definition no_kernel_args : KernelArgs := mkKernelArgs false None false None None false (double 1) 0 [].

(** [strcmp(a, s) == 0]. *)
Definition streq (a : list Z) (s : string) : bool := bool_decide (a = chars s).

Definition copyright : list Z :=
  chars "Copyright (c) 1992-1993 The Regents of the University of California.  All rights reserved.".

Section Parsers.
(** Is FILESYS_STUB defined? *)
Context (stub : bool).

Definition main_usage : list (list Z) :=
  [chars "Partial usage: nachos [-z -d debugFlags]"; chars "Partial usage: nachos [-x programName]";
   chars "Partial usage: nachos [-K] [-C] [-N]"] ++
  (if stub then [] else
   [chars "Partial usage: nachos [-cp UnixFile NachosFile]"; chars "Partial usage: nachos [-p fileName] [-r fileName]";
    chars "Partial usage: nachos [-l] [-D]"]).

(** The loop over the arguments from [argv[i]] on. *)
Fixpoint main_loop (args : list (list Z)) (o : MainArgs) : outcome MainArgs :=
  match args with
  | [] => Ok o
  | a :: rest =>
      let with_next (f : list Z -> MainArgs -> MainArgs) :=
        match rest with
        | v :: rest => main_loop rest (f v o)
        | [] => Trap AssertFail
        end in
      if streq a "-d" then with_next set_debugArg
      else if streq a "-z" then main_loop rest (add_cout [copyright] o)
      else if streq a "-x" then with_next set_userProg
      else if streq a "-K" then main_loop rest (set_threadTest o)
      else if streq a "-C" then main_loop rest (set_consoleTest o)
      else if streq a "-N" then main_loop rest (set_networkTest o)
      else if negb stub && streq a "-cp" then
        match rest with
        | from :: to :: rest => main_loop rest (set_copy from to o)
        | _ => Trap AssertFail
        end
      else if negb stub && streq a "-p" then with_next set_print
      else if negb stub && streq a "-r" then with_next set_remove
      else if negb stub && streq a "-l" then main_loop rest (set_dirList o)
      else if negb stub && streq a "-D" then main_loop rest (set_dump o)
      else if streq a "-u" then main_loop rest (add_cout main_usage o)
      else main_loop rest o
  end.

(** [main] up to [new Debug]; [argv[0]] is the program's name. *)
Definition main_args (argv : list (list Z)) : outcome MainArgs := main_loop (tail argv) no_main_args.

Definition kernel_usage : list (list Z) :=
  [chars "Partial usage: nachos [-rs randomSeed]"; chars "Partial usage: nachos [-s]";
   chars "Partial usage: nachos [-ci consoleIn] [-co consoleOut]"] ++
  (if stub then [] else [chars "Partial usage: nachos [-nf]"]) ++ [chars "Partial usage: nachos [-n #] [-m #]"].

Fixpoint kernel_loop (args : list (list Z)) (o : KernelArgs) : outcome KernelArgs :=
  match args with
  | [] => Ok o
  | a :: rest =>
      let with_next (f : list Z -> KernelArgs -> KernelArgs) :=
        match rest with
        | v :: rest => kernel_loop rest (f v o)
        | [] => Trap AssertFail
        end in
      if streq a "-rs" then with_next (fun v => set_random (atoi v))
      else if streq a "-s" then kernel_loop rest (set_step o)
      else if streq a "-ci" then with_next set_consoleIn
      else if streq a "-co" then with_next set_consoleOut
      else if negb stub && streq a "-f" then kernel_loop rest (set_format o)
      else if streq a "-n" then with_next (fun v => set_reliability (atof v))
      else if streq a "-m" then with_next (fun v => set_hostName (atoi v))
      else if streq a "-u" then kernel_loop rest (add_kcout kernel_usage o)
      else kernel_loop rest o
  end.

(** [Kernel::Kernel(argc, argv)]. *)
Definition new_Kernel (argv : list (list Z)) : outcome KernelArgs := kernel_loop (tail argv) no_kernel_args.

End Parsers.

(** The beginning of [main]: the variables, the debugger, the kernel. *)
Definition read_command_line (stub : bool) (argv : list (list Z)) : outcome (MainArgs * Debug * KernelArgs) :=
  let! o := main_args stub argv in
  let debug := new_Debug (debugArg o) in
  let! k := new_Kernel stub argv in
  Ok (o, debug, k).

(** ** What a command line asks for *)

(** The documented options (main.cc, from line 5). *)
Inductive opt :=
| ODebug (flags : list Z) | OCopyright | OExec (program : list Z) | OThreads | OConsole | ONetwork
| OCopy (from to : list Z) | OPrint (file : list Z) | ORemove (file : list Z) | OList | ODump | OUsage
| ORandom (seed : Z) | OStep | OConsoleIn (file : list Z) | OConsoleOut (file : list Z) | OFormat
| OReliability (number : list Z) | OMachine (id : Z).

(** A number as [printf("%d")] writes it. *)
Definition decimal (n : Z) : list Z := chars (pretty n).

Definition words (o : opt) : list (list Z) :=
  match o with
  | ODebug f => [chars "-d"; f]
  | OCopyright => [chars "-z"]
  | OExec p => [chars "-x"; p]
  | OThreads => [chars "-K"]
  | OConsole => [chars "-C"]
  | ONetwork => [chars "-N"]
  | OCopy f t => [chars "-cp"; f; t]
  | OPrint f => [chars "-p"; f]
  | ORemove f => [chars "-r"; f]
  | OList => [chars "-l"]
  | ODump => [chars "-D"]
  | OUsage => [chars "-u"]
  | ORandom n => [chars "-rs"; decimal n]
  | OStep => [chars "-s"]
  | OConsoleIn f => [chars "-ci"; f]
  | OConsoleOut f => [chars "-co"; f]
  | OFormat => [chars "-f"]
  | OReliability r => [chars "-n"; r]
  | OMachine n => [chars "-m"; decimal n]
  end.

(** What an option means to [main] and to the kernel; the options of the
    file system mean nothing with the stub. *)
Section Meaning.
Context (stub : bool).

Definition for_main (o : opt) : MainArgs -> MainArgs :=
  match o with
  | ODebug f => set_debugArg f
  | OCopyright => add_cout [copyright]
  | OExec p => set_userProg p
  | OThreads => set_threadTest
  | OConsole => set_consoleTest
  | ONetwork => set_networkTest
  | OCopy f t => if stub then id else set_copy f t
  | OPrint f => if stub then id else set_print f
  | ORemove f => if stub then id else set_remove f
  | OList => if stub then id else set_dirList
  | ODump => if stub then id else set_dump
  | OUsage => add_cout (main_usage stub)
  | _ => id
  end.
Definition for_kernel (o : opt) : KernelArgs -> KernelArgs :=
  match o with
  | ORandom n => set_random n
  | OStep => set_step
  | OConsoleIn f => set_consoleIn f
  | OConsoleOut f => set_consoleOut f
  | OFormat => if stub then id else set_format
  | OReliability r => set_reliability (atof r)
  | OMachine n => set_hostName n
  | OUsage => add_kcout (kernel_usage stub)
  | _ => id
  end.

(** The options that take an argument. *)
Definition needs_argument : list (list Z) :=
  chars <$> ["-d"; "-x"; "-rs"; "-ci"; "-co"; "-n"; "-m"] ++ (if stub then [] else ["-cp"; "-p"; "-r"]).

End Meaning.

Definition option_words : list (list Z) :=
  chars <$> ["-d"; "-z"; "-x"; "-K"; "-C"; "-N"; "-cp"; "-p"; "-r"; "-l"; "-D"; "-u";
             "-rs"; "-s"; "-ci"; "-co"; "-f"; "-n"; "-m"].

(** An argument that could be taken for an option is ambiguous: the parser
    that does not know the option before it takes it for one. *)
Definition unambiguous (o : opt) : Prop :=
  Forall (fun v => v ∉ option_words) (tail (words o)) /\
  match o with ORandom n | OMachine n => is_s32 n | _ => True end.

(** *** [atoi] reads what [printf] writes *)

Lemma chars_cons c s : chars (String c s) = Z.of_N (Ascii.N_of_ascii c) :: chars s.
Proof. done. Qed.

Lemma digit_char x : (x < 10)%N -> exists c, Z.of_N (Ascii.N_of_ascii (pretty_N_char x)) = c /\ 48 <= c <= 57 /\ digit 10 c = Some (Z.of_N x).
Proof.
  intros Hx. eexists. split; [reflexivity |].
  assert (x = 0 \/ x = 1 \/ x = 2 \/ x = 3 \/ x = 4 \/ x = 5 \/ x = 6 \/ x = 7 \/ x = 8 \/ x = 9)%N as H by lia.
  repeat (destruct H as [->|H]; [by vm_compute |]). subst x. by vm_compute.
Qed.

Lemma digits_pretty x s n : exists k, digits 10 0 n (chars (pretty_N_go x s)) = digits 10 (Z.of_N x) k (chars s).
Proof.
  revert s n. induction x as [x IH] using (well_founded_induction N.lt_wf_0). intros s n.
  destruct (decide (0 < x)%N) as [Hx|Hx].
  - rewrite pretty_N_go_step by done.
    destruct (IH (x `div` 10)%N ltac:(apply N.div_lt; lia) (String (pretty_N_char (x `mod` 10)) s) n) as [k ->].
    destruct (digit_char (x `mod` 10)) as (c & Ec & _ & Ed); [by apply N.mod_lt |].
    rewrite chars_cons, Ec. cbn [digits]. rewrite Ed. exists (k + 1). f_equal.
    pose proof (N.div_mod x 10 ltac:(done)). lia.
  - assert (x = 0%N) as -> by lia. rewrite pretty_N_go_0. by exists n.
Qed.

(** The first character of a positive number is a digit. *)
Lemma head_pretty x s : (0 < x)%N -> exists c r, chars (pretty_N_go x s) = c :: r /\ 48 <= c <= 57.
Proof.
  revert s. induction x as [x IH] using (well_founded_induction N.lt_wf_0). intros s Hx.
  rewrite pretty_N_go_step by done. destruct (N.eq_0_gt_0_cases (x `div` 10)) as [->|Hd].
  2:{ apply IH; [by apply N.div_lt | done]. }
  rewrite pretty_N_go_0, chars_cons.
  destruct (digit_char (x `mod` 10)) as (c & -> & Hc & _); [by apply N.mod_lt |]. by eexists _, _.
Qed.

Lemma isspace_digit c : 48 <= c <= 57 -> isspace c = false /\ (c =? 45) = false /\ (c =? 43) = false.
Proof. intros Hc. unfold isspace. lia. Qed.

Lemma atoi_decimal n : is_s32 n -> atoi (decimal n) = n.
Proof.
  intros Hn. unfold is_s32 in Hn. destruct n as [|p|p]; [by vm_compute | |]; unfold atoi, decimal.
  - change (pretty (Z.pos p)) with (pretty (N.pos p)). unfold pretty, pretty_N. rewrite decide_False by done.
    destruct (head_pretty (N.pos p) "" ltac:(lia)) as (c & r & E & Hc). destruct (isspace_digit c Hc) as (Hs & H1 & H2).
    destruct (digits_pretty (N.pos p) "" 0) as [k Ek]. rewrite E in Ek |- *. cbn [skip_space]. rewrite Hs. cbn [sign]. rewrite H1, H2, Ek.
    cbn [chars String.list_ascii_of_string fmap list_fmap digits]. lia.
  - assert (chars (pretty (Z.neg p)) = 45 :: chars (pretty_N_go (N.pos p) "")) as ->.
    { change (chars (pretty (Z.neg p))) with (45 :: chars (pretty (N.pos p))). unfold pretty, pretty_N. by rewrite decide_False. }
    destruct (digits_pretty (N.pos p) "" 0) as [k Ek]. cbn [skip_space isspace sign]. change (45 =? 45) with true. cbn match.
    replace (isspace 45) with false by done. cbn [sign]. change (45 =? 45) with true. cbn match. rewrite Ek.
    cbn [chars String.list_ascii_of_string fmap list_fmap digits]. lia.
Qed.

(** *** The parsers, option by option *)

Lemma streq_other v s : v ∉ option_words -> chars s ∈ option_words -> streq v s = false.
Proof. intros Hv Hs. apply bool_decide_eq_false. by intros ->. Qed.

#[local] Ltac no_option := rewrite !streq_other by (done || (apply (bool_decide_unpack _); vm_compute; exact I)).

Lemma main_loop_other stub v rest s : v ∉ option_words -> main_loop stub (v :: rest) s = main_loop stub rest s.
Proof. intros Hv. cbn [main_loop]. no_option. by rewrite !andb_false_r. Qed.

Lemma kernel_loop_other stub v rest s : v ∉ option_words -> kernel_loop stub (v :: rest) s = kernel_loop stub rest s.
Proof. intros Hv. cbn [kernel_loop]. no_option. by rewrite !andb_false_r. Qed.

(** An option is understood by the parser it is for; the other one passes
    over it and its arguments. *)
Lemma main_loop_words stub o rest s : unambiguous o ->
  main_loop stub (words o ++ rest) s = main_loop stub rest (for_main stub o s).
Proof.
  intros [Hv _]. destruct o as [| | | | | |f t| | | | | |n| | | | | |n], stub; try reflexivity; cbn [words tail] in Hv; rewrite ?Forall_cons in Hv.
  { destruct Hv as (Hf & Ht & _). transitivity (main_loop true (f :: t :: rest) s); [reflexivity |].
    by rewrite !main_loop_other. }
  all: destruct Hv as [Hv _]; etransitivity; [|exact (main_loop_other _ _ rest s Hv)]; reflexivity.
Qed.

Lemma kernel_loop_words stub o rest s : unambiguous o ->
  kernel_loop stub (words o ++ rest) s = kernel_loop stub rest (for_kernel stub o s).
Proof.
  intros [Hv Hn]. destruct o as [| | | | | |f t| | | | | |n| | | | | |n]; cbn [words tail] in Hv; rewrite ?Forall_cons in Hv;
    try (destruct stub; reflexivity).
  3:{ destruct Hv as (Hf & Ht & _). transitivity (kernel_loop stub (f :: t :: rest) s); [by destruct stub |].
      by rewrite !kernel_loop_other. }
  5:{ transitivity (kernel_loop stub rest (set_random (atoi (decimal n)) s)); [by destruct stub |]. by rewrite atoi_decimal. }
  5:{ transitivity (kernel_loop stub rest (set_hostName (atoi (decimal n)) s)); [by destruct stub |]. by rewrite atoi_decimal. }
  all: destruct Hv as [Hv _]; etransitivity; [|exact (kernel_loop_other _ _ rest s Hv)]; by destruct stub.
Qed.

Lemma main_loop_all stub opts rest s : Forall unambiguous opts ->
  main_loop stub (concat (words <$> opts) ++ rest) s = main_loop stub rest (foldl (fun s o => for_main stub o s) s opts).
Proof.
  intros H. revert s. induction H as [|o opts Ho _ IH]; intros s; [done |].
  cbn [fmap list_fmap concat]. rewrite <- app_assoc, main_loop_words by done. apply IH.
Qed.

Lemma kernel_loop_all stub opts rest s : Forall unambiguous opts ->
  kernel_loop stub (concat (words <$> opts) ++ rest) s = kernel_loop stub rest (foldl (fun s o => for_kernel stub o s) s opts).
Proof.
  intros H. revert s. induction H as [|o opts Ho _ IH]; intros s; [done |].
  cbn [fmap list_fmap concat]. rewrite <- app_assoc, kernel_loop_words by done. apply IH.
Qed.

(** An option that ends the command line without its argument. *)
Lemma missing_argument stub w s s' : w ∈ needs_argument stub ->
  main_loop stub [w] s = Trap AssertFail \/
  (exists t, main_loop stub [w] s = Ok t) /\ kernel_loop stub [w] s' = Trap AssertFail.
Proof.
  intros Hw. apply list_elem_of_fmap in Hw as (x & -> & Hx).
  destruct stub; repeat (apply elem_of_cons in Hx as [->|Hx]); try (by apply elem_of_nil in Hx);
    first [by left | right; split; [by eexists | done]].
Qed.

(** C15.  The command line is understood as documented: whatever options
    are given, in any order and as often as one likes, the program sees
    each with its arguments, the last one of a kind wins, and numbers come
    out as they were written. The arguments of options must not look like
    options themselves, since each parser passes over the options of the
    other word by word. An option at the end whose argument is missing
    stops the program with a failed ASSERT. *)
Theorem command_line_understood stub program opts :
  Forall unambiguous opts ->
  let argv := program :: concat (words <$> opts) in
  (exists o k, read_command_line stub argv = Ok (o, Some (debugArg o), k) /\
     o = foldl (fun s x => for_main stub x s) no_main_args opts /\
     k = foldl (fun s x => for_kernel stub x s) no_kernel_args opts) /\
  forall w, w ∈ needs_argument stub -> read_command_line stub (argv ++ [w]) = Trap AssertFail.
Proof.
  intros Ho argv. unfold read_command_line, main_args, new_Kernel, argv. cbn [tail app]. split.
  - rewrite <- (app_nil_r (concat _)), main_loop_all, kernel_loop_all by done. by eexists _, _.
  - intros w Hw. rewrite main_loop_all, kernel_loop_all by done.
    destruct (missing_argument stub w (foldl (fun s x => for_main stub x s) no_main_args opts)
      (foldl (fun s x => for_kernel stub x s) no_kernel_args opts) Hw) as [->|[[t ->] ->]]; done.
Qed.

(** Machine 1 of the network test, with one unreliable line. *)
Lemma command_line_understood_witness :
  exists o k, read_command_line true [chars "nachos"; chars "-m"; chars "1"; chars "-n"; chars "0.5"; chars "-N"] = Ok (o, Some [], k) /\
    networkTestFlag o = true /\ hostName k = 1 /\ reliability k = S754_finite false 4503599627370496 (-53).
Proof.
  destruct (command_line_understood true (chars "nachos") [OMachine 1; OReliability (chars "0.5"); ONetwork]) as [(o & k & E & -> & ->) _].
  - repeat constructor; try (apply (bool_decide_unpack _); vm_compute; exact I); cbn; unfold is_s32; lia.
  - eexists _, _. split; [exact E |]. split; [reflexivity |]. split; [reflexivity |]. vm_compute. reflexivity.
Defined.

End CommandLine.
