(* ===== verification/SelfTests.v ===== *)
(** * Self tests: libtest.cc, the tests of thread.cc, synch.cc, synchlist.cc

    [Kernel::ThreadSelfTest]: [LibSelfTest] on the models of bitmaps, lists
    and hash tables, then the thread, semaphore and list tests as programs
    over the thread model. *)

From S2P Require Import Prelude Bitmap LinkedList HashTable Machine AddrSpace Threads ThreadsProofs Synch CommandLine.

Module SelfTests.
Import Machine AddrSpace Threads ThreadsProofs Synch.

(** ** Bitmaps, lists, hash tables *)

Definition HashInt (key : Z) : Z := u32 key.
Definition HashKey (str : list Z) : Z := CommandLine.atoi str.

(** "0" to "14" *)
Definition hashTestVector : list (list Z) :=
  [[48]; [49]; [50]; [51]; [52]; [53]; [54]; [55]; [56]; [57]; [49; 48]; [49; 49]; [49; 50]; [49; 51]; [49; 52]].

(** [LibSelfTest], with the size of the bitmap and the test vectors as
    arguments. *)
Definition self_tests (size : Z) (listVector : list Z) (hashVector : list (list Z)) : outcome unit :=
  let! map := Bitmap.new_Bitmap size in
  let! hashTable := HashTable.new_HashTable in
  let! _ := Bitmap.SelfTest map in
  let! _ := LinkedList.SelfTest LinkedList.Append LinkedList.SanityCheck LinkedList.new_List listVector in
  let! _ := LinkedList.Sorted_SelfTest LibTest.IntCompare LinkedList.new_List listVector in
  let! hashTable := HashTable.SelfTest HashKey HashInt hashTable hashVector in
  assert! HashTable.IsEmpty hashTable;
  Ok tt.

Definition LibSelfTest : outcome unit := self_tests 200 LibTest.listTestVector hashTestVector.

(** [LibSelfTest] passes every ASSERT of the four classes' self tests, the
    one of [~HashTable] included: with its own vectors, and with any size
    of the bitmap from a word on, any distinct items and any strings of
    distinct numbers, however often the table grows. *)
Theorem self_tests_pass :
  LibSelfTest = Ok tt /\
  forall size lv hv, Bitmap.BitsInWord <= size -> NoDup lv -> NoDup (HashKey <$> hv) -> Z.of_nat (length hv) <= 2 ^ 30 ->
    self_tests size lv hv = Ok tt.
Proof.
  assert (forall size lv hv, Bitmap.BitsInWord <= size -> NoDup lv -> NoDup (HashKey <$> hv) ->
    Z.of_nat (length hv) <= 2 ^ 30 -> self_tests size lv hv = Ok tt) as Hall.
  { intros size lv hv Hs Hl Hh Hn. unfold self_tests.
    destruct (Bitmap.bitmap_SelfTest_passes size Hs) as (b & b' & -> & Hb & _).
    destruct (HashTable.hash_SelfTest_passes HashKey HashInt hv Hh Hn) as (h & h' & Hnew & Ht & Hr).
    destruct (LinkedList.list_SelfTests_pass LibTest.IntCompare lv LibTest.IntCompare_order Hl)
      as ((l1 & E1 & _) & (l2 & E2 & _)).
    rewrite Hnew. cbn [obind]. rewrite Hb. cbn [obind]. rewrite E1. cbn [obind]. rewrite E2. cbn [obind].
    rewrite Ht. cbn [obind]. unfold HashTable.IsEmpty. destruct Hr as (_ & -> & Hm). destruct (concat _) as [|x xs]; [done |].
    assert ((∅ : gmap Z (list Z)) !! HashKey x = Some x) as Hx; [|done].
    apply Hm. split; [by left | done]. }
  split; [|exact Hall]. apply Hall; [done | exact LibTest.listTestVector_NoDup | | done].
  apply (bool_decide_unpack _). vm_compute. exact I.
Qed.

(** ** Threads, semaphores and lists *)

(** What they print and the two synchronised lists. *)
Record TestState := mkTest {
  out : list (Z * Z);
  this_list : list Z; this_lock : nat; this_wait : list nat;
  ping_list : list Z; ping_lock : nat; ping_wait : list nat
}.

Definition no_tests : TestState := mkTest [] [] 0 [] [] 0 [].
Notation P := (@prog TestState).

Definition print (x : Z * Z) (e : TestState) : TestState :=
  mkTest (out e ++ [x]) (this_list e) (this_lock e) (this_wait e) (ping_list e) (ping_lock e) (ping_wait e).

(** [SimpleThread(which)] from [num] = 5 - n on. *)
Fixpoint SimpleThread_loop (n : nat) (which : Z) (k : P) : P :=
  match n with
  | O => k
  | Datatypes.S n' =>
      go (fun e => Ok (print (which, 5 - Z.of_nat n) e, CYield (SimpleThread_loop n' which k)))
  end.
Definition SimpleThread (which : Z) (k : P) : P := SimpleThread_loop 5 which k.

Definition Thread_SelfTest (k : P) : P :=
  do_ (CFork [102; 111; 114; 107; 101; 100; 32; 116; 104; 114; 101; 97; 100] (SimpleThread 1 Return) (fun _ e => e) (fun _ =>
    do_ (CYield (SimpleThread 0 k)))).

(** [SelfTestHelper(pong)] and [SelfTest] of a semaphore [this] of value
    [value]. *)
Fixpoint Semaphore_helper (n : nat) (ping pong : nat) : P :=
  match n with
  | O => Return
  | Datatypes.S n' => do_ (CP ping (do_ (CV pong (Semaphore_helper n' ping pong))))
  end.
Fixpoint Semaphore_pingpong (n : nat) (ping this : nat) (k : P) : P :=
  match n with
  | O => do_ (CDelSem ping k)
  | Datatypes.S n' => do_ (CV ping (do_ (CP this (Semaphore_pingpong n' ping this k))))
  end.
Definition Semaphore_SelfTest (value : Z) (this : nat) (k : P) : P :=
  go (fun e => assert! value =? 0;
    Ok (e, CNewSem 0 (fun _ e => e) (fun ping =>
      do_ (CFork [112; 105; 110; 103] (Semaphore_helper 10 ping this) (fun _ e => e) (fun _ =>
        Semaphore_pingpong 10 ping this k))))).

Definition thisList : SynchList TestState Z := {|
  list_ := this_list; lock := this_lock;
  set_list l e := mkTest (out e) l (this_lock e) (this_wait e) (ping_list e) (ping_lock e) (ping_wait e);
  set_lock n e := mkTest (out e) (this_list e) n (this_wait e) (ping_list e) (ping_lock e) (ping_wait e);
  listEmpty := {| waitQueue := this_wait;
    set_waitQueue q e := mkTest (out e) (this_list e) (this_lock e) q (ping_list e) (ping_lock e) (ping_wait e) |} |}.
Definition selfTestPing : SynchList TestState Z := {|
  list_ := ping_list; lock := ping_lock;
  set_list l e := mkTest (out e) (this_list e) (this_lock e) (this_wait e) l (ping_lock e) (ping_wait e);
  set_lock n e := mkTest (out e) (this_list e) (this_lock e) (this_wait e) (ping_list e) n (ping_wait e);
  listEmpty := {| waitQueue := ping_wait;
    set_waitQueue q e := mkTest (out e) (this_list e) (this_lock e) (this_wait e) (ping_list e) (ping_lock e) q |} |}.

#[export] Instance this_fields : ListFields thisList.
Proof. by split. Qed.
#[export] Instance ping_fields : ListFields selfTestPing.
Proof. by split. Qed.

(** [ThreadSelfTest] after its last call. *)
Definition ThreadSelfTest_end : P := delete_SynchList thisList Return.

(** The loops of [SynchList<int>::SelfTest(9)] and its helper: iteration
    [i] of the test waits at label [i], of the helper at label [10 + i]. *)
Definition val : Z := 9.
Definition SelfTest_iteration (i : nat) : P :=
  if (i <? 10)%nat then SynchList_Append selfTestPing val (SynchList_RemoveFront thisList i)
  else delete_SynchList selfTestPing ThreadSelfTest_end.
Definition helper_iteration (i : nat) : P :=
  if (i <? 10)%nat then SynchList_RemoveFront selfTestPing (10 + i) else Return.

#[export] Instance test_labels : Procs TestState := fun label =>
  if (label <? 10)%nat then
    RemoveFront_loop thisList label (fun x =>
      go (fun e => assert! val =? x; Ok (e, CGo (SelfTest_iteration (1 + label)))))
  else
    RemoveFront_loop selfTestPing label (fun x =>
      SynchList_Append thisList x (helper_iteration (1 + label - 10))).

Definition SynchList_SelfTest : P :=
  go (fun e => assert! bool_decide (this_list e = []);
    Ok (e, CGo (new_SynchList selfTestPing
      (do_ (CFork [112; 105; 110; 103] (helper_iteration 0) (fun _ e => e) (fun _ => SelfTest_iteration 0)))))).

(** [Kernel::ThreadSelfTest]. *)
Definition ThreadSelfTest : P :=
  go (fun e =>
    let! _ := LibSelfTest in
    Ok (e, CGo (Thread_SelfTest (do_ (CNewSem 0 (fun _ e => e) (fun s => Semaphore_SelfTest 0 s (do_ (CDelSem s
      (new_SynchList thisList SynchList_SelfTest))))))))).

Definition boot (m : Machine) : @Kern TestState := initial [109; 97; 105; 110] ThreadSelfTest m no_tests.

(** The run in which a time slice ends at every [p]-th step at which it
    can (none ends when [p] is 0); [c] counts down to the next end. *)
Fixpoint sliced (p c n : nat) (k : @Kern TestState) : outcome (@Kern TestState) :=
  match n, mode k with
  | Datatypes.S n', Executing =>
      let! k := step EvRun k in
      match mode k, level k, c with
      | Executing, IntOn, Datatypes.S O => let! k := step EvPreempt k in sliced p p n' k
      | Executing, IntOn, _ => sliced p (pred c) n' k
      | _, _, _ => sliced p c n' k
      end
  | _, _ => Ok k
  end.

(** Everyone has finished (the last thread waits to be destroyed), every
    semaphore and every lock is deleted and the lists are empty. *)
Definition finished (k : @Kern TestState) : bool :=
  bool_decide (mode k = Idling true /\ readyList k = [] /\ dom (threads k) = {[currentThread k]} /\
    sems k = ∅ /\ locks k = ∅ /\
    this_list (extra k) = [] /\ ping_list (extra k) = []).

Definition passes (r : outcome (@Kern TestState)) : bool :=
  match r with Ok k => finished k | Trap _ => false end.

(** [Kernel::ThreadSelfTest] runs to its end: whether time slices
    never end or end every [p] steps for any [p] up to 16, every ASSERT of
    the tests and of the kernel holds, all threads finish within 1000
    steps, every semaphore and lock is deleted and both lists end empty. *)
Theorem ThreadSelfTest_terminates p :
  (p <= 16)%nat -> passes (sliced p p 1000 (boot (new_Machine false))) = true.
Proof.
  intros Hp.
  assert (forallb (fun p => passes (sliced p p 1000 (boot (new_Machine false)))) (seq 0 17) = true) as H
    by (vm_compute; reflexivity).
  apply (proj1 (forallb_forall _ _) H p). apply in_seq. lia.
Qed.

End SelfTests.
