(* ===== verification/FileSys.v ===== *)
(** * The Nachos file system: filesys/{filehdr,openfile,pbitmap,directory,filesys}

    The file system of the build without FILESYS_STUB, written against the
    interface [SectorDisk] of Disk.v: a free map and one directory, each
    kept in a file; a file is a header sector with up to [NumDirect] data
    sectors.  (With the stub, files are host files: FileTable.v.)

    What is in memory goes to disk as its bytes: [int]s of four bytes, the
    structures [FileHeader] (128 bytes) and [DirectoryEntry] (20 bytes, with
    the padding the compiler puts in it).  Memory from [new] holds
    [fresh_mem]: whatever was there.  A [char] is here a byte. *)

From S2P Require Import Prelude Bitmap Machine AddrSpace Disk.

Module FileSys.
Import Bitmap Disk.

(** ** Bytes of [int]s *)

Definition word_of (l : list Z) : Z :=
  match l with
  | a :: b :: c :: d :: _ => a + 2 ^ 8 * b + 2 ^ 16 * c + 2 ^ 24 * d
  | _ => 0
  end.
Fixpoint words_of (n : nat) (l : list Z) : list Z :=
  match n with
  | O => []
  | S n' => word_of l :: words_of n' (drop 4 l)
  end.
Definition words_bytes (l : list Z) : list Z := concat (int_bytes <$> l).

(** ** filehdr.h, directory.h *)

Definition NumDirect : Z := (SectorSize - 2 * 4) / 4.
Definition MaxFileSize : Z := NumDirect * SectorSize.

Record FileHeader := mkHeader { numBytes : Z; numSectors : Z; dataSectors : list Z }.

Definition hdr_bytes (h : FileHeader) : list Z := words_bytes (numBytes h :: numSectors h :: dataSectors h).
Definition hdr_of (b : list Z) : FileHeader :=
  mkHeader (s32 (word_of b)) (s32 (word_of (drop 4 b))) (s32 <$> words_of (Z.to_nat NumDirect) (drop 8 b)).

Definition FileNameMaxLen : Z := 9.
Definition sizeof_DirectoryEntry : Z := 20.

Record DirectoryEntry := mkEntry { inUse : Z; pad1 : list Z; sector : Z; name : list Z; pad2 : list Z }.

Definition entry_bytes (e : DirectoryEntry) : list Z := inUse e :: pad1 e ++ int_bytes (sector e) ++ name e ++ pad2 e.
Definition entry_of (l : list Z) : DirectoryEntry :=
  mkEntry (default 0 (l !! 0%nat)) (take 3 (drop 1 l)) (s32 (word_of (drop 4 l))) (take 10 (drop 8 l)) (take 2 (drop 18 l)).
Fixpoint entries_of (n : nat) (l : list Z) : list DirectoryEntry :=
  match n with
  | O => []
  | S n' => entry_of l :: entries_of n' (drop 20 l)
  end.
Definition table_bytes (t : list DirectoryEntry) : list Z := concat (entry_bytes <$> t).

(** ** libc on names; past the end of a string is its NUL *)

Fixpoint strncmp_eq (n : nat) (a b : list Z) : bool :=
  match n with
  | O => true
  | S n' =>
      let x := default 0 (head a) in let y := default 0 (head b) in
      if negb (x =? y) then false else if x =? 0 then true else strncmp_eq n' (tail a) (tail b)
  end.
Definition strncpy (dst src : list Z) (n : nat) : list Z :=
  take n (src ++ replicate n 0) ++ drop n dst.

Section FileSys.
Context {D : Type} `{SD : SectorDisk D}.
Context (fresh_mem : Z -> list Z).

(** ** FileHeader *)

Definition new_FileHeader : FileHeader := hdr_of (fresh_mem SectorSize).

Definition Allocate (h : FileHeader) (freeMap : Bitmap) (fileSize : Z) : outcome (bool * FileHeader * Bitmap) :=
  let n := divRoundUp fileSize SectorSize in
  let h := mkHeader fileSize n (dataSectors h) in
  let! clear := NumClear freeMap in
  if clear <? n then Ok (false, h, freeMap)
  else
    let! ' (l, b) := ofold (fun '(l, b) i =>
        let! ' (s, b) := FindAndSet b in
        let! l := arr_set l i s in
        assert! 0 <=? s;
        Ok (l, b)) (dataSectors h, freeMap) (seqZ 0 n) in
    Ok (true, mkHeader fileSize n l, b).

Definition Deallocate (h : FileHeader) (freeMap : Bitmap) : outcome Bitmap :=
  ofold (fun b i =>
    let! s := arr_get (dataSectors h) i in
    let! t := Test b s in
    assert! t;
    Clear b s) freeMap (seqZ 0 (numSectors h)).

Definition Header_FetchFrom (sectorNumber : Z) (d : D) : outcome (FileHeader * D) :=
  let! ' (b, d) := read_sector sectorNumber d in Ok (hdr_of b, d).
Definition Header_WriteBack (h : FileHeader) (sectorNumber : Z) (d : D) : outcome D :=
  write_sector sectorNumber (hdr_bytes h) d.

Definition ByteToSector (h : FileHeader) (offset : Z) : outcome Z :=
  arr_get (dataSectors h) (offset `quot` SectorSize).
Definition FileLength (h : FileHeader) : Z := numBytes h.

(** ** OpenFile *)

Record OpenFile := mkOpenFile { hdr : FileHeader; seekPosition : Z }.

Definition new_OpenFile (sectorNumber : Z) (d : D) : outcome (OpenFile * D) :=
  let! ' (h, d) := Header_FetchFrom sectorNumber d in Ok (mkOpenFile h 0, d).

Definition Seek (f : OpenFile) (position : Z) : OpenFile := mkOpenFile (hdr f) position.

(** The loop of [ReadAt]: sectors [first], [first + 1], ... into [buf]. *)
Definition read_sectors (h : FileHeader) (first count : Z) (buf : list Z) (d : D) : outcome (list Z * D) :=
  ofold (fun '(buf, d) i =>
    let! s := ByteToSector h (i * SectorSize) in
    let! ' (data, d) := read_sector s d in
    let! buf := AddrSpace.blit buf ((i - first) * SectorSize) data in
    Ok (buf, d)) (buf, d) (seqZ first count).

Definition ReadAt (f : OpenFile) (into : list Z) (n position : Z) (d : D) : outcome (Z * list Z * D) :=
  let fileLength := FileLength (hdr f) in
  if (n <=? 0) || (fileLength <=? position) then Ok (0, into, d)
  else
    let n := if fileLength <? s32 (position + n) then s32 (fileLength - position) else n in
    let firstSector := divRoundDown position SectorSize in
    let lastSector := divRoundDown (position + n - 1) SectorSize in
    let count := 1 + lastSector - firstSector in
    let! ' (buf, d) := read_sectors (hdr f) firstSector count (fresh_mem (count * SectorSize)) d in
    let! part := AddrSpace.slice buf (position - firstSector * SectorSize) n in
    let! into := AddrSpace.blit into 0 part in
    Ok (n, into, d).

Definition write_sectors (h : FileHeader) (first count : Z) (buf : list Z) (d : D) : outcome D :=
  ofold (fun d i =>
    let! s := ByteToSector h (i * SectorSize) in
    let! data := AddrSpace.slice buf ((i - first) * SectorSize) SectorSize in
    write_sector s data d) d (seqZ first count).

Definition WriteAt (f : OpenFile) (from : list Z) (n position : Z) (d : D) : outcome (Z * D) :=
  let fileLength := FileLength (hdr f) in
  if (n <=? 0) || (fileLength <=? position) then Ok (0, d)
  else
    let n := if fileLength <? s32 (position + n) then s32 (fileLength - position) else n in
    let firstSector := divRoundDown position SectorSize in
    let lastSector := divRoundDown (position + n - 1) SectorSize in
    let count := 1 + lastSector - firstSector in
    let buf := fresh_mem (count * SectorSize) in
    let firstAligned := position =? firstSector * SectorSize in
    let lastAligned := (position + n) =? (lastSector + 1) * SectorSize in
    let! ' (buf, d) :=
      (if negb firstAligned then
         let! ' (_, buf, d) := ReadAt f buf SectorSize (firstSector * SectorSize) d in Ok (buf, d)
       else Ok (buf, d)) in
    let! ' (buf, d) :=
      (if negb lastAligned && (negb (firstSector =? lastSector) || firstAligned) then
         let k := Z.to_nat ((lastSector - firstSector) * SectorSize) in
         let! ' (_, into, d) := ReadAt f (drop k buf) SectorSize (lastSector * SectorSize) d in
         Ok (take k buf ++ into, d)
       else Ok (buf, d)) in
    let! part := AddrSpace.slice from 0 n in
    let! buf := AddrSpace.blit buf (position - firstSector * SectorSize) part in
    let! d := write_sectors (hdr f) firstSector count buf d in
    Ok (n, d).

Definition File_Read (f : OpenFile) (into : list Z) (n : Z) (d : D) : outcome (Z * list Z * OpenFile * D) :=
  let! ' (result, into, d) := ReadAt f into n (seekPosition f) d in
  Ok (result, into, Seek f (s32 (seekPosition f + result)), d).
Definition File_Write (f : OpenFile) (from : list Z) (n : Z) (d : D) : outcome (Z * OpenFile * D) :=
  let! ' (result, d) := WriteAt f from n (seekPosition f) d in
  Ok (result, Seek f (s32 (seekPosition f + result)), d).
Definition Length (f : OpenFile) : Z := FileLength (hdr f).

(** ** PersistentBitmap *)

Definition Map_FetchFrom (f : OpenFile) (b : Bitmap) (d : D) : outcome (Bitmap * D) :=
  let! ' (_, into, d) := ReadAt f (words_bytes (map b)) (numWords b * 4) 0 d in
  Ok (set_map b (words_of (length (map b)) into), d).
Definition new_PersistentBitmap (f : OpenFile) (numItems : Z) (d : D) : outcome (Bitmap * D) :=
  let! b := new_Bitmap numItems in Map_FetchFrom f b d.
Definition Map_WriteBack (b : Bitmap) (f : OpenFile) (d : D) : outcome D :=
  let! ' (_, d) := WriteAt f (words_bytes (map b)) (numWords b * 4) 0 d in Ok d.

(** ** Directory *)

Definition set_inUse (v : Z) (e : DirectoryEntry) : DirectoryEntry := mkEntry v (pad1 e) (sector e) (name e) (pad2 e).

Definition new_Directory (size : Z) : list DirectoryEntry :=
  set_inUse 0 <$> entries_of (Z.to_nat size) (fresh_mem (size * sizeof_DirectoryEntry)).

Definition Dir_FetchFrom (f : OpenFile) (t : list DirectoryEntry) (d : D) : outcome (list DirectoryEntry * D) :=
  let! ' (_, into, d) := ReadAt f (table_bytes t) (Z.of_nat (length t) * sizeof_DirectoryEntry) 0 d in
  Ok (entries_of (length t) into, d).
Definition Dir_WriteBack (t : list DirectoryEntry) (f : OpenFile) (d : D) : outcome D :=
  let! ' (_, d) := WriteAt f (table_bytes t) (Z.of_nat (length t) * sizeof_DirectoryEntry) 0 d in Ok d.

(** Loops over the table: the first index that satisfies [p], or -1. *)
Fixpoint find_entry (p : DirectoryEntry -> bool) (t : list DirectoryEntry) (i : Z) : Z :=
  match t with
  | [] => -1
  | e :: t' => if p e then i else find_entry p t' (i + 1)
  end.

Definition used (e : DirectoryEntry) : bool := negb (inUse e =? 0).
Definition FindIndex (t : list DirectoryEntry) (n : list Z) : Z :=
  find_entry (fun e => used e && strncmp_eq (Z.to_nat FileNameMaxLen) (name e) n) t 0.

Definition Find (t : list DirectoryEntry) (n : list Z) : outcome Z :=
  let i := FindIndex t n in
  if negb (i =? -1) then let! e := arr_get t i in Ok (sector e) else Ok (-1).

Definition Add (t : list DirectoryEntry) (n : list Z) (newSector : Z) : outcome (bool * list DirectoryEntry) :=
  if negb (FindIndex t n =? -1) then Ok (false, t)
  else
    let i := find_entry (fun e => negb (used e)) t 0 in
    if i =? -1 then Ok (false, t)
    else
      let! e := arr_get t i in
      let! t := arr_set t i (mkEntry 1 (pad1 e) newSector (strncpy (name e) n (Z.to_nat FileNameMaxLen)) (pad2 e)) in
      Ok (true, t).

Definition Dir_Remove (t : list DirectoryEntry) (n : list Z) : outcome (bool * list DirectoryEntry) :=
  let i := FindIndex t n in
  if i =? -1 then Ok (false, t)
  else
    let! e := arr_get t i in
    let! t := arr_set t i (set_inUse 0 e) in
    Ok (true, t).

Definition List_ (t : list DirectoryEntry) : list (list Z) := name <$> filter (fun e => used e = true) t.

(** ** FileSystem *)

Definition FreeMapSector : Z := 0.
Definition DirectorySector : Z := 1.
Definition FreeMapFileSize : Z := NumSectors / BitsInByte.
Definition NumDirEntries : Z := 10.
Definition DirectoryFileSize : Z := sizeof_DirectoryEntry * NumDirEntries.

Record FileSystem := mkFS { freeMapFile : OpenFile; directoryFile : OpenFile }.

Definition new_FileSystem (format : bool) (d : D) : outcome (FileSystem * D) :=
  if format then
    let! freeMap := new_Bitmap NumSectors in
    let directory := new_Directory NumDirEntries in
    let! freeMap := Mark freeMap FreeMapSector in
    let! freeMap := Mark freeMap DirectorySector in
    let! ' (ok, mapHdr, freeMap) := Allocate new_FileHeader freeMap FreeMapFileSize in
    assert! ok;
    let! ' (ok, dirHdr, freeMap) := Allocate new_FileHeader freeMap DirectoryFileSize in
    assert! ok;
    let! d := Header_WriteBack mapHdr FreeMapSector d in
    let! d := Header_WriteBack dirHdr DirectorySector d in
    let! ' (freeMapFile, d) := new_OpenFile FreeMapSector d in
    let! ' (directoryFile, d) := new_OpenFile DirectorySector d in
    let! d := Map_WriteBack freeMap freeMapFile d in
    let! d := Dir_WriteBack directory directoryFile d in
    Ok (mkFS freeMapFile directoryFile, d)
  else
    let! ' (freeMapFile, d) := new_OpenFile FreeMapSector d in
    let! ' (directoryFile, d) := new_OpenFile DirectorySector d in
    Ok (mkFS freeMapFile directoryFile, d).

(** [Create], from the search for a sector for the header on. *)
Definition Create_rest (fs : FileSystem) (n : list Z) (initialSize : Z) (directory : list DirectoryEntry) (freeMap : Bitmap) (d : D)
    : outcome (bool * D) :=
  let! ' (s, freeMap) := FindAndSet freeMap in
  if s =? -1 then Ok (false, d)
  else
    let! ' (added, directory) := Add directory n s in
    if negb added then Ok (false, d)
    else
      let! ' (ok, h, freeMap) := Allocate new_FileHeader freeMap initialSize in
      if negb ok then Ok (false, d)
      else
        let! d := Header_WriteBack h s d in
        let! d := Dir_WriteBack directory (directoryFile fs) d in
        let! d := Map_WriteBack freeMap (freeMapFile fs) d in
        Ok (true, d).

Definition FS_Create (fs : FileSystem) (n : list Z) (initialSize : Z) (d : D) : outcome (bool * D) :=
  let! ' (directory, d) := Dir_FetchFrom (directoryFile fs) (new_Directory NumDirEntries) d in
  let! found := Find directory n in
  if negb (found =? -1) then Ok (false, d)
  else
    let! ' (freeMap, d) := new_PersistentBitmap (freeMapFile fs) NumSectors d in
    Create_rest fs n initialSize directory freeMap d.

Definition FS_Open (fs : FileSystem) (n : list Z) (d : D) : outcome (option OpenFile * D) :=
  let! ' (directory, d) := Dir_FetchFrom (directoryFile fs) (new_Directory NumDirEntries) d in
  let! s := Find directory n in
  if s <? 0 then Ok (None, d)
  else let! ' (f, d) := new_OpenFile s d in Ok (Some f, d).

Definition FS_Remove (fs : FileSystem) (n : list Z) (d : D) : outcome (bool * D) :=
  let! ' (directory, d) := Dir_FetchFrom (directoryFile fs) (new_Directory NumDirEntries) d in
  let! s := Find directory n in
  if s =? -1 then Ok (false, d)
  else
    let! ' (fileHdr, d) := Header_FetchFrom s d in
    let! ' (freeMap, d) := new_PersistentBitmap (freeMapFile fs) NumSectors d in
    let! freeMap := Deallocate fileHdr freeMap in
    let! freeMap := Clear freeMap s in
    let! ' (_, directory) := Dir_Remove directory n in
    let! d := Map_WriteBack freeMap (freeMapFile fs) d in
    let! d := Dir_WriteBack directory (directoryFile fs) d in
    Ok (true, d).

Definition FS_List (fs : FileSystem) (d : D) : outcome (list (list Z) * D) :=
  let! ' (directory, d) := Dir_FetchFrom (directoryFile fs) (new_Directory NumDirEntries) d in
  Ok (List_ directory, d).

End FileSys.
End FileSys.
