(* ===== verification/FileSysProofs.v ===== *)
(** * The Nachos file system: files are byte sequences, the directory a map of names

    Encodings of what goes to disk; a file read and written at a position
    is its bytes; [Create], [Open] and [Remove] refine a map from names. *)

From S2P Require Import Prelude Bitmap Machine AddrSpace Disk FileSys.

Module FileSysProofs.
Import Bitmap Disk FileSys.

(** ** Lists of equal blocks *)

Section Blocks.
Context {A : Type} (k : nat).

Lemma length_blocks (ls : list (list A)) : Forall (fun l => length l = k) ls -> length (concat ls) = (length ls * k)%nat.
Proof. induction 1 as [|l ls Hl _ IH]; [done |]. cbn. rewrite length_app. lia. Qed.

Lemma drop_blocks n (ls : list (list A)) : Forall (fun l => length l = k) ls -> drop (n * k) (concat ls) = concat (drop n ls).
Proof.
  revert ls. induction n as [|n IH]; intros ls Hls; [done |]. destruct Hls as [|l ls Hl Hls]; [cbn [concat]; by rewrite !drop_nil |].
  cbn [concat]. rewrite drop_app_ge by lia. rewrite Hl. replace (S n * k - k)%nat with (n * k)%nat by lia. by apply IH.
Qed.

Lemma take_blocks n (ls : list (list A)) : Forall (fun l => length l = k) ls -> take (n * k) (concat ls) = concat (take n ls).
Proof.
  revert ls. induction n as [|n IH]; intros ls Hls; [done |]. destruct Hls as [|l ls Hl Hls]; [cbn [concat]; by rewrite !take_nil |].
  cbn [concat]. rewrite take_app_ge by lia. rewrite Hl. replace (S n * k - k)%nat with (n * k)%nat by lia. by rewrite IH.
Qed.

Lemma lookup_blocks (ls : list (list A)) q r : Forall (fun l => length l = k) ls -> (r < k)%nat ->
  concat ls !! (q * k + r)%nat = l ← ls !! q; l !! r.
Proof.
  intros Hls Hr. rewrite <- lookup_drop, drop_blocks by done.
  destruct (ls !! q) as [l|] eqn:E.
  - rewrite (drop_S _ _ _ E). cbn. rewrite Forall_forall in Hls.
    assert (length l = k) by (apply Hls; by eapply list_elem_of_lookup_2). rewrite lookup_app_l by lia. done.
  - rewrite drop_ge by (by apply lookup_ge_None). done.
Qed.

End Blocks.

(** ** Encodings *)

Lemma words_bytes_cons v l : words_bytes (v :: l) = int_bytes v ++ words_bytes l.
Proof. done. Qed.

Lemma length_words_bytes l : length (words_bytes l) = (length l * 4)%nat.
Proof. unfold words_bytes. rewrite (length_blocks 4), length_fmap; [done |]. apply Forall_fmap, Forall_true. done. Qed.

Lemma words_bytes_bytes l : Forall is_byte (words_bytes l).
Proof.
  apply Forall_concat, Forall_fmap, Forall_true. intros v. cbn. unfold int_bytes, is_byte.
  repeat constructor; apply Z.mod_pos_bound; lia.
Qed.

Lemma word_of_int_bytes v r : word_of (int_bytes v ++ r) = u32 v.
Proof. cbn [int_bytes app word_of]. unfold u32. dlia. Qed.

Lemma words_of_bytes l r : words_of (length l) (words_bytes l ++ r) = u32 <$> l.
Proof.
  induction l as [|v l IH]; [done |]. rewrite words_bytes_cons, fmap_cons. cbn [length words_of].
  rewrite <- app_assoc, word_of_int_bytes. f_equal. rewrite drop_app_length'; [apply IH | done].
Qed.

Definition hdr_range (h : FileHeader) : Prop :=
  is_s32 (numBytes h) /\ is_s32 (numSectors h) /\ length (dataSectors h) = Z.to_nat NumDirect /\ Forall is_s32 (dataSectors h).

Lemma s32_u32_all l : Forall is_s32 l -> s32 <$> (u32 <$> l) = l.
Proof. induction 1 as [|v l Hv _ IH]; [done |]. cbn. rewrite s32_u32, s32_id by done. by f_equal. Qed.

Lemma hdr_of_bytes h : hdr_range h -> hdr_of (hdr_bytes h) = h.
Proof.
  intros (H1 & H2 & Hl & Hd). destruct h as [nb ns ds]. cbn in H1, H2, Hl, Hd. unfold hdr_of, hdr_bytes. cbn [numBytes numSectors dataSectors].
  rewrite !words_bytes_cons.
  rewrite word_of_int_bytes. rewrite drop_app_length' by done. rewrite word_of_int_bytes.
  rewrite (app_assoc (int_bytes nb)), drop_app_length' by done. rewrite <- Hl, <- (app_nil_r (words_bytes ds)), words_of_bytes.
  by rewrite !s32_u32, !s32_id, s32_u32_all.
Qed.

Lemma hdr_bytes_length h : hdr_range h -> Z.of_nat (length (hdr_bytes h)) = SectorSize.
Proof. intros (_ & _ & Hl & _). unfold hdr_bytes. rewrite length_words_bytes. cbn. by rewrite Hl. Qed.

Lemma words_of_length n l : length (words_of n l) = n.
Proof. revert l. induction n as [|n IH]; intros l; [done |]. cbn. by rewrite IH. Qed.

Lemma hdr_of_range b : hdr_range (hdr_of b).
Proof.
  unfold hdr_range, hdr_of. cbn [numBytes numSectors dataSectors].
  split; [apply s32_range |]. split; [apply s32_range |]. split; [by rewrite length_fmap, words_of_length |].
  apply Forall_fmap, Forall_true. intros x. apply s32_range.
Qed.

Definition entry_ok (e : DirectoryEntry) : Prop :=
  is_byte (inUse e) /\ length (pad1 e) = 3%nat /\ Forall is_byte (pad1 e) /\ is_s32 (sector e) /\
  length (name e) = 10%nat /\ Forall is_byte (name e) /\ length (pad2 e) = 2%nat /\ Forall is_byte (pad2 e).

Lemma entry_bytes_length e : entry_ok e -> length (entry_bytes e) = 20%nat.
Proof. intros (_ & H1 & _ & _ & H2 & _ & H3 & _). unfold entry_bytes. cbn [length]. rewrite !length_app, H1, H2, H3. done. Qed.

Lemma entry_bytes_bytes e : entry_ok e -> Forall is_byte (entry_bytes e).
Proof.
  intros (H0 & _ & H1 & _ & _ & H2 & _ & H3). unfold entry_bytes. constructor; [done |].
  apply Forall_app. split; [done |]. apply Forall_app. split.
  - unfold int_bytes, is_byte. repeat constructor; apply Z.mod_pos_bound; lia.
  - by apply Forall_app.
Qed.

Lemma entry_of_bytes e r : entry_ok e -> entry_of (entry_bytes e ++ r) = e.
Proof.
  destruct e as [u p1 s n p2]. intros (_ & H1 & _ & Hs & H2 & _ & H3 & _). cbn in H1, Hs, H2, H3. unfold entry_of, entry_bytes. cbn [inUse pad1 sector name pad2].
  cbn [app lookup list_lookup default from_option id drop]. rewrite <- !app_assoc.
  rewrite drop_0, take_app_length' by done. rewrite (drop_app_length' p1) by done. rewrite word_of_int_bytes, s32_u32, s32_id by done.
  f_equal.
  - rewrite (app_assoc p1), drop_app_length' by (rewrite length_app; cbn; lia). by apply take_app_length'.
  - rewrite (app_assoc p1), (app_assoc (p1 ++ _)), drop_app_length' by (rewrite !length_app; cbn; lia). by apply take_app_length'.
Qed.

Lemma entries_of_bytes t r : Forall entry_ok t -> entries_of (length t) (table_bytes t ++ r) = t.
Proof.
  induction 1 as [|e t He _ IH]; [done |]. unfold table_bytes. cbn [fmap list_fmap concat length entries_of].
  rewrite <- app_assoc, entry_of_bytes by done. f_equal.
  rewrite drop_app_length' by (by rewrite entry_bytes_length). exact IH.
Qed.

Lemma table_bytes_length t : Forall entry_ok t -> length (table_bytes t) = (length t * 20)%nat.
Proof.
  intros Ht. unfold table_bytes. rewrite (length_blocks 20), length_fmap; [done |].
  apply Forall_fmap. eapply Forall_impl; [exact Ht |]. apply entry_bytes_length.
Qed.

Lemma table_bytes_bytes t : Forall entry_ok t -> Forall is_byte (table_bytes t).
Proof. intros Ht. apply Forall_concat, Forall_fmap. eapply Forall_impl; [exact Ht |]. apply entry_bytes_bytes. Qed.

(** ** Files as bytes *)

Section Files.
Context {D : Type} `{SD : SectorDisk D} `{SL : !SectorLaws D}.
Context (fresh_mem : Z -> list Z)
        (fresh_length : forall n, 0 <= n -> Z.of_nat (length (fresh_mem n)) = n)
        (fresh_bytes : forall n, Forall is_byte (fresh_mem n)).
Notation sector := Disk.sector.

(** The disk after reads. *)
Definition same_disk (d d' : D) : Prop := good d' /\ forall j, valid_sector j -> sector d' j = sector d j.

Lemma same_disk_refl d : good d -> same_disk d d.
Proof. done. Qed.

Lemma same_disk_trans d1 d2 d3 : same_disk d1 d2 -> same_disk d2 d3 -> same_disk d1 d3.
Proof. intros [_ H1] [G H2]. split; [done |]. intros j Hj. by rewrite H2, H1. Qed.

Definition blocks (h : FileHeader) : list Z := take (Z.to_nat (numSectors h)) (dataSectors h).

Record hdr_ok (h : FileHeader) : Prop := {
  ho_bytes : 0 <= numBytes h <= MaxFileSize;
  ho_sectors : numSectors h = divRoundUp (numBytes h) SectorSize;
  ho_length : length (dataSectors h) = Z.to_nat NumDirect;
  ho_range : Forall is_s32 (dataSectors h);
  ho_valid : Forall valid_sector (blocks h);
  ho_nodup : NoDup (blocks h)
}.

Lemma ho_enough h : hdr_ok h -> numBytes h <= numSectors h * 128 < numBytes h + 128 /\ 0 <= numSectors h <= 30.
Proof.
  intros [Hb Hs _ _ _ _]. pose proof (divRoundUp_spec (numBytes h) SectorSize ltac:(lia) ltac:(done)) as H.
  rewrite <- Hs in H. change SectorSize with 128 in H. change MaxFileSize with 3840 in Hb. lia.
Qed.

Lemma length_of_blocks h : hdr_ok h -> length (blocks h) = Z.to_nat (numSectors h).
Proof. intros Hh. pose proof (ho_enough h Hh). unfold blocks. rewrite length_take, (ho_length _ Hh). change NumDirect with 30. lia. Qed.

Definition secs (d : D) (h : FileHeader) : list (list Z) := sector d <$> blocks h.
Definition raw (d : D) (h : FileHeader) : list Z := concat (secs d h).
Definition fbytes (d : D) (h : FileHeader) : list Z := take (Z.to_nat (numBytes h)) (raw d h).

Lemma secs_length d h : hdr_ok h -> good d -> Forall (fun l => length l = 128%nat) (secs d h).
Proof.
  intros Hh Hd. unfold secs. apply Forall_fmap, Forall_forall. intros s Hs.
  pose proof (ho_valid _ Hh) as Hv. rewrite Forall_forall in Hv.
  pose proof (sector_length d s Hd (Hv s Hs)) as Hl. change SectorSize with 128 in Hl. cbn. lia.
Qed.

Lemma raw_length d h : hdr_ok h -> good d -> length (raw d h) = (Z.to_nat (numSectors h) * 128)%nat.
Proof.
  intros Hh Hd. unfold raw. rewrite (length_blocks 128) by (by apply secs_length).
  unfold secs. by rewrite length_fmap, length_of_blocks.
Qed.

Lemma raw_bytes d h : hdr_ok h -> good d -> Forall is_byte (raw d h).
Proof.
  intros Hh Hd. apply Forall_concat, Forall_fmap. eapply Forall_impl; [apply (ho_valid _ Hh) |]. intros s Hs. by apply sector_bytes.
Qed.

Lemma fbytes_length d h : hdr_ok h -> good d -> length (fbytes d h) = Z.to_nat (numBytes h).
Proof.
  intros Hh Hd. pose proof (ho_enough h Hh). unfold fbytes. rewrite length_take, raw_length by done. lia.
Qed.

Lemma secs_same d d' h : hdr_ok h -> same_disk d d' -> secs d' h = secs d h.
Proof.
  intros Hh [_ Hs]. unfold secs. apply list_fmap_ext. intros i s Hi. apply Hs.
  pose proof (ho_valid _ Hh) as Hv. rewrite Forall_forall in Hv. apply Hv. by eapply list_elem_of_lookup_2.
Qed.

Lemma ByteToSector_ok h i : hdr_ok h -> 0 <= i < numSectors h ->
  exists s, ByteToSector h (i * SectorSize) = Ok s /\ blocks h !! Z.to_nat i = Some s /\ valid_sector s.
Proof.
  intros Hh Hi. pose proof (ho_enough h Hh) as [_ Hn].
  destruct (lookup_lt_is_Some_2 (blocks h) (Z.to_nat i)) as [s Hs]; [rewrite length_of_blocks by done; lia |].
  exists s. split; [|split; [done |]].
  - unfold ByteToSector. change SectorSize with 128. rewrite Z.quot_mul by done. apply arr_get_lookup; [lia |].
    unfold blocks in Hs. rewrite lookup_take_lt in Hs by lia. done.
  - pose proof (ho_valid _ Hh) as Hv. rewrite Forall_forall in Hv. apply Hv. by eapply list_elem_of_lookup_2.
Qed.

Lemma take_take_S {A} (l : list A) n x : l !! n = Some x -> take (S n) l = take n l ++ [x].
Proof. intros H. by rewrite (take_S_r _ _ _ H). Qed.

Lemma read_sectors_spec h d first count buf :
  hdr_ok h -> good d -> 0 <= first -> 0 <= count -> first + count <= numSectors h -> Z.of_nat (length buf) = count * SectorSize ->
  exists d', read_sectors h first count buf d = Ok (concat (take (Z.to_nat count) (drop (Z.to_nat first) (secs d h))), d') /\
    same_disk d d'.
Proof.
  intros Hh Hd Hf Hc Hn Hl. change SectorSize with 128 in Hl. unfold read_sectors.
  match goal with |- context [ofold ?f _ _] => set (body := f) end.
  destruct (ofold_seqZ (fun i '(b, d1) => Z.of_nat (length b) = count * 128 /\ same_disk d d1 /\
      take (Z.to_nat ((i - first) * 128)) b = concat (take (Z.to_nat (i - first)) (drop (Z.to_nat first) (secs d h))))
    body first count (buf, d)) as ([b d1] & E & Hb & Hs & Ht); [done | | |].
  - split; [done |]. split; [done |]. rewrite Z.sub_diag. done.
  - intros i [b d1] Hi (Hb & Hs & Ht). unfold body.
    destruct (ByteToSector_ok h i Hh ltac:(lia)) as (s & -> & Hsi & Hv). cbn [obind].
    destruct (read_sector_ok d1 s (proj1 Hs) Hv) as (d2 & -> & Hg & Hsame). cbn [obind].
    assert (sector d1 s = sector d s) as Es by (by apply Hs). rewrite Es.
    pose proof (sector_length d s Hd Hv) as Hls. change SectorSize with 128 in *.
    unfold AddrSpace.blit. rewrite (proj2 (Z.leb_le _ _)), (proj2 (Z.leb_le _ _)) by lia. cbn [andb obind].
    eexists (_, d2). split; [done |]. split; [|split; [by eapply same_disk_trans; [exact Hs | split] |]].
    + rewrite !length_app, length_take, length_drop. lia.
    + replace (Z.to_nat (i + 1 - first)) with (S (Z.to_nat (i - first))) by lia.
      rewrite (take_take_S _ _ (sector d s)).
      2:{ rewrite lookup_drop. unfold secs. rewrite list_lookup_fmap. replace (Z.to_nat first + Z.to_nat (i - first))%nat with (Z.to_nat i) by lia. by rewrite Hsi. }
      rewrite concat_app. cbn [concat]. rewrite app_nil_r, <- Ht.
      rewrite app_assoc, take_app_length' by (rewrite length_app, length_take; lia). done.
  - rewrite E. exists d1. split; [|done]. replace (first + count - first) with count in Ht by lia. by rewrite <- Ht, take_ge by lia.
Qed.

(** What [ReadAt] reads. *)
Definition clip (h : FileHeader) (n position : Z) : Z := Z.min n (numBytes h - position).

Lemma ReadAt_ok f into n pos d :
  hdr_ok (hdr f) -> good d -> 0 < n < 2 ^ 30 -> 0 <= pos < numBytes (hdr f) -> clip (hdr f) n pos <= Z.of_nat (length into) ->
  exists d', ReadAt fresh_mem f into n pos d =
      Ok (clip (hdr f) n pos, take (Z.to_nat (clip (hdr f) n pos)) (drop (Z.to_nat pos) (raw d (hdr f)))
           ++ drop (Z.to_nat (clip (hdr f) n pos)) into, d') /\
    same_disk d d'.
Proof.
  intros Hh Hd Hn Hp Hinto. unfold ReadAt, FileLength. pose proof (ho_enough _ Hh) as [He Hns].
  pose proof (ho_bytes _ Hh) as Hb. change MaxFileSize with 3840 in Hb.
  rewrite (proj2 (Z.leb_gt _ _)), (proj2 (Z.leb_gt _ _)) by lia. cbn [orb].
  rewrite (s32_id (pos + n)), (s32_id (numBytes (hdr f) - pos)) by (unfold is_s32; lia).
  assert ((if numBytes (hdr f) <? pos + n then numBytes (hdr f) - pos else n) = clip (hdr f) n pos) as ->.
  { unfold clip. destruct (Z.ltb_spec (numBytes (hdr f)) (pos + n)); lia. }
  set (n' := clip (hdr f) n pos) in *. assert (0 < n' /\ pos + n' <= numBytes (hdr f)) as Hn' by (unfold n', clip; lia).
  unfold divRoundDown. change SectorSize with 128 in *. rewrite !Z.quot_div_nonneg by lia.
  set (fs := pos / 128). set (ls := (pos + n' - 1) / 128).
  assert (128 * fs <= pos < 128 * fs + 128 /\ 128 * ls <= pos + n' - 1 < 128 * ls + 128 /\ fs <= ls) as (Hfs & Hls & Hle).
  { unfold fs, ls. pose proof (Z.div_mod pos 128). pose proof (Z.mod_pos_bound pos 128). pose proof (Z.div_mod (pos + n' - 1) 128).
    pose proof (Z.mod_pos_bound (pos + n' - 1) 128). split; [lia |]. split; [lia |]. apply Z.div_le_mono; lia. }
  destruct (read_sectors_spec (hdr f) d fs (1 + ls - fs) (fresh_mem ((1 + ls - fs) * 128)) Hh Hd) as (d' & E & Hs);
    [lia | lia | lia | change SectorSize with 128; rewrite fresh_length; lia |].
  rewrite E. cbn [obind]. set (buf := concat _).
  assert (length buf = Z.to_nat ((1 + ls - fs) * 128)) as Hlb.
  { unfold buf. rewrite (length_blocks 128) by (by apply Forall_take, Forall_drop, secs_length).
    rewrite length_take, length_drop. unfold secs. rewrite length_fmap, length_of_blocks by done. lia. }
  rewrite AddrSpace.slice_Ok by lia. cbn [obind].
  assert (take (Z.to_nat n') (drop (Z.to_nat (pos - fs * 128)) buf) = take (Z.to_nat n') (drop (Z.to_nat pos) (raw d (hdr f)))) as ->.
  { unfold buf, raw. rewrite <- (take_blocks 128), <- (drop_blocks 128) by (try apply Forall_drop; by apply secs_length).
    apply list_eq. intros j. destruct (decide (j < Z.to_nat n')%nat) as [Hj|Hj].
    - rewrite !lookup_take_lt, !lookup_drop by lia. rewrite lookup_take_lt, lookup_drop by lia. f_equal. lia.
    - by rewrite !lookup_take_ge by lia. }
  set (part := take _ _). assert (length part = Z.to_nat n') as Hlp.
  { unfold part. rewrite length_take, length_drop, raw_length by done. lia. }
  unfold AddrSpace.blit. rewrite (proj2 (Z.leb_le _ _)), (proj2 (Z.leb_le _ _)) by lia. cbn [andb obind].
  exists d'. split; [|done]. do 3 f_equal. rewrite Hlp. done.
Qed.

(** *** Writing *)

Lemma write_sectors_spec h d first count buf :
  hdr_ok h -> good d -> 0 <= first -> 0 <= count -> first + count <= numSectors h ->
  Z.of_nat (length buf) = count * SectorSize -> Forall is_byte buf ->
  exists d', write_sectors h first count buf d = Ok d' /\ good d' /\
    (forall q s, first <= q < first + count -> blocks h !! Z.to_nat q = Some s ->
       sector d' s = take 128 (drop (Z.to_nat ((q - first) * 128)) buf)) /\
    (forall j, valid_sector j -> (forall q, first <= q < first + count -> blocks h !! Z.to_nat q <> Some j) -> sector d' j = sector d j).
Proof.
  intros Hh Hd Hf Hc Hn Hl Hb. change SectorSize with 128 in Hl. unfold write_sectors.
  match goal with |- context [ofold ?f _ _] => set (body := f) end.
  destruct (ofold_seqZ (fun i d1 => good d1 /\
      (forall q s, first <= q < i -> blocks h !! Z.to_nat q = Some s ->
         sector d1 s = take 128 (drop (Z.to_nat ((q - first) * 128)) buf)) /\
      (forall j, valid_sector j -> (forall q, first <= q < i -> blocks h !! Z.to_nat q <> Some j) -> sector d1 j = sector d j))
    body first count d) as (d1 & E & Hg & Hw & Ho); [done | | |].
  - split; [done |]. split; [intros q s Hq; lia | done].
  - intros i d1 Hi (Hg & Hw & Ho). unfold body.
    destruct (ByteToSector_ok h i Hh ltac:(lia)) as (s & -> & Hsi & Hv). cbn [obind]. change SectorSize with 128.
    rewrite AddrSpace.slice_Ok by lia. cbn [obind]. set (data := take _ _).
    assert (length data = 128%nat) as Hld by (unfold data; rewrite length_take, length_drop; lia).
    destruct (write_sector_ok d1 s data Hg Hv) as (d2 & -> & Hg2 & Hs2 & Ho2).
    { change SectorSize with 128. lia. } { by apply Forall_take, Forall_drop. }
    exists d2. split; [done |]. split; [done |]. split.
    + intros q s' Hq Hs'. destruct (decide (q = i)) as [->|Hne].
      * rewrite Hsi in Hs'. injection Hs' as <-. rewrite Hs2. done.
      * assert (s' <> s) as Hss.
        { intros ->. apply Hne. pose proof (proj1 (NoDup_alt _) (ho_nodup _ Hh) _ _ _ Hsi Hs'). lia. }
        rewrite Ho2; [|pose proof (ho_valid _ Hh) as HV; rewrite Forall_forall in HV; apply HV; by eapply list_elem_of_lookup_2 | done].
        apply Hw; [lia | done].
    + intros j Hj Hq. rewrite Ho2; [|done|]. { apply Ho; [done |]. intros q Hqq. apply Hq. lia. }
      intros ->. by apply (Hq i); [lia |].
  - by exists d1.
Qed.

(** Bytes of [c] from [pos] replaced by [b]. *)
Definition overwrite (c : list Z) (pos : nat) (b : list Z) : list Z :=
  take pos c ++ b ++ drop (pos + length b) c.

Lemma lookup_overwrite c pos b (j : nat) : (pos + length b <= length c)%nat ->
  overwrite c pos b !! j = if decide (pos <= j < pos + length b)%nat then b !! (j - pos)%nat else c !! j.
Proof.
  intros Hl. unfold overwrite. assert (length (take pos c) = pos) as Ht by (rewrite length_take; lia).
  destruct (decide _) as [Hj|Hj].
  - rewrite lookup_app_r by lia. by rewrite Ht, lookup_app_l by lia.
  - destruct (decide (j < pos)%nat).
    + rewrite lookup_app_l by lia. apply lookup_take_lt. lia.
    + rewrite lookup_app_r by lia. rewrite Ht, lookup_app_r, lookup_drop by lia. f_equal. lia.
Qed.

(** [ReadAt] of the sector [q] of the file into its place in a buffer. *)
Lemma fill_sector f d buf q k :
  hdr_ok (hdr f) -> good d -> 0 <= q -> q * 128 < numBytes (hdr f) -> (k + 128 <= length buf)%nat -> Forall is_byte buf ->
  exists c into d', ReadAt fresh_mem f (drop k buf) SectorSize (q * SectorSize) d = Ok (c, into, d') /\ same_disk d d' /\
    length (take k buf ++ into) = length buf /\ Forall is_byte (take k buf ++ into) /\
    (forall i, (i < k)%nat -> (take k buf ++ into) !! i = buf !! i) /\
    forall r, 0 <= r < 128 -> q * 128 + r < numBytes (hdr f) ->
      (take k buf ++ into) !! (k + Z.to_nat r)%nat = raw d (hdr f) !! Z.to_nat (q * 128 + r).
Proof.
  intros Hh Hd Hq Hqn Hk Hb. change SectorSize with 128. pose proof (ho_enough _ Hh) as [He Hns].
  assert (0 < clip (hdr f) 128 (q * 128) <= 128) as Hc by (unfold clip; lia).
  destruct (ReadAt_ok f (drop k buf) 128 (q * 128) d Hh Hd ltac:(lia) ltac:(lia)) as (d' & E & Hs); [rewrite length_drop; lia |].
  exists (clip (hdr f) 128 (q * 128)). eexists _, d'. split; [exact E |]. split; [done |].
  set (c := clip _ _ _) in *. set (part := take (Z.to_nat c) (drop _ _)).
  assert (length part = Z.to_nat c) as Hlp by (unfold part; rewrite length_take, length_drop, raw_length by done; unfold c, clip in *; lia).
  assert (length (take k buf) = k) as Hlt by (rewrite length_take; lia).
  split; [rewrite !length_app, !length_drop, Hlp, Hlt; lia |]. split.
  { apply Forall_app. split; [by apply Forall_take |]. apply Forall_app. split; [|by do 2 apply Forall_drop].
    unfold part. apply Forall_take, Forall_drop. by apply raw_bytes. }
  split; [intros i Hi; rewrite lookup_app_l by lia; by apply lookup_take_lt |].
  intros r Hr Hrn. rewrite lookup_app_r by lia. rewrite Hlt.
  rewrite lookup_app_l by (unfold c, clip in *; lia). unfold part.
  rewrite lookup_take_lt, lookup_drop by (unfold c, clip; lia). f_equal. lia.
Qed.

(** The buffer of [WriteAt] before the new bytes: around them, the bytes of
    the file. *)
Lemma fill_buffer f d pos n :
  hdr_ok (hdr f) -> good d -> 0 <= pos -> 0 < n -> pos + n <= numBytes (hdr f) ->
  let fs := pos / 128 in let ls := (pos + n - 1) / 128 in
  let aligned := pos =? fs * 128 in
  exists b1 d1 buf d',
    (if negb aligned then
       let! ' (_, buf, d) := ReadAt fresh_mem f (fresh_mem ((1 + ls - fs) * 128)) 128 (fs * 128) d in Ok (buf, d)
     else Ok (fresh_mem ((1 + ls - fs) * 128), d)) = Ok (b1, d1) /\
    (if negb (pos + n =? (ls + 1) * 128) && (negb (fs =? ls) || aligned) then
       let k := Z.to_nat ((ls - fs) * 128) in
       let! ' (_, into, d) := ReadAt fresh_mem f (drop k b1) 128 (ls * 128) d1 in
       Ok (take k b1 ++ into, d)
     else Ok (b1, d1)) = Ok (buf, d') /\
    same_disk d d' /\ length buf = Z.to_nat ((1 + ls - fs) * 128) /\ Forall is_byte buf /\
    forall j : Z, fs * 128 <= j < (ls + 1) * 128 -> j < numBytes (hdr f) -> (j < pos \/ pos + n <= j) ->
      buf !! Z.to_nat (j - fs * 128) = raw d (hdr f) !! Z.to_nat j.
Proof.
  intros Hh Hd Hp Hn Hpn fs ls aligned. set (B := fresh_mem _).
  assert (0 <= fs /\ 128 * fs <= pos < 128 * fs + 128 /\ 128 * ls <= pos + n - 1 < 128 * ls + 128 /\ fs <= ls) as (Hfs0 & Hfs & Hls & Hle)
    by (unfold fs, ls; dlia).
  assert (length B = Z.to_nat ((1 + ls - fs) * 128)) as HlB by (unfold B; pose proof (fresh_length ((1 + ls - fs) * 128)); lia).
  assert (exists b1 d1, (if negb aligned then let! ' (_, buf, d) := ReadAt fresh_mem f B 128 (fs * 128) d in Ok (buf, d) else Ok (B, d)) = Ok (b1, d1) /\
    same_disk d d1 /\ length b1 = length B /\ Forall is_byte b1 /\
    (aligned = false -> forall r, 0 <= r < 128 -> fs * 128 + r < numBytes (hdr f) -> b1 !! Z.to_nat r = raw d (hdr f) !! Z.to_nat (fs * 128 + r)))
    as (b1 & d1 & E1 & Hs1 & Hl1 & Hb1 & Hf1).
  { destruct aligned.
    { exists B, d. split; [done |]. split; [done |]. split; [done |]. split; [apply fresh_bytes | done]. }
    cbn [negb].
    destruct (fill_sector f d B fs 0 Hh Hd) as (c & b & d1 & E & Hs & Hl & Hb & _ & Hr); [lia | lia | lia | apply fresh_bytes |].
    rewrite drop_0 in E. change SectorSize with 128 in E. exists b, d1. rewrite E. split; [done |]. split; [done |]. split; [done |]. split; [done |]. intros _. exact Hr. }
  exists b1, d1. assert (aligned = true -> pos = fs * 128) as Hal by (unfold aligned; apply Z.eqb_eq).
  assert (raw d1 (hdr f) = raw d (hdr f)) as Er by (unfold raw; by rewrite (secs_same d d1)).
  destruct (_ && _) eqn:Eb.
  - destruct (fill_sector f d1 b1 ls (Z.to_nat ((ls - fs) * 128)) Hh (proj1 Hs1)) as (c & b & d2 & E & Hs & Hl & Hb & Hk & Hr);
      [lia | lia | lia | done |].
    change SectorSize with 128 in E. cbn zeta. rewrite E. cbn [obind]. eexists _, d2. split; [done |]. split; [done |]. split; [by eapply same_disk_trans |].
    split; [lia |]. split; [done |]. rewrite Er in Hr. intros j Hj Hjn [Hlt|Hge].
    + destruct aligned eqn:Ea; [specialize (Hal eq_refl); lia |].
      assert (fs <> ls) as Hne by (apply andb_true_iff in Eb as [_ Eb]; rewrite orb_false_r in Eb; apply negb_true_iff, Z.eqb_neq in Eb; done).
      rewrite Hk by lia. rewrite Hf1 by (done || lia). f_equal. lia.
    + replace (Z.to_nat (j - fs * 128)) with (Z.to_nat ((ls - fs) * 128) + Z.to_nat (j - ls * 128))%nat by lia.
      rewrite Hr by lia. f_equal. lia.
  - exists b1, d1. split; [done |]. split; [done |]. split; [done |]. split; [lia |]. split; [done |]. intros j Hj Hjn Hout.
    assert (aligned = false /\ j < fs * 128 + 128) as [Ea Hj2].
    { destruct Hout as [Hlt|Hge]; [destruct aligned; [specialize (Hal eq_refl); lia | split; [done | lia]] |].
      apply andb_false_iff in Eb as [Eb|Eb]; [apply negb_false_iff, Z.eqb_eq in Eb; lia |].
      apply orb_false_iff in Eb as [Eb Ea]. apply negb_false_iff, Z.eqb_eq in Eb. split; [done | lia]. }
    replace j with (fs * 128 + (j - fs * 128)) at 2 by lia. apply Hf1; [done | lia | lia].
Qed.

Lemma raw_lookup d h (j : Z) : hdr_ok h -> good d -> 0 <= j ->
  raw d h !! Z.to_nat j = s ← blocks h !! Z.to_nat (j / 128); sector d s !! Z.to_nat (j mod 128).
Proof.
  intros Hh Hd Hj. replace (Z.to_nat j) with (Z.to_nat (j / 128) * 128 + Z.to_nat (j mod 128))%nat by dlia.
  unfold raw. rewrite lookup_blocks; [| by apply secs_length | dlia].
  unfold secs. rewrite list_lookup_fmap. by destruct (blocks h !! Z.to_nat (j / 128)).
Qed.

(** Sectors [first], ... written with [buf]: what the file then holds. *)
Lemma raw_written d d' h first count buf (j : Z) :
  hdr_ok h -> good d -> good d' -> 0 <= first -> 0 <= j < numSectors h * 128 ->
  (forall q s, first <= q < first + count -> blocks h !! Z.to_nat q = Some s ->
     sector d' s = take 128 (drop (Z.to_nat ((q - first) * 128)) buf)) ->
  (forall j, valid_sector j -> (forall q, first <= q < first + count -> blocks h !! Z.to_nat q <> Some j) -> sector d' j = sector d j) ->
  raw d' h !! Z.to_nat j =
    if decide (first * 128 <= j < (first + count) * 128) then buf !! Z.to_nat (j - first * 128) else raw d h !! Z.to_nat j.
Proof.
  intros Hh Hd Hd' Hf Hj Hw Ho. rewrite !raw_lookup by (done || lia).
  destruct (lookup_lt_is_Some_2 (blocks h) (Z.to_nat (j / 128))) as [s Hs]; [rewrite length_of_blocks by done; dlia |].
  rewrite Hs. cbn. destruct (decide _) as [Hin|Hout].
  - rewrite (Hw (j / 128) s) by (done || dlia). rewrite lookup_take_lt, lookup_drop by dlia. f_equal. dlia.
  - rewrite Ho; [done | |].
    + pose proof (ho_valid _ Hh) as HV. rewrite Forall_forall in HV. apply HV. by eapply list_elem_of_lookup_2.
    + intros q Hq Hqs. pose proof (proj1 (NoDup_alt _) (ho_nodup _ Hh) _ _ _ Hs Hqs). dlia.
Qed.

Lemma WriteAt_ok f from n pos d :
  hdr_ok (hdr f) -> good d -> 0 < n < 2 ^ 30 -> 0 <= pos < numBytes (hdr f) ->
  clip (hdr f) n pos <= Z.of_nat (length from) -> Forall is_byte from ->
  exists d', WriteAt fresh_mem f from n pos d = Ok (clip (hdr f) n pos, d') /\ good d' /\
    fbytes d' (hdr f) = overwrite (fbytes d (hdr f)) (Z.to_nat pos) (take (Z.to_nat (clip (hdr f) n pos)) from) /\
    forall j, valid_sector j -> j ∉ blocks (hdr f) -> sector d' j = sector d j.
Proof.
  intros Hh Hd Hn Hp Hfrom Hfb. unfold WriteAt, FileLength. pose proof (ho_enough _ Hh) as [He Hns].
  pose proof (ho_bytes _ Hh) as Hb. change MaxFileSize with 3840 in Hb.
  rewrite (proj2 (Z.leb_gt _ _)), (proj2 (Z.leb_gt _ _)) by lia. cbn [orb].
  rewrite (s32_id (pos + n)), (s32_id (numBytes (hdr f) - pos)) by (unfold is_s32; lia).
  assert ((if numBytes (hdr f) <? pos + n then numBytes (hdr f) - pos else n) = clip (hdr f) n pos) as ->.
  { unfold clip. destruct (Z.ltb_spec (numBytes (hdr f)) (pos + n)); lia. }
  set (n' := clip (hdr f) n pos) in *. assert (0 < n' /\ pos + n' <= numBytes (hdr f)) as Hn' by (unfold n', clip; lia).
  unfold divRoundDown. change SectorSize with 128 in *. rewrite !Z.quot_div_nonneg by lia.
  destruct (fill_buffer f d pos n' Hh Hd ltac:(lia) ltac:(lia) ltac:(lia)) as (b1 & d0 & buf & d1 & E1 & E2 & Hs1 & Hlb & Hbb & Hbuf).
  revert E1 E2 Hlb Hbuf. cbn zeta. set (fs := pos / 128). set (ls := (pos + n' - 1) / 128). intros E1 E2 Hlb Hbuf.
  assert (0 <= fs /\ 128 * fs <= pos < 128 * fs + 128 /\ 128 * ls <= pos + n' - 1 < 128 * ls + 128 /\ fs <= ls) as (Hfs0 & Hfs & Hls & Hle)
    by (unfold fs, ls; dlia).
  rewrite E1. cbn [obind]. rewrite E2. cbn [obind]. rewrite AddrSpace.slice_Ok by lia. cbn [obind].
  rewrite drop_0. set (part := take _ from). assert (length part = Z.to_nat n') as Hlp by (unfold part; rewrite length_take; lia).
  destruct (AddrSpace.blit_Ok buf (pos - fs * 128) part) as (buf2 & -> & Hl2 & Hbuf2); [lia | lia |]. cbn [obind].
  destruct (write_sectors_spec (hdr f) d1 fs (1 + ls - fs) buf2 Hh (proj1 Hs1)) as (d' & -> & Hg & Hw & Ho);
    [lia | lia | lia | change SectorSize with 128; lia | |].
  { apply Forall_lookup_2. intros i x. rewrite Hbuf2. case_bool_decide; intros Hx.
    - by apply (Forall_lookup_1 _ _ _ _ (Forall_take _ _ _ Hfb) Hx).
    - by apply (Forall_lookup_1 _ _ _ _ Hbb Hx). }
  cbn [obind]. exists d'. split; [done |]. split; [done |]. split.
  2:{ intros j Hj Hjb. rewrite Ho; [by apply Hs1 | done |]. intros q _ Hq. apply Hjb. by eapply list_elem_of_lookup_2. }
  apply list_eq. intros i. rewrite lookup_overwrite by (rewrite fbytes_length by done; lia).
  destruct (decide (i < Z.to_nat (numBytes (hdr f)))%nat) as [Hi|Hi].
  2:{ rewrite decide_False by lia. rewrite !lookup_ge_None_2; [done | |]; rewrite fbytes_length by done; lia. }
  unfold fbytes at 1. rewrite lookup_take_lt by lia. rewrite <- (Nat2Z.id i) at 1.
  rewrite (raw_written d1 d' (hdr f) fs (1 + ls - fs) buf2) by (done || lia || apply Hs1).
  unfold raw at 1. rewrite (secs_same d d1) by done. fold (raw d (hdr f)).
  assert (fbytes d (hdr f) !! i = raw d (hdr f) !! i) as -> by (unfold fbytes; by rewrite lookup_take_lt by lia).
  destruct (decide (Z.to_nat pos <= i < _)%nat) as [Hin|Hout].
  - rewrite decide_True, Hbuf2, bool_decide_eq_true_2 by lia. f_equal. lia.
  - destruct (decide (fs * 128 <= _ < _)) as [Hj|_]; [|by rewrite Nat2Z.id].
    rewrite Hbuf2, bool_decide_eq_false_2 by lia. rewrite Hbuf by lia. by rewrite Nat2Z.id.
Qed.

(** *** Reading and writing, as one reads and writes a byte sequence *)

(** [n] bytes of [c] at [pos], as far as they go; what is read, and what a
    write of [from] leaves. A file does not grow. *)
Definition read_bytes (c : list Z) (pos n : Z) : list Z :=
  if (n <=? 0) || (Z.of_nat (length c) <=? pos) then [] else take (Z.to_nat n) (drop (Z.to_nat pos) c).
Definition written (c : list Z) (pos n : Z) : Z :=
  if (n <=? 0) || (Z.of_nat (length c) <=? pos) then 0 else Z.min n (Z.of_nat (length c) - pos).
Definition write_bytes (c : list Z) (pos n : Z) (from : list Z) : list Z :=
  overwrite c (Z.to_nat pos) (take (Z.to_nat (written c pos n)) from).

(** Nothing but the data sectors of [h] changes. *)
Definition others_same (d d' : D) (h : FileHeader) : Prop :=
  forall j, valid_sector j -> j ∉ blocks h -> sector d' j = sector d j.

Lemma overwrite_nil c pos : overwrite c pos [] = c.
Proof. unfold overwrite. cbn. by rewrite Nat.add_0_r, take_drop. Qed.

Lemma ReadAt_bytes f into n pos d :
  hdr_ok (hdr f) -> good d -> n < 2 ^ 30 -> 0 <= pos -> n <= Z.of_nat (length into) ->
  let r := read_bytes (fbytes d (hdr f)) pos n in
  exists d', ReadAt fresh_mem f into n pos d = Ok (Z.of_nat (length r), r ++ drop (length r) into, d') /\ same_disk d d'.
Proof.
  intros Hh Hd Hn Hp Hi r. subst r. unfold read_bytes. rewrite fbytes_length by done. pose proof (ho_bytes _ Hh).
  rewrite Z2Nat.id by lia. destruct ((n <=? 0) || (numBytes (hdr f) <=? pos)) eqn:E.
  - exists d. split; [|done]. unfold ReadAt, FileLength. by rewrite E.
  - apply orb_false_iff in E as [E1%Z.leb_gt E2%Z.leb_gt].
    destruct (ReadAt_ok f into n pos d Hh Hd ltac:(lia) ltac:(lia)) as (d' & E & Hs); [unfold clip; lia |].
    exists d'. split; [|done]. rewrite E. set (c := clip (hdr f) n pos).
    assert (take (Z.to_nat n) (drop (Z.to_nat pos) (fbytes d (hdr f))) = take (Z.to_nat c) (drop (Z.to_nat pos) (raw d (hdr f)))) as ->.
    { unfold fbytes. rewrite skipn_firstn_comm, take_take. f_equal. unfold c, clip. lia. }
    assert (length (take (Z.to_nat c) (drop (Z.to_nat pos) (raw d (hdr f)))) = Z.to_nat c) as ->.
    { pose proof (ho_enough _ Hh). rewrite length_take, length_drop, raw_length by done. unfold c, clip. lia. }
    do 3 f_equal. unfold c, clip. lia.
Qed.

Lemma WriteAt_bytes f from n pos d :
  hdr_ok (hdr f) -> good d -> n < 2 ^ 30 -> 0 <= pos -> n <= Z.of_nat (length from) -> Forall is_byte from ->
  exists d', WriteAt fresh_mem f from n pos d = Ok (written (fbytes d (hdr f)) pos n, d') /\ good d' /\
    fbytes d' (hdr f) = write_bytes (fbytes d (hdr f)) pos n from /\ others_same d d' (hdr f).
Proof.
  intros Hh Hd Hn Hp Hf Hb. unfold write_bytes, written. rewrite fbytes_length by done. pose proof (ho_bytes _ Hh).
  rewrite Z2Nat.id by lia. destruct ((n <=? 0) || (numBytes (hdr f) <=? pos)) eqn:E.
  - exists d. unfold WriteAt, FileLength. rewrite E, take_0, overwrite_nil. done.
  - apply orb_false_iff in E as [E1%Z.leb_gt E2%Z.leb_gt].
    destruct (WriteAt_ok f from n pos d Hh Hd ltac:(lia) ltac:(lia)) as (d' & E & Hg & Hw & Ho); [unfold clip; lia | done |].
    by exists d'.
Qed.

Lemma length_read_bytes c pos n : 0 <= pos -> Z.of_nat (length (read_bytes c pos n)) = written c pos n.
Proof.
  intros Hp. unfold read_bytes, written. destruct (_ || _) eqn:E; [done |].
  apply orb_false_iff in E as [E1%Z.leb_gt E2%Z.leb_gt]. rewrite length_take, length_drop. lia.
Qed.

Lemma written_end c pos n : 0 <= pos -> is_s32 pos -> Z.of_nat (length c) < 2 ^ 31 -> is_s32 (pos + written c pos n).
Proof.
  intros Hp Hr Hl. unfold written, is_s32 in *. destruct (_ || _) eqn:E; [lia |].
  apply orb_false_iff in E as [E1%Z.leb_gt E2%Z.leb_gt]. lia.
Qed.

End Files.
(** A disk in memory: the list of its sectors. *)
Module RamDisk.

#[global] Instance ram_disk : SectorDisk (list (list Z)) := {|
  read_sector i d := assert! (0 <=? i) && (i <? NumSectors); let! b := arr_get d i in Ok (b, d);
  write_sector i b d := assert! (0 <=? i) && (i <? NumSectors); arr_set d i b;
  Disk.sector d i := default [] (d !! Z.to_nat i);
  good d := length d = Z.to_nat NumSectors /\ Forall (fun b => Z.of_nat (length b) = SectorSize /\ Forall is_byte b) d
|}.

#[global] Instance ram_laws : SectorLaws (list (list Z)).
Proof.
  assert (forall d i, good d -> valid_sector i -> exists b, d !! Z.to_nat i = Some b /\ arr_get d i = Ok b /\
    ((0 <=? i) && (i <? NumSectors)) = true /\ Z.of_nat (length b) = SectorSize /\ Forall is_byte b) as Hget.
  { intros d i [Hl Hb] Hi. unfold valid_sector in Hi. destruct (arr_get_in_range d i) as (b & E & Hb'); [lia |].
    exists b. split; [done |]. split; [done |]. split; [lia |]. by apply (Forall_lookup_1 _ _ _ _ Hb Hb'). }
  split.
  - intros d i Hd Hi. destruct (Hget d i Hd Hi) as (b & Hb & _ & _ & Hl & _). cbn. by rewrite Hb.
  - intros d i Hd Hi. destruct (Hget d i Hd Hi) as (b & Hb & _ & _ & _ & Hl). cbn. by rewrite Hb.
  - intros d i Hd Hi. destruct (Hget d i Hd Hi) as (b & Hb & E & Er & _). cbn. rewrite Er, E, Hb. cbn. by exists d.
  - intros d i b Hd Hi Hl Hb. destruct (Hget d i Hd Hi) as (b0 & Hb0 & _ & Er & _). destruct Hd as [Hld Hbd]. cbn. rewrite Er. cbn [obind assert_].
    unfold valid_sector in Hi. rewrite arr_set_Ok by lia. eexists. split; [done |]. split; [split; [by rewrite length_insert | by apply Forall_insert] |].
    rewrite list_lookup_insert_eq by lia. split; [done |]. intros j Hj Hne. unfold valid_sector in Hj. rewrite list_lookup_insert_ne by lia. done.
  - intros d i Hi. cbn. unfold valid_sector in Hi. destruct (Z.leb_spec 0 i), (Z.ltb_spec i NumSectors); done || lia.
  - intros d i b Hi. cbn. unfold valid_sector in Hi. destruct (Z.leb_spec 0 i), (Z.ltb_spec i NumSectors); done || lia.
Qed.

Definition blank : list (list Z) := replicate (Z.to_nat NumSectors) (replicate 128 7).
Definition fresh (n : Z) : list Z := replicate (Z.to_nat n) 99.

Lemma blank_good : good blank.
Proof. split; [apply length_replicate |]. apply Forall_replicate. split; [done |]. apply Forall_replicate. done. Qed.

Lemma fresh_length n : 0 <= n -> Z.of_nat (length (fresh n)) = n.
Proof. intros. unfold fresh. rewrite length_replicate. lia. Qed.

Lemma fresh_bytes n : Forall is_byte (fresh n).
Proof. apply Forall_replicate. done. Qed.

(** A file of 300 bytes in the sectors 9, 4 and 7. *)
Definition some_file : OpenFile := mkOpenFile (mkHeader 300 3 ([9; 4; 7] ++ replicate 27 0)) 0.

Lemma some_file_ok : hdr_ok (hdr some_file).
Proof.
  split; cbn; [done | done | done | | |].
  - repeat constructor; done.
  - repeat constructor; done.
  - apply (bool_decide_unpack _). vm_compute. exact I.
Qed.

End RamDisk.

(** C39.  A file is the sequence of its bytes.  On a disk that keeps what is
    written to its sectors, for a file whose header is well formed (a length
    of at most [MaxFileSize], as many sectors as the length needs, all
    distinct and on the disk), [ReadAt] returns the bytes of the sequence
    at the position, as many as were asked for and exist, and changes no
    sector; [WriteAt] replaces them by the bytes given and returns their
    number, the sequence keeps its length, and no sector outside the file
    changes (the sectors that are only partly written are read first).
    [Read] and [Write] do so at the seek position and advance it by what
    they return. *)
Theorem file_refines_bytes {D} `{SL : SectorLaws D} (fresh_mem : Z -> list Z) (f : OpenFile) (n pos : Z) (d : D)
    (Hfresh : forall k, 0 <= k -> Z.of_nat (length (fresh_mem k)) = k) (Hbytes : forall k, Forall is_byte (fresh_mem k))
    (Hh : hdr_ok (hdr f)) (Hd : good d) (Hn : n < 2 ^ 30) (Hp : 0 <= pos < 2 ^ 31) :
  let c := fbytes d (hdr f) in
  Z.of_nat (length c) = Length f /\
  (forall into, n <= Z.of_nat (length into) ->
     exists d', same_disk d d' /\
       ReadAt fresh_mem f into n pos d = Ok (written c pos n, read_bytes c pos n ++ drop (length (read_bytes c pos n)) into, d') /\
       File_Read fresh_mem (Seek f pos) into n d =
         Ok (written c pos n, read_bytes c pos n ++ drop (length (read_bytes c pos n)) into, Seek f (pos + written c pos n), d')) /\
  (forall from, n <= Z.of_nat (length from) -> Forall is_byte from ->
     exists d', good d' /\ fbytes d' (hdr f) = write_bytes c pos n from /\ others_same d d' (hdr f) /\
       WriteAt fresh_mem f from n pos d = Ok (written c pos n, d') /\
       File_Write fresh_mem (Seek f pos) from n d = Ok (written c pos n, Seek f (pos + written c pos n), d')).
Proof.
  intros c. pose proof (ho_bytes _ Hh) as Hb. change MaxFileSize with 3840 in Hb.
  assert (Z.of_nat (length c) = numBytes (hdr f)) as Hl by (unfold c; rewrite fbytes_length by done; lia).
  assert (s32 (pos + written c pos n) = pos + written c pos n) as Hend by (apply s32_id, written_end; unfold is_s32; lia).
  split; [done |]. split.
  - intros into Hi. destruct (ReadAt_bytes fresh_mem Hfresh f into n pos d Hh Hd Hn ltac:(lia) Hi) as (d' & E & Hs).
    exists d'. split; [done |]. fold c in E. rewrite length_read_bytes in E by lia. split; [exact E |].
    unfold File_Read. change (ReadAt fresh_mem (Seek f pos)) with (ReadAt fresh_mem f). cbn [seekPosition Seek]. rewrite E. cbn [obind].
    by rewrite Hend.
  - intros from Hi Hfb. destruct (WriteAt_bytes fresh_mem Hfresh Hbytes f from n pos d Hh Hd Hn ltac:(lia) Hi Hfb) as (d' & E & Hg & Hw & Ho).
    exists d'. split; [done |]. split; [done |]. split; [done |]. fold c in E. split; [exact E |].
    unfold File_Write. change (WriteAt fresh_mem (Seek f pos)) with (WriteAt fresh_mem f). cbn [seekPosition Seek]. rewrite E. cbn [obind].
    by rewrite Hend.
Qed.

(** 20 bytes written at 290: the first ten fit, and are read back from 280 on. *)
Lemma file_refines_bytes_witness :
  exists d', WriteAt RamDisk.fresh RamDisk.some_file (seqZ 1 20) 20 290 RamDisk.blank = Ok (10, d') /\ good d' /\
    read_bytes (fbytes d' (hdr RamDisk.some_file)) 280 100 = replicate 10 7 ++ seqZ 1 10.
Proof.
  destruct (file_refines_bytes RamDisk.fresh RamDisk.some_file 20 290 RamDisk.blank RamDisk.fresh_length RamDisk.fresh_bytes
    RamDisk.some_file_ok RamDisk.blank_good ltac:(lia) ltac:(lia)) as (_ & _ & Hw).
  destruct (Hw (seqZ 1 20)) as (d' & Hg & Hb & _ & E & _); [done | |].
  { apply Forall_forall. intros x Hx%elem_of_seqZ. unfold is_byte. lia. }
  exists d'. split; [rewrite E; f_equal |]. split; [exact Hg |]. rewrite Hb. vm_compute. reflexivity.
Defined.

End FileSysProofs.
