(* ===== verification/FileSysSpec.v ===== *)
(** * The Nachos file system refines a map from names to byte sequences

    [fs_rep d fs m]: what is on the disk [d] of the file system [fs] is the
    map [m].  Format, [Create], [Open], [Remove], [List] and writing to an
    open file follow the operations on [m]; the sectors of the files, of
    the two system files and of the headers never overlap, and the free map
    has exactly these marked. *)

From S2P Require Import Prelude Bitmap Machine AddrSpace Disk FileSys FileSysProofs.

Module FileSysSpec.
Import Bitmap Disk FileSys FileSysProofs.

(** ** Names: the first nine bytes, up to a NUL *)

Fixpoint until_nul (k : nat) (l : list Z) : list Z :=
  match k, l with
  | S k', x :: l' => if x =? 0 then [] else x :: until_nul k' l'
  | _, _ => []
  end.
Definition key (n : list Z) : list Z := until_nul (Z.to_nat FileNameMaxLen) n.

Lemma strncmp_eq_iff k a b : strncmp_eq k a b = bool_decide (until_nul k a = until_nul k b).
Proof.
  revert a b. induction k as [|k IH]; intros a b; [by rewrite bool_decide_eq_true_2 |].
  assert (forall c, until_nul (S k) c = if default 0 (head c) =? 0 then [] else default 0 (head c) :: until_nul k (tail c)) as Hu
    by (intros [|x c]; reflexivity).
  rewrite !Hu. cbn [strncmp_eq]. rewrite IH. set (x := default 0 (head a)). set (y := default 0 (head b)).
  destruct (Z.eqb_spec x y) as [->|Hxy]; cbn [negb].
  - destruct (y =? 0); [done |]. apply bool_decide_ext. split; [by intros -> | by intros [= ->]].
  - symmetry. apply bool_decide_eq_false. destruct (Z.eqb_spec x 0), (Z.eqb_spec y 0); try lia; try done. by intros [= ? _].
Qed.

Lemma until_nul_copy k m l r : (k <= m)%nat -> until_nul k (take k (l ++ replicate m 0) ++ r) = until_nul k l.
Proof.
  revert m l. induction k as [|k IH]; intros m l Hm; [done |].
  destruct l as [|x l]; [by destruct m; [lia |] |]. cbn. by rewrite IH by lia.
Qed.

Lemma key_strncpy dst src : key (strncpy dst src (Z.to_nat FileNameMaxLen)) = key src.
Proof. apply until_nul_copy. done. Qed.

Lemma strncpy_length dst src k : (k <= length dst)%nat -> length (strncpy dst src k) = length dst.
Proof. intros H. unfold strncpy. rewrite length_app, length_take, length_app, length_replicate, length_drop. lia. Qed.

Lemma strncpy_bytes dst src k : Forall is_byte dst -> Forall is_byte src -> Forall is_byte (strncpy dst src k).
Proof.
  intros Hd Hs. apply Forall_app. split; [|by apply Forall_drop].
  apply Forall_take, Forall_app. split; [done |]. apply Forall_replicate. done.
Qed.

(** ** The directory table *)

Definition used_entries (t : list DirectoryEntry) : list DirectoryEntry := filter (fun e => used e = true) t.

Lemma find_entry_spec p t i : 0 <= i ->
  (find_entry p t i = -1 /\ forall e, e ∈ t -> p e = false) \/
  exists k e, find_entry p t i = i + Z.of_nat k /\ t !! k = Some e /\ p e = true.
Proof.
  revert i. induction t as [|e t IH]; intros i Hi; cbn.
  - left. split; [done |]. intros e He. by apply elem_of_nil in He.
  - destruct (p e) eqn:E; [right; exists 0%nat, e; split; [lia | done] |].
    destruct (IH (i + 1)) as [[-> H]|(k & e' & -> & Hk & Hp)]; [lia | |].
    + left. split; [done |]. intros e' [->|He]%elem_of_cons; [done | by apply H].
    + right. exists (S k), e'. split; [lia | done].
Qed.

Lemma used_entries_all t : (forall e, e ∈ t -> used e = true) -> used_entries t = t.
Proof.
  unfold used_entries. induction t as [|e t IH]; intros H; [done |].
  rewrite filter_cons_True by (apply H; left). rewrite IH; [done |]. intros e' He'. apply H. by right.
Qed.

Definition entry_key (e : DirectoryEntry) : list Z := key (name e).

Lemma FindIndex_spec t n :
  (FindIndex t n = -1 /\ key n ∉ entry_key <$> used_entries t) \/
  exists k e, FindIndex t n = Z.of_nat k /\ t !! k = Some e /\ used e = true /\ entry_key e = key n.
Proof.
  unfold FindIndex. destruct (find_entry_spec (fun e => used e && strncmp_eq (Z.to_nat FileNameMaxLen) (name e) n) t 0 ltac:(lia))
    as [[-> H]|(k & e & -> & Hk & Hp)].
  - left. split; [done |]. intros (e & Ee & [Hu He]%list_elem_of_filter)%list_elem_of_fmap.
    specialize (H e He). cbn in H. rewrite Hu, strncmp_eq_iff in H. apply bool_decide_eq_false in H. by apply H.
  - right. exists k, e. apply andb_true_iff in Hp as [Hu Hs]. rewrite strncmp_eq_iff in Hs.
    apply bool_decide_eq_true in Hs. done.
Qed.

Lemma used_entries_split (t : list DirectoryEntry) (k : nat) e e' : t !! k = Some e ->
  exists l r, t = l ++ e :: r /\ <[k := e']> t = l ++ e' :: r.
Proof.
  intros Hk. exists (take k t), (drop (S k) t). split; [by symmetry; apply take_drop_middle |].
  by apply insert_take_drop, (lookup_lt_Some _ _ _ Hk).
Qed.

Lemma used_entries_add t (k : nat) e e' : t !! k = Some e -> used e = false -> used e' = true ->
  used_entries (<[k := e']> t) ≡ₚ e' :: used_entries t.
Proof.
  intros Hk He He'. destruct (used_entries_split t k e e' Hk) as (l & r & -> & ->). unfold used_entries.
  rewrite !filter_app, filter_cons_True, filter_cons_False by congruence. by rewrite Permutation_middle.
Qed.

Lemma used_entries_remove t (k : nat) e e' : t !! k = Some e -> used e = true -> used e' = false ->
  used_entries t ≡ₚ e :: used_entries (<[k := e']> t).
Proof.
  intros Hk He He'. destruct (used_entries_split t k e e' Hk) as (l & r & -> & ->). unfold used_entries.
  rewrite !filter_app, filter_cons_True, filter_cons_False by congruence. by rewrite Permutation_middle.
Qed.

Lemma new_entry_ok e n s : entry_ok e -> is_s32 s -> Forall is_byte n ->
  entry_ok (mkEntry 1 (pad1 e) s (strncpy (name e) n (Z.to_nat FileNameMaxLen)) (pad2 e)).
Proof.
  intros (_ & H1 & H2 & _ & H3 & H4 & H5 & H6) Hs Hn. unfold entry_ok. cbn [inUse pad1 sector name pad2].
  split; [done |]. split; [done |]. split; [done |]. split; [done |].
  split; [rewrite strncpy_length; [done | rewrite H3; change (Z.to_nat FileNameMaxLen) with 9%nat; lia] |]. split; [by apply strncpy_bytes | done].
Qed.

Lemma set_inUse_ok v e : is_byte v -> entry_ok e -> entry_ok (set_inUse v e).
Proof. intros Hv (_ & H). by split. Qed.

Lemma Find_spec t n : Forall entry_ok t ->
  (Find t n = Ok (-1) /\ FindIndex t n = -1 /\ key n ∉ entry_key <$> used_entries t) \/
  exists k e, Find t n = Ok (sector e) /\ FindIndex t n = Z.of_nat k /\ t !! k = Some e /\ used e = true /\ entry_key e = key n.
Proof.
  intros Ht. unfold Find. destruct (FindIndex_spec t n) as [[E H]|(k & e & E & Hk & Hu & He)]; rewrite E.
  - by left.
  - right. exists k, e. rewrite (proj2 (Z.eqb_neq _ _)) by lia. cbn [negb]. rewrite (arr_get_nat _ _ e) by done. done.
Qed.

Lemma Dir_Remove_spec t n k e : FindIndex t n = Z.of_nat k -> t !! k = Some e ->
  Dir_Remove t n = Ok (true, <[k := set_inUse 0 e]> t).
Proof.
  intros E Hk. unfold Dir_Remove. rewrite E, (proj2 (Z.eqb_neq _ _)) by lia. rewrite (arr_get_nat _ _ e) by done. cbn [obind].
  pose proof (lookup_lt_Some _ _ _ Hk). rewrite arr_set_Ok, Nat2Z.id by lia. done.
Qed.

Lemma Add_spec t n s : FindIndex t n = -1 ->
  (Add t n s = Ok (false, t) /\ used_entries t = t) \/
  exists k e, t !! k = Some e /\ used e = false /\
    Add t n s = Ok (true, <[k := mkEntry 1 (pad1 e) s (strncpy (name e) n (Z.to_nat FileNameMaxLen)) (pad2 e)]> t).
Proof.
  intros E. unfold Add. rewrite E. cbn [Z.eqb negb].
  destruct (find_entry_spec (fun e => negb (used e)) t 0 ltac:(lia)) as [[-> H]|(k & e & -> & Hk & Hp)].
  - left. split; [done |]. apply used_entries_all. intros e He. specialize (H e He). cbn in H. by apply negb_false_iff in H.
  - right. exists k, e. split; [done |]. split; [by apply negb_true_iff |].
    rewrite (proj2 (Z.eqb_neq _ _)) by lia. cbn [negb]. rewrite Z.add_0_l, (arr_get_nat _ _ e) by done. cbn [obind].
    pose proof (lookup_lt_Some _ _ _ Hk). rewrite arr_set_Ok, Nat2Z.id by lia. done.
Qed.

(** ** The free map *)

Notation rep b s := (bm_rep b NumSectors s).

Lemma rep_size b s : rep b s -> 0 <= Z.of_nat (size s) <= NumSectors.
Proof.
  intros Hr. assert (s ⊆ list_to_set (seqZ 0 NumSectors)) as Hs.
  { intros i Hi. apply (bm_bound (rep := bm_rep) _ _ _ _ Hr) in Hi. apply elem_of_list_to_set, elem_of_seqZ. lia. }
  apply subseteq_size in Hs. rewrite size_list_to_set, length_seqZ in Hs by apply NoDup_seqZ. change NumSectors with 1024 in *. lia.
Qed.

Lemma rep_room b s : rep b s -> Z.of_nat (size s) < NumSectors ->
  exists i b', FindAndSet b = Ok (i, b') /\ valid_sector i /\ i ∉ s /\ rep b' ({[i]} ∪ s).
Proof.
  intros Hr Hs. destruct (bm_FindAndSet (rep := bm_rep) _ _ _ Hr) as [(i & b' & E & (Hi & Hn & _) & Hr')|[_ Hall]]; [by exists i, b' |].
  assert (list_to_set (seqZ 0 NumSectors) ⊆ s) as Hsub.
  { intros i Hi%elem_of_list_to_set%elem_of_seqZ. apply Hall. lia. }
  apply subseteq_size in Hsub. rewrite size_list_to_set, length_seqZ in Hsub by apply NoDup_seqZ. change NumSectors with 1024 in *. lia.
Qed.

Lemma rep_full b s : rep b s -> Z.of_nat (size s) = NumSectors -> FindAndSet b = Ok (-1, b).
Proof.
  intros Hr Hs. destruct (bm_FindAndSet (rep := bm_rep) _ _ _ Hr) as [(i & b' & _ & (Hi & Hn & _) & Hr')|[E _]]; [|done].
  apply rep_size in Hr'. rewrite size_union, size_singleton in Hr' by set_solver. lia.
Qed.

(** The sectors of a file of [size] bytes. *)
Definition sectors_for (size : Z) : Z := divRoundUp size SectorSize.

Lemma sectors_for_bounds n : 0 <= n -> n <= sectors_for n * 128 < n + 128.
Proof. intros Hn. exact (divRoundUp_spec n SectorSize Hn ltac:(done)). Qed.

Definition alloc_step : list Z * Bitmap -> Z -> outcome (list Z * Bitmap) := fun '(l, b) i =>
  let! ' (s, b) := FindAndSet b in
  let! l := arr_set l i s in
  assert! 0 <=? s;
  Ok (l, b).

Record allocated (s : gset Z) (l0 : list Z) (i : Z) (l : list Z) (b : Bitmap) : Prop := {
  al_length : length l = length l0;
  al_range : Forall is_s32 l;
  al_valid : Forall valid_sector (take (Z.to_nat i) l);
  al_fresh : Forall (fun x => x ∉ s) (take (Z.to_nat i) l);
  al_nodup : NoDup (take (Z.to_nat i) l);
  al_rep : rep b (list_to_set (take (Z.to_nat i) l) ∪ s)
}.

Lemma alloc_size s l0 i l b : allocated s l0 i l b -> 0 <= i <= Z.of_nat (length l0) ->
  Z.of_nat (size (list_to_set (take (Z.to_nat i) l) ∪ s : gset Z)) = i + Z.of_nat (size s).
Proof.
  intros [Hl _ _ Hf Hn _] Hi. rewrite size_union, size_list_to_set by
    (done || (intros x Hx%elem_of_list_to_set; rewrite Forall_forall in Hf; by apply Hf)).
  rewrite length_take. lia.
Qed.

Lemma alloc_step_ok s l0 i l b : allocated s l0 i l b -> 0 <= i < Z.of_nat (length l0) -> i + Z.of_nat (size s) < NumSectors ->
  exists l' b', alloc_step (l, b) i = Ok (l', b') /\ allocated s l0 (i + 1) l' b'.
Proof.
  intros Ha Hi Hs. pose proof (alloc_size _ _ _ _ _ Ha ltac:(lia)) as Hsz. destruct Ha as [Hl Hrg Hv Hf Hn Hr].
  destruct (rep_room _ _ Hr ltac:(lia)) as (x & b' & E & Hx & Hxs & Hr'). unfold alloc_step. rewrite E. cbn [obind].
  rewrite arr_set_Ok by lia. cbn [obind]. unfold valid_sector in Hx. rewrite (proj2 (Z.leb_le _ _)) by lia. cbn [obind assert_].
  assert (take (Z.to_nat (i + 1)) (<[Z.to_nat i := x]> l) = take (Z.to_nat i) l ++ [x]) as Et.
  { replace (Z.to_nat (i + 1)) with (S (Z.to_nat i)) by lia. rewrite (take_S_r _ _ x) by (apply list_lookup_insert_eq; lia).
    by rewrite take_insert_ge by lia. }
  eexists _, b'. split; [done |]. split; rewrite ?Et.
  - by rewrite length_insert.
  - apply Forall_insert; [done |]. change NumSectors with 1024 in Hx. unfold is_s32. lia.
  - apply Forall_app. split; [done |]. by apply Forall_singleton.
  - apply Forall_app. split; [done |]. apply Forall_singleton. set_solver.
  - apply NoDup_app. split; [done |]. split; [|apply NoDup_singleton]. intros y Hy ->%list_elem_of_singleton. set_solver.
  - rewrite list_to_set_app_L. cbn [list_to_set]. replace (_ ∪ ({[x]} ∪ ∅) ∪ s) with ({[x]} ∪ (list_to_set (take (Z.to_nat i) l) ∪ s)) by set_solver. done.
Qed.

Lemma alloc_loop s l0 b n : Forall is_s32 l0 -> rep b s -> 0 <= n <= Z.of_nat (length l0) -> n + Z.of_nat (size s) <= NumSectors ->
  exists l b', ofold alloc_step (l0, b) (seqZ 0 n) = Ok (l, b') /\ allocated s l0 n l b'.
Proof.
  intros Hl Hr Hn Hs.
  destruct (ofold_seqZ (fun i '(l, b) => allocated s l0 i l b) alloc_step 0 n (l0, b)) as ([l b'] & E & Ha); [lia | | |].
  - split; [done | done | constructor | constructor | constructor |]. change (take (Z.to_nat 0) l0) with (@nil Z). cbn [list_to_set]. by rewrite union_empty_l_L.
  - intros i [l b1] Hi Ha. destruct (alloc_step_ok s l0 i l b1 Ha ltac:(lia) ltac:(lia)) as (l' & b' & E & Ha'). by exists (l', b').
  - by exists l, b'.
Qed.

(** [Allocate]: refused without enough clear bits; past [NumDirect] sectors
    it writes outside [dataSectors]; else the header of a file of its own. *)
Lemma Allocate_spec h b s size_ : Forall is_s32 (dataSectors h) -> length (dataSectors h) = Z.to_nat NumDirect ->
  rep b s -> 0 <= size_ < 2 ^ 31 ->
  if NumSectors - Z.of_nat (size s) <? sectors_for size_ then exists h', Allocate h b size_ = Ok (false, h', b)
  else if NumDirect <? sectors_for size_ then Allocate h b size_ = Trap Undefined
  else exists h' b', Allocate h b size_ = Ok (true, h', b') /\ hdr_ok h' /\ numBytes h' = size_ /\
    Forall (fun x => x ∉ s) (blocks h') /\ rep b' (list_to_set (blocks h') ∪ s).
Proof.
  intros Hrg Hl Hr Hsz. unfold Allocate. fold (sectors_for size_). rewrite (bm_NumClear (rep := bm_rep) _ _ _ Hr). cbn [obind].
  pose proof (sectors_for_bounds size_ ltac:(lia)) as Hb. pose proof (rep_size _ _ Hr) as Hss.
  destruct (Z.ltb_spec (NumSectors - Z.of_nat (size s)) (sectors_for size_)) as [Hlt|Hge]; [by eexists |].
  cbn [dataSectors]. fold alloc_step. destruct (Z.ltb_spec NumDirect (sectors_for size_)) as [Hbig|Hfit].
  - change NumDirect with 30 in *.
    destruct (alloc_loop s (dataSectors h) b 30 Hrg Hr) as (l & b' & E & Ha); [lia | lia |].
    replace (seqZ 0 (sectors_for size_)) with (seqZ 0 30 ++ seqZ (0 + 30) (sectors_for size_ - 30)) by (rewrite <- seqZ_app by lia; f_equal; lia).
    rewrite ofold_app, E. cbn [obind]. rewrite seqZ_cons by lia. cbn [ofold alloc_step].
    pose proof (alloc_size _ _ _ _ _ Ha ltac:(lia)) as Hs'.
    destruct (rep_room _ _ (al_rep _ _ _ _ _ Ha)) as (x & b2 & E2 & _); [lia |]. rewrite E2. cbn [obind].
    unfold arr_set. rewrite (al_length _ _ _ _ _ Ha), Hl. done.
  - change NumDirect with 30 in *.
    destruct (alloc_loop s (dataSectors h) b (sectors_for size_) Hrg Hr) as (l & b' & -> & [Hll Hlr Hv Hf Hn Hr']); [lia | lia |]. cbn [obind].
    eexists _, b'. split; [done |]. split; [|done].
    split; cbn [numBytes numSectors dataSectors]; try done; [change MaxFileSize with 3840; lia | by rewrite Hll].
Qed.

Lemma Allocate_fits h b s size_ : Forall is_s32 (dataSectors h) -> length (dataSectors h) = Z.to_nat NumDirect ->
  rep b s -> 0 <= size_ < 2 ^ 31 -> sectors_for size_ <= NumSectors - Z.of_nat (size s) -> sectors_for size_ <= NumDirect ->
  exists h' b', Allocate h b size_ = Ok (true, h', b') /\ hdr_ok h' /\ numBytes h' = size_ /\
    Forall (fun x => x ∉ s) (blocks h') /\ rep b' (list_to_set (blocks h') ∪ s).
Proof.
  intros Hrg Hl Hr Hsz H1 H2. pose proof (Allocate_spec h b s size_ Hrg Hl Hr Hsz) as HA.
  rewrite (proj2 (Z.ltb_ge _ _) H1), (proj2 (Z.ltb_ge _ _) H2) in HA. exact HA.
Qed.

(** [Deallocate] clears the sectors of the file. *)
Lemma Deallocate_spec h b s : hdr_ok h -> rep b s -> Forall (fun x => x ∈ s) (blocks h) ->
  exists b', Deallocate h b = Ok b' /\ rep b' (s ∖ list_to_set (blocks h)).
Proof.
  intros Hh Hr Hin. pose proof (ho_enough _ Hh) as [_ Hns]. unfold Deallocate.
  destruct (ofold_seqZ (fun i b => rep b (s ∖ list_to_set (take (Z.to_nat i) (blocks h))))
    (fun b i => let! s := arr_get (dataSectors h) i in let! t := Test b s in assert! t; Clear b s) 0 (numSectors h) b) as (b' & E & Hr'); [lia | | |].
  - change (take (Z.to_nat 0) (blocks h)) with (@nil Z). cbn [list_to_set]. by rewrite difference_empty_L.
  - intros i b1 Hi Hr1. destruct (ByteToSector_ok h i Hh Hi) as (x & _ & Hx & Hv).
    assert (arr_get (dataSectors h) i = Ok x) as ->.
    { apply arr_get_lookup; [lia |]. unfold blocks in Hx. by rewrite lookup_take_lt in Hx by lia. }
    cbn [obind]. rewrite (bm_Test (rep := bm_rep) _ _ _ _ Hr1 Hv). cbn [obind].
    assert (x ∉ take (Z.to_nat i) (blocks h)) as Hnew.
    { intros (j & Hj)%list_elem_of_lookup. pose proof (lookup_lt_Some _ _ _ Hj) as Hlt. rewrite length_take in Hlt.
      rewrite lookup_take_lt in Hj by lia. pose proof (proj1 (NoDup_alt _) (ho_nodup _ Hh) _ _ _ Hx Hj). lia. }
    rewrite bool_decide_eq_true_2.
    2:{ apply elem_of_difference. split; [|by rewrite elem_of_list_to_set]. rewrite Forall_forall in Hin. apply Hin. by eapply list_elem_of_lookup_2. }
    cbn [obind assert_]. destruct (bm_Clear (rep := bm_rep) _ _ _ _ Hr1 Hv) as (b2 & -> & Hr2). exists b2. split; [done |].
    replace (Z.to_nat (i + 1)) with (S (Z.to_nat i)) by lia. rewrite (take_S_r _ _ x) by done. rewrite list_to_set_app_L. cbn [list_to_set].
    replace (s ∖ (list_to_set (take (Z.to_nat i) (blocks h)) ∪ ({[x]} ∪ ∅))) with (s ∖ list_to_set (take (Z.to_nat i) (blocks h)) ∖ {[x]}) by set_solver. done.
  - exists b'. split; [exact E |]. rewrite Z.add_0_l, take_ge in Hr' by (rewrite length_of_blocks by done; lia). done.
Qed.

(** ** What is on the disk *)

Section Rep.
Context {D : Type} `{SD : SectorDisk D} `{SL : !SectorLaws D}.
Notation sector_at := (@Disk.sector D SD).

(** The header a directory entry points to, and its sectors. *)
Definition entry_hdr (d : D) (e : DirectoryEntry) : FileHeader := hdr_of (sector_at d (sector e)).
Definition entry_sectors (d : D) (e : DirectoryEntry) : list Z := sector e :: blocks (entry_hdr d e).
Definition entry_file (d : D) (e : DirectoryEntry) : list Z * list Z := (entry_key e, fbytes d (entry_hdr d e)).

(** The files of the entries [es]: their sectors and their contents. *)
Definition file_sectors (d : D) (es : list DirectoryEntry) : list Z := concat (entry_sectors d <$> es).
Definition files (d : D) (es : list DirectoryEntry) : gmap (list Z) (list Z) := list_to_map (entry_file d <$> es).
Definition entry_wf (d : D) (e : DirectoryEntry) : Prop := valid_sector (sector e) /\ hdr_ok (entry_hdr d e).

Lemma fbytes_same d d' h : (forall j, j ∈ blocks h -> sector_at d' j = sector_at d j) -> fbytes d' h = fbytes d h.
Proof.
  intros H. unfold fbytes, raw, secs. do 2 f_equal. apply list_fmap_ext. intros i s Hi. apply H. by eapply list_elem_of_lookup_2.
Qed.

Lemma elem_of_file_sectors d es j : j ∈ file_sectors d es <-> exists e, e ∈ es /\ j ∈ entry_sectors d e.
Proof.
  unfold file_sectors. induction es as [|e es IH]; cbn [fmap list_fmap concat]; [set_solver |].
  rewrite elem_of_app, IH. set_solver.
Qed.

(** Entries whose sectors did not change. *)
Lemma entry_same d d' e : (forall j, j ∈ entry_sectors d e -> sector_at d' j = sector_at d j) ->
  entry_hdr d' e = entry_hdr d e /\ entry_sectors d' e = entry_sectors d e /\ entry_file d' e = entry_file d e.
Proof.
  intros H. assert (entry_hdr d' e = entry_hdr d e) as E by (unfold entry_hdr; rewrite H; [done | by left]).
  split; [done |]. unfold entry_sectors, entry_file. rewrite E. split; [done |].
  f_equal. apply fbytes_same. intros j Hj. apply H. by right.
Qed.

(** The headers of the files of [es] are as they were. *)
Definition kept (d d' : D) (es : list DirectoryEntry) : Prop := forall e, e ∈ es -> entry_hdr d' e = entry_hdr d e.

Lemma kept_headers_trans d1 d2 d3 es : kept d1 d2 es -> kept d2 d3 es -> kept d1 d3 es.
Proof. intros H1 H2 e He. by rewrite H2, H1. Qed.

Lemma files_frame d d' es : (forall j, j ∈ file_sectors d es -> sector_at d' j = sector_at d j) ->
  file_sectors d' es = file_sectors d es /\ files d' es = files d es /\ (Forall (entry_wf d) es -> Forall (entry_wf d') es) /\ kept d d' es.
Proof.
  intros H. assert (forall e, e ∈ es -> entry_hdr d' e = entry_hdr d e /\ entry_sectors d' e = entry_sectors d e /\ entry_file d' e = entry_file d e) as He.
  { intros e He. apply entry_same. intros j Hj. apply H, elem_of_file_sectors. by exists e. }
  split; [|split; [|split; [|intros e Hi; by apply He]]].
  - unfold file_sectors. f_equal. apply list_fmap_ext. intros i e Hi. apply He. by eapply list_elem_of_lookup_2.
  - unfold files. f_equal. apply list_fmap_ext. intros i e Hi. apply He. by eapply list_elem_of_lookup_2.
  - rewrite !Forall_forall. intros Hw e Hi. destruct (Hw e Hi) as [H1 H2]. split; [done |]. by rewrite (proj1 (He e Hi)).
Qed.

Lemma file_sectors_cons d e es : file_sectors d (e :: es) = entry_sectors d e ++ file_sectors d es.
Proof. done. Qed.

Lemma files_cons d e es : files d (e :: es) = <[entry_key e := fbytes d (entry_hdr d e)]> (files d es).
Proof. done. Qed.

Lemma file_sectors_perm d es es' : es ≡ₚ es' -> file_sectors d es ≡ₚ file_sectors d es'.
Proof.
  intros H. unfold file_sectors. induction H as [|x l l' _ IH|x y l|l1 l2 l3 _ IH1 _ IH2]; cbn [fmap list_fmap concat];
    [done | by rewrite IH | | by rewrite IH1].
  by rewrite !app_assoc, (Permutation_app_comm (entry_sectors d y)).
Qed.

Lemma files_perm d es es' : NoDup (entry_key <$> es) -> es ≡ₚ es' -> files d es = files d es'.
Proof.
  intros Hn H. unfold files. apply list_to_map_proper; [|by rewrite H].
  rewrite <- list_fmap_compose. exact Hn.
Qed.

Lemma files_None d es n : n ∉ entry_key <$> es -> files d es !! n = None.
Proof.
  intros H. apply not_elem_of_list_to_map_1. rewrite <- list_fmap_compose. exact H.
Qed.

Lemma files_Some d es e : NoDup (entry_key <$> es) -> e ∈ es -> files d es !! entry_key e = Some (fbytes d (entry_hdr d e)).
Proof.
  intros Hn He. apply elem_of_list_to_map_1; [by rewrite <- list_fmap_compose |].
  apply list_elem_of_fmap. by exists e.
Qed.

(** The two system files, their headers in sectors 0 and 1. *)
Definition system_sectors (fs : FileSystem) : list Z :=
  [FreeMapSector; DirectorySector] ++ blocks (hdr (freeMapFile fs)) ++ blocks (hdr (directoryFile fs)).
Definition all_sectors (d : D) (fs : FileSystem) (t : list DirectoryEntry) : list Z :=
  system_sectors fs ++ file_sectors d (used_entries t).

Record system_file (d : D) (f : OpenFile) (sectorNumber len : Z) : Prop := {
  sf_hdr : hdr_of (sector_at d sectorNumber) = hdr f;
  sf_ok : hdr_ok (hdr f);
  sf_len : numBytes (hdr f) = len
}.

Record fs_wf (d : D) (fs : FileSystem) (t : list DirectoryEntry) : Prop := {
  fw_good : good d;
  fw_map : system_file d (freeMapFile fs) FreeMapSector FreeMapFileSize;
  fw_dir : system_file d (directoryFile fs) DirectorySector DirectoryFileSize;
  fw_table : fbytes d (hdr (directoryFile fs)) = table_bytes t;
  fw_entries : Forall entry_ok t;
  fw_length : length t = Z.to_nat NumDirEntries;
  fw_bits : exists b, rep b (list_to_set (all_sectors d fs t)) /\ fbytes d (hdr (freeMapFile fs)) = words_bytes (map b);
  fw_files : Forall (entry_wf d) (used_entries t);
  fw_nodup : NoDup (all_sectors d fs t);
  fw_names : NoDup (entry_key <$> used_entries t)
}.

Definition fs_rep (d : D) (fs : FileSystem) (m : gmap (list Z) (list Z)) : Prop :=
  exists t, fs_wf d fs t /\ files d (used_entries t) = m.

Lemma all_valid d fs t j : fs_wf d fs t -> j ∈ all_sectors d fs t -> valid_sector j.
Proof.
  intros Hw Hj. destruct (fw_bits _ _ _ Hw) as (b & Hr & _).
  apply (bm_bound (rep := bm_rep) _ _ _ _ Hr). by apply elem_of_list_to_set.
Qed.

(** Reads change nothing. *)
Lemma fs_wf_same d d' fs t : fs_wf d fs t -> same_disk d d' ->
  fs_wf d' fs t /\ files d' (used_entries t) = files d (used_entries t) /\ all_sectors d' fs t = all_sectors d fs t /\ kept d d' (used_entries t).
Proof.
  intros Hw Hs. assert (forall j, j ∈ all_sectors d fs t -> sector_at d' j = sector_at d j) as Hj.
  { intros j Hj. apply Hs. by eapply all_valid. }
  destruct (files_frame d d' (used_entries t)) as (E1 & E2 & E3 & E4).
  { intros j Hjj. apply Hj. unfold all_sectors. apply elem_of_app. by right. }
  assert (all_sectors d' fs t = all_sectors d fs t) as Ea by (unfold all_sectors; by rewrite E1).
  assert (forall f s len, system_file d f s len -> s ∈ system_sectors fs -> (forall x, x ∈ blocks (hdr f) -> x ∈ system_sectors fs) ->
    system_file d' f s len /\ fbytes d' (hdr f) = fbytes d (hdr f)) as Hsys.
  { intros f s len [H1 H2 H3] Hin Hb. split; [split; [|done|done] |].
    - rewrite Hj; [done |]. apply elem_of_app. by left.
    - apply fbytes_same. intros x Hx. apply Hj, elem_of_app. left. by apply Hb. }
  destruct (Hsys _ _ _ (fw_map _ _ _ Hw)) as [Hm Em]; [unfold system_sectors; set_solver | unfold system_sectors; set_solver |].
  destruct (Hsys _ _ _ (fw_dir _ _ _ Hw)) as [Hd Ed]; [unfold system_sectors; set_solver | unfold system_sectors; set_solver |].
  split; [|done]. destruct Hw as [H1 H2 H3 H4 H5 H6 H7 H8 H9 H10].
  split; rewrite ?Ea, ?Em, ?Ed; try done; [apply Hs | by apply E3].
Qed.

(** ** Fetching and writing back the system files *)

Context (fresh_mem : Z -> list Z)
        (fresh_length : forall n, 0 <= n -> Z.of_nat (length (fresh_mem n)) = n)
        (fresh_bytes : forall n, Forall is_byte (fresh_mem n)).

Lemma entries_of_ok k l : length l = (k * 20)%nat -> Forall is_byte l -> Forall entry_ok (entries_of k l).
Proof.
  revert l. induction k as [|k IH]; intros l Hl Hb; [constructor |]. cbn [entries_of]. constructor.
  - unfold entry_ok, entry_of. cbn [inUse pad1 sector name pad2]. rewrite !length_take, !length_drop.
    split; [|split; [lia |]; split; [by apply Forall_take, Forall_drop |]; split; [apply s32_range |];
             split; [lia |]; split; [by apply Forall_take, Forall_drop |]; split; [lia | by apply Forall_take, Forall_drop]].
    destruct l as [|x l]; [done |]. by inversion Hb.
  - apply IH; [rewrite length_drop; lia | by apply Forall_drop].
Qed.

Lemma entries_of_length k l : length (entries_of k l) = k.
Proof. revert l. induction k as [|k IH]; intros l; [done |]. cbn. by rewrite IH. Qed.

(** A new directory: nothing is in use. *)
Lemma new_Directory_ok : let t := new_Directory fresh_mem NumDirEntries in
  Forall entry_ok t /\ length t = Z.to_nat NumDirEntries /\ used_entries t = [].
Proof.
  unfold new_Directory. set (l := entries_of _ _). split; [|split].
  - apply Forall_fmap. eapply Forall_impl; [apply (entries_of_ok (Z.to_nat NumDirEntries)) |].
    + pose proof (fresh_length (NumDirEntries * sizeof_DirectoryEntry) ltac:(done)) as H.
      change (NumDirEntries * sizeof_DirectoryEntry) with 200 in H |- *. change (Z.to_nat NumDirEntries) with 10%nat. lia.
    + apply fresh_bytes.
    + intros e He. by apply set_inUse_ok.
  - unfold l. by rewrite length_fmap, entries_of_length.
  - generalize l. intros l'. unfold used_entries. induction l' as [|e l' IH]; [done |]. by rewrite fmap_cons, filter_cons_False by done.
Qed.

Lemma read_all (c : list Z) n : 0 < n -> n = Z.of_nat (length c) -> read_bytes c 0 n = c.
Proof.
  intros Hn ->. unfold read_bytes. rewrite (proj2 (Z.leb_gt _ _)) by lia. cbn [orb].
  rewrite drop_0. apply take_ge. lia.
Qed.

Lemma write_all (c b : list Z) n : 0 < n -> n = Z.of_nat (length c) -> length b = length c ->
  written c 0 n = n /\ write_bytes c 0 n b = b.
Proof.
  intros Hn -> Hb. assert (written c 0 (Z.of_nat (length c)) = Z.of_nat (length c)) as E.
  { unfold written. rewrite (proj2 (Z.leb_gt _ _)) by lia. cbn [orb]. lia. }
  split; [done |]. unfold write_bytes. rewrite E. unfold overwrite. rewrite (take_ge b) by lia. cbn [Z.to_nat take app Nat.add].
  rewrite drop_ge by lia. apply app_nil_r.
Qed.

Lemma Dir_Fetch_ok d fs t t0 : fs_wf d fs t -> Forall entry_ok t0 -> length t0 = Z.to_nat NumDirEntries ->
  exists d', Dir_FetchFrom fresh_mem (directoryFile fs) t0 d = Ok (t, d') /\ same_disk d d'.
Proof.
  intros Hw Ht0 Hl0. unfold Dir_FetchFrom. rewrite Hl0. change (Z.of_nat (Z.to_nat NumDirEntries) * sizeof_DirectoryEntry) with 200.
  assert (length (table_bytes t0) = 200%nat) as Hb0 by (by rewrite table_bytes_length, Hl0).
  destruct (ReadAt_bytes fresh_mem fresh_length (directoryFile fs) (table_bytes t0) 200 0 d (sf_ok _ _ _ _ (fw_dir _ _ _ Hw)) (fw_good _ _ _ Hw))
    as (d' & E & Hs); [lia | lia | lia |]. rewrite E. cbn [obind]. exists d'. split; [|done]. do 2 f_equal.
  assert (length (table_bytes t) = 200%nat) as Hb by (by rewrite table_bytes_length, (fw_length _ _ _ Hw) by apply (fw_entries _ _ _ Hw)).
  rewrite (fw_table _ _ _ Hw), read_all by lia. rewrite <- (fw_length _ _ _ Hw). apply entries_of_bytes, (fw_entries _ _ _ Hw).
Qed.

Lemma fetch_directory d fs t : fs_wf d fs t ->
  exists d', Dir_FetchFrom fresh_mem (directoryFile fs) (new_Directory fresh_mem NumDirEntries) d = Ok (t, d') /\
    fs_wf d' fs t /\ files d' (used_entries t) = files d (used_entries t) /\ kept d d' (used_entries t).
Proof.
  intros Hw. destruct new_Directory_ok as (Ht0 & Hl0 & _).
  destruct (Dir_Fetch_ok d fs t _ Hw Ht0 Hl0) as (d' & E & Hs). exists d'. split; [exact E |].
  destruct (fs_wf_same _ _ _ _ Hw Hs) as (H1 & H2 & _ & H4). by split.
Qed.

Lemma Dir_Write_ok d f t : good d -> hdr_ok (hdr f) -> numBytes (hdr f) = DirectoryFileSize ->
  Forall entry_ok t -> length t = Z.to_nat NumDirEntries ->
  exists d', Dir_WriteBack fresh_mem t f d = Ok d' /\ good d' /\ fbytes d' (hdr f) = table_bytes t /\ others_same d d' (hdr f).
Proof.
  intros Hd Hh Hn Ht Hl. unfold Dir_WriteBack. rewrite Hl. change (Z.of_nat (Z.to_nat NumDirEntries) * sizeof_DirectoryEntry) with 200.
  assert (length (table_bytes t) = 200%nat) as Hb by (by rewrite table_bytes_length, Hl).
  pose proof (fbytes_length d _ Hh Hd) as Hf. rewrite Hn in Hf. change (Z.to_nat DirectoryFileSize) with 200%nat in Hf.
  destruct (WriteAt_bytes fresh_mem fresh_length fresh_bytes f (table_bytes t) 200 0 d Hh Hd) as (d' & E & Hg & Hw & Ho);
    [lia | lia | lia | by apply table_bytes_bytes |].
  destruct (write_all (fbytes d (hdr f)) (table_bytes t) 200) as [E1 E2]; [lia | lia | lia |]. rewrite E. cbn [obind].
  exists d'. split; [done |]. split; [done |]. by rewrite Hw.
Qed.

Lemma rep_words b s : rep b s -> numWords b = 32 /\ length (map b) = 32%nat /\ (u32 <$> map b) = map b.
Proof.
  intros ([_ Hw Hl Hu] & Hn & _). rewrite Hn in Hw. change (divRoundUp NumSectors 32) with 32 in Hw.
  split; [done |]. split; [lia |]. clear Hl. induction Hu as [|w l Hw' _ IH]; [done |]. by rewrite fmap_cons, IH, u32_id.
Qed.

Lemma rep_set_map b b' s s' : rep b s -> rep b' s' -> rep (set_map b (map b')) s'.
Proof. intros (Hwf & Hn & Hs) ([_ H2 H3 H4] & Hn' & Hs'). destruct Hwf as [H1' H2' _ _]. unfold set_map. split; [|split; [done | exact Hs']]. split; cbn; congruence. Qed.

Lemma Map_Fetch_ok d fs t : fs_wf d fs t ->
  exists b d', new_PersistentBitmap fresh_mem (freeMapFile fs) NumSectors d = Ok (b, d') /\ same_disk d d' /\
    rep b (list_to_set (all_sectors d fs t)).
Proof.
  intros Hw. unfold new_PersistentBitmap. destruct (bm_new (rep := bm_rep) NumSectors ltac:(done)) as (b0 & -> & Hr0). cbn [obind].
  destruct (fw_bits _ _ _ Hw) as (b & Hr & Hb). destruct (rep_words _ _ Hr0) as (Hn0 & Hl0 & _). destruct (rep_words _ _ Hr) as (_ & Hl & Hu).
  unfold Map_FetchFrom. rewrite Hn0.
  destruct (ReadAt_bytes fresh_mem fresh_length (freeMapFile fs) (words_bytes (map b0)) (32 * 4) 0 d (sf_ok _ _ _ _ (fw_map _ _ _ Hw)) (fw_good _ _ _ Hw))
    as (d' & E & Hs); [lia | lia | rewrite length_words_bytes; lia |]. rewrite E. cbn [obind].
  rewrite Hb, read_all by (rewrite ?length_words_bytes; lia). rewrite Hl0, <- Hl, words_of_bytes, Hu.
  exists (set_map b0 (map b)), d'. split; [done |]. split; [done |]. by eapply rep_set_map.
Qed.

Lemma fetch_map d fs t : fs_wf d fs t ->
  exists b d', new_PersistentBitmap fresh_mem (freeMapFile fs) NumSectors d = Ok (b, d') /\ same_disk d d' /\
    fs_wf d' fs t /\ files d' (used_entries t) = files d (used_entries t) /\ kept d d' (used_entries t) /\ rep b (list_to_set (all_sectors d' fs t)).
Proof.
  intros Hw. destruct (Map_Fetch_ok d fs t Hw) as (b & d' & E & Hs & Hr). exists b, d'. split; [exact E |]. split; [exact Hs |].
  destruct (fs_wf_same _ _ _ _ Hw Hs) as (H1 & H2 & -> & H4). split; [exact H1 |]. split; [exact H2 |]. split; [exact H4 | exact Hr].
Qed.

Lemma Map_Write_ok d f b s : good d -> hdr_ok (hdr f) -> numBytes (hdr f) = FreeMapFileSize -> rep b s ->
  exists d', Map_WriteBack fresh_mem b f d = Ok d' /\ good d' /\ fbytes d' (hdr f) = words_bytes (map b) /\ others_same d d' (hdr f).
Proof.
  intros Hd Hh Hn Hr. destruct (rep_words _ _ Hr) as (Hw & Hl & _). unfold Map_WriteBack. rewrite Hw.
  pose proof (fbytes_length d _ Hh Hd) as Hf. rewrite Hn in Hf. change (Z.to_nat FreeMapFileSize) with 128%nat in Hf.
  pose proof (length_words_bytes (map b)) as Hlw.
  destruct (WriteAt_bytes fresh_mem fresh_length fresh_bytes f (words_bytes (map b)) (32 * 4) 0 d Hh Hd) as (d' & E & Hg & Hwb & Ho);
    [lia | lia | lia | apply words_bytes_bytes |].
  destruct (write_all (fbytes d (hdr f)) (words_bytes (map b)) (32 * 4)) as [E1 E2]; [lia | lia | lia |]. rewrite E. cbn [obind].
  exists d'. split; [done |]. split; [done |]. by rewrite Hwb.
Qed.

(** ** Committing a change: the table and the free map are written back *)

(** All that makes a file system but the two system files' contents. *)
Record committable (d : D) (fs : FileSystem) (t : list DirectoryEntry) (b : Bitmap) : Prop := {
  cm_good : good d;
  cm_map : system_file d (freeMapFile fs) FreeMapSector FreeMapFileSize;
  cm_dir : system_file d (directoryFile fs) DirectorySector DirectoryFileSize;
  cm_entries : Forall entry_ok t;
  cm_length : length t = Z.to_nat NumDirEntries;
  cm_files : Forall (entry_wf d) (used_entries t);
  cm_nodup : NoDup (all_sectors d fs t);
  cm_names : NoDup (entry_key <$> used_entries t);
  cm_rep : rep b (list_to_set (all_sectors d fs t))
}.

Lemma commit_wf d d' fs t b :
  committable d fs t b -> good d' ->
  fbytes d' (hdr (directoryFile fs)) = table_bytes t -> fbytes d' (hdr (freeMapFile fs)) = words_bytes (map b) ->
  (forall j, valid_sector j -> j ∉ blocks (hdr (freeMapFile fs)) -> j ∉ blocks (hdr (directoryFile fs)) -> sector_at d' j = sector_at d j) ->
  fs_wf d' fs t /\ files d' (used_entries t) = files d (used_entries t) /\ kept d d' (used_entries t).
Proof.
  intros [_ Hm Hd Ht Hl Hf Hn Hk Hr] Hg Etab Emap Hsame.
  pose proof Hn as Hn'. unfold all_sectors, system_sectors in Hn'. rewrite <- app_assoc in Hn'.
  apply NoDup_app in Hn' as (_ & Hsys & Hn'). apply NoDup_app in Hn' as (_ & Hfiles & _).
  assert (forall j, j ∈ file_sectors d (used_entries t) -> sector_at d' j = sector_at d j) as Hj.
  { intros j Hj. apply Hsame; [| set_solver | set_solver]. apply (bm_bound (rep := bm_rep) _ _ _ _ Hr). unfold all_sectors. set_solver. }
  destruct (files_frame d d' _ Hj) as (E1 & E2 & E3 & E4).
  assert (all_sectors d' fs t = all_sectors d fs t) as Ea by (unfold all_sectors; by rewrite E1).
  assert (forall s, s ∈ [FreeMapSector; DirectorySector] -> sector_at d' s = sector_at d s) as H01.
  { intros s Hs. specialize (Hsys s Hs). apply Hsame; [| set_solver | set_solver].
    unfold valid_sector, FreeMapSector, DirectorySector in *. change NumSectors with 1024. set_solver by lia. }
  split; [|done]. destruct Hm as [Hm1 Hm2 Hm3], Hd as [Hd1 Hd2 Hd3].
  split; rewrite ?Ea; try done.
  - split; [by rewrite H01 by set_solver | done | done].
  - split; [by rewrite H01 by set_solver | done | done].
  - by exists b.
  - by apply E3.
Qed.

Lemma blocks_disjoint d fs t : NoDup (all_sectors d fs t) ->
  forall j, j ∈ blocks (hdr (freeMapFile fs)) -> j ∉ blocks (hdr (directoryFile fs)).
Proof.
  unfold all_sectors, system_sectors. rewrite <- !app_assoc. intros (_ & _ & (_ & H & _)%NoDup_app)%NoDup_app j Hj. specialize (H j Hj). set_solver.
Qed.

Lemma commit d fs t b :
  committable d fs t b ->
  (exists d', (forall A (g : D -> outcome A),
       (let! d := Dir_WriteBack fresh_mem t (directoryFile fs) d in let! d := Map_WriteBack fresh_mem b (freeMapFile fs) d in g d) = g d') /\
     fs_wf d' fs t /\ files d' (used_entries t) = files d (used_entries t) /\ kept d d' (used_entries t)) /\
  (exists d', (forall A (g : D -> outcome A),
       (let! d := Map_WriteBack fresh_mem b (freeMapFile fs) d in let! d := Dir_WriteBack fresh_mem t (directoryFile fs) d in g d) = g d') /\
     fs_wf d' fs t /\ files d' (used_entries t) = files d (used_entries t) /\ kept d d' (used_entries t)).
Proof.
  intros Hc. pose proof Hc as [Hg Hm Hd Ht Hl Hf Hn Hk Hr]. pose proof (blocks_disjoint d fs t Hn) as Hdis.
  pose proof (ho_valid _ (sf_ok _ _ _ _ Hm)) as Hvm. pose proof (ho_valid _ (sf_ok _ _ _ _ Hd)) as Hvd. rewrite Forall_forall in Hvm, Hvd.
  split.
  - destruct (Dir_Write_ok d (directoryFile fs) t Hg (sf_ok _ _ _ _ Hd) (sf_len _ _ _ _ Hd) Ht Hl) as (d1 & E1 & Hg1 & Ht1 & Ho1).
    destruct (Map_Write_ok d1 (freeMapFile fs) b _ Hg1 (sf_ok _ _ _ _ Hm) (sf_len _ _ _ _ Hm) Hr) as (d2 & E2 & Hg2 & Hm2 & Ho2).
    exists d2. split; [intros A g; rewrite E1; cbn [obind]; by rewrite E2 |]. eapply (commit_wf d); [done | done | | |]; try done.
    + rewrite <- Ht1. apply fbytes_same. intros j Hj. apply Ho2; [by apply Hvd |]. intros Hj'. by apply (Hdis j).
    + intros j Hj H1 H2. rewrite Ho2, Ho1; done.
  - destruct (Map_Write_ok d (freeMapFile fs) b _ Hg (sf_ok _ _ _ _ Hm) (sf_len _ _ _ _ Hm) Hr) as (d1 & E1 & Hg1 & Hm1 & Ho1).
    destruct (Dir_Write_ok d1 (directoryFile fs) t Hg1 (sf_ok _ _ _ _ Hd) (sf_len _ _ _ _ Hd) Ht Hl) as (d2 & E2 & Hg2 & Ht2 & Ho2).
    exists d2. split; [intros A g; rewrite E1; cbn [obind]; by rewrite E2 |]. eapply (commit_wf d); [done | done | | |]; try done.
    + rewrite <- Hm1. apply fbytes_same. intros j Hj. apply Ho2; [by apply Hvm | by apply Hdis].
    + intros j Hj H1 H2. rewrite Ho2, Ho1; done.
Qed.

(** ** Create *)

Lemma hdr_ok_range h : hdr_ok h -> hdr_range h.
Proof.
  intros Hh. pose proof (ho_enough _ Hh). pose proof (ho_bytes _ Hh) as Hb. change MaxFileSize with 3840 in Hb.
  unfold hdr_range, is_s32. split; [lia |]. split; [lia |]. split; [apply Hh | apply (ho_range _ Hh)].
Qed.

(** A header written to its sector. *)
Lemma Header_Write_ok d h s : good d -> hdr_ok h -> valid_sector s ->
  exists d', Header_WriteBack h s d = Ok d' /\ good d' /\ hdr_of (sector_at d' s) = h /\
    forall j, valid_sector j -> j <> s -> sector_at d' j = sector_at d j.
Proof.
  intros Hd Hh Hs. pose proof (hdr_ok_range h Hh) as Hr.
  destruct (write_sector_ok d s (hdr_bytes h) Hd Hs (hdr_bytes_length h Hr) (words_bytes_bytes _)) as (d' & E & Hg & Es & Ho).
  exists d'. split; [exact E |]. split; [done |]. rewrite Es. split; [by apply hdr_of_bytes | done].
Qed.

Lemma system_file_frame d d' fs t f s len : fs_wf d fs t -> system_file d f s len -> s ∈ system_sectors fs ->
  (forall j, j ∈ all_sectors d fs t -> sector_at d' j = sector_at d j) -> system_file d' f s len.
Proof. intros Hw [H1 H2 H3] Hs Hj. split; [|done|done]. rewrite Hj; [done |]. apply elem_of_app. by left. Qed.

(** A new entry [e] with its header [h] already in its sector. *)
Lemma added_file d d' fs t k e0 e h b :
  fs_wf d fs t -> good d' -> t !! k = Some e0 -> used e0 = false -> used e = true -> entry_ok e ->
  valid_sector (sector e) -> hdr_ok h -> hdr_of (sector_at d' (sector e)) = h ->
  sector e ∉ all_sectors d fs t -> Forall (fun x => x ∉ ({[sector e]} ∪ list_to_set (all_sectors d fs t) : gset Z)) (blocks h) ->
  rep b (list_to_set (blocks h) ∪ ({[sector e]} ∪ list_to_set (all_sectors d fs t))) ->
  entry_key e ∉ entry_key <$> used_entries t ->
  (forall j, valid_sector j -> j <> sector e -> sector_at d' j = sector_at d j) ->
  committable d' fs (<[k := e]> t) b /\
  files d' (used_entries (<[k := e]> t)) = <[entry_key e := fbytes d' h]> (files d (used_entries t)) /\
  kept d d' (used_entries t).
Proof.
  intros Hw Hg Hk Hu0 Hu He Hs Hh Eh Hns Hbn Hr Hkey Hsame.
  assert (forall j, j ∈ all_sectors d fs t -> sector_at d' j = sector_at d j) as Hj.
  { intros j Hj. apply Hsame; [by eapply all_valid |]. intros ->. done. }
  destruct (files_frame d d' (used_entries t)) as (E1 & E2 & E3 & E4); [intros j Hjj; apply Hj, elem_of_app; by right |].
  pose proof (used_entries_add t k e0 e Hk Hu0 Hu) as Hp.
  assert (entry_hdr d' e = h) as Eeh by done.
  assert (all_sectors d' fs (<[k := e]> t) ≡ₚ (sector e :: blocks h) ++ all_sectors d fs t) as Ha.
  { unfold all_sectors. rewrite (file_sectors_perm d' _ _ Hp), file_sectors_cons, E1. unfold entry_sectors. rewrite Eeh.
    rewrite (Permutation_app_comm (system_sectors fs)), <- app_assoc. by rewrite (Permutation_app_comm (file_sectors d _)). }
  assert (NoDup (entry_key <$> used_entries (<[k := e]> t))) as Hnk.
  { rewrite Hp, fmap_cons. apply NoDup_cons. split; [done | apply Hw]. }
  split; [|split; [|done]].
  - split; [done | | | | | | | done |].
    + eapply system_file_frame; [done | apply Hw | | done]. unfold system_sectors. set_solver.
    + eapply system_file_frame; [done | apply Hw | | done]. unfold system_sectors. set_solver.
    + apply Forall_insert; [apply Hw | done].
    + rewrite length_insert. apply Hw.
    + rewrite Hp. constructor; [split; [done | by rewrite Eeh] | apply E3, Hw].
    + rewrite Ha. apply NoDup_app. rewrite Forall_forall in Hbn. split; [apply NoDup_cons; split; [|apply Hh] |split; [|apply Hw]].
      * intros Hx. specialize (Hbn _ Hx). set_solver.
      * intros x [->|Hx]%elem_of_cons Hx2; [done |]. apply (Hbn x Hx), elem_of_union_r. by apply elem_of_list_to_set.
    + rewrite (list_to_set_perm_L _ _ Ha), list_to_set_app_L. cbn [list_to_set]. rewrite (assoc_L (∪) (list_to_set (blocks h))) in Hr.
      by rewrite (comm_L (∪) {[sector e]}).
  - rewrite (files_perm _ _ _ Hnk Hp), files_cons, E2, Eeh. done.
Qed.

(** What a file system with the files [m] uses of the disk. *)
Definition sectors_used (m : gmap (list Z) (list Z)) : Z :=
  5 + foldr Z.add 0 ((fun kc => 1 + sectors_for (Z.of_nat (length kc.2))) <$> map_to_list m).

Lemma foldr_add_perm (l l' : list Z) : l ≡ₚ l' -> foldr Z.add 0 l = foldr Z.add 0 l'.
Proof. induction 1; cbn; lia. Qed.

Lemma files_to_list d es : NoDup (entry_key <$> es) -> map_to_list (files d es) ≡ₚ entry_file d <$> es.
Proof. intros Hn. apply map_to_list_to_map. by rewrite <- list_fmap_compose. Qed.

Lemma system_sectors_length d fs t : fs_wf d fs t -> length (system_sectors fs) = 5%nat.
Proof.
  intros Hw. destruct (fw_map _ _ _ Hw) as [_ H1 H2], (fw_dir _ _ _ Hw) as [_ H3 H4]. unfold system_sectors.
  rewrite !length_app, !length_of_blocks by done. rewrite (ho_sectors _ H1), (ho_sectors _ H3), H2, H4. done.
Qed.

Lemma used_count d fs t : fs_wf d fs t ->
  Z.of_nat (length (all_sectors d fs t)) = sectors_used (files d (used_entries t)).
Proof.
  intros Hw. unfold all_sectors, sectors_used. rewrite length_app, (system_sectors_length _ _ _ Hw).
  rewrite (foldr_add_perm _ _ (fmap_Permutation _ _ _ (files_to_list d _ (fw_names _ _ _ Hw)))), <- list_fmap_compose.
  rewrite Nat2Z.inj_add. f_equal. pose proof (fw_good _ _ _ Hw) as Hg.
  induction (fw_files _ _ _ Hw) as [|e es [_ He] _ IH]; [done |].
  rewrite file_sectors_cons, length_app, fmap_cons, Nat2Z.inj_add, IH. cbn [foldr compose snd entry_file]. f_equal.
  unfold entry_sectors. cbn [length]. rewrite length_of_blocks, fbytes_length by done. pose proof (ho_enough _ He). pose proof (ho_bytes _ He).
  rewrite Z2Nat.id by lia. unfold sectors_for. rewrite <- (ho_sectors _ He). lia.
Qed.

Lemma files_size d es : NoDup (entry_key <$> es) -> size (files d es) = length es.
Proof. intros Hn. rewrite <- length_map_to_list, (files_to_list _ _ Hn). apply length_fmap. Qed.

Lemma all_size d fs t : fs_wf d fs t ->
  Z.of_nat (size (list_to_set (all_sectors d fs t) : gset Z)) = sectors_used (files d (used_entries t)).
Proof. intros Hw. rewrite size_list_to_set by apply Hw. by apply used_count. Qed.

(** How [Create] ends, from the files there are. *)
Definition Create_outcome (m : gmap (list Z) (list Z)) (n : list Z) (size_ : Z) : outcome bool :=
  if bool_decide (is_Some (m !! key n)) then Ok false
  else if NumSectors <=? sectors_used m then Ok false
  else if NumDirEntries <=? Z.of_nat (size m) then Ok false
  else if NumSectors - sectors_used m - 1 <? sectors_for size_ then Ok false
  else if NumDirect <? sectors_for size_ then Trap Undefined
  else Ok true.

Lemma entry_used d fs t k e : fs_wf d fs t -> t !! k = Some e -> used e = true ->
  e ∈ used_entries t /\ valid_sector (sector e) /\ hdr_ok (entry_hdr d e) /\
  files d (used_entries t) !! entry_key e = Some (fbytes d (entry_hdr d e)).
Proof.
  intros Hw Hk Hu. assert (e ∈ used_entries t) as He by (apply list_elem_of_filter; split; [done | by eapply list_elem_of_lookup_2]).
  pose proof (fw_files _ _ _ Hw) as Hf. rewrite Forall_forall in Hf. destruct (Hf e He) as [Hv Hh].
  split; [done |]. split; [done |]. split; [done |]. apply files_Some; [apply Hw | done].
Qed.

(** The part of [Create] after the name is known to be new. *)
Lemma Create_new d fs t n size_ b : fs_wf d fs t -> Forall is_byte n -> 0 <= size_ < 2 ^ 31 ->
  rep b (list_to_set (all_sectors d fs t)) -> FindIndex t n = -1 -> key n ∉ entry_key <$> used_entries t ->
  let m := files d (used_entries t) in
  match Create_outcome m n size_ with
  | Trap u => Create_rest fresh_mem fs n size_ t b d = Trap u
  | Ok r => exists d' t', Create_rest fresh_mem fs n size_ t b d = Ok (r, d') /\ fs_wf d' fs t' /\ kept d d' (used_entries t) /\
      (forall e, e ∈ used_entries t -> e ∈ used_entries t') /\
      if r then exists c, Z.of_nat (length c) = size_ /\ files d' (used_entries t') = <[key n := c]> m
      else files d' (used_entries t') = m
  end.
Proof.
  intros Hw Hn Hsz Hr EI Hkey m. unfold Create_outcome, Create_rest.
  assert (bool_decide (is_Some (m !! key n)) = false) as -> by (unfold m; rewrite (files_None _ _ _ Hkey); done).
  pose proof (all_size _ _ _ Hw) as Hsize. fold m in Hsize. pose proof (rep_size _ _ Hr) as Hrs.
  destruct (Z.leb_spec NumSectors (sectors_used m)) as [Hfull|Hroom].
  { rewrite (rep_full _ _ Hr) by lia. cbn [obind]. by exists d, t. }
  destruct (rep_room _ _ Hr ltac:(lia)) as (x & b1 & -> & Hx & Hxs & Hr1). cbn [obind].
  rewrite (proj2 (Z.eqb_neq x (-1))) by (unfold valid_sector in Hx; lia).
  assert (Z.of_nat (size m) = Z.of_nat (length (used_entries t))) as Hm by (unfold m; rewrite files_size by apply Hw; done).
  pose proof (fw_length _ _ _ Hw) as Hlt. change (Z.to_nat NumDirEntries) with 10%nat in Hlt. change NumDirEntries with 10.
  destruct (Add_spec t n x EI) as [(-> & Eall)|(k & e0 & Hk & Hu0 & ->)]; cbn [obind negb].
  { rewrite (proj2 (Z.leb_le _ _)) by (rewrite Hm, Eall; lia). by exists d, t. }
  set (e := mkEntry _ _ _ _ _) in *.
  assert (Z.of_nat (size m) < 10) as Hm10.
  { rewrite Hm. pose proof (Permutation_length (used_entries_add t k e0 e Hk Hu0 eq_refl)) as Hp. cbn [length] in Hp.
    pose proof (length_filter (fun e => used e = true) (<[k := e]> t)) as Hlf. rewrite length_insert in Hlf. unfold used_entries in *. lia. }
  rewrite (proj2 (Z.leb_gt _ _)) by lia.
  destruct (hdr_of_range (fresh_mem SectorSize)) as (_ & _ & Hl & Hrg).
  pose proof (Allocate_spec (new_FileHeader fresh_mem) b1 _ size_ Hrg Hl Hr1 Hsz) as HA.
  rewrite size_union, size_singleton in HA by set_solver.
  replace (NumSectors - sectors_used m - 1) with (NumSectors - Z.of_nat (1 + size (list_to_set (all_sectors d fs t) : gset Z))) by lia.
  destruct (_ <? sectors_for size_); [destruct HA as (h' & ->); cbn [obind negb]; by exists d, t |].
  destruct (NumDirect <? sectors_for size_); [by rewrite HA |].
  destruct HA as (h & b2 & -> & Hh & Hnb & Hfresh & Hr2). cbn [obind negb].
  destruct (Header_Write_ok d h x (fw_good _ _ _ Hw) Hh Hx) as (d1 & -> & Hg1 & Eh & Hsame). cbn [obind].
  assert (is_s32 x) as Hx32 by (unfold valid_sector in Hx; change NumSectors with 1024 in Hx; unfold is_s32; lia).
  pose proof (fw_entries _ _ _ Hw) as Hent. pose proof (Forall_lookup_1 _ _ _ _ Hent Hk) as He0.
  assert (entry_key e = key n) as Ek by apply key_strncpy.
  destruct (added_file d d1 fs t k e0 e h b2 Hw Hg1 Hk Hu0 eq_refl (new_entry_ok e0 n x He0 Hx32 Hn) Hx Hh Eh) as (Hc & Ef & Hk1);
    [by rewrite elem_of_list_to_set in Hxs | done | done | by rewrite Ek | done |].
  destruct (proj1 (commit d1 fs _ b2 Hc)) as (d2 & E & Hw2 & Ef2 & Hk2). rewrite E.
  pose proof (used_entries_add t k e0 e Hk Hu0 eq_refl) as Hp.
  assert (forall e', e' ∈ used_entries t -> e' ∈ used_entries (<[k := e]> t)) as Hin by (intros e' He'; rewrite Hp; by right).
  exists d2, (<[k := e]> t). split; [done |]. split; [done |]. split; [intros e' He'; rewrite Hk2, Hk1 by auto; done |]. split; [done |]. exists (fbytes d1 h).
  rewrite fbytes_length by done. pose proof (ho_bytes _ Hh). split; [lia |]. rewrite Ef2, Ef, Ek. done.
Qed.

Lemma FS_Create_ok d fs t n size_ : fs_wf d fs t -> Forall is_byte n -> 0 <= size_ < 2 ^ 31 ->
  match Create_outcome (files d (used_entries t)) n size_ with
  | Trap u => FS_Create fresh_mem fs n size_ d = Trap u
  | Ok r => exists d' t', FS_Create fresh_mem fs n size_ d = Ok (r, d') /\ fs_wf d' fs t' /\ kept d d' (used_entries t) /\
      (forall e, e ∈ used_entries t -> e ∈ used_entries t') /\
      if r then exists c, Z.of_nat (length c) = size_ /\ files d' (used_entries t') = <[key n := c]> (files d (used_entries t))
      else files d' (used_entries t') = files d (used_entries t)
  end.
Proof.
  intros Hw Hn Hsz. unfold FS_Create.
  destruct (fetch_directory d fs t Hw) as (d1 & -> & Hw1 & <- & Hk1). cbn [obind].
  destruct (Find_spec t n (fw_entries _ _ _ Hw1)) as [(-> & EI & Hkey)|(k & e & -> & _ & Hk & Hu & Ek)]; cbn [obind].
  - cbn [Z.eqb negb Pos.eqb]. destruct (fetch_map d1 fs t Hw1) as (b & d2 & -> & _ & Hw2 & <- & Hk2 & Hr). cbn [obind].
    pose proof (Create_new d2 fs t n size_ b Hw2 Hn Hsz Hr EI Hkey) as HC. cbn zeta in HC. destruct (Create_outcome _ _ _) as [r|u]; [|exact HC].
    destruct HC as (d' & t' & E & Hw' & Hk' & HC). exists d', t'. split; [exact E |]. split; [done |]. split; [|done].
    eapply kept_headers_trans; [|exact Hk']. by eapply kept_headers_trans.
  - destruct (entry_used d1 fs t k e Hw1 Hk Hu) as (_ & Hv & _ & Hf). unfold Create_outcome.
    rewrite <- Ek, Hf, bool_decide_eq_true_2 by done. unfold valid_sector in Hv.
    rewrite (proj2 (Z.eqb_neq _ _)) by lia. by exists d1, t.
Qed.

(** ** Open, and the bytes of an open file *)

(** [f] is open on the file [n] of a file system with the files [m]. *)
Definition fs_open (d : D) (fs : FileSystem) (m : gmap (list Z) (list Z)) (f : OpenFile) (n : list Z) : Prop :=
  exists t e, fs_wf d fs t /\ files d (used_entries t) = m /\ e ∈ used_entries t /\ entry_key e = key n /\ hdr f = entry_hdr d e.

Lemma new_OpenFile_ok d s : good d -> valid_sector s ->
  exists d', new_OpenFile s d = Ok (mkOpenFile (hdr_of (sector_at d s)) 0, d') /\ same_disk d d'.
Proof.
  intros Hd Hs. destruct (read_sector_ok d s Hd Hs) as (d' & E & Hg & Ho). exists d'.
  unfold new_OpenFile, Header_FetchFrom. rewrite E. done.
Qed.

Lemma FS_Open_ok d fs t n : fs_wf d fs t ->
  exists r d', FS_Open fresh_mem fs n d = Ok (r, d') /\ fs_wf d' fs t /\ files d' (used_entries t) = files d (used_entries t) /\
    kept d d' (used_entries t) /\
    match r with
    | None => files d (used_entries t) !! key n = None
    | Some f => seekPosition f = 0 /\ fs_open d' fs (files d (used_entries t)) f n
    end.
Proof.
  intros Hw. unfold FS_Open. destruct (fetch_directory d fs t Hw) as (d1 & -> & Hw1 & <- & Hk1). cbn [obind].
  destruct (Find_spec t n (fw_entries _ _ _ Hw1)) as [(-> & EI & Hkey)|(k & e & -> & _ & Hk & Hu & Ek)]; cbn [obind].
  - exists None, d1. split; [done |]. split; [done |]. split; [done |]. split; [done |]. by apply files_None.
  - destruct (entry_used d1 fs t k e Hw1 Hk Hu) as (He & Hv & _ & _).
    destruct (new_OpenFile_ok d1 (sector e) (fw_good _ _ _ Hw1) Hv) as (d2 & E & Hs).
    destruct (fs_wf_same _ _ _ _ Hw1 Hs) as (Hw2 & Ef & _ & Hk2).
    rewrite (proj2 (Z.ltb_ge _ _)) by (unfold valid_sector in Hv; lia). rewrite E. cbn [obind].
    eexists _, d2. split; [done |]. split; [done |]. split; [done |]. split; [by eapply kept_headers_trans |]. split; [done |].
    exists t, e. split; [done |]. split; [done |]. split; [done |]. split; [done |].
    cbn [hdr]. unfold entry_hdr. by rewrite (proj2 Hs).
Qed.

(** The table is what is on the disk. *)
Lemma fs_wf_table d fs t t' : fs_wf d fs t -> fs_wf d fs t' -> t = t'.
Proof.
  intros H H'. pose proof (fw_table _ _ _ H) as E. rewrite (fw_table _ _ _ H') in E.
  rewrite <- (entries_of_bytes t []), <- (entries_of_bytes t' []) by (apply H || apply H').
  by rewrite E, (fw_length _ _ _ H), (fw_length _ _ _ H').
Qed.

(** Where the sectors of the file of [e] are not. *)
Lemma data_apart d fs t e es : fs_wf d fs t -> used_entries t ≡ₚ e :: es -> forall j, j ∈ blocks (entry_hdr d e) ->
  j ∉ system_sectors fs /\ (forall e', e' ∈ used_entries t -> sector e' <> j) /\ j ∉ file_sectors d es.
Proof.
  intros Hw Hp j Hj. pose proof (fw_nodup _ _ _ Hw) as Hn. unfold all_sectors in Hn. rewrite (file_sectors_perm d _ _ Hp), file_sectors_cons in Hn.
  apply NoDup_app in Hn as (_ & Hsys & Hn). apply NoDup_app in Hn as (Hn1 & Hes & _). apply NoDup_cons in Hn1 as [Hse _].
  assert (j ∉ file_sectors d es) as Hj3 by (apply Hes; by right).
  split; [|split; [|done]].
  - intros Hjs. apply (Hsys j Hjs), elem_of_app. left. by right.
  - intros e' He' <-. rewrite Hp in He'. apply elem_of_cons in He' as [->|He']; [done |].
    apply Hj3, elem_of_file_sectors. exists e'. split; [done | by left].
Qed.

(** The data sectors of one file rewritten. *)
Lemma data_written d d' fs t e : fs_wf d fs t -> e ∈ used_entries t -> good d' -> others_same d d' (entry_hdr d e) ->
  fs_wf d' fs t /\ files d' (used_entries t) = <[entry_key e := fbytes d' (entry_hdr d e)]> (files d (used_entries t)) /\
  kept d d' (used_entries t).
Proof.
  intros Hw He Hg Ho. apply elem_of_Permutation in He as [es Hp]. pose proof (data_apart d fs t e es Hw Hp) as Hap.
  assert (forall j, j ∈ all_sectors d fs t -> j ∉ blocks (entry_hdr d e) -> sector_at d' j = sector_at d j) as Hsame.
  { intros j Hj Hjb. apply Ho; [by eapply all_valid | done]. }
  assert (kept d d' (used_entries t)) as Hhdr.
  { intros e' He'. unfold entry_hdr. f_equal. apply Hsame.
    - apply elem_of_app. right. apply elem_of_file_sectors. exists e'. split; [done | by left].
    - intros Hb. by apply (proj1 (proj2 (Hap _ Hb)) e'). }
  assert (file_sectors d' (used_entries t) = file_sectors d (used_entries t)) as E1.
  { unfold file_sectors. f_equal. apply list_fmap_ext. intros i e' Hi. unfold entry_sectors. by rewrite Hhdr by (by eapply list_elem_of_lookup_2). }
  assert (all_sectors d' fs t = all_sectors d fs t) as Ea by (unfold all_sectors; by rewrite E1).
  assert (forall j, j ∈ system_sectors fs -> sector_at d' j = sector_at d j) as Hsys.
  { intros j Hj. apply Hsame; [apply elem_of_app; by left |]. intros Hb. exact (proj1 (Hap j Hb) Hj). }
  destruct (files_frame d d' es) as (_ & E2 & _).
  { intros j Hj. apply Hsame; [|intros Hb; exact (proj2 (proj2 (Hap j Hb)) Hj)]. apply elem_of_app. right.
    rewrite (file_sectors_perm d _ _ Hp), file_sectors_cons. apply elem_of_app. by right. }
  split; [|split; [|done]].
  - destruct Hw as [H1 H2 H3 H4 H5 H6 H7 H8 H9 H10].
    assert (forall h, (forall j, j ∈ blocks h -> j ∈ system_sectors fs) -> fbytes d' h = fbytes d h) as Hf.
    { intros h Hh. apply fbytes_same. intros j Hj. by apply Hsys, Hh. }
    assert (forall f s len, system_file d f s len -> s ∈ system_sectors fs -> system_file d' f s len) as Hsf.
    { intros f s len [Hs1 Hs2 Hs3] Hs. split; [by rewrite Hsys | done | done]. }
    split; rewrite ?Ea; try done.
    + apply Hsf; [done | by left].
    + apply Hsf; [done | right; by left].
    + rewrite Hf; [done |]. intros j Hj. unfold system_sectors. rewrite !elem_of_app. by right; right.
    + rewrite Hf; [done |]. intros j Hj. unfold system_sectors. rewrite !elem_of_app. by right; left.
    + rewrite Forall_forall in H8 |- *. intros e' He'. destruct (H8 e' He') as [Hv Hok]. split; [done |]. by rewrite Hhdr.
  - pose proof (fw_names _ _ _ Hw) as Hnk. rewrite !(files_perm _ _ _ Hnk Hp), !files_cons, E2, Hhdr by (rewrite Hp; by left).
    by rewrite insert_insert_eq.
Qed.

Lemma fs_open_bytes d fs m f n : fs_open d fs m f n -> good d /\ hdr_ok (hdr f) /\ m !! key n = Some (fbytes d (hdr f)).
Proof.
  intros (t & e & Hw & <- & He & <- & ->). pose proof (fw_files _ _ _ Hw) as Hf. rewrite Forall_forall in Hf.
  split; [apply Hw |]. split; [by apply (Hf e He) |]. apply files_Some; [apply Hw | done].
Qed.

Lemma fs_open_WriteAt d fs m f n from k pos c : fs_open d fs m f n -> m !! key n = Some c ->
  k < 2 ^ 30 -> 0 <= pos -> k <= Z.of_nat (length from) -> Forall is_byte from ->
  exists d', WriteAt fresh_mem f from k pos d = Ok (written c pos k, d') /\
    forall g n', fs_open d fs m g n' -> fs_open d' fs (<[key n := write_bytes c pos k from]> m) g n'.
Proof.
  intros Ho Hc Hk Hp Hl Hb. destruct (fs_open_bytes _ _ _ _ _ Ho) as (Hg & Hh & Hm). rewrite Hm in Hc. injection Hc as <-.
  destruct (WriteAt_bytes fresh_mem fresh_length fresh_bytes f from k pos d Hh Hg Hk Hp Hl Hb) as (d' & E & Hg' & Hw' & Hos).
  exists d'. split; [done |]. destruct Ho as (t & e & Hw & Em & He & Ek & Eh). rewrite Eh in Hos.
  destruct (data_written d d' fs t e Hw He Hg' Hos) as (Hwf & Ef & Hhdr).
  intros g n' (t' & e' & Hw2 & _ & He' & Ek' & Eh'). rewrite (fs_wf_table _ _ _ _ Hw2 Hw) in He'.
  exists t, e'. split; [done |]. split; [by rewrite Ef, <- Eh, Hw', Ek, Em |]. split; [done |]. split; [done |]. by rewrite Eh', Hhdr.
Qed.

(** ** Remove *)

(** The table without the entry [e], its sectors cleared. *)
Lemma removed_file d fs t k e b : fs_wf d fs t -> t !! k = Some e -> used e = true ->
  rep b (list_to_set (all_sectors d fs t) ∖ list_to_set (blocks (entry_hdr d e)) ∖ {[sector e]}) ->
  let t' := <[k := set_inUse 0 e]> t in
  committable d fs t' b /\ files d (used_entries t') = delete (entry_key e) (files d (used_entries t)).
Proof.
  intros Hw Hk Hu Hr t'. pose proof (used_entries_remove t k e (set_inUse 0 e) Hk Hu eq_refl) as Hp. fold t' in Hp.
  assert (all_sectors d fs t ≡ₚ entry_sectors d e ++ all_sectors d fs t') as Ha.
  { unfold all_sectors. rewrite (file_sectors_perm d _ _ Hp), file_sectors_cons.
    rewrite (Permutation_app_comm (system_sectors fs)), <- app_assoc. by rewrite (Permutation_app_comm (file_sectors d _)). }
  pose proof (fw_nodup _ _ _ Hw) as Hn. rewrite Ha in Hn. apply NoDup_app in Hn as (_ & Hd & Hn).
  pose proof (fw_names _ _ _ Hw) as Hnk. pose proof Hnk as Hnk'. rewrite Hp, fmap_cons in Hnk'. apply NoDup_cons in Hnk' as [Hke Hnk'].
  split.
  - split; [apply Hw | apply Hw | apply Hw | | | | done | done |].
    + apply Forall_insert; [apply Hw |]. apply set_inUse_ok; [done |]. by apply (Forall_lookup_1 _ _ _ _ (fw_entries _ _ _ Hw) Hk).
    + unfold t'. rewrite length_insert. apply Hw.
    + pose proof (fw_files _ _ _ Hw) as Hf. rewrite Hp in Hf. by inversion Hf.
    + replace (list_to_set (all_sectors d fs t') : gset Z) with
        ((list_to_set (all_sectors d fs t) : gset Z) ∖ list_to_set (blocks (entry_hdr d e)) ∖ {[sector e]}); [done |].
      rewrite (list_to_set_perm_L _ _ Ha), list_to_set_app_L. unfold entry_sectors in *. cbn [list_to_set].
      apply set_eq. intros x. rewrite !elem_of_difference, !elem_of_union, !elem_of_list_to_set, elem_of_singleton.
      specialize (Hd x). rewrite elem_of_cons in Hd. tauto.
  - rewrite (files_perm _ _ _ Hnk Hp), files_cons. by rewrite delete_insert_id by (by apply files_None).
Qed.

Lemma FS_Remove_ok d fs t n : fs_wf d fs t ->
  exists d' t', FS_Remove fresh_mem fs n d = Ok (bool_decide (is_Some (files d (used_entries t) !! key n)), d') /\
    fs_wf d' fs t' /\ files d' (used_entries t') = delete (key n) (files d (used_entries t)) /\
    forall e, e ∈ used_entries t -> entry_key e <> key n -> e ∈ used_entries t' /\ entry_hdr d' e = entry_hdr d e.
Proof.
  intros Hw. unfold FS_Remove. destruct (fetch_directory d fs t Hw) as (d1 & -> & Hw1 & <- & Hk1). cbn [obind].
  destruct (Find_spec t n (fw_entries _ _ _ Hw1)) as [(-> & EI & Hkey)|(k & e & -> & EI & Hk & Hu & Ek)]; cbn [obind].
  { cbn [Z.eqb Pos.eqb]. exists d1, t. pose proof (files_None d1 _ _ Hkey) as Hf. rewrite Hf. split; [done |]. split; [done |].
    split; [by rewrite delete_id |]. intros e' He' _. split; [done | by apply Hk1]. }
  destruct (entry_used d1 fs t k e Hw1 Hk Hu) as (He & Hv & Hh & Hf). rewrite <- Ek, Hf, bool_decide_eq_true_2 by done.
  rewrite (proj2 (Z.eqb_neq _ _)) by (unfold valid_sector in Hv; lia). unfold Header_FetchFrom.
  destruct (read_sector_ok d1 (sector e) (fw_good _ _ _ Hw1) Hv) as (d2 & -> & Hg2 & Ho2). cbn [obind]. fold (entry_hdr d1 e).
  destruct (fs_wf_same _ _ _ _ Hw1 (conj Hg2 Ho2)) as (Hw2 & <- & _ & Hk2).
  destruct (fetch_map d2 fs t Hw2) as (b & d3 & -> & _ & Hw3 & <- & Hk3 & Hr). cbn [obind].
  assert (entry_hdr d1 e = entry_hdr d3 e) as Eh by (by rewrite Hk3, Hk2).
  rewrite Eh in Hh |- *. destruct (Deallocate_spec (entry_hdr d3 e) b _ Hh Hr) as (b1 & -> & Hr1).
  { apply Forall_forall. intros x Hx. apply elem_of_list_to_set, elem_of_app. right. apply elem_of_file_sectors. exists e. split; [done | by right]. }
  cbn [obind]. destruct (bm_Clear (rep := bm_rep) _ _ _ _ Hr1 Hv) as (b2 & -> & Hr2). cbn [obind].
  rewrite (Dir_Remove_spec t n k e EI Hk). cbn [obind].
  destruct (removed_file d3 fs t k e b2 Hw3 Hk Hu Hr2) as [Hc Ef].
  destruct (proj2 (commit d3 fs _ b2 Hc)) as (d4 & E & Hw4 & Ef4 & Hk4). rewrite E.
  eexists d4, _. split; [done |]. split; [done |]. split; [by rewrite Ef4 |]. intros e' He' Hne.
  assert (e' ∈ used_entries (<[k := set_inUse 0 e]> t)) as Hin.
  { pose proof He' as He2. rewrite (used_entries_remove t k e (set_inUse 0 e) Hk Hu eq_refl) in He2. apply elem_of_cons in He2 as [->|He2]; done. }
  split; [done |]. by rewrite Hk4, Hk3, Hk2, Hk1.
Qed.

(** ** List *)

Lemma FS_List_ok d fs t : fs_wf d fs t ->
  exists l d', FS_List fresh_mem fs d = Ok (l, d') /\ fs_wf d' fs t /\ files d' (used_entries t) = files d (used_entries t) /\ kept d d' (used_entries t) /\
    key <$> l ≡ₚ (map_to_list (files d (used_entries t))).*1.
Proof.
  intros Hw. unfold FS_List. destruct (fetch_directory d fs t Hw) as (d1 & -> & Hw1 & E1 & Hk1). cbn [obind].
  eexists _, d1. split; [done |]. split; [done |]. split; [done |]. split; [done |].
  rewrite (files_to_list d _ (fw_names _ _ _ Hw)). unfold List_. by rewrite <- !list_fmap_compose.
Qed.

(** ** Starting *)

Lemma same_headers d fs fs' t : hdr (freeMapFile fs') = hdr (freeMapFile fs) -> hdr (directoryFile fs') = hdr (directoryFile fs) ->
  fs_wf d fs t -> fs_wf d fs' t.
Proof.
  intros Em Ed [H1 [H2a H2b H2c] [H3a H3b H3c] H4 H5 H6 H7 H8 H9 H10].
  assert (all_sectors d fs' t = all_sectors d fs t) as Ea by (unfold all_sectors, system_sectors; by rewrite Em, Ed).
  split; rewrite ?Ea, ?Em, ?Ed; try done; by split; rewrite ?Em, ?Ed.
Qed.

Lemma reopen_ok d fs0 t : fs_wf d fs0 t ->
  exists fs d', new_FileSystem fresh_mem false d = Ok (fs, d') /\ fs_wf d' fs t /\ files d' (used_entries t) = files d (used_entries t).
Proof.
  intros Hw. unfold new_FileSystem.
  destruct (new_OpenFile_ok d FreeMapSector (fw_good _ _ _ Hw) ltac:(done)) as (d1 & -> & Hs1). cbn [obind].
  destruct (new_OpenFile_ok d1 DirectorySector (proj1 Hs1) ltac:(done)) as (d2 & -> & Hs2). cbn [obind].
  destruct (fs_wf_same _ _ _ _ Hw (same_disk_trans _ _ _ Hs1 Hs2)) as (Hw2 & Ef & _).
  eexists _, d2. split; [done |]. split; [|done]. apply (same_headers d2 fs0); [| | done]; cbn [hdr freeMapFile directoryFile].
  - apply (sf_hdr _ _ _ _ (fw_map _ _ _ Hw)).
  - rewrite (proj2 Hs1) by done. apply (sf_hdr _ _ _ _ (fw_dir _ _ _ Hw)).
Qed.

(** The free map of a new file system: the two headers, then the two files. *)
Lemma format_marks : exists b0 b1 b2, new_Bitmap NumSectors = Ok b0 /\ Mark b0 FreeMapSector = Ok b1 /\ Mark b1 DirectorySector = Ok b2 /\
  rep b2 (list_to_set [FreeMapSector; DirectorySector]).
Proof.
  assert (valid_sector FreeMapSector) as H0 by done. assert (valid_sector DirectorySector) as H1 by done.
  destruct (bm_new (rep := bm_rep) NumSectors ltac:(done)) as (b0 & E0 & Hr0).
  destruct (bm_Mark (rep := bm_rep) _ _ _ FreeMapSector Hr0 H0) as (b1 & E1 & Hr1).
  destruct (bm_Mark (rep := bm_rep) _ _ _ DirectorySector Hr1 H1) as (b2 & E2 & Hr2).
  exists b0, b1, b2. split; [exact E0 |]. split; [exact E1 |]. split; [exact E2 |]. clear E0 E1 E2.
  replace (list_to_set [FreeMapSector; DirectorySector] : gset Z) with ({[DirectorySector]} ∪ ({[FreeMapSector]} ∪ ∅) : gset Z) by set_solver.
  exact Hr2.
Qed.

Lemma format_alloc b2 : rep b2 (list_to_set [FreeMapSector; DirectorySector]) -> exists h1 b3 h2 b4,
  Allocate (new_FileHeader fresh_mem) b2 FreeMapFileSize = Ok (true, h1, b3) /\
  Allocate (new_FileHeader fresh_mem) b3 DirectoryFileSize = Ok (true, h2, b4) /\
  hdr_ok h1 /\ hdr_ok h2 /\ numBytes h1 = FreeMapFileSize /\ numBytes h2 = DirectoryFileSize /\
  NoDup ([FreeMapSector; DirectorySector] ++ blocks h1 ++ blocks h2) /\
  rep b4 (list_to_set ([FreeMapSector; DirectorySector] ++ blocks h1 ++ blocks h2)).
Proof.
  intros Hr2.
  destruct (hdr_of_range (fresh_mem SectorSize)) as (_ & _ & Hl & Hrg).
  assert (size (list_to_set [FreeMapSector; DirectorySector] : gset Z) = 2%nat) as Hs2 by (rewrite size_list_to_set; [done | by apply (bool_decide_unpack _)]).
  destruct (Allocate_fits (new_FileHeader fresh_mem) b2 _ FreeMapFileSize Hrg Hl Hr2 ltac:(done)) as (h1 & b3 & E3 & Hh1 & Hn1 & Hf1 & Hr3);
    [by rewrite Hs2 | done |].
  pose proof (length_of_blocks h1 Hh1) as Hlb. rewrite (ho_sectors _ Hh1), Hn1 in Hlb. change (Z.to_nat (divRoundUp FreeMapFileSize SectorSize)) with 1%nat in Hlb.
  destruct (Allocate_fits (new_FileHeader fresh_mem) b3 _ DirectoryFileSize Hrg Hl Hr3 ltac:(done)) as (h2 & b4 & E4 & Hh2 & Hn2 & Hf2 & Hr4); [|done|].
  { rewrite size_union, Hs2, size_list_to_set, Hlb by (try apply Hh1; rewrite Forall_forall in Hf1; set_solver). done. }
  exists h1, b3, h2, b4. repeat (split; [done |]).
  rewrite Forall_forall in Hf1, Hf2. split.
  - apply NoDup_app. split; [|split; [|apply NoDup_app; split; [apply Hh1 | split; [|apply Hh2]]]].
    + apply (bool_decide_unpack _). vm_compute. exact I.
    + intros x Hx [Hx1|Hx2]%elem_of_app; [apply (Hf1 x Hx1) | apply (Hf2 x Hx2)]; set_solver.
    + intros x Hx Hx2. apply (Hf2 x Hx2). set_solver.
  - rewrite !list_to_set_app_L. replace (_ ∪ (_ ∪ _)) with (list_to_set (blocks h2) ∪ (list_to_set (blocks h1) ∪ list_to_set [FreeMapSector; DirectorySector]) : gset Z) by set_solver. done.
Qed.

Lemma format_ok d : good d ->
  exists fs d' t, new_FileSystem fresh_mem true d = Ok (fs, d') /\ fs_wf d' fs t /\ files d' (used_entries t) = ∅.
Proof.
  intros Hd. unfold new_FileSystem. destruct format_marks as (b0 & b1 & b2 & E0 & E1 & E2 & Hr2).
  rewrite E0. cbn [obind]. rewrite E1. cbn [obind]. rewrite E2. cbn [obind]. clear E0 E1 E2.
  destruct (format_alloc b2 Hr2) as (h1 & b3 & h2 & b4 & E3 & E4 & Hh1 & Hh2 & Hn1 & Hn2 & Hn & Hr).
  rewrite E3. cbn [obind assert_]. rewrite E4. cbn [obind assert_].
  destruct (Header_Write_ok d h1 FreeMapSector Hd Hh1 ltac:(done)) as (d1 & -> & Hg1 & Eh1 & Ho1). cbn [obind].
  destruct (Header_Write_ok d1 h2 DirectorySector Hg1 Hh2 ltac:(done)) as (d2 & -> & Hg2 & Eh2 & Ho2). cbn [obind].
  destruct (new_OpenFile_ok d2 FreeMapSector Hg2 ltac:(done)) as (d3 & -> & Hs3). cbn [obind].
  destruct (new_OpenFile_ok d3 DirectorySector (proj1 Hs3) ltac:(done)) as (d4 & -> & Hs4). cbn [obind].
  assert (forall j, valid_sector j -> sector_at d4 j = sector_at d2 j) as Ho4 by (intros j Hj; by rewrite (proj2 Hs4), (proj2 Hs3)).
  assert (hdr_of (sector_at d4 FreeMapSector) = h1) as Em by (by rewrite Ho4, Ho2, Eh1).
  assert (hdr_of (sector_at d4 DirectorySector) = h2) as Edir by (by rewrite Ho4, Eh2).
  rewrite Ho2, (proj2 Hs3), Eh1, Eh2 by done.
  set (fs := mkFS (mkOpenFile h1 0) (mkOpenFile h2 0)). destruct new_Directory_ok as (Ht & Hl & Hu).
  set (t := new_Directory fresh_mem NumDirEntries) in *.
  assert (all_sectors d4 fs t = [FreeMapSector; DirectorySector] ++ blocks h1 ++ blocks h2) as Ea.
  { unfold all_sectors, system_sectors. rewrite Hu. cbn [file_sectors fmap list_fmap concat]. by rewrite app_nil_r. }
  assert (committable d4 fs t b4) as Hc.
  { split; rewrite ?Ea, ?Hu; try done; [apply Hs4 | constructor]. }
  destruct (proj2 (commit d4 fs t b4 Hc)) as (d5 & E & Hw5 & Ef5 & _).
  exists fs, d5, t. split; [exact (E _ (fun d => Ok (fs, d))) |]. split; [done |]. by rewrite Ef5, Hu.
Qed.

Lemma fs_open_kept d d' fs t t' g n : fs_wf d fs t -> fs_wf d' fs t' ->
  (forall e, e ∈ used_entries t -> entry_key e = key n -> e ∈ used_entries t' /\ entry_hdr d' e = entry_hdr d e) ->
  fs_open d fs (files d (used_entries t)) g n -> fs_open d' fs (files d' (used_entries t')) g n.
Proof.
  intros Hw Hw' Hk (t2 & e & Hw2 & _ & He & Ek & Eh). rewrite (fs_wf_table _ _ _ _ Hw2 Hw) in He.
  destruct (Hk e He Ek) as [He' Eh']. exists t', e. by rewrite Eh'.
Qed.

End Rep.

(** C40.  The file system refines a map from names (their first nine bytes,
    up to a NUL) to byte sequences, on any disk that keeps what is written
    to its sectors. Formatting gives the empty map, whatever the disk held,
    and opening a formatted disk gives the map that is on it. [Create]
    follows [Create_outcome] - refused for a name in use, without a sector
    for the header, without a directory entry, without space for the data;
    it writes outside its header when the file needs more than [NumDirect]
    sectors - and only success changes the map, by a file of the size asked
    for. [Open] finds exactly the names of the map; an open file reads the
    bytes of its name, and a write replaces these bytes in the map and no
    others. [Remove] deletes the name and frees its sectors; [List] lists
    the names. Files that are open stay open on their names, but for the
    removed one. In every state the sectors of headers, files, free map and
    directory are distinct, and the free map marks exactly these (part of
    [fs_rep]). *)
Theorem file_system_refines_map {D} `{SL : SectorLaws D} (fresh_mem : Z -> list Z)
    (Hfresh : forall k, 0 <= k -> Z.of_nat (length (fresh_mem k)) = k) (Hbytes : forall k, Forall is_byte (fresh_mem k)) (d : D) :
  (good d -> exists fs d', new_FileSystem fresh_mem true d = Ok (fs, d') /\ fs_rep d' fs ∅) /\
  forall fs m, fs_rep d fs m ->
  (exists fs' d', new_FileSystem fresh_mem false d = Ok (fs', d') /\ fs_rep d' fs' m) /\
  (forall n size_, Forall is_byte n -> 0 <= size_ < 2 ^ 31 ->
     match Create_outcome m n size_ with
     | Trap u => FS_Create fresh_mem fs n size_ d = Trap u
     | Ok r => exists d' m', FS_Create fresh_mem fs n size_ d = Ok (r, d') /\ fs_rep d' fs m' /\
         (if r then exists c, Z.of_nat (length c) = size_ /\ m' = <[key n := c]> m else m' = m) /\
         forall g n', fs_open d fs m g n' -> fs_open d' fs m' g n'
     end) /\
  (forall n, exists r d', FS_Open fresh_mem fs n d = Ok (r, d') /\ fs_rep d' fs m /\
     (forall g n', fs_open d fs m g n' -> fs_open d' fs m g n') /\
     match r with
     | None => m !! key n = None
     | Some f => seekPosition f = 0 /\ fs_open d' fs m f n
     end) /\
  (forall f n from k pos, fs_open d fs m f n -> k < 2 ^ 30 -> 0 <= pos -> k <= Z.of_nat (length from) -> Forall is_byte from ->
     exists c d', m !! key n = Some c /\ c = fbytes d (hdr f) /\ WriteAt fresh_mem f from k pos d = Ok (written c pos k, d') /\
       forall g n', fs_open d fs m g n' -> fs_open d' fs (<[key n := write_bytes c pos k from]> m) g n') /\
  (forall n, exists d', FS_Remove fresh_mem fs n d = Ok (bool_decide (is_Some (m !! key n)), d') /\ fs_rep d' fs (delete (key n) m) /\
     forall g n', key n' <> key n -> fs_open d fs m g n' -> fs_open d' fs (delete (key n) m) g n') /\
  (exists l d', FS_List fresh_mem fs d = Ok (l, d') /\ fs_rep d' fs m /\ key <$> l ≡ₚ (map_to_list m).*1).
Proof.
  split.
  { intros Hd. destruct (format_ok fresh_mem Hfresh Hbytes d Hd) as (fs & d' & t & E & Hw & Hf). exists fs, d'.
    split; [exact E |]. exists t. split; [exact Hw | exact Hf]. }
  intros fs m (t & Hw & <-). split; [|split; [|split; [|split; [|split]]]].
  - destruct (reopen_ok fresh_mem d fs t Hw) as (fs' & d' & E & Hw' & Hf). exists fs', d'. split; [exact E |]. by exists t.
  - intros n sz Hn Hsz. pose proof (FS_Create_ok fresh_mem Hfresh Hbytes d fs t n sz Hw Hn Hsz) as HC.
    destruct (Create_outcome _ _ _) as [r|u]; [|exact HC]. destruct HC as (d' & t' & E & Hw' & Hk & Hin & HC).
    exists d', (files d' (used_entries t')). split; [exact E |]. split; [by exists t' |]. split; [exact HC |].
    intros g n'. apply (fs_open_kept d d' fs t t'); [done | done |]. intros e He _. split; [by apply Hin | by apply Hk].
  - intros n. destruct (FS_Open_ok fresh_mem Hfresh Hbytes d fs t n Hw) as (r & d' & E & Hw' & Hf & Hk & Hr).
    exists r, d'. split; [exact E |]. split; [by exists t |]. split; [|exact Hr].
    intros g n'. rewrite <- Hf at 2. apply (fs_open_kept d d' fs t t); [done | done |]. intros e He _. split; [done | by apply Hk].
  - intros f n from k pos Ho Hk Hp Hl Hb. destruct (fs_open_bytes _ _ _ _ _ Ho) as (_ & _ & Hm).
    destruct (fs_open_WriteAt fresh_mem Hfresh Hbytes d fs _ f n from k pos _ Ho Hm Hk Hp Hl Hb) as (d' & E & Hg).
    exists (fbytes d (hdr f)), d'. split; [exact Hm |]. split; [done |]. by split.
  - intros n. destruct (FS_Remove_ok fresh_mem Hfresh Hbytes d fs t n Hw) as (d' & t' & E & Hw' & Hf & Hk).
    exists d'. split; [exact E |]. rewrite <- Hf. split; [by exists t' |].
    intros g n' Hne. apply (fs_open_kept d d' fs t t'); [done | done |]. intros e He Ek. apply Hk; [done | congruence].
  - destruct (FS_List_ok fresh_mem Hfresh Hbytes d fs t Hw) as (l & d' & E & Hw' & Hf & _ & Hl).
    exists l, d'. split; [exact E |]. split; [by exists t | done].
Qed.

(** A disk is formatted, the file [ab] of 300 bytes is created and opened. *)
Lemma file_system_refines_map_witness :
  exists fs d1 d2 d3 c f, new_FileSystem RamDisk.fresh true RamDisk.blank = Ok (fs, d1) /\ fs_rep d1 fs ∅ /\
    FS_Create RamDisk.fresh fs [97; 98] 300 d1 = Ok (true, d2) /\ length c = 300%nat /\
    FS_Open RamDisk.fresh fs [97; 98] d2 = Ok (Some f, d3) /\ fs_open d3 fs {[ [97; 98] := c ]} f [97; 98].
Proof.
  destruct (file_system_refines_map RamDisk.fresh RamDisk.fresh_length RamDisk.fresh_bytes RamDisk.blank) as [Hformat _].
  destruct (Hformat RamDisk.blank_good) as (fs & d1 & E1 & H1).
  destruct (file_system_refines_map RamDisk.fresh RamDisk.fresh_length RamDisk.fresh_bytes d1) as [_ Hops].
  destruct (Hops fs ∅ H1) as (_ & Hcreate & _).
  assert (Create_outcome ∅ [97; 98] 300 = Ok true) as Eo by (vm_compute; reflexivity).
  assert (Forall is_byte [97; 98]) as Hn by (repeat constructor; lia).
  pose proof (Hcreate [97; 98] 300 Hn ltac:(lia)) as HC. rewrite Eo in HC.
  destruct HC as (d2 & m' & E2 & H2 & (c & Hc & ->) & _).
  destruct (file_system_refines_map RamDisk.fresh RamDisk.fresh_length RamDisk.fresh_bytes d2) as [_ Hops2].
  destruct (Hops2 fs _ H2) as (_ & _ & Hopen & _).
  destruct (Hopen [97; 98]) as (r & d3 & E3 & _ & _ & Hr).
  change (key [97; 98]) with [97; 98] in *.
  destruct r as [f|]; [|rewrite lookup_insert_eq in Hr; discriminate Hr].
  exists fs, d1, d2, d3, c, f. split; [exact E1 |]. split; [exact H1 |]. split; [exact E2 |]. split; [lia |].
  split; [exact E3 |]. exact (proj2 Hr).
Defined.

End FileSysSpec.
