(* ===== verification/Main.v ===== *)
(** * The file system options of main: threads/main.cc without the stub

    [Copy] and [Print] of main.cc, the Print and List routines of the file
    system, and what [main] does for -f, -r, -cp, -D, -l and -p, on one
    machine that holds both the files of the host and the Nachos disk
    ([DiskOnHost]); the disk of Disk.v is such a disk. What is printed is
    part of the result. *)

From stdpp Require Import pretty.
From S2P Require Import Prelude Bitmap FileTable AddrSpace Disk Network Post FileSys FileSysProofs FileSysSpec CommandLine.

Module Main.
Import Host Stub Disk Network FileSys FileSysProofs FileSysSpec CommandLine.

(** ** What is printed *)

Definition newline : list Z := [10].

(** [printf("%x", c)] of a byte. *)
Definition hex_digit (d : Z) : Z := if d <? 10 then 48 + d else 87 + d.
Definition hex (c : Z) : list Z := (if c <? 16 then [] else [hex_digit (c / 16)]) ++ [hex_digit (c mod 16)].

(** A byte of a file in [FileHeader::Print]. *)
Definition show_byte (c : Z) : list Z := if (32 <=? c) && (c <=? 126) then [c] else 92 :: hex c.

(** [printf("%s", table[i].name)]: up to a NUL, wherever that is. *)
Definition show_name (t : list DirectoryEntry) (i : Z) : outcome (list Z) :=
  Post.c_string (drop (Z.to_nat (sizeof_DirectoryEntry * i + 8)) (table_bytes t)).

Definition Directory_List (t : list DirectoryEntry) : outcome (list Z) :=
  ofold (fun out i =>
    let! e := arr_get t i in
    if used e then let! s := show_name t i in Ok (out ++ s ++ newline) else Ok out)
    [] (seqZ 0 (Z.of_nat (length t))).

(** [cout << i << ", "] for every set bit. *)
Definition Bitmap_Print (b : Bitmap.Bitmap) : outcome (list Z) :=
  let! l := Bitmap.Print b in
  Ok (chars "Bitmap set:" ++ newline ++ concat ((fun i => decimal i ++ chars ", ") <$> l) ++ newline).

Section Main.
Context {W : Type} `{HW : Host W} `{SD : SectorDisk W} (fresh_mem : Z -> list Z).

Definition Header_Print (h : FileHeader) (w : W) : outcome (list Z * W) :=
  let! out := ofold (fun out i => let! s := arr_get (dataSectors h) i in Ok (out ++ decimal s ++ chars " "))
    (chars "FileHeader contents.  File size: " ++ decimal (numBytes h) ++ chars ".  File blocks:" ++ newline)
    (seqZ 0 (numSectors h)) in
  let! ' (out, _, w) := ofold (fun '(out, k, w) i =>
      let! s := arr_get (dataSectors h) i in
      let! ' (data, w) := read_sector s w in
      let n := Z.max 0 (Z.min SectorSize (numBytes h - k)) in
      Ok (out ++ concat (show_byte <$> take (Z.to_nat n) data) ++ newline, k + n, w))
    (out ++ newline ++ chars "File contents:" ++ newline, 0, w) (seqZ 0 (numSectors h)) in
  Ok (out, w).

Definition Directory_Print (t : list DirectoryEntry) (w : W) : outcome (list Z * W) :=
  let! ' (out, w) := ofold (fun '(out, w) i =>
      let! e := arr_get t i in
      if used e then
        let! s := show_name t i in
        let! ' (hdr, w) := Header_FetchFrom (sector e) w in
        let! ' (p, w) := Header_Print hdr w in
        Ok (out ++ chars "Name: " ++ s ++ chars ", Sector: " ++ decimal (sector e) ++ newline ++ p, w)
      else Ok (out, w))
    (chars "Directory contents:" ++ newline, w) (seqZ 0 (Z.of_nat (length t))) in
  Ok (out ++ newline, w).

Definition FileSystem_Print (fs : FileSystem) (w : W) : outcome (list Z * W) :=
  let! ' (freeMap, w) := new_PersistentBitmap fresh_mem (freeMapFile fs) NumSectors w in
  let directory := new_Directory fresh_mem NumDirEntries in
  let! ' (bitHdr, w) := Header_FetchFrom FreeMapSector w in
  let! ' (p1, w) := Header_Print bitHdr w in
  let! ' (dirHdr, w) := Header_FetchFrom DirectorySector w in
  let! ' (p2, w) := Header_Print dirHdr w in
  let! p3 := Bitmap_Print freeMap in
  let! ' (directory, w) := Dir_FetchFrom fresh_mem (directoryFile fs) directory w in
  let! ' (p4, w) := Directory_Print directory w in
  Ok (chars "Bit map file header:" ++ newline ++ p1 ++ chars "Directory file header:" ++ newline ++ p2 ++ p3 ++ p4, w).

Definition FileSystem_List (fs : FileSystem) (w : W) : outcome (list Z * W) :=
  let! ' (directory, w) := Dir_FetchFrom fresh_mem (directoryFile fs) (new_Directory fresh_mem NumDirEntries) w in
  let! out := Directory_List directory in
  Ok (out, w).

(** ** Copy and Print *)

Definition TransferSize : Z := 128.

(** The loop of [Copy]; [n] bounds its iterations. *)
Fixpoint copy_loop (n : nat) (fd : Z) (buffer : list Z) (openFile : OpenFile) (w : W) : outcome (OpenFile * W) :=
  match n with
  | O => Trap NoFuel
  | S n' =>
      let! ' (amountRead, buffer, w) := ReadPartial fd buffer TransferSize w in
      if 0 <? amountRead then
        let! ' (_, openFile, w) := File_Write fresh_mem openFile buffer amountRead w in
        copy_loop n' fd buffer openFile w
      else Ok (openFile, w)
  end.

Definition Copy (from to : list Z) (fs : FileSystem) (w : W) : outcome (list Z * W) :=
  let! ' (fd, w) := OpenForReadWrite from false w in
  if fd <? 0 then Ok (chars "Copy: couldn't open input file " ++ from ++ newline, w)
  else
    let! w := Lseek fd 0 2 w in
    let '(fileLength, w) := Tell fd w in
    let! w := Lseek fd 0 0 w in
    let! ' (created, w) := FS_Create fresh_mem fs to fileLength w in
    if negb created then
      let! ' (_, w) := Close fd w in
      Ok (chars "Copy: couldn't create output file " ++ to ++ newline, w)
    else
      let! ' (openFile, w) := FS_Open fresh_mem fs to w in
      match openFile with
      | None => Trap AssertFail
      | Some openFile =>
          let! ' (_, w) := copy_loop (S (Z.to_nat fileLength)) fd (fresh_mem TransferSize) openFile w in
          let! ' (_, w) := Close fd w in
          Ok ([], w)
      end.

(** The loops of [Print]: [out] is printed so far. *)
Fixpoint print_loop (n : nat) (openFile : OpenFile) (buffer out : list Z) (w : W) : outcome (list Z * W) :=
  match n with
  | O => Trap NoFuel
  | S n' =>
      let! ' (amountRead, buffer, openFile, w) := File_Read fresh_mem openFile buffer TransferSize w in
      if 0 <? amountRead then
        let! out := ofold (fun out i => let! c := arr_get buffer i in Ok (out ++ [c])) out (seqZ 0 amountRead) in
        print_loop n' openFile buffer out w
      else Ok (out, w)
  end.

Definition Print (name : list Z) (fs : FileSystem) (w : W) : outcome (list Z * W) :=
  let! ' (openFile, w) := FS_Open fresh_mem fs name w in
  match openFile with
  | None => Ok (chars "Print: unable to open file " ++ name ++ newline, w)
  | Some openFile => print_loop (S (Z.to_nat (Length openFile))) openFile (fresh_mem TransferSize) [] w
  end.

(** ** main *)

(** A step of [main] that is taken when its option was given. *)
Definition when {A} (o : option A) (f : A -> W -> outcome (list Z * W)) (w : W) : outcome (list Z * W) :=
  match o with
  | Some a => f a w
  | None => Ok ([], w)
  end.
Definition if_set (b : bool) : option unit := if b then Some tt else None.
Definition both {A B} (x : option A) (y : option B) : option (A * B) :=
  match x, y with Some a, Some b => Some (a, b) | _, _ => None end.

(** The options on files, in the order of the code. *)
Definition main_files (o : MainArgs) (fs : FileSystem) (w : W) : outcome (list Z * W) :=
  let! ' (_, w) := when (removeFileName o) (fun n w => let! ' (_, w) := FS_Remove fresh_mem fs n w in Ok ([], w)) w in
  let! ' (p1, w) := when (both (copyUnixFileName o) (copyNachosFileName o)) (fun '(u, n) => Copy u n fs) w in
  let! ' (p2, w) := when (if_set (dumpFlag o)) (fun _ => FileSystem_Print fs) w in
  let! ' (p3, w) := when (if_set (dirListFlag o)) (fun _ => FileSystem_List fs) w in
  let! ' (p4, w) := when (printFileName o) (fun n => Print n fs) w in
  Ok (p1 ++ p2 ++ p3 ++ p4, w).

(** A run of [main] whose options are about files only: what the parts of
    [Initialize] without an influence on files do is left out. *)
Definition main (argv : list (list Z)) (w : W) : outcome (list Z * W) :=
  let! ' (o, _, k) := read_command_line false argv in
  let! ' (fs, w) := new_FileSystem fresh_mem (formatFlag k) w in
  let! ' (out, w) := main_files o fs w in
  Ok (concat ((fun l => l ++ newline) <$> cout o ++ kcout k) ++ out, w).

End Main.

(** ** What does not touch the disk, and what touches only the disk *)

(** Whatever relation every transfer of a sector satisfies, the operations
    of the file system satisfy. *)
Section Frame.
Context {D : Type} `{SD : SectorDisk D} (fresh_mem : Z -> list Z) (R : D -> D -> Prop) `{!PreOrder R}.
Context (read_R : forall i d b d', read_sector i d = Ok (b, d') -> R d d')
        (write_R : forall i b d d', write_sector i b d = Ok d' -> R d d').

Lemma ofold_R {A S} (g : S -> D) (f : S -> A -> outcome S) s l s' :
  (forall s a s', f s a = Ok s' -> R (g s) (g s')) -> ofold f s l = Ok s' -> R (g s) (g s').
Proof.
  intros Hf. revert s. induction l as [|a l IH]; intros s E; cbn in E; [by injection E as <- |].
  apply obind_Ok in E as (s1 & E1 & E). transitivity (g s1); [by eapply Hf | by apply IH].
Qed.

(** Splits a run into its calls. *)
#[local] Ltac calls := repeat match goal with
  | H : obind _ _ = Ok _ |- _ => let x := fresh "x" in let E := fresh "E" in apply obind_Ok in H as (x & E & H)
  | H : context [let '(_, _) := ?x in _] |- _ => destruct x
  | H : Ok _ = Ok _ |- _ => injection H as H; subst
  | H : Trap _ = Ok _ |- _ => discriminate H
  | H : (if ?b then _ else _) = Ok _ |- _ => let E := fresh "Eb" in destruct b eqn:E
  | H : match ?o with Some _ => _ | None => _ end = Ok _ |- _ => destruct o
  end; cbn [fst snd] in *.

Lemma read_sectors_R h first count buf d b d' : read_sectors h first count buf d = Ok (b, d') -> R d d'.
Proof.
  intros E. apply (ofold_R snd _ _ _ _) in E; [exact E |]. intros [b0 d0] i s E0. calls. by eapply read_R.
Qed.

Lemma ReadAt_R f into n pos d k b d' : ReadAt fresh_mem f into n pos d = Ok (k, b, d') -> R d d'.
Proof. unfold ReadAt. intros E. calls; [reflexivity |]. by eapply read_sectors_R. Qed.

Lemma write_sectors_R h first count buf d d' : write_sectors h first count buf d = Ok d' -> R d d'.
Proof. intros E. apply (ofold_R id _ _ _ _) in E; [exact E |]. intros d0 i s E0. calls. by eapply write_R. Qed.

#[local] Ltac chain := first [reflexivity | eassumption |
  match goal with H : R ?a ?b |- R ?a ?c => transitivity b; [exact H | clear H; chain] end].

Lemma WriteAt_R f from n pos d k d' : WriteAt fresh_mem f from n pos d = Ok (k, d') -> R d d'.
Proof.
  unfold WriteAt. intros E. calls; try reflexivity; repeat match goal with
  | H : write_sectors _ _ _ _ _ = Ok _ |- _ => apply write_sectors_R in H
  | H : ReadAt _ _ _ _ _ _ = Ok (_, _, _) |- _ => apply ReadAt_R in H
  end; chain.
Qed.

Lemma File_Read_R f into n d k b f' d' : File_Read fresh_mem f into n d = Ok (k, b, f', d') -> R d d'.
Proof. unfold File_Read. intros E. calls. by eapply ReadAt_R. Qed.

Lemma File_Write_R f from n d k f' d' : File_Write fresh_mem f from n d = Ok (k, f', d') -> R d d'.
Proof. unfold File_Write. intros E. calls. by eapply WriteAt_R. Qed.

Lemma Dir_FetchFrom_R f t d t' d' : Dir_FetchFrom fresh_mem f t d = Ok (t', d') -> R d d'.
Proof. unfold Dir_FetchFrom. intros E. calls. by eapply ReadAt_R. Qed.

Lemma new_PersistentBitmap_R f n d b d' : new_PersistentBitmap fresh_mem f n d = Ok (b, d') -> R d d'.
Proof. unfold new_PersistentBitmap, Map_FetchFrom. intros E. calls. by eapply ReadAt_R. Qed.

Lemma new_OpenFile_R i d f d' : new_OpenFile i d = Ok (f, d') -> R d d'.
Proof. unfold new_OpenFile, Header_FetchFrom. intros E. calls. by eapply read_R. Qed.

Lemma Create_rest_R fs n sz t b d r d' : Create_rest fresh_mem fs n sz t b d = Ok (r, d') -> R d d'.
Proof.
  unfold Create_rest, Header_WriteBack, Dir_WriteBack, Map_WriteBack. intros E. calls; try reflexivity; repeat match goal with
  | H : write_sector _ _ _ = Ok _ |- _ => apply write_R in H
  | H : WriteAt _ _ _ _ _ _ = Ok (_, _) |- _ => apply WriteAt_R in H
  end; chain.
Qed.

Lemma FS_Create_R fs n sz d r d' : FS_Create fresh_mem fs n sz d = Ok (r, d') -> R d d'.
Proof.
  unfold FS_Create. intros E. calls; repeat match goal with
  | H : Dir_FetchFrom _ _ _ _ = Ok (_, _) |- _ => apply Dir_FetchFrom_R in H
  | H : new_PersistentBitmap _ _ _ _ = Ok (_, _) |- _ => apply new_PersistentBitmap_R in H
  | H : Create_rest _ _ _ _ _ _ _ = Ok (_, _) |- _ => apply Create_rest_R in H
  end; chain.
Qed.

Lemma FS_Open_R fs n d r d' : FS_Open fresh_mem fs n d = Ok (r, d') -> R d d'.
Proof.
  unfold FS_Open. intros E. calls; repeat match goal with
  | H : Dir_FetchFrom _ _ _ _ = Ok (_, _) |- _ => apply Dir_FetchFrom_R in H
  | H : new_OpenFile _ _ = Ok (_, _) |- _ => apply new_OpenFile_R in H
  end; chain.
Qed.

Lemma reopen_R d fs d' : new_FileSystem fresh_mem false d = Ok (fs, d') -> R d d'.
Proof.
  unfold new_FileSystem. intros E. calls; repeat match goal with
  | H : new_OpenFile _ _ = Ok (_, _) |- _ => apply new_OpenFile_R in H
  end; chain.
Qed.

End Frame.
(** Two states of the host whose files are the same, but for the disk's and
    for the offsets of the descriptors [own]. *)
Section Sharing.
Context {W : Type} `{HV : HostView W} (dfd dino : Z).

Record files_same (own : list Z) (w w' : W) : Prop := {
  fsm_names : names w' = names w;
  fsm_content i : i <> dino -> content w' !! i = content w !! i;
  fsm_opens f : f <> dfd -> f ∉ own -> opens w' !! f = opens w !! f;
  fsm_fds : fds w' = fds w
}.

#[export] Instance files_same_preorder own : PreOrder (files_same own).
Proof.
  split; [done |]. intros w1 w2 w3 [H1 H2 H3 H4] [G1 G2 G3 G4]. split; [congruence | | | congruence].
  - intros i Hi. by rewrite G2, H2.
  - intros f Hf Hown. by rewrite G3, H3.
Qed.

Lemma files_same_weaken own own' w w' : (forall f, f ∈ own -> f ∈ own') -> files_same own w w' -> files_same own' w w'.
Proof. intros H [H1 H2 H3 H4]. split; [done | done | | done]. intros f Hf Hn. apply H3; [done |]. intros Hi. by apply Hn, H. Qed.

Lemma moved_same w w' fd ino o : FileTable.moved w w' fd ino o -> files_same [fd] w w'.
Proof.
  intros (Hn & Hc & Ho & Hf). split; [done | by rewrite Hc | | done].
  intros f _ Hne. rewrite Ho, lookup_insert_ne; [done | set_solver].
Qed.

(** The Nachos disk beside the files of the host; its file is open. *)
Class DiskOnHost `{HH : !Host W} `{SD : !SectorDisk W} := {
  attached : W -> Prop;
  attached_good w : good w -> attached w;
  read_sector_rest i w b w' : attached w -> read_sector i w = Ok (b, w') -> attached w' /\ files_same [] w w';
  write_sector_rest i b w w' : attached w -> write_sector i b w = Ok w' -> attached w' /\ files_same [] w w';
  open_rest n w r w' : good w -> open n O_RDWR w = (r, w') -> same_disk w w' /\ (0 <= r -> r <> dfd);
  close_rest fd w r w' : good w -> fd <> dfd -> fd ∈ fds w -> close fd w = (r, w') -> same_disk w w';
  lseek_rest fd off wh w r w' p : good w -> fd <> dfd -> opens w !! fd = Some p -> 0 <= wh <= 2 -> lseek fd off wh w = (r, w') -> same_disk w w';
  read_rest fd n w r b w' p : good w -> fd <> dfd -> opens w !! fd = Some p -> 0 <= n -> read fd n w = (r, b, w') -> same_disk w w'
}.

End Sharing.
Arguments DiskOnHost W {_} dfd dino {_ _}.
(** ** Copying a file of the host, and printing it *)

Section Copying.
Context {W : Type} `{HH : Host W} `{HV : !HostView W} `{HL : !HostLaws W} `{SD : SectorDisk W} `{SL : !SectorLaws W}.
Context (dfd dino : Z) `{DH : !DiskOnHost W dfd dino} (reads_succeed : AddrSpace.reads_succeed (W := W)).
Context (fresh_mem : Z -> list Z)
        (fresh_length : forall n, 0 <= n -> Z.of_nat (length (fresh_mem n)) = n)
        (fresh_bytes : forall n, Forall is_byte (fresh_mem n)).
Notation files_same := (files_same dfd dino).

(** The operations of the file system leave the host's files alone. *)
Definition disk_only (w w' : W) : Prop := attached dfd dino w -> attached dfd dino w' /\ files_same [] w w'.

#[local] Instance disk_only_preorder : PreOrder disk_only.
Proof.
  split; [done |]. intros w1 w2 w3 H1 H2 Ha. destruct (H1 Ha) as [Ha' H1']. destruct (H2 Ha') as [Ha'' H2'].
  split; [done | by transitivity w2].
Qed.

Lemma disk_R_read i d b d' : read_sector i d = Ok (b, d') -> disk_only d d'.
Proof. intros E Ha. by eapply (read_sector_rest dfd dino). Qed.
Lemma disk_R_write i b d d' : write_sector i b d = Ok d' -> disk_only d d'.
Proof. intros E Ha. by eapply (write_sector_rest dfd dino). Qed.
Lemma disk_only_files d d' : good d -> disk_only d d' -> files_same [] d d'.
Proof. intros Hg H. by destruct (H (attached_good dfd dino _ Hg)). Qed.
#[local] Notation stays lem := (lem fresh_mem disk_only disk_only_preorder disk_R_read).

Lemma fs_open_same d d' fs m f n : fs_open d fs m f n -> same_disk d d' -> fs_open d' fs m f n.
Proof.
  intros (t & e & Hw & <- & He & Ek & Eh) Hs. destruct (fs_wf_same _ _ _ _ Hw Hs) as (Hw' & Ef & _ & Hk).
  exists t, e. rewrite Ef, (Hk e He). done.
Qed.

Lemma fs_rep_same d d' fs m : fs_rep d fs m -> same_disk d d' -> fs_rep d' fs m.
Proof. intros (t & Hw & <-) Hs. destruct (fs_wf_same _ _ _ _ Hw Hs) as (Hw' & Ef & _). by exists t. Qed.

Lemma fs_rep_good d fs m : fs_rep d fs m -> good d.
Proof. intros (t & Hw & _). apply Hw. Qed.

Lemma fs_open_rep d fs m f n : fs_open d fs m f n -> fs_rep d fs m.
Proof. intros (t & e & Hw & Hm & _). by exists t. Qed.

(** What one round of the loop writes. *)
Lemma overwrite_next (c c0 d : list Z) (o : nat) : (o <= length c)%nat -> length c0 = length c -> d = take 128 (drop o c) ->
  overwrite (take o c ++ drop o c0) o d = take (o + length d) c ++ drop (o + length d) c0.
Proof.
  intros Ho Hl Hd. assert (d = take (length d) (drop o c)) as Hd'.
  { rewrite <- (take_drop 128 (drop o c)), <- Hd. symmetry. apply take_app_length. }
  unfold overwrite. rewrite take_app_length' by (rewrite length_take; lia).
  rewrite (drop_app_ge (take o c)) by (rewrite length_take; lia). rewrite drop_drop, length_take.
  rewrite Hd' at 1. rewrite app_assoc, take_take_drop. do 2 f_equal. lia.
Qed.

Lemma read_next fd w ino o c buffer :
  opens w !! fd = Some (ino, o) -> content w !! ino = Some c -> good w -> fd <> dfd -> length buffer = 128%nat ->
  let d := take 128 (drop (Z.to_nat o) c) in
  exists w', ReadPartial fd buffer TransferSize w = Ok (Z.of_nat (length d), d ++ drop (length d) buffer, w') /\
    FileTable.moved w w' fd ino (o + Z.of_nat (length d)) /\ same_disk w w'.
Proof.
  intros Ho Hc Hg Hfd Hl d. unfold ReadPartial. rewrite u32_id by done.
  pose proof (reads_succeed fd TransferSize w _ ltac:(done) Ho) as Hr.
  destruct (read fd TransferSize w) as [[r b] w'] eqn:E. cbn [fst] in Hr.
  destruct (read_ok _ _ _ _ _ _ _ _ c E ltac:(done) Ho Hc) as [(-> & _)|(Hb & -> & Hn & Hc' & Ho' & Hf)]; [done |].
  change (Z.to_nat TransferSize) with 128%nat in Hb. fold d in Hb. subst b.
  rewrite FileTable.buf_fill_ok by (unfold d; rewrite length_take; lia). cbn [obind].
  exists w'. split; [done |]. split; [done |]. exact (read_rest dfd dino fd TransferSize w _ _ w' _ Hg Hfd Ho ltac:(done) E).
Qed.

(** The state of the loop: [o] bytes of [c] are copied. *)
Record copying (fs : FileSystem) (m : gmap (list Z) (list Z)) (to c : list Z) (fd ino o : Z) (f : OpenFile) (w : W) : Prop := {
  cp_from : opens w !! fd = Some (ino, o);
  cp_content : content w !! ino = Some c;
  cp_range : 0 <= o <= Z.of_nat (length c);
  cp_seek : seekPosition f = o;
  cp_to : exists c0, length c0 = length c /\ fs_open w fs (<[key to := take (Z.to_nat o) c ++ drop (Z.to_nat o) c0]> m) f to
}.

Lemma fs_open_hdr d fs m f f' n : fs_open d fs m f n -> hdr f' = hdr f -> fs_open d fs m f' n.
Proof. intros (t & e & Hw & Hm & He & Ek & Eh) E. exists t, e. by rewrite E. Qed.

Lemma write_next (d : W) fs m to c c0 o f from : let part := take 128 (drop (Z.to_nat o) c) in let a := Z.of_nat (length part) in
  fs_open d fs (<[key to := take (Z.to_nat o) c ++ drop (Z.to_nat o) c0]> m) f to -> length c0 = length c ->
  0 <= o <= Z.of_nat (length c) -> Z.of_nat (length c) < 2 ^ 31 -> seekPosition f = o ->
  take (length part) from = part -> (length part <= length from)%nat -> Forall is_byte from ->
  exists d', File_Write fresh_mem f from a d = Ok (a, Seek f (o + a), d') /\ files_same [] d d' /\
    fs_open d' fs (<[key to := take (Z.to_nat (o + a)) c ++ drop (Z.to_nat (o + a)) c0]> m) (Seek f (o + a)) to.
Proof.
  intros part a Hf Hl Ho Hc Hs Hp Hlf Hb. set (now := take (Z.to_nat o) c ++ drop (Z.to_nat o) c0) in *.
  assert (length part <= 128 /\ length part <= length c - Z.to_nat o)%nat as Hpl by (unfold part; rewrite length_take, length_drop; lia).
  assert (Z.of_nat (length now) = Z.of_nat (length c)) as Hnl by (unfold now; rewrite length_app, length_take, length_drop; lia).
  destruct (fs_open_WriteAt fresh_mem fresh_length fresh_bytes d fs _ f to from a o now Hf (lookup_insert_eq _ _ _)) as (d' & E & Ho');
    [unfold a; lia | lia | unfold a; lia | done |].
  assert (written now o a = a) as Ew.
  { unfold written. rewrite Hnl. destruct (Z.leb_spec a 0), (Z.leb_spec (Z.of_nat (length c)) o); cbn [orb]; unfold a in *; lia. }
  exists d'. split; [|split].
  - unfold File_Write. rewrite Hs, E, Ew. cbn [obind]. rewrite s32_id; [done |]. unfold is_s32, a. lia.
  - apply (stays WriteAt_R disk_R_write) in E. apply disk_only_files; [by eapply fs_rep_good, fs_open_rep | done].
  - assert (write_bytes now o a from = take (Z.to_nat (o + a)) c ++ drop (Z.to_nat (o + a)) c0) as Eb.
    { unfold write_bytes. rewrite Ew. unfold a at 1. rewrite Nat2Z.id, Hp. unfold now.
      rewrite (overwrite_next c c0 part) by (done || lia). unfold a. do 2 f_equal; lia. }
    specialize (Ho' (Seek f (o + a)) to). rewrite insert_insert_eq, Eb in Ho'. apply Ho'. by apply (fs_open_hdr _ _ _ f).
Qed.

Lemma copy_loop_ok fs m to c fd ino n : fd <> dfd -> ino <> dino -> Forall is_byte c -> Z.of_nat (length c) < 2 ^ 31 ->
  forall o f w buffer, copying fs m to c fd ino o f w -> length buffer = 128%nat -> Forall is_byte buffer ->
  Z.of_nat (length c) - o < Z.of_nat n ->
  exists f' w', copy_loop fresh_mem n fd buffer f w = Ok (f', w') /\ files_same [fd] w w' /\
    copying fs m to c fd ino (Z.of_nat (length c)) f' w'.
Proof.
  intros Hfd Hino Hbc Hc. induction n as [|n IH]; intros o f w buffer [Hfrom Hcont Ho Hs (c0 & Hl & Hf)] Hbl Hbb Hn; [lia |].
  destruct (read_next fd w ino o c buffer Hfrom Hcont) as (w1 & E1 & Hm & Hd1); [by eapply fs_rep_good, fs_open_rep | done | done |].
  set (part := take 128 (drop (Z.to_nat o) c)) in *. set (a := Z.of_nat (length part)) in *. set (buffer' := part ++ drop (length part) buffer) in *.
  assert (length part = 128 `min` (length c - Z.to_nat o))%nat as Hpl by (unfold part; rewrite length_take, length_drop; lia).
  pose proof (fs_open_same _ _ _ _ _ _ Hf Hd1) as Hf1. pose proof (moved_same dfd dino _ _ _ _ _ Hm) as Hs1.
  destruct Hm as (_ & Hc1 & Ho1 & _). cbn [copy_loop]. rewrite E1. cbn [obind].
  destruct (Z.ltb_spec 0 a) as [Ha|Ha].
  - destruct (write_next w1 fs m to c c0 o f buffer' Hf1 Hl Ho Hc Hs) as (w2 & E2 & Hs2 & Hf2).
    { apply take_app_length. } { fold part. unfold buffer'. rewrite length_app. lia. }
    { apply Forall_app. split; [by apply Forall_take, Forall_drop | by apply Forall_drop]. }
    fold part a in E2, Hf2. rewrite E2. cbn [obind].
    destruct (IH (o + a) (Seek f (o + a)) w2 buffer') as (f' & w' & E & Hs' & Hcp).
    + split; [| | unfold a; lia | done | by exists c0].
      * rewrite (fsm_opens _ _ _ _ _ Hs2) by (done || set_solver). by rewrite Ho1, lookup_insert_eq.
      * by rewrite (fsm_content _ _ _ _ _ Hs2), Hc1.
    + unfold buffer'. rewrite length_app, length_drop. lia.
    + apply Forall_app. split; [by apply Forall_take, Forall_drop | by apply Forall_drop].
    + lia.
    + exists f', w'. split; [done |]. split; [|done]. transitivity w1; [done |].
      transitivity w2; [apply (files_same_weaken _ _ []); [set_solver | done] | done].
  - exists f, w1. split; [done |]. split; [done |]. assert (o = Z.of_nat (length c)) as Eo by (unfold a in Ha; lia).
    rewrite <- Eo. split; [by rewrite Ho1, lookup_insert_eq, Eo; do 2 f_equal; unfold a in *; lia | by rewrite Hc1 | done | done | by exists c0].
Qed.

(** *** Print *)

Lemma print_chars (r rest out : list Z) :
  ofold (fun out i => let! c := arr_get (r ++ rest) i in Ok (out ++ [c])) out (seqZ 0 (Z.of_nat (length r))) = Ok (out ++ r).
Proof.
  destruct (ofold_seqZ (fun i s => s = out ++ take (Z.to_nat i) r)
    (fun out i => let! c := arr_get (r ++ rest) i in Ok (out ++ [c])) 0 (Z.of_nat (length r)) out) as (s & -> & ->); [lia | | |].
  - by rewrite app_nil_r.
  - intros i s Hi ->. destruct (lookup_lt_is_Some_2 r (Z.to_nat i)) as [c Hc]; [lia |].
    rewrite (arr_get_lookup _ _ c); [|lia | rewrite lookup_app_l by lia; done]. cbn [obind]. eexists. split; [done |].
    replace (Z.to_nat (i + 1)) with (S (Z.to_nat i)) by lia. by rewrite (take_S_r _ _ c Hc), app_assoc.
  - by rewrite take_ge by lia.
Qed.

Lemma fs_open_length (d : W) fs m f n : fs_open d fs m f n ->
  exists c, m !! key n = Some c /\ c = fbytes d (hdr f) /\ Length f = Z.of_nat (length c) /\ Z.of_nat (length c) <= MaxFileSize.
Proof.
  intros Ho. destruct (fs_open_bytes _ _ _ _ _ Ho) as (Hg & Hh & Hm). eexists. split; [exact Hm |]. split; [done |].
  rewrite fbytes_length by done. unfold Length, FileLength. pose proof (ho_bytes _ Hh). lia.
Qed.

Lemma print_loop_ok fs m name n : forall o f w buffer out c,
  fs_open w fs m f name -> m !! key name = Some c -> seekPosition f = o -> 0 <= o <= Z.of_nat (length c) ->
  length buffer = 128%nat -> Z.of_nat (length c) - o < Z.of_nat n ->
  exists w', print_loop fresh_mem n f buffer out w = Ok (out ++ drop (Z.to_nat o) c, w') /\ fs_open w' fs m f name /\ files_same [] w w'.
Proof.
  induction n as [|n IH]; intros o f w buffer out c Hf Hm Hs Ho Hb Hn; [lia |].
  destruct (fs_open_length _ _ _ _ _ Hf) as (c' & Hm' & Ec & _ & Hlen). rewrite Hm in Hm'. injection Hm' as <-.
  change MaxFileSize with 3840 in Hlen. destruct (fs_open_bytes _ _ _ _ _ Hf) as (Hg & Hh & _).
  destruct (ReadAt_bytes fresh_mem fresh_length f buffer TransferSize o w Hh Hg) as (w1 & E & Hd);
    [done | lia | by rewrite Hb | rewrite <- Ec in E].
  set (r := read_bytes c o TransferSize) in *.
  assert (r = take 128 (drop (Z.to_nat o) c)) as Er.
  { unfold r, read_bytes. cbn [Z.leb orb]. change (TransferSize <=? 0) with false. cbn [orb].
    destruct (Z.leb_spec (Z.of_nat (length c)) o); [|done]. by rewrite drop_ge, take_nil by lia. }
  pose proof (f_equal length Er) as Hlr. rewrite length_take, length_drop in Hlr.
  cbn [print_loop]. unfold File_Read. rewrite Hs, E. cbn [obind].
  apply (stays ReadAt_R), disk_only_files in E; [|done]. apply fs_open_same with (d' := w1) in Hf; [|done].
  rewrite s32_id by (unfold is_s32; lia).
  destruct (Z.ltb_spec 0 (Z.of_nat (length r))) as [Hr|Hr].
  - rewrite print_chars. cbn [obind].
    destruct (IH (o + Z.of_nat (length r)) (Seek f (o + Z.of_nat (length r))) w1 (r ++ drop (length r) buffer) (out ++ r) c)
      as (w' & E' & Hf' & Hs'); try done; [lia | rewrite length_app, length_drop; lia | lia |].
    exists w'. split; [|split; [by apply (fs_open_hdr _ _ _ _ f) in Hf' | by transitivity w1]].
    rewrite E', <- app_assoc. do 3 f_equal. rewrite <- (take_drop 128 (drop (Z.to_nat o) c)), <- Er. f_equal. rewrite drop_drop.
    destruct (decide (length r = 128)%nat) as [E128|]; [f_equal; lia | rewrite !drop_ge by lia; done].
  - exists w1. split; [|by split]. assert (o = Z.of_nat (length c)) as Eo by lia. rewrite Eo, Nat2Z.id, drop_all, app_nil_r. done.
Qed.

(** [Print]: the bytes of the file, or a message. *)
Lemma Print_ok w fs m name : fs_rep w fs m ->
  exists w', Print fresh_mem name fs w = Ok (default (chars "Print: unable to open file " ++ name ++ newline) (m !! key name), w') /\
    fs_rep w' fs m /\ files_same [] w w'.
Proof.
  intros (t & Hw & <-). unfold Print. destruct (FS_Open_ok fresh_mem fresh_length fresh_bytes w fs t name Hw) as (r & w1 & E & Hw1 & Ef & _ & Hr).
  rewrite E. cbn [obind]. apply (stays FS_Open_R), disk_only_files in E; [|by apply Hw]. destruct r as [f|].
  - destruct Hr as [Hs Hf]. destruct (fs_open_length _ _ _ _ _ Hf) as (c & Hc & _ & Hl & _). rewrite Hl, Hc, Nat2Z.id.
    destruct (print_loop_ok fs _ name (S (length c)) 0 f w1 (fresh_mem TransferSize) [] c Hf Hc Hs) as (w' & E' & Hf' & Hs'); [lia | | lia |].
    { pose proof (fresh_length TransferSize ltac:(done)). unfold TransferSize in *. lia. }
    exists w'. rewrite E'. split; [done |]. split; [by eapply fs_open_rep | by transitivity w1].
  - exists w1. rewrite Hr. split; [done |]. split; [by exists t | done].
Qed.

(** *** Copy *)

Context (closes_succeed : forall fd w, fd ∈ fds w -> (close fd w).1 = 0).

(** [fd] is an open file of the host with bytes [c], at offset [o]. *)
Record reading (fd ino o : Z) (c : list Z) (w : W) : Prop := {
  rd_open : opens w !! fd = Some (ino, o);
  rd_content : content w !! ino = Some c;
  rd_fd : fd <> dfd;
  rd_ino : ino <> dino
}.

Lemma reading_kept fd ino o c w w' : reading fd ino o c w -> files_same [] w w' -> reading fd ino o c w'.
Proof.
  intros [H1 H2 H3 H4] Hs. split; [| | done | done].
  - by rewrite (fsm_opens _ _ _ _ _ Hs) by (done || set_solver).
  - by rewrite (fsm_content _ _ _ _ _ Hs).
Qed.

(** A seek to the start, the end, or nowhere. *)
Lemma seek_reading fd ino o c w wh : reading fd ino o c w -> good w -> 0 <= o <= Z.of_nat (length c) -> 0 <= wh <= 2 ->
  exists w', lseek fd 0 wh w = (seek_target o (Z.of_nat (length c)) 0 wh, w') /\
    Lseek fd 0 wh w = Ok w' /\ reading fd ino (seek_target o (Z.of_nat (length c)) 0 wh) c w' /\ same_disk w w' /\ files_same [fd] w w'.
Proof.
  intros [H1 H2 H3 H4] Hg Ho Hwh. destruct (opens_content _ _ _ _ H1) as (c' & Hc & Hl). rewrite H2 in Hc. injection Hc as <-.
  destruct (FileTable.Lseek_spec fd 0 wh w ino o c Hwh H1 H2) as [(_ & w' & E & EL & Hm)|(Hn & _)].
  - exists w'. split; [done |]. split; [done |]. split; [|split; [exact (lseek_rest dfd dino fd _ _ w _ w' _ Hg H3 H1 Hwh E) | by eapply moved_same]].
    destruct Hm as (_ & Hc & Hop & _). split; [by rewrite Hop, lookup_insert_eq | by rewrite Hc | done | done].
  - exfalso. apply Hn. unfold seek_target. destruct (wh =? 0), (wh =? 1); lia.
Qed.

Lemma open_reading from w fd w1 ino c : good w -> open from O_RDWR w = (fd, w1) -> 0 <= fd ->
  names w !! from = Some ino -> content w !! ino = Some c -> ino <> dino ->
  reading fd ino 0 c w1 /\ same_disk w w1 /\ fd ∉ fds w /\
  names w1 = names w /\ content w1 = content w /\ opens w1 = <[fd := (ino, 0)]> (opens w) /\ fds w1 = {[fd]} ∪ fds w.
Proof.
  intros Hg E Hfd Hn Hc Hi. destruct (open_rest dfd dino _ _ _ _ Hg E) as [Hd Hne].
  destruct (open_rdwr _ _ _ _ E) as [(-> & _)|(_ & Hf & ino' & Hn' & E1 & E2 & E3 & E4)]; [done |].
  rewrite Hn in Hn'. injection Hn' as <-. split; [|done].
  split; [by rewrite E3, lookup_insert_eq | by rewrite E2 | by apply Hne | done].
Qed.

(** Between the opening of the host's file and its closing. *)
Lemma close_reading fd ino w w1 w2 : good w2 -> fd <> dfd -> fd ∉ fds w ->
  names w1 = names w /\ content w1 = content w /\ opens w1 = <[fd := (ino, 0)]> (opens w) /\ fds w1 = {[fd]} ∪ fds w ->
  files_same [fd] w1 w2 ->
  exists w3, Close fd w2 = Ok (0, w3) /\ same_disk w2 w3 /\ files_same [] w w3.
Proof.
  intros Hg Hne Hfresh (Hn & Hc & Ho & Hf) [H1 H2 H3 H4].
  assert (fd ∈ fds w2) as Hin by (rewrite H4, Hf; set_solver).
  pose proof (closes_succeed fd w2 Hin) as Hr. unfold Close. destruct (close fd w2) as [r w3] eqn:E. cbn [fst] in Hr. subst r.
  destruct (close_ok _ _ _ _ E Hin) as (_ & E1 & E2 & E3 & E4). exists w3. cbn [obind assert_ Z.leb Z.compare].
  split; [done |]. split; [by eapply (close_rest dfd dino) |]. split.
  - congruence.
  - intros i Hi. by rewrite E2, H2, Hc.
  - intros f Hfd _. rewrite E3. destruct (decide (f = fd)) as [->|Hff].
    + rewrite lookup_delete_eq. destruct (opens w !! fd) eqn:Eo; [|done]. by apply opens_fds in Eo.
    + by rewrite lookup_delete_ne, H3, Ho, lookup_insert_ne by (done || set_solver).
  - rewrite E4, H4, Hf. set_solver.
Qed.

Definition no_input (from : list Z) : list Z := chars "Copy: couldn't open input file " ++ from ++ newline.
Definition no_output (to : list Z) : list Z := chars "Copy: couldn't create output file " ++ to ++ newline.

(** What [Copy] does to a file system with the files [m]. *)
Definition Copy_outcome (m : gmap (list Z) (list Z)) (to c : list Z) : outcome (list Z * gmap (list Z) (list Z)) :=
  let! created := Create_outcome m to (Z.of_nat (length c)) in
  Ok (if created then ([], <[key to := c]> m) else (no_output to, m)).

Lemma fresh_buffer : length (fresh_mem TransferSize) = 128%nat.
Proof. pose proof (fresh_length TransferSize ltac:(done)). unfold TransferSize in *. lia. Qed.

(** From the creation of the file on; [c0] is what it holds then. *)
Lemma fill_new_file w fs m to c0 c fd ino : fs_rep w fs (<[key to := c0]> m) -> length c0 = length c ->
  reading fd ino 0 c w -> Forall is_byte c -> Z.of_nat (length c) < 2 ^ 31 ->
  exists f w1 f' w', FS_Open fresh_mem fs to w = Ok (Some f, w1) /\
    copy_loop fresh_mem (S (length c)) fd (fresh_mem TransferSize) f w1 = Ok (f', w') /\
    fs_rep w' fs (<[key to := c]> m) /\ files_same [fd] w w'.
Proof.
  intros (t & Hw & Hm) Hl Hrd Hb Hlen. destruct (FS_Open_ok fresh_mem fresh_length fresh_bytes w fs t to Hw) as (r & w1 & E & _ & _ & _ & Hr).
  rewrite Hm in Hr. destruct r as [f|]; [destruct Hr as [Hs Hf] | by rewrite lookup_insert_eq in Hr].
  pose proof (disk_only_files _ _ (fw_good _ _ _ Hw) (stays FS_Open_R _ _ _ _ _ E)) as Hs1. destruct (reading_kept _ _ _ _ _ _ Hrd Hs1) as [H1 H2 H3 H4].
  destruct (copy_loop_ok fs m to c fd ino (S (length c)) H3 H4 Hb Hlen 0 f w1 (fresh_mem TransferSize)) as (f' & w' & E' & Hs' & Hc').
  - split; [done | done | lia | done |]. by exists c0.
  - apply fresh_buffer.
  - apply fresh_bytes.
  - lia.
  - exists f, w1, f', w'. split; [done |]. split; [done |]. split.
    + destruct Hc' as [_ _ _ _ (c1 & Hl1 & Hf')]. rewrite Nat2Z.id, take_ge, drop_ge, app_nil_r in Hf' by lia. by eapply fs_open_rep.
    + transitivity w1; [by apply (files_same_weaken _ _ []); [set_solver |] | done].
Qed.

Lemma Copy_ok w fs m from to ino c :
  fs_rep w fs m -> names w !! from = Some ino -> content w !! ino = Some c -> ino <> dino -> Forall is_byte c -> Forall is_byte to ->
  (exists w', Copy fresh_mem from to fs w = Ok (no_input from, w') /\ fs_rep w' fs m /\ files_same [] w w') \/
  match Copy_outcome m to c with
  | Trap u => Copy fresh_mem from to fs w = Trap u
  | Ok (out, m') => exists w', Copy fresh_mem from to fs w = Ok (out, w') /\ fs_rep w' fs m' /\ files_same [] w w'
  end.
Proof.
  intros Hrep Hn Hc Hi Hbc Hbt. pose proof (fs_rep_good _ _ _ Hrep) as Hg. unfold Copy, OpenForReadWrite. cbn [negb orb].
  destruct (open from O_RDWR w) as [fd w1] eqn:E. cbn [obind assert_].
  destruct (Z.ltb_spec fd 0) as [Hfd|Hfd]; [left | right].
  { exists w1. split; [done |]. destruct (open_rest dfd dino _ _ _ _ Hg E) as [Hd _]. split; [by eapply fs_rep_same |].
    destruct (open_rdwr _ _ _ _ E) as [(_ & Ha & Hb & Hc' & Hd')|(? & _)]; [|lia]. by split; rewrite ?Ha, ?Hb, ?Hc', ?Hd'. }
  destruct (open_reading from w fd w1 ino c Hg E Hfd Hn Hc Hi) as (Hr1 & Hd1 & Hnew & Hopened).
  destruct (opens_content _ _ _ _ (rd_open _ _ _ _ _ Hr1)) as (c' & Hcc & Hlen). rewrite (rd_content _ _ _ _ _ Hr1) in Hcc. injection Hcc as <-.
  destruct (seek_reading fd ino 0 c w1 2 Hr1 (proj1 Hd1)) as (w2 & _ & E2 & Hr2 & Hd2 & Hs2); [lia | lia |].
  rewrite E2. cbn [obind]. unfold Tell. change (seek_target 0 (Z.of_nat (length c)) 0 2) with (Z.of_nat (length c) + 0) in Hr2. rewrite Z.add_0_r in Hr2.
  destruct (seek_reading fd ino _ c w2 1 Hr2 (proj1 Hd2)) as (w3 & E3 & _ & Hr3 & Hd3 & Hs3); [lia | lia |].
  rewrite E3. unfold seek_target in Hr3 |- *. cbn [Z.eqb Pos.eqb] in Hr3 |- *. rewrite Z.add_0_r in Hr3 |- *.
  destruct (seek_reading fd ino _ c w3 0 Hr3 (proj1 Hd3)) as (w4 & _ & E4 & Hr4 & Hd4 & Hs4); [lia | lia |].
  rewrite E4. cbn [obind]. unfold seek_target in Hr4. cbn [Z.eqb] in Hr4.
  assert (files_same [fd] w1 w4) as Hs14 by (transitivity w2; [done |]; by transitivity w3).
  assert (fs_rep w4 fs m) as (t & Hw4 & <-) by (do 3 (eapply fs_rep_same; [|done]); by eapply fs_rep_same).
  pose proof (FS_Create_ok fresh_mem fresh_length fresh_bytes w4 fs t to (Z.of_nat (length c)) Hw4 Hbt ltac:(lia)) as HC.
  unfold Copy_outcome. destruct (Create_outcome _ _ _) as [r|u]; cbn [obind]; [|by rewrite HC].
  destruct HC as (w5 & t' & E5 & Hw5 & _ & _ & Hm). rewrite E5. cbn [obind]. apply (stays FS_Create_R disk_R_write), disk_only_files in E5; [|by apply Hw4].
  assert (files_same [fd] w1 w5) as Hs15 by (transitivity w4; [done | by apply (files_same_weaken _ _ []); [set_solver |]]).
  destruct r; cbn [negb].
  - destruct Hm as (c0 & Hl0 & Hm). rewrite Nat2Z.id.
    destruct (fill_new_file w5 fs (files w4 (used_entries t)) to c0 c fd ino) as (f & w6 & f' & w7 & -> & E7 & Hrep7 & Hs7);
      [by exists t' | lia | by eapply reading_kept | done | done |].
    cbn [obind]. rewrite E7. cbn [obind].
    destruct (close_reading fd ino w w1 w7 (fs_rep_good _ _ _ Hrep7) (rd_fd _ _ _ _ _ Hr1) Hnew Hopened) as (w8 & -> & Hd8 & Hs8); [by transitivity w5 |].
    exists w8. split; [done |]. split; [by eapply fs_rep_same | done].
  - destruct (close_reading fd ino w w1 w5 (fw_good _ _ _ Hw5) (rd_fd _ _ _ _ _ Hr1) Hnew Hopened Hs15) as (w8 & -> & Hd8 & Hs8).
    exists w8. split; [done |]. split; [eapply fs_rep_same; [|done]; by exists t' | done].
Qed.

(** What [Print] shows of the files [m]. *)
Definition print_text (m : gmap (list Z) (list Z)) (name : list Z) : list Z :=
  default (chars "Print: unable to open file " ++ name ++ newline) (m !! key name).

Definition copy_and_print (program from to : list Z) : list (list Z) := [program; chars "-cp"; from; to; chars "-p"; to].

Lemma copy_and_print_args program from to : from ∉ option_words -> to ∉ option_words ->
  read_command_line false (copy_and_print program from to) =
  Ok (set_print to (set_copy from to no_main_args), Some [], no_kernel_args).
Proof.
  intros Hf Ht. assert (Forall unambiguous [OCopy from to; OPrint to]) as Ho.
  { repeat constructor; cbn; by repeat constructor. }
  unfold read_command_line, main_args, new_Kernel.
  change (tail (copy_and_print program from to)) with (concat (words <$> [OCopy from to; OPrint to]) ++ []).
  by rewrite main_loop_all, kernel_loop_all.
Qed.

(** C26.  nachos -cp from to -p to: a file of the host is copied into the
    Nachos file system and printed from there.  On a machine whose disk
    holds a file system with the files [m] and whose host has a file [from]
    of bytes [c], the output is exactly [c], the file system holds [m] with
    [c] under the name, and the files and descriptors of the host are as
    they were. Where the file cannot be created (the name is in use, no
    directory entry, no space) the messages are printed and nothing
    changes; a file that needs more than [NumDirect] sectors is undefined
    behaviour; the host may also refuse to open [from]. *)
Theorem copied_file_prints w fs0 m program from to ino c :
  fs_rep w fs0 m -> names w !! from = Some ino -> content w !! ino = Some c -> ino <> dino -> Forall is_byte c -> Forall is_byte to ->
  from ∉ option_words -> to ∉ option_words ->
  let run := main fresh_mem (copy_and_print program from to) w in
  let ends out m' := exists w' fs, run = Ok (out, w') /\ fs_rep w' fs m' /\ files_same [] w w' in
  ends (no_input from ++ print_text m to) m \/
  match Create_outcome m to (Z.of_nat (length c)) with
  | Ok true => ends c (<[key to := c]> m)
  | Ok false => ends (no_output to ++ print_text m to) m
  | Trap u => run = Trap u
  end.
Proof.
  intros (t & Hw & <-) Hn Hc Hi Hbc Hbt Hf Ht run ends. set (m := files w (used_entries t)).
  destruct (reopen_ok fresh_mem w fs0 t Hw) as (fs & w1 & E & Hw1 & Ef).
  pose proof (disk_only_files _ _ (fw_good _ _ _ Hw) (stays reopen_R _ _ _ E)) as Hs1.
  assert (forall out m' w2, Copy fresh_mem from to fs w1 = Ok (out, w2) -> fs_rep w2 fs m' -> files_same [] w1 w2 ->
    ends (out ++ print_text m' to) m') as Hends.
  { intros out m' w2 EC Hr2 Hs2. destruct (Print_ok w2 fs m' to Hr2) as (w3 & EP & Hr3 & Hs3). exists w3, fs.
    split; [|split; [done |]; transitivity w1; [done | by transitivity w2]].
    unfold run, main. rewrite copy_and_print_args by done. cbn [obind]. change (formatFlag no_kernel_args) with false. rewrite E. cbn [obind].
    unfold main_files. cbn -[Copy Print chars]. rewrite EC. cbn -[Copy Print chars]. rewrite EP. cbn -[Copy Print chars]. done. }
  assert (fs_rep w1 fs m) as Hr1 by (exists t; by split).
  destruct (Copy_ok w1 fs m from to ino c Hr1) as [(w2 & EC & Hr2 & Hs2)|HC]; try done.
  - by rewrite (fsm_names _ _ _ _ _ Hs1).
  - by rewrite (fsm_content _ _ _ _ _ Hs1).
  - left. by eapply Hends.
  - right. unfold Copy_outcome in HC. destruct (Create_outcome m to _) as [[]|u]; cbn [obind] in HC.
    + destruct HC as (w2 & EC & Hr2 & Hs2). pose proof (Hends _ _ _ EC Hr2 Hs2) as He.
      unfold print_text in He. rewrite lookup_insert_eq in He. exact He.
    + destruct HC as (w2 & EC & Hr2 & Hs2). by eapply Hends.
    + unfold run, main. rewrite copy_and_print_args by done. cbn [obind]. change (formatFlag no_kernel_args) with false. rewrite E. cbn [obind].
      unfold main_files. cbn -[Copy Print chars]. by rewrite HC.
Qed.

End Copying.
(** ** The disk of Disk.v shares its host so *)

Section HostDisk.
Context {W : Type} `{HH : Host W} `{HV : !HostView W} `{HL : !HostLaws W} (dfd dino : Z).
#[local] Existing Instance host_disk.
#[local] Notation good := (@good W (host_disk dfd dino)).
#[local] Notation same_disk := (@same_disk W (host_disk dfd dino)).

Lemma kept_disk w w' : good w -> opens w' !! dfd = opens w !! dfd -> content w' !! dino = content w !! dino -> same_disk w w'.
Proof.
  intros Hg Ho Hc. cbn in Hg. assert (disk_file dino w' = disk_file dino w) as Ed by (unfold disk_file; by rewrite Hc).
  split; [cbn; by rewrite Ho, Ed |]. intros j _. cbn. by rewrite Ed.
Qed.

Definition on_disk_file (w : W) : Prop := exists o, opens w !! dfd = Some (dino, o).

Lemma seek_disk off w w1 : on_disk_file w -> 0 <= off -> Lseek dfd off 0 w = Ok w1 ->
  exists o c, opens w1 !! dfd = Some (dino, o) /\ content w1 !! dino = Some c /\ files_same dfd dino [] w w1.
Proof.
  intros (o & Ho) Hoff E. destruct (opens_content _ _ _ _ Ho) as (c & Hc & _).
  destruct (FileTable.Lseek_spec dfd off 0 w dino o c ltac:(lia) Ho Hc) as [(_ & w' & _ & E' & Hn & Hc' & Ho' & Hf)|(_ & E')];
    rewrite E in E'; [injection E' as <- | done].
  eexists _, c. split; [by rewrite Ho', lookup_insert_eq |]. split; [by rewrite Hc' |].
  split; [done | by rewrite Hc' | | done]. intros f Hne _. by rewrite Ho', lookup_insert_ne.
Qed.

Lemma transfer_in_rest i b w b' w' : on_disk_file w -> transfer_in dfd i b w = Ok (b', w') ->
  on_disk_file w' /\ files_same dfd dino [] w w'.
Proof.
  intros Hw. unfold transfer_in. intros (u & Hi & (w1 & E1 & E)%obind_Ok)%obind_Ok. apply assert_Ok, andb_true_iff in Hi as [Hi%Z.leb_le _].
  destruct (seek_disk (SectorSize * i + MagicSize) w w1 Hw ltac:(unfold SectorSize, MagicSize; lia) E1) as (o & c & Ho & Hc & Hs).
  unfold Stub.Read in E. rewrite u32_id in E by done. destruct (read dfd SectorSize w1) as [[r d] w2] eqn:Er.
  apply obind_Ok in E as (x & _ & E). apply obind_Ok in E as (y & Ey & E). apply assert_Ok, Z.eqb_eq in Ey. injection E as _ <-.
  destruct (read_ok _ _ _ _ _ _ _ _ c Er ltac:(done) Ho Hc) as [(-> & _)|(_ & _ & Hn & Hc' & Ho' & Hf)]; [done |].
  split; [eexists; by rewrite Ho', lookup_insert_eq |]. transitivity w1; [done |].
  split; [done | by rewrite Hc' | | done]. intros f Hne _. by rewrite Ho', lookup_insert_ne.
Qed.

Lemma transfer_out_rest i b w w' : on_disk_file w -> transfer_out dfd i b w = Ok w' ->
  on_disk_file w' /\ files_same dfd dino [] w w'.
Proof.
  intros Hw. unfold transfer_out. intros (u & Hi & (w1 & E1 & E)%obind_Ok)%obind_Ok. apply assert_Ok, andb_true_iff in Hi as [Hi%Z.leb_le _].
  destruct (seek_disk (SectorSize * i + MagicSize) w w1 Hw ltac:(unfold SectorSize, MagicSize; lia) E1) as (o & c & Ho & Hc & Hs).
  unfold WriteFile in E. destruct (_ <=? _); [|done]. destruct (write dfd _ w1) as [r w2] eqn:Er.
  apply obind_Ok in E as (y & Ey & E). apply assert_Ok, Z.eqb_eq in Ey. injection E as <-. subst r.
  destruct (write_ok _ _ _ _ _ _ _ c Er Ho Hc) as [(Hr & _)|(_ & Hn & Hc' & Ho' & Hf)]; [done |].
  split; [eexists; by rewrite Ho', lookup_insert_eq |]. transitivity w1; [done |].
  split; [done | | | done].
  - intros j Hj. by rewrite Hc', lookup_insert_ne.
  - intros f Hne _. by rewrite Ho', lookup_insert_ne.
Qed.

(** Calls on other descriptors. *)
Lemma other_fd w w' fd p : good w -> fd <> dfd -> content w' = content w -> opens w' = <[fd := p]> (opens w) -> same_disk w w'.
Proof. intros Hg Hne Hc Ho. apply kept_disk; [done | by rewrite Ho, lookup_insert_ne | by rewrite Hc]. Qed.

Lemma same_files_disk w w' : good w -> same_files w w' -> same_disk w w'.
Proof. intros Hg (_ & Hc & Ho & _). apply kept_disk; [done | by rewrite Ho | by rewrite Hc]. Qed.

#[local] Instance host_disk_beside : @DiskOnHost W HV dfd dino HH (host_disk dfd dino).
Proof.
  refine {| attached := on_disk_file |}.
  - intros w [Ho _]. exact Ho.
  - intros i w b w'. apply transfer_in_rest.
  - intros i b w w'. apply transfer_out_rest.
  - intros n w r w' Hg E. destruct (open_rdwr _ _ _ _ E) as [(-> & Hs)|(Hr & Hf & ino & _ & _ & Hc & Ho & _)].
    + split; [by apply same_files_disk | done].
    + assert (r <> dfd) as Hne by (intros ->; destruct Hg as [[o Hd] _]; by apply Hf, (opens_fds _ _ _ Hd)).
      split; [by eapply other_fd | done].
  - intros fd w r w' Hg Hne Hin E. destruct (close_ok _ _ _ _ E Hin) as (_ & _ & Hc & Ho & _).
    apply kept_disk; [done | by rewrite Ho, lookup_delete_ne | by rewrite Hc].
  - intros fd off wh w r w' [ino o] Hg Hne Ho Hwh E. destruct (opens_content _ _ _ _ Ho) as (c & Hc & _).
    pose proof (lseek_ok _ _ _ _ _ _ _ _ c E Hwh Ho Hc) as H. cbn zeta in H.
    destruct (bool_decide _); [destruct H as (_ & _ & Hc' & Ho' & _); by eapply other_fd | by apply same_files_disk, H].
  - intros fd n w r b w' [ino o] Hg Hne Ho Hn E. destruct (opens_content _ _ _ _ Ho) as (c & Hc & _).
    destruct (read_ok _ _ _ _ _ _ _ _ c E Hn Ho Hc) as [(_ & _ & Hs)|(_ & _ & _ & Hc' & Ho' & _)];
      [by apply same_files_disk | by eapply other_fd].
Qed.

End HostDisk.
(** ** A machine with a disk of its own *)

Module Beside.
Section Beside.
Context {A B : Type} `{HH : Host A} `{HV : !HostView A} `{HL : !HostLaws A} `{SD : SectorDisk B} `{SL : !SectorLaws B}.

#[export] Instance beside_host : Host (A * B) := {|
  open n f w := let '(r, a) := open n f w.1 in (r, (a, w.2));
  close fd w := let '(r, a) := close fd w.1 in (r, (a, w.2));
  read fd n w := let '(r, d, a) := read fd n w.1 in (r, d, (a, w.2));
  write fd b w := let '(r, a) := write fd b w.1 in (r, (a, w.2));
  lseek fd off wh w := let '(r, a) := lseek fd off wh w.1 in (r, (a, w.2));
  unlink n w := let '(r, a) := unlink n w.1 in (r, (a, w.2));
  socket w := let '(r, a) := socket w.1 in (r, (a, w.2));
  inet_addr := inet_addr;
  connect fd p x w := let '(r, a) := connect fd p x w.1 in (r, (a, w.2));
  set_timeout fd s n w := (set_timeout fd s n w.1, w.2);
  send fd b w := let '(r, a) := send fd b w.1 in (r, (a, w.2));
  recv fd n w := let '(r, d, a) := recv fd n w.1 in (r, d, (a, w.2))
|}.

#[export] Instance beside_view : HostView (A * B) := {|
  names w := names w.1; content w := content w.1; opens w := opens w.1; fds w := fds w.1
|}.

#[local] Ltac on_host law :=
  intros; match goal with
  | H : _ = (_, _) |- _ => cbn in H; match type of H with context [let '(_, _) := ?x in _] => destruct x as [] eqn:? end
  end; repeat match goal with p : (_ * _)%type |- _ => destruct p end; simplify_eq; eapply law; eassumption.

#[export] Instance beside_laws : HostLaws (A * B).
Proof.
  split.
  - intros w. exact (opens_fds w.1).
  - intros w. exact (opens_content w.1).
  - intros w. exact (fds_nonneg w.1).
  - on_host open_rdwr.
  - on_host open_creat.
  - on_host close_ok.
  - on_host read_ok.
  - on_host write_ok.
  - on_host lseek_ok.
  - on_host unlink_ok.
  - on_host socket_ok.
  - on_host connect_ok.
  - intros fd s n w. exact (set_timeout_ok fd s n w.1).
  - on_host send_ok.
  - on_host recv_ok.
Qed.

#[export] Instance beside_disk : SectorDisk (A * B) := {|
  Disk.read_sector i w := let! ' (b, d) := read_sector i w.2 in Ok (b, (w.1, d));
  Disk.write_sector i b w := let! d := write_sector i b w.2 in Ok (w.1, d);
  Disk.sector w i := Disk.sector w.2 i;
  Disk.good w := Disk.good w.2
|}.

#[export] Instance beside_sectors : SectorLaws (A * B).
Proof.
  split.
  - intros w. exact (sector_length w.2).
  - intros w. exact (sector_bytes w.2).
  - intros [a d] i Hg Hi. destruct (read_sector_ok d i Hg Hi) as (d' & E & H). exists (a, d'). cbn. by rewrite E.
  - intros [a d] i b Hg Hi Hl Hb. destruct (write_sector_ok d i b Hg Hi Hl Hb) as (d' & E & H). exists (a, d'). cbn. by rewrite E.
  - intros [a d] i Hi. cbn. by rewrite (read_sector_bad d i Hi).
  - intros [a d] i b Hi. cbn. by rewrite (write_sector_bad d i b Hi).
Qed.

(** No descriptor and no file of the host is the disk's. *)
#[export] Instance beside_on_host : DiskOnHost (A * B) (-1) (-1).
Proof.
  assert (forall (a a' : A) (d : B), good d -> same_disk (a, d) (a', d)) as Hs by done.
  assert (forall (a : A) (d d' : B), files_same (-1) (-1) [] (a, d) (a, d')) as Hf by done.
  refine {| attached _ := True |}.
  - done.
  - intros i [a d] b [a' d'] _ E. cbn in E. apply obind_Ok in E as ([b0 d0] & _ & E). injection E as <- <- <-. done.
  - intros i b [a d] [a' d'] _ E. cbn in E. apply obind_Ok in E as (d0 & _ & E). injection E as <- <-. done.
  - intros n [a d] r [a' d'] Hg E. cbn in E. destruct (open n O_RDWR a). injection E as -> <- <-. split; [by apply Hs | lia].
  - intros fd [a d] r [a' d'] Hg _ _ E. cbn in E. destruct (close fd a). injection E as _ <- <-. by apply Hs.
  - intros fd off wh [a d] r [a' d'] p Hg _ _ _ E. cbn in E. destruct (lseek fd off wh a). injection E as _ <- <-. by apply Hs.
  - intros fd n [a d] r b [a' d'] p Hg _ _ _ E. cbn in E. destruct (read fd n a) as [[]]. injection E as _ _ <- <-. by apply Hs.
Defined.

End Beside.
End Beside.

(** A host with the file [f] of three bytes, beside a formatted disk; the
    copy is called [ab]. *)
Module CopyRun.
Import Beside OneFileHost.

Definition host_f : fsys := {| bytes := [104; 105; 10]; offs := ∅ |}.
Definition formatted : outcome (FileSystem * list (list Z)) := new_FileSystem RamDisk.fresh true RamDisk.blank.
Definition command : list (list Z) := copy_and_print (chars "nachos") f_name (chars "ab").
Definition run : outcome (list Z * (fsys * list (list Z))) :=
  let! ' (_, d) := formatted in main RamDisk.fresh command (host_f, d).

Lemma reads_succeed : AddrSpace.reads_succeed (W := fsys * list (list Z)).
Proof.
  intros fd n [a d] p Hn Ho. pose proof (AddrSpaceWitness.reads_succeed_fsys fd n a p Hn Ho) as H. cbn [Host.read beside_host fst].
  destruct (read fd n a) as [[r b] a']. exact H.
Qed.

Lemma closes_succeed fd (w : fsys * list (list Z)) : fd ∈ fds w -> (close fd w).1 = 0.
Proof.
  intros Hf. cbn in Hf. apply elem_of_dom in Hf as [p Hp]. apply (opens_off fd w.1) in Hp as (o & Ho & _).
  cbn. by rewrite Ho.
Qed.

Lemma run_output out w : run = Ok (out, w) -> out = [104; 105; 10].
Proof.
  assert (match run with Ok (out, _) => out | Trap _ => [] end = [104; 105; 10]) as H by (vm_compute; reflexivity).
  intros E. rewrite E in H. exact H.
Qed.

Lemma formatted_ok : exists fs d, formatted = Ok (fs, d) /\ fs_rep d fs ∅.
Proof.
  destruct (format_ok RamDisk.fresh RamDisk.fresh_length RamDisk.fresh_bytes RamDisk.blank RamDisk.blank_good) as (fs & d & t & E & Hw & Hf).
  exists fs, d. split; [exact E |]. exists t. split; [exact Hw | exact Hf].
Qed.

(** What is on the disk is on the disk of the pair. *)
Lemma beside_rep {A} (a : A) d fs m : fs_rep (D := list (list Z)) d fs m -> fs_rep (D := A * list (list Z)) (a, d) fs m.
Proof.
  intros (t & [H1 [H2a H2b H2c] [H3a H3b H3c] H4 H5 H6 H7 H8 H9 H10] & Hm). exists t. split; [|exact Hm].
  split; [exact H1 | split; [exact H2a | exact H2b | exact H2c] | split; [exact H3a | exact H3b | exact H3c]
    | exact H4 | exact H5 | exact H6 | exact H7 | exact H8 | exact H9 | exact H10].
Qed.

Lemma no_input_other from rest : no_input from ++ rest <> [104; 105; 10].
Proof. intros E. apply (f_equal head) in E. vm_compute in E. discriminate E. Qed.

Lemma copied_file_prints_witness :
  exists fs d w', CopyRun.formatted = Ok (fs, d) /\ main RamDisk.fresh CopyRun.command (CopyRun.host_f, d) = Ok ([104; 105; 10], w').
Proof.
  destruct CopyRun.formatted_ok as (fs & d & E & Hd).
  destruct (copied_file_prints (-1) (-1) reads_succeed RamDisk.fresh RamDisk.fresh_length
    RamDisk.fresh_bytes CopyRun.closes_succeed (CopyRun.host_f, d) fs ∅ (chars "nachos") OneFileHost.f_name (chars "ab") 0 [104; 105; 10]
    (CopyRun.beside_rep CopyRun.host_f d fs ∅ Hd)) as [(w' & fs' & Er & _)|Hc].
  - vm_compute. reflexivity.
  - vm_compute. reflexivity.
  - done.
  - repeat constructor; lia.
  - apply (bool_decide_unpack _). vm_compute. exact I.
  - apply (bool_decide_unpack _). vm_compute. exact I.
  - apply (bool_decide_unpack _). vm_compute. exact I.
  - assert (run = Ok (no_input OneFileHost.f_name ++ print_text ∅ (chars "ab"), w')) as Erun by (unfold run; rewrite E; exact Er).
    exact (False_ind _ (no_input_other _ _ (run_output _ _ Erun))).
  - assert (Create_outcome ∅ (chars "ab") (Z.of_nat (length [104; 105; 10])) = Ok true) as Eo by (vm_compute; reflexivity).
    rewrite Eo in Hc. destruct Hc as (w' & fs' & Er & _). exists fs, d, w'. split; [exact E | exact Er].
Defined.

End CopyRun.
End Main.
