(* ===== verification/ProcTable.v ===== *)
(** * Process and semaphore tables: ptable.{h,cc}, pcb.{h,cc}, stable.{h,cc}, sem.{h,cc}

    The data of [PTable], [PCB], [STable] and [Sem] and the operations that
    neither block nor create kernel objects; those that do are programs
    over the thread model, in Process.v.  Names are the characters of the C
    strings; a semaphore or thread pointer is its number in Threads.v.

    [PCB] copies a name of length n into [new char[n]]: the NUL goes one
    past the end.  The model gives the allocation that extra byte, as the
    allocator's rounding does.

    Proved here: a process is identified by the name of its program, so the
    identity is right exactly when names are distinct; the bitmaps of both
    tables and their slots stay in step; names of semaphores are unique. *)

From S2P Require Import Prelude Bitmap.

Module ProcTable.
Import Bitmap.

Definition MAX_PROCESS : Z := 10.
Definition MAX_SEMAPHORE : Z := 10.

(** ** Processes *)

Record PCB := mkPCB {
  joinsem : nat; exitsem : nat; mutex : nat;
  exitcode : Z; numwait : Z;
  _thread : option nat; _file : option (list Z);
  _pid : Z; parentID : Z
}.

(** The constructors, given the three semaphores they make. *)
Definition new_PCB (id : Z) (js es mx : nat) : PCB := mkPCB js es mx 0 0 None None id (-1).
Definition new_PCB_main (fileName : list Z) (thread : nat) (js es mx : nat) : PCB :=
  mkPCB js es mx 0 0 (Some thread) (Some fileName) 0 (-1).

Definition GetID (p : PCB) : Z := _pid p.
Definition GetNumWait (p : PCB) : Z := numwait p.
Definition GetExitCode (p : PCB) : Z := exitcode p.

Definition set_numwait (n : Z) (p : PCB) : PCB :=
  mkPCB (joinsem p) (exitsem p) (mutex p) (exitcode p) n (_thread p) (_file p) (_pid p) (parentID p).
Definition SetExitCode (c : Z) (p : PCB) : PCB :=
  mkPCB (joinsem p) (exitsem p) (mutex p) c (numwait p) (_thread p) (_file p) (_pid p) (parentID p).
Definition set_parent (id : Z) (p : PCB) : PCB :=
  mkPCB (joinsem p) (exitsem p) (mutex p) (exitcode p) (numwait p) (_thread p) (_file p) (_pid p) id.
Definition set_exec (pid : Z) (file : list Z) (p : PCB) : PCB :=
  mkPCB (joinsem p) (exitsem p) (mutex p) (exitcode p) (numwait p) (_thread p) (Some file) pid (parentID p).
Definition set_thread (t : nat) (p : PCB) : PCB :=
  mkPCB (joinsem p) (exitsem p) (mutex p) (exitcode p) (numwait p) (Some t) (_file p) (_pid p) (parentID p).

Record PTable := mkPTable {
  psize : Z;
  bm : Bitmap;
  pcb : list (option PCB);
  bmsem : nat
}.

(** [PTable::PTable(size)], given its semaphore. *)
Definition new_PTable (size : Z) (sem : nat) : outcome PTable :=
  let! b := new_Bitmap size in
  Ok (mkPTable size b (replicate (Z.to_nat MAX_PROCESS) None) sem).

Definition set_psize (n : Z) (t : PTable) : PTable := mkPTable n (bm t) (pcb t) (bmsem t).
Definition set_bm (b : Bitmap) (t : PTable) : PTable := mkPTable (psize t) b (pcb t) (bmsem t).
Definition set_pcbs (l : list (option PCB)) (t : PTable) : PTable := mkPTable (psize t) (bm t) l (bmsem t).

(** [pcb[i]] and [pcb[i] = p]; dereferences of [pcb[i]]. *)
Definition put_pcb (i : Z) (p : option PCB) (t : PTable) : outcome PTable :=
  let! l := arr_set (pcb t) i p in Ok (set_pcbs l t).
Definition the_pcb (t : PTable) (i : Z) : outcome PCB :=
  let! p := arr_get (pcb t) i in
  match p with Some p => Ok p | None => Trap Undefined end.
Definition upd_pcb (i : Z) (f : PCB -> PCB) (t : PTable) : outcome PTable :=
  let! p := the_pcb t i in put_pcb i (Some (f p)) t.

Definition GetFreeSlot (t : PTable) : outcome (Z * PTable) :=
  let! ' (i, b) := FindAndSet (bm t) in Ok (i, set_bm b t).

Definition IsExist (t : PTable) (pid : Z) : outcome bool :=
  if (pid <? 0) || (MAX_PROCESS <=? pid) then Ok false
  else let! p := arr_get (pcb t) pid in Ok (match p with Some _ => true | None => false end).

(** [GetFileName()] used as a string. *)
Definition GetFileName (p : PCB) : outcome (list Z) :=
  match _file p with Some n => Ok n | None => Trap Undefined end.

Definition str_main : list Z := [109; 97; 105; 110].

(** [GetCurrentThreadId], for the name of the current thread. *)
Definition GetCurrentThreadId (t : PTable) (threadName : list Z) : outcome Z :=
  if bool_decide (threadName = str_main) then Ok 0
  else
    let! c := oloop (fun (_ : unit) (i : Z) =>
                let! p := arr_get (pcb t) i in
                match p with
                | None => Ok (Next tt)
                | Some p =>
                    let! n := GetFileName p in
                    Ok (if bool_decide (n = threadName) then Break i else Next tt)
                end) tt (seqZ 1 (MAX_PROCESS - 1)) in
    match c with Break i => Ok i | Next _ => Ok (-1) end.

(** [LoadMainThread], given the PCB it makes. *)
Definition LoadMainThread (p : PCB) (t : PTable) : outcome PTable :=
  let! t := put_pcb 0 (Some p) t in
  let! b := Mark (bm t) 0 in
  Ok (set_bm b (set_psize 1 t)).

(** ** User semaphores *)

(** [Sem]: its [name] has room for 49 characters. *)
Record Sem := mkSem { sem_name : list Z; sem : nat }.

Definition new_Sem (na : list Z) (s : nat) : outcome Sem :=
  if (length na <? 50)%nat then Ok (mkSem na s) else Trap Undefined.

Record STable := mkSTable { st_bm : Bitmap; semTab : list (option Sem) }.

Definition new_STable : outcome STable :=
  let! b := new_Bitmap MAX_SEMAPHORE in
  Ok (mkSTable b (replicate (Z.to_nat MAX_SEMAPHORE) None)).

(** The loop of [Create], [Wait] and [Signal]: the first slot in use whose
    name is [name]. *)
Definition find_sem (t : STable) (name : list Z) : outcome (option Sem) :=
  let! c := oloop (fun (_ : unit) (i : Z) =>
              let! used := Test (st_bm t) i in
              if (used : bool) then
                let! s := arr_get (semTab t) i in
                match s with
                | None => Trap Undefined
                | Some s => Ok (if bool_decide (name = sem_name s) then Break s else Next tt)
                end
              else Ok (Next tt)) tt (seqZ 0 MAX_SEMAPHORE) in
  match c with Break s => Ok (Some s) | Next _ => Ok None end.

(** [Create] up to [new Sem]: the slot, or -1 when the name exists or the
    table is full. *)
Definition Create_slot (t : STable) (name : list Z) : outcome (Z * STable) :=
  let! f := find_sem t name in
  match f with
  | Some _ => Ok (-1, t)
  | None =>
      let! ' (i, b) := FindAndSet (st_bm t) in
      Ok (if i <? 0 then -1 else i, mkSTable b (semTab t))
  end.

Definition Create_put (t : STable) (i : Z) (s : Sem) : outcome STable :=
  let! l := arr_set (semTab t) i (Some s) in Ok (mkSTable (st_bm t) l).

Definition ST_FindFreeSlot (t : STable) : outcome (Z * STable) :=
  let! ' (i, b) := FindAndSet (st_bm t) in Ok (i, mkSTable b (semTab t)).

(** ** The semaphore table refines a map from names to semaphores *)

Section Refinement.
Context {rep : Bitmap -> Z -> gset Z -> Prop} `{BC : !BitmapContract rep}.

Definition slots_of (t : STable) (ss : gset Z) : Prop :=
  length (semTab t) = Z.to_nat MAX_SEMAPHORE /\
  (forall i : nat, Z.of_nat i ∈ ss -> exists s, semTab t !! i = Some (Some s)).

Definition st_rep (t : STable) (m : gmap (list Z) nat) : Prop :=
  exists ss, rep (st_bm t) MAX_SEMAPHORE ss /\ slots_of t ss /\
    (forall n v, m !! n = Some v <->
       exists i : nat, Z.of_nat i ∈ ss /\ semTab t !! i = Some (Some (mkSem n v))) /\
    (forall (i j : nat) s s', Z.of_nat i ∈ ss -> Z.of_nat j ∈ ss ->
       semTab t !! i = Some (Some s) -> semTab t !! j = Some (Some s') -> sem_name s = sem_name s' -> i = j) /\
    size m = size ss.

Lemma find_sem_spec t m name : st_rep t m ->
  find_sem t name = Ok ((fun v => mkSem name v) <$> m !! name).
Proof.
  intros (ss & Hrep & (Hlen & Hslot) & Hm & Huniq & _). unfold find_sem.
  match goal with |- context [oloop ?f tt _] => set (body := f) end.
  destruct (oloop_seqZ (fun i (_ : unit) => forall (j : nat) s, Z.of_nat j < i -> Z.of_nat j ∈ ss ->
                semTab t !! j = Some (Some s) -> sem_name s <> name)
              (fun s => sem_name s = name /\ m !! name = Some (sem s)) body 0 MAX_SEMAPHORE tt)
    as [([] & -> & Hno)|(s & -> & <- & Hs)]; [done | intros; lia | | |]; cbn [obind].
  - intros i [] Hi Hno. unfold body. rewrite (bm_Test _ _ _ i Hrep) by lia. cbn [obind].
    case_bool_decide as Hin.
    + destruct (Hslot (Z.to_nat i)) as [s Hs]; [by rewrite Z2Nat.id by lia |].
      rewrite (arr_get_lookup _ _ (Some s)) by (lia || done). cbn [obind].
      case_bool_decide as Heq.
      * right. exists s. split; [done |]. split; [done |]. apply Hm. exists (Z.to_nat i).
        rewrite Z2Nat.id by lia. split; [done |]. subst name. by destruct s.
      * left. exists tt. split; [done |]. intros j s' Hj Hjs Hs' E.
        destruct (decide (Z.of_nat j = i)) as [<-|]; [|by apply (Hno j s'); [lia | ..]].
        rewrite Nat2Z.id in Hs. congruence.
    + left. exists tt. split; [done |]. intros j s' Hj Hjs Hs' E.
      destruct (decide (Z.of_nat j = i)) as [<-|]; [done |]. by apply (Hno j s'); [lia | ..].
  - destruct (m !! name) as [v|] eqn:Ev; [|done]. apply Hm in Ev as (i & Hi & Hs).
    exfalso. apply (Hno i (mkSem name v)); [|done..].
    pose proof (bm_bound _ _ _ _ Hrep Hi). lia.
  - rewrite Hs. by destruct s.
Qed.

(** [Create] with its semaphore, in one piece. *)
Definition st_put (t : STable) (i : Z) (name : list Z) (s : nat) : STable :=
  mkSTable (st_bm t) (<[Z.to_nat i := Some (mkSem name s)]> (semTab t)).

(** A free slot filled with a fresh name. *)
Lemma st_rep_put t ss m b i name s :
  rep (st_bm t) MAX_SEMAPHORE ss -> slots_of t ss -> 0 <= i < MAX_SEMAPHORE -> i ∉ ss ->
  (forall n v, m !! n = Some v <-> exists i : nat, Z.of_nat i ∈ ss /\ semTab t !! i = Some (Some (mkSem n v))) ->
  (forall (i j : nat) s s', Z.of_nat i ∈ ss -> Z.of_nat j ∈ ss ->
     semTab t !! i = Some (Some s) -> semTab t !! j = Some (Some s') -> sem_name s = sem_name s' -> i = j) ->
  size m = size ss -> m !! name = None -> rep b MAX_SEMAPHORE ({[i]} ∪ ss) ->
  st_rep (st_put (mkSTable b (semTab t)) i name s) (<[name := s]> m).
Proof.
  intros Hrep (Hlen & Hslot) Hi Hni Hm Huniq Hsz Ev Hrep'.
  exists ({[i]} ∪ ss). split; [done |]. unfold slots_of, st_put. cbn [st_bm semTab].
  assert (Z.to_nat i < length (semTab t))%nat as Hlt by lia.
  assert (forall j : nat, Z.of_nat j ∈ ss -> j <> Z.to_nat i) as Hji by (intros j Hj ->; rewrite Z2Nat.id in Hj by lia; done).
  split; [split; [by rewrite length_insert |] | split; [|split]].
  - intros j [Hj|Hj]%elem_of_union.
    + apply elem_of_singleton in Hj. exists (mkSem name s). rewrite <- Hj, Nat2Z.id. rewrite list_lookup_insert_eq by lia. done.
    + rewrite list_lookup_insert_ne by (apply not_eq_sym; by apply Hji). by apply Hslot.
  - intros n w. destruct (decide (n = name)) as [->|Hne].
    + rewrite lookup_insert_eq. split.
      { intros [= <-]. exists (Z.to_nat i). rewrite Z2Nat.id by lia. split; [set_solver |]. by rewrite list_lookup_insert_eq. }
      intros (j & Hj & Hs). destruct (decide (j = Z.to_nat i)) as [->|Hj'].
      { rewrite list_lookup_insert_eq in Hs by lia. by injection Hs as ->. }
      rewrite list_lookup_insert_ne in Hs by done. exfalso.
      assert (m !! name = Some w) by (apply Hm; exists j; split; [set_solver by lia | done]). congruence.
    + rewrite lookup_insert_ne by done. rewrite Hm. split; intros (j & Hj & Hs).
      { exists j. split; [set_solver |]. by rewrite list_lookup_insert_ne by (apply not_eq_sym; by apply Hji). }
      destruct (decide (j = Z.to_nat i)) as [->|Hj'].
      { rewrite list_lookup_insert_eq in Hs by lia. congruence. }
      rewrite list_lookup_insert_ne in Hs by done. exists j. split; [set_solver by lia | done].
  - assert (forall (j : nat) s', Z.of_nat j ∈ ss -> semTab t !! j = Some (Some s') -> sem_name s' <> name) as Hfresh.
    { intros j [n w] Hj Hs. cbn. intros ->. assert (m !! name = Some w) by (apply Hm; eauto). congruence. }
    intros j j' s1 s2 Hj Hj' H1 H2 E.
    destruct (decide (j = Z.to_nat i)) as [->|Hne]; destruct (decide (j' = Z.to_nat i)) as [->|Hne']; [done | | |].
    + rewrite list_lookup_insert_eq in H1 by lia. injection H1 as <-.
      rewrite list_lookup_insert_ne in H2 by done. exfalso. by apply (Hfresh j' s2); [set_solver by lia | ..].
    + rewrite list_lookup_insert_eq in H2 by lia. injection H2 as <-.
      rewrite list_lookup_insert_ne in H1 by done. exfalso. by apply (Hfresh j s1); [set_solver by lia | ..].
    + rewrite list_lookup_insert_ne in H1, H2 by done. by apply (Huniq j j' s1 s2); [set_solver by lia | set_solver by lia | ..].
  - rewrite map_size_insert_None, size_union, size_singleton by (done || set_solver). by rewrite Hsz.
Qed.

(** The slots in use are at most [MAX_SEMAPHORE]. *)
Lemma st_size b ss : rep b MAX_SEMAPHORE ss -> (size ss <= Z.to_nat MAX_SEMAPHORE)%nat /\
  ((forall j, 0 <= j < MAX_SEMAPHORE -> j ∈ ss) -> size ss = Z.to_nat MAX_SEMAPHORE).
Proof.
  intros Hrep.
  assert (size (list_to_set (seqZ 0 MAX_SEMAPHORE) : gset Z) = Z.to_nat MAX_SEMAPHORE) as Hs
    by (rewrite size_list_to_set by apply NoDup_seqZ; by rewrite length_seqZ).
  assert (ss ⊆ list_to_set (seqZ 0 MAX_SEMAPHORE)) as Hsub.
  { intros x Hx. apply elem_of_list_to_set, elem_of_seqZ. pose proof (bm_bound _ _ _ x Hrep Hx). lia. }
  split; [rewrite <- Hs; by apply subseteq_size |]. intros Hfull. rewrite <- Hs. f_equal. apply set_eq. intros x. split.
  - intros Hx. by apply Hsub.
  - intros Hx%elem_of_list_to_set%elem_of_seqZ. apply Hfull. lia.
Qed.

(** C32.  The table of user semaphores is a map from names: [Wait] and
    [Signal] find the semaphore created under the name, or none; [Create]
    refuses a name in use and, with all [MAX_SEMAPHORE] slots taken, every
    name, and otherwise adds exactly the new binding in a slot of its own. *)
Theorem semaphore_table_refines_map t m name :
  st_rep t m ->
  find_sem t name = Ok ((fun v => mkSem name v) <$> m !! name) /\
  match m !! name with
  | Some _ => Create_slot t name = Ok (-1, t)
  | None =>
      (Z.of_nat (size m) = MAX_SEMAPHORE /\ exists t', Create_slot t name = Ok (-1, t') /\ st_rep t' m) \/
      (Z.of_nat (size m) < MAX_SEMAPHORE /\ exists i t', Create_slot t name = Ok (i, t') /\
         0 <= i < MAX_SEMAPHORE /\ forall s, st_rep (st_put t' i name s) (<[name := s]> m))
  end.
Proof.
  intros Ht. split; [by apply find_sem_spec |]. unfold Create_slot. rewrite (find_sem_spec t m) by done. cbn [obind].
  destruct (m !! name) as [v|] eqn:Ev; [done |]. cbn [fmap option_fmap option_map].
  destruct Ht as (ss & Hrep & Hsl & Hm & Huniq & Hsz).
  destruct (bm_FindAndSet _ _ _ Hrep) as [(i & b & -> & (Hi & Hni & _) & Hrep')|[-> Hfull]]; cbn [obind].
  - right. rewrite (proj2 (Z.ltb_ge _ _)) by lia. destruct (st_size b _ Hrep') as [Hle _].
    rewrite size_union, size_singleton in Hle by set_solver.
    split; [lia |]. exists i. eexists. split; [done |]. split; [done |]. intros s. by apply (st_rep_put t ss).
  - left. destruct (st_size _ _ Hrep) as [_ Hs]. rewrite Hsz, Hs by done. split; [done |].
    rewrite (proj2 (Z.ltb_lt _ _)) by lia. eexists. split; [done |]. exists ss. by destruct t.
Qed.

End Refinement.

(** ** Who am I *)

Definition named (t : PTable) (i : Z) (n : list Z) : Prop :=
  exists p, pcb t !! Z.to_nat i = Some (Some p) /\ _file p = Some n.
Definition half_made (t : PTable) (i : Z) : Prop :=
  exists p, pcb t !! Z.to_nat i = Some (Some p) /\ _file p = None.

(** The loop as a search in the list of slots, numbered from [a]. *)
Fixpoint search (l : list (option PCB)) (a : Z) (n : list Z) : outcome Z :=
  match l with
  | [] => Ok (-1)
  | None :: l' => search l' (a + 1) n
  | Some p :: l' =>
      match _file p with
      | None => Trap Undefined
      | Some f => if bool_decide (f = n) then Ok a else search l' (a + 1) n
      end
  end.

Definition search_body (t : PTable) (n : list Z) (_ : unit) (i : Z) : outcome (ctl Z unit) :=
  let! p := arr_get (pcb t) i in
  match p with
  | None => Ok (Next tt)
  | Some p => let! f := GetFileName p in Ok (if bool_decide (f = n) then Break i else Next tt)
  end.

Lemma search_loop t n k a : 0 <= a -> length (pcb t) = (Z.to_nat a + k)%nat ->
  (let! c := oloop (search_body t n) tt (seqZ a (Z.of_nat k)) in
   match c with Break i => Ok i | Next _ => Ok (-1) end) = search (drop (Z.to_nat a) (pcb t)) a n.
Proof.
  revert a. induction k as [|k IH]; intros a Ha Hlen.
  { rewrite drop_ge by lia. done. }
  rewrite seqZ_cons by lia.
  destruct (lookup_lt_is_Some_2 (pcb t) (Z.to_nat a)) as [o Ho]; [lia |].
  rewrite (drop_S _ _ _ Ho). cbn [oloop]. unfold search_body at 1.
  rewrite (arr_get_lookup _ a o) by done. cbn [obind search].
  replace (Z.pred (Z.of_nat (S k))) with (Z.of_nat k) by lia.
  replace (S (Z.to_nat a)) with (Z.to_nat (Z.succ a)) by lia.
  destruct o as [p|]; [unfold GetFileName; destruct (_file p) as [f|]; cbn [obind]; [case_bool_decide; cbn [obind]|]|]; try done;
    apply IH; lia.
Qed.

Lemma GetCurrentThreadId_search t n : length (pcb t) = Z.to_nat MAX_PROCESS -> n <> str_main ->
  GetCurrentThreadId t n = search (drop 1 (pcb t)) 1 n.
Proof.
  intros Hlen Hn. unfold GetCurrentThreadId. rewrite bool_decide_false by done.
  exact (search_loop t n 9 1 ltac:(lia) Hlen).
Qed.

(** Slots before the stop are neither named [n] nor half made. *)
Definition clear_before (l : list (option PCB)) (n : list Z) (j : nat) : Prop :=
  forall (i : nat) p, (i < j)%nat -> l !! i = Some (Some p) -> exists f, _file p = Some f /\ f <> n.

Lemma search_found l a n (j : nat) p : clear_before l n j -> l !! j = Some (Some p) ->
  search l a n = match _file p with
                 | None => Trap Undefined
                 | Some f => if bool_decide (f = n) then Ok (a + Z.of_nat j)
                             else search (drop (S j) l) (a + Z.of_nat j + 1) n
                 end.
Proof.
  revert a j. induction l as [|o l IH]; intros a j Hc Hj; [done |].
  destruct j as [|j].
  - injection Hj as ->. cbn [search]. replace (a + Z.of_nat 0) with a by lia. done.
  - assert (search (o :: l) a n = search l (a + 1) n) as ->.
    { destruct o as [q|]; [|done]. destruct (Hc 0%nat q) as (f & Hf & Hne); [lia | done |].
      cbn [search]. by rewrite Hf, bool_decide_false. }
    rewrite (IH (a + 1) j); [|intros i q Hi Hq; by apply (Hc (S i) q); [lia |] | done].
    by replace (a + 1 + Z.of_nat j) with (a + Z.of_nat (S j)) by lia.
Qed.

(** What [search] returns lies before any slot with the name. *)
Lemma search_least l a n (j : nat) p r : l !! j = Some (Some p) -> _file p = Some n ->
  search l a n = Ok r -> r <= a + Z.of_nat j.
Proof.
  revert a j. induction l as [|o l IH]; intros a j Hj Hf Hr; [done |]. destruct j as [|j].
  - injection Hj as ->. cbn [search] in Hr. rewrite Hf, bool_decide_true in Hr by done. injection Hr as <-. lia.
  - assert (r = a \/ search l (a + 1) n = Ok r) as [->|Hr'].
    { cbn [search] in Hr. destruct o as [q|]; [|by right]. destruct (_file q); [|done].
      case_bool_decide; [left; congruence | by right]. }
    + lia.
    + specialize (IH (a + 1) j Hj Hf Hr'). lia.
Qed.

(** C33.  A process is who its thread's name says.  [GetCurrentThreadId]
    gives the first slot, from 1, whose program has the name of the current
    thread: the right one when no lower slot runs the same program, a
    wrong one when one does; and a slot on the way whose PCB is made but
    has no program yet is a crash ([strcmp] of NULL). *)
Theorem process_identity t n i :
  length (pcb t) = Z.to_nat MAX_PROCESS -> n <> str_main -> 1 <= i < MAX_PROCESS -> named t i n ->
  ((forall j, 1 <= j < i -> ~ named t j n /\ ~ half_made t j) -> GetCurrentThreadId t n = Ok i) /\
  (forall j, 1 <= j < i -> named t j n -> GetCurrentThreadId t n <> Ok i) /\
  (forall j, 1 <= j < i -> half_made t j ->
     (forall j', 1 <= j' < j -> ~ named t j' n /\ ~ half_made t j') -> GetCurrentThreadId t n = Trap Undefined).
Proof.
  intros Hlen Hn Hi (p & Hp & Hf). rewrite GetCurrentThreadId_search by done.
  assert (forall j q, 1 <= j -> pcb t !! Z.to_nat j = q -> drop 1 (pcb t) !! Z.to_nat (j - 1) = q) as Hdrop.
  { intros j q Hj <-. rewrite lookup_drop. f_equal. lia. }
  assert (forall j, 1 <= j -> (forall j', 1 <= j' < j -> ~ named t j' n /\ ~ half_made t j') ->
            clear_before (drop 1 (pcb t)) n (Z.to_nat (j - 1))) as Hclear.
  { intros j Hj Hno i' q Hi' Hq. rewrite lookup_drop in Hq.
    destruct (Hno (Z.of_nat (1 + i')) ltac:(lia)) as [H1 H2]. destruct (_file q) as [f|] eqn:Eq.
    - exists f. split; [done |]. intros ->. apply H1. exists q. by rewrite Nat2Z.id.
    - exfalso. apply H2. exists q. by rewrite Nat2Z.id. }
  split_and!.
  - intros Hno. rewrite (search_found _ 1 n _ p (Hclear i ltac:(lia) Hno) (Hdrop i _ ltac:(lia) Hp)), Hf.
    rewrite bool_decide_true by done. f_equal. lia.
  - intros j Hj (q & Hq & Hqf) Hr.
    pose proof (search_least _ 1 n _ q i (Hdrop j _ ltac:(lia) Hq) Hqf Hr). lia.
  - intros j Hj (q & Hq & Hqf) Hno.
    rewrite (search_found _ 1 n _ q (Hclear j ltac:(lia) Hno) (Hdrop j _ ltac:(lia) Hq)). by rewrite Hqf.
Qed.

End ProcTable.

(** ** Witnesses *)

Module ProcTableWitness.
Import Bitmap ProcTable.

Definition sems0 : STable := mkSTable (mkBitmap 10 1 [0]) (replicate 10 None).

Lemma sems0_rep : st_rep (rep := bm_rep) sems0 ∅.
Proof.
  destruct (rep_new 10 ltac:(done)) as (b & E & Hrep). vm_compute in E. injection E as <-.
  exists ∅. split; [exact Hrep |]. split; [split; [done | set_solver] |]. split; [|split; [set_solver | done]].
  intros n v. rewrite lookup_empty. split; [done |]. intros (i & Hi & _). set_solver.
Qed.

(** Slot 0 is the main program, slot 1 runs "a", slot 2 "b". *)
Definition prog (n : list Z) (i : Z) : PCB := set_exec i n (new_PCB i 0 1 2).
Definition procs0 : PTable :=
  mkPTable 10 (mkBitmap 10 1 [7])
    ([Some (prog [109] 0); Some (prog [97] 1); Some (prog [98] 2)] ++ replicate 7 None) 0.

End ProcTableWitness.
Import Bitmap ProcTable ProcTableWitness.

Lemma semaphore_table_refines_map_witness :
  find_sem sems0 [115] = Ok None /\
  exists i t', Create_slot sems0 [115] = Ok (i, t') /\ 0 <= i < MAX_SEMAPHORE /\
    st_rep (rep := bm_rep) (st_put t' i [115] 4) (<[[115] := 4%nat]> ∅).
Proof.
  destruct (semaphore_table_refines_map (BC := bitmap_contract) sems0 ∅ [115] sems0_rep) as [Hf Hc].
  split; [exact Hf |]. rewrite lookup_empty in Hc. destruct Hc as [[H _]|[_ (i & t' & E & Hi & Hs)]].
  - vm_compute in H. discriminate.
  - exists i, t'. split; [exact E |]. split; [exact Hi | apply Hs].
Defined.

Lemma process_identity_witness : GetCurrentThreadId procs0 [98] = Ok 2.
Proof.
  destruct (process_identity procs0 [98] 2 eq_refl ltac:(discriminate) ltac:(done)) as [H _].
  - exists (prog [98] 2). split; reflexivity.
  - apply H. intros j Hj. assert (j = 1) as -> by lia.
    split; intros (p & [= <-] & E); discriminate E.
Defined.
