(* ===== verification/Syscalls.v ===== *)
(** * System calls that do not block: ksyscall.h, exception.cc

    The kernel's data ([Kdata]); the copies between user memory and kernel
    buffers; the calls on files and sockets; the part of [ExceptionHandler]
    that stops the machine.  A system call trap only sets [trapped]: its
    handler, which may block, is a program in Process.v that starts when
    the instruction is over ([OneInstruction] does nothing after the trap).

    A [char] is a signed byte; a string a kernel function reads is the
    buffer up to its first NUL. *)

From S2P Require Import Prelude Bitmap Machine Mips FileTable AddrSpace ProcTable.

Module Syscalls.
Import Machine Stub FileTable AddrSpace ProcTable.

(** ** syscall.h *)

Definition SC_Halt := 0.
Definition SC_Exit := 1.
Definition SC_Exec := 2.
Definition SC_Join := 3.
Definition SC_Create := 4.
Definition SC_Remove := 5.
Definition SC_Open := 6.
Definition SC_Read := 7.
Definition SC_Write := 8.
Definition SC_Seek := 9.
Definition SC_Close := 10.
Definition SC_SocketTCP := 16.
Definition SC_Connect := 17.
Definition SC_Send := 18.
Definition SC_Receive := 19.
Definition SC_CloseSocket := 20.
Definition SC_CreateSemaphore := 21.
Definition SC_Wait := 22.
Definition SC_Signal := 23.
Definition MaxFileLength := 32.
Definition consoleInputID := 0.
Definition consoleOutputID := 1.

(** ** Kernel data *)

Definition EOF : Z := -1.

(** [SynchConsoleInput], [SynchConsoleOutput] and their devices. *)
Record Console := mkConsole {
  in_lock : nat; in_waitFor : nat; incoming : Z; readFileNo : Z;
  out_lock : nat; out_waitFor : nat; putBusy : bool; writeFileNo : Z
}.

Record Kdata (W : Type) := mkKdata {
  host : W;
  table : Table;
  status : MachineStatus;
  trapped : bool;
  pTab : PTable;
  semTab_ : STable;
  gPhysPageBitMap : Bitmap.Bitmap;
  addrLock : nat;
  console : Console
}.
Arguments mkKdata {W}. Arguments host {W}. Arguments table {W}. Arguments status {W}. Arguments trapped {W}.
Arguments pTab {W}. Arguments semTab_ {W}. Arguments gPhysPageBitMap {W}. Arguments addrLock {W}. Arguments console {W}.

Section Syscalls.
Context {W : Type} `{HH : Host W}.
Notation Kdata := (Kdata W).
Notation state := (Kdata * Machine)%type.

Definition set_host (w : W) (t : Table) (k : Kdata) : Kdata :=
  mkKdata w t (status k) (trapped k) (pTab k) (semTab_ k) (gPhysPageBitMap k) (addrLock k) (console k).
Definition set_status (s : MachineStatus) (k : Kdata) : Kdata :=
  mkKdata (host k) (table k) s (trapped k) (pTab k) (semTab_ k) (gPhysPageBitMap k) (addrLock k) (console k).
Definition set_trapped (b : bool) (k : Kdata) : Kdata :=
  mkKdata (host k) (table k) (status k) b (pTab k) (semTab_ k) (gPhysPageBitMap k) (addrLock k) (console k).
Definition set_pTab (t : PTable) (k : Kdata) : Kdata :=
  mkKdata (host k) (table k) (status k) (trapped k) t (semTab_ k) (gPhysPageBitMap k) (addrLock k) (console k).
Definition set_semTab (t : STable) (k : Kdata) : Kdata :=
  mkKdata (host k) (table k) (status k) (trapped k) (pTab k) t (gPhysPageBitMap k) (addrLock k) (console k).
Definition set_frames (b : Bitmap.Bitmap) (k : Kdata) : Kdata :=
  mkKdata (host k) (table k) (status k) (trapped k) (pTab k) (semTab_ k) b (addrLock k) (console k).
Definition set_console (c : Console) (k : Kdata) : Kdata :=
  mkKdata (host k) (table k) (status k) (trapped k) (pTab k) (semTab_ k) (gPhysPageBitMap k) (addrLock k) c.

(** ** exception.cc, but for the system calls *)

Definition SysHalt {A} : outcome A := Trap Halted.

Definition handle (which : ExceptionType) (s : state) : outcome state :=
  match which with
  | NoException => Ok s
  | SyscallException => Ok (set_trapped true s.1, s.2)
  | PageFaultException | ReadOnlyException | BusErrorException | AddressErrorException
  | OverflowException | IllegalInstrException => SysHalt
  end.

#[export] Instance kernel : Kernel Kdata := {| setStatus := set_status; ExceptionHandler := handle |}.

(** ** User memory *)

(** [User2System]: [limit + 1] bytes, the characters up to a NUL and
    zeros.  Where [ReadMem] fails the handler halts the machine.
    [limit + 1] is [int] arithmetic and the size of an array. *)
Fixpoint copyin (n : nat) (virtAddr : Z) (s : state) : outcome (list Z * state) :=
  match n with
  | O => Ok ([], s)
  | S n' =>
      let! ' (r, s) := ReadMem virtAddr 1 s in
      match r with
      | None => Trap Undefined
      | Some oneChar =>
          if oneChar =? 0 then Ok ([0], s)
          else let! ' (l, s) := copyin n' (s32 (virtAddr + 1)) s in Ok (s8 oneChar :: l, s)
      end
  end.

Definition User2System (virtAddr limit : Z) (s : state) : outcome (list Z * state) :=
  if (limit + 1 <? 0) || (2 ^ 31 <=? limit + 1) then Trap Undefined
  else
    let! ' (l, s) := copyin (Z.to_nat limit) virtAddr s in
    Ok (l ++ replicate (Z.to_nat (limit + 1) - length l) 0, s).

(** The characters before the first NUL. *)
Fixpoint c_str (buffer : list Z) : list Z :=
  match buffer with
  | [] => []
  | c :: b => if c =? 0 then [] else c :: c_str b
  end.

(** [System2User]: the loop from index [i] on, [n] iterations at most. *)
Fixpoint copyout (n : nat) (virtAddr : Z) (buffer : list Z) (s : state) : outcome (Z * state) :=
  match n with
  | O => Ok (0, s)
  | S n' =>
      match buffer with
      | [] => Trap Undefined
      | oneChar :: b =>
          let! ' (_, s) := WriteMem virtAddr 1 oneChar s in
          if oneChar =? 0 then Ok (1, s)
          else let! ' (i, s) := copyout n' (s32 (virtAddr + 1)) b s in Ok (1 + i, s)
      end
  end.

Definition System2User (virtAddr len : Z) (buffer : list Z) (s : state) : outcome (Z * state) :=
  if len <? 0 then Ok (-1, s)
  else if len =? 0 then Ok (len, s)
  else copyout (Z.to_nat len) virtAddr buffer s.

Definition IncreasePC (m : Machine) : outcome Machine :=
  let! pc := ReadRegister m PCReg in
  let! m := WriteRegister m PrevPCReg pc in
  let! npc := ReadRegister m NextPCReg in
  let! m := WriteRegister m PCReg npc in
  let! pc := ReadRegister m PCReg in
  WriteRegister m NextPCReg (s32 (pc + 4)).

(** ** Files *)

(** [strlen(name) == 0]. *)
Definition no_name (b : list Z) : bool := bool_decide (c_str b = []).

Definition SysCreate (virtAddr : Z) (s : state) : outcome (Z * state) :=
  let! ' (filename, (k, m)) := User2System virtAddr (MaxFileLength + 1) s in
  if no_name filename then Ok (-1, (k, m))
  else
    let! ' (ok, w) := FileSystem_Create (c_str filename) (host k) in
    Ok (if (ok : bool) then 0 else -1, (set_host w (table k) k, m)).

(** [IsOpening] is an [int] used as a truth value. *)
Definition truth (z : Z) : bool := negb (z =? 0).

Definition SysSeek (pos id : Z) (s : state) : outcome (Z * state) :=
  let '(k, m) := s in
  if id <? 0 then Ok (-1, s)
  else if id =? consoleOutputID then Ok (-1, s)
  else if id =? consoleInputID then Ok (-1, s)
  else
    let! o := IsOpening (table k) id in
    if negb (truth o) then Ok (-1, s)
    else
      let! p := GetFileDescriptor (table k) id in
      let! i := deref p in
      let! ' (r, t, w) := on_slot (table k) i (fun d => Seek d pos (host k)) in
      Ok (r, (set_host w t k, m)).

Definition SysOpen (virtAddr type : Z) (s : state) : outcome (Z * state) :=
  if negb (type =? 0) && negb (type =? 1) then Ok (-1, s)
  else
    let! ' (filename, (k, m)) := User2System virtAddr MaxFileLength s in
    if no_name filename then Ok (-1, (k, m))
    else
      let! ' (FileID, t, w) := Table_Open (table k) (c_str filename) type (host k) in
      Ok (FileID, (set_host w t k, m)).

Definition SysClose (id : Z) (s : state) : outcome (Z * state) :=
  let '(k, m) := s in
  let! ' (r, t, w) := Table_Close (table k) id (host k) in
  Ok (if r =? -1 then -1 else 0, (set_host w t k, m)).

(** The first test only sets [result]: an empty name goes on. *)
Definition SysRemove (virtAddr : Z) (s : state) : outcome (Z * state) :=
  let! ' (filename, (k, m)) := User2System virtAddr MaxFileLength s in
  let! o := IsOpeningWithName (table k) (c_str filename) in
  if negb (o =? -1) then Ok (-1, (k, m))
  else
    let '(ok, w) := FileSystem_Remove (c_str filename) (host k) in
    Ok (if (ok : bool) then 0 else -1, (set_host w (table k) k, m)).

(** The tests at the start of [SysRead] and [SysWrite], whose forbidden
    console is [other]: whether to go on. *)
Definition valid_id (id other : Z) (k : Kdata) : outcome bool :=
  if id <? 0 then Ok false
  else if id =? other then Ok false
  else let! o := IsOpening (table k) id in Ok (truth o).

(** [SysRead] and [SysWrite] of a file, between the two copies. *)
Definition read_file (id : Z) (buffer : list Z) (size : Z) (k : Kdata) : outcome (Z * list Z * Kdata) :=
  let! p := GetFileDescriptor (table k) id in
  let! i := deref p in
  let! d := arr_get (table k) i in
  let! ' (r, buffer, d, w) := Read d buffer size (host k) in
  let! t := arr_set (table k) i d in
  Ok (r, buffer, set_host w t k).

Definition write_file (id : Z) (buffer : list Z) (size : Z) (k : Kdata) : outcome (Z * Kdata) :=
  let! p := GetFileDescriptor (table k) id in
  let! i := deref p in
  let! ' (r, t, w) := on_slot (table k) i (fun d => Write d buffer size (host k)) in
  Ok (r, set_host w t k).

Definition SysRead_file (virtAddr size id : Z) (s : state) : outcome (Z * state) :=
  let! ' (buffer, (k, m)) := User2System virtAddr size s in
  let! ' (result, buffer, k) := read_file id buffer size k in
  let! ' (_, s) := System2User virtAddr size buffer (k, m) in
  Ok (result, s).

Definition SysWrite_file (virtAddr size id : Z) (s : state) : outcome (Z * state) :=
  let! ' (buffer, (k, m)) := User2System virtAddr size s in
  let! ' (result, k) := write_file id buffer size k in
  let! ' (_, s) := System2User virtAddr size buffer (k, m) in
  Ok (result, s).

(** ** Sockets *)

Definition SysSocketTCP (s : state) : outcome (Z * state) :=
  let '(k, m) := s in
  let! ' (id, t, w) := Table_SocketTCP (table k) (host k) in
  Ok (if negb (id =? -1) then id else -1, (set_host w t k, m)).

Definition SysConnect (socketid ipvirtual port : Z) (s : state) : outcome (Z * state) :=
  let! ' (ip, (k, m)) := User2System ipvirtual MaxFileLength s in
  if no_name ip then Ok (-1, (k, m))
  else
    let! ' (r, w) := Table_Connect (table k) socketid (c_str ip) port (host k) in
    Ok (r, (set_host w (table k) k, m)).

Definition SysSend (socketid virtbuffer length : Z) (s : state) : outcome (Z * state) :=
  let! ' (buffer, (k, m)) := User2System virtbuffer length s in
  let! ' (r, w) := Table_Send (table k) socketid buffer length (host k) in
  Ok (r, (set_host w (table k) k, m)).

Definition SysReceive (socketid virtbuffer length : Z) (s : state) : outcome (Z * state) :=
  let! ' (buffer, (k, m)) := User2System virtbuffer length s in
  let! ' (r, buffer, w) := Table_Receive (table k) socketid buffer length (host k) in
  let! ' (_, s) := System2User virtbuffer length buffer (set_host w (table k) k, m) in
  Ok (r, s).

Definition SysCloseSocket (socketid : Z) (s : state) : outcome (Z * state) :=
  let '(k, m) := s in
  let! ' (r, t, w) := Table_Close_Socket (table k) socketid (host k) in
  Ok (r, (set_host w t k, m)).

End Syscalls.

(** ** User memory seen by the kernel *)

Section UserMemory.
Context {K : Type} `{HK : Kernel K}.

(** The program whose pages are the frames [F] runs on [m]. *)
Definition user_mem (m : Machine) (F : list Z) : Prop :=
  mem_wf m /\ frames_ok F /\
  exists p t, paged m p t /\ page_entries_ok t /\ pageTableSize m = Z.of_nat (length F) /\
    forall (i : nat) f, F !! i = Some f ->
      exists e, t !! i = Some e /\ valid e = true /\ readOnly e = false /\ physicalPage e = f.

(** [m'] differs from [m] in memory and in use and dirty bits only. *)
Definition same_cpu (m m' : Machine) : Prop :=
  registers m' = registers m /\ pageTable m' = pageTable m /\ pageTableSize m' = pageTableSize m.

Lemma same_cpu_trans m1 m2 m3 : same_cpu m1 m2 -> same_cpu m2 m3 -> same_cpu m1 m3.
Proof. intros (?&?&?) (?&?&?). split_and!; congruence. Qed.

Lemma frames_small F : frames_ok F -> Z.of_nat (length F) <= NumPhysPages.
Proof.
  intros [Hnd Hr].
  assert (F ⊆+ seqZ 0 NumPhysPages) as Hs.
  { apply NoDup_submseteq; [done |]. intros f Hf. rewrite Forall_forall in Hr. specialize (Hr f Hf).
    rewrite elem_of_seqZ. lia. }
  apply submseteq_length in Hs. rewrite length_seqZ in Hs. unfold NumPhysPages in *. lia.
Qed.

Lemma user_translate m F p t v w :
  frames_ok F -> paged m p t -> pageTableSize m = Z.of_nat (length F) ->
  (forall (i : nat) f, F !! i = Some f ->
     exists e, t !! i = Some e /\ valid e = true /\ readOnly e = false /\ physicalPage e = f) ->
  0 <= v < Z.of_nat (length F) * PageSize ->
  exists j, phys F v = Some j /\ translate_spec t (pageTableSize m) v 1 w = Phys (Z.of_nat j).
Proof.
  intros HF Hp Hn Ht Hv. pose proof (frames_small F HF) as Hsm.
  destruct (lookup_lt_is_Some_2 F (Z.to_nat (v / PageSize))) as [f Hf]; [unfold PageSize in *; dlia |].
  destruct (Ht _ f Hf) as (e & He & Hva & Hro & Hpp).
  assert (phys F v = Some (Z.to_nat (f * PageSize + v mod PageSize))) as Hph by (unfold phys; by rewrite Hf).
  destruct (phys_frame F v _ HF Hph) as (f' & Hf' & Hfr & Hj & _). assert (f' = f) as -> by congruence.
  exists (Z.to_nat (f * PageSize + v mod PageSize)). split; [done |].
  assert (u32 v = v) as Hu by (apply u32_id; unfold is_u32, PageSize, NumPhysPages in *; lia).
  unfold translate_spec, misaligned, page_of, offset_of. rewrite Hu, Z.mod_1_r, Hn. cbn [negb Z.eqb].
  rewrite (proj2 (Z.leb_gt _ _)) by (unfold PageSize in *; dlia). rewrite He, Hva, Hro. cbn [negb andb].
  rewrite Hpp, (proj2 (Z.leb_le _ _)), (proj2 (Z.ltb_lt _ _)) by lia. cbn [negb andb]. by rewrite Hj.
Qed.

Lemma user_mem_touched m F p t v w :
  mem_wf m -> frames_ok F -> paged m p t -> page_entries_ok t -> pageTableSize m = Z.of_nat (length F) ->
  (forall (i : nat) f, F !! i = Some f ->
     exists e, t !! i = Some e /\ valid e = true /\ readOnly e = false /\ physicalPage e = f) ->
  user_mem (touched m p t v w) F.
Proof.
  intros Hw HF Hp Hok Hn Ht. split; [done |]. split; [done |].
  exists p, (alter (touch w) (Z.to_nat (page_of v)) t). split; [by apply paged_touched |].
  split; [by apply entries_ok_touch |]. split; [done |].
  intros i f Hf. destruct (Ht i f Hf) as (e & He & ?). rewrite lookup_touch, He.
  destruct (decide _); eexists; split; try done.
Qed.

Lemma phys_inj F u v j : frames_ok F -> 0 <= u -> 0 <= v -> phys F u = Some j -> phys F v = Some j -> u = v.
Proof.
  intros HF Hu Hv Hpu Hpv. destruct (phys_frame F u j HF Hpu) as (f & Hf & _ & Hj & Hfo).
  destruct (phys_frame F v j HF Hpv) as (g & Hg & _ & Hj' & Hgo). assert (f = g) as -> by congruence.
  destruct HF as [Hnd _]. pose proof (proj1 (NoDup_alt F) Hnd _ _ _ Hf Hg) as E.
  clear - E Hj Hj' Hu Hv. unfold PageSize in *. dlia.
Qed.

(** One byte read, one byte written. *)
Lemma read_user (k : K) m F v b :
  user_mem m F -> 0 <= v < Z.of_nat (length F) * PageSize -> vbyte F (mainMemory m) v = Some b ->
  exists m', ReadMem v 1 (k, m) = Ok (Some (s8 b), (k, m')) /\ user_mem m' F /\ same_cpu m m' /\
    mainMemory m' = mainMemory m.
Proof.
  intros (Hw & HF & p & t & Hp & Hok & Hn & Ht) Hv Hb.
  destruct (user_translate m F p t v false HF Hp Hn Ht Hv) as (j & Hph & Htr).
  destruct (ReadMem_ok k m p t v 1 (Z.of_nat j) Hp Hok ltac:(by left) Hw Htr) as (d & Hd & _ & ->).
  unfold vbyte in Hb. rewrite Hph in Hb. cbn in Hb. rewrite arr_get_load, (arr_get_nat _ _ b) in Hd by done.
  injection Hd as <-. eexists. split; [done |]. split; [by apply user_mem_touched |]. done.
Qed.

Lemma write_user (k : K) m F v x :
  user_mem m F -> 0 <= v < Z.of_nat (length F) * PageSize ->
  exists m', WriteMem v 1 x (k, m) = Ok (true, (k, m')) /\ user_mem m' F /\ same_cpu m m' /\
    vbyte F (mainMemory m') v = Some (u8 x) /\
    (forall u, 0 <= u -> u <> v -> vbyte F (mainMemory m') u = vbyte F (mainMemory m) u) /\
    (forall j : nat, frame_of j ∉ F -> mainMemory m' !! j = mainMemory m !! j).
Proof.
  intros (Hw & HF & p & t & Hp & Hok & Hn & Ht) Hv.
  destruct (user_translate m F p t v true HF Hp Hn Ht Hv) as (j & Hph & Htr).
  destruct (WriteMem_ok k m p t v 1 x (Z.of_nat j) Hp Hok ltac:(by left) Hw Htr) as (mem' & Hs & ->).
  change (Z.to_nat 1) with 1%nat in Hs. rewrite arr_set_store in Hs. apply arr_set_inv in Hs as [Hj ->].
  rewrite Nat2Z.id. eexists. split; [done |]. destruct Hw as [Hl Hb].
  assert (mem_wf (set_mainMemory (touched m p t v true) (<[j := x mod 2 ^ 8]> (mainMemory m)))) as Hw'.
  { split; cbn; [by rewrite length_insert |]. apply Forall_insert; [done |]. apply Z.mod_pos_bound. lia. }
  split; [|split; [done |]]; [|split_and!]; cbn [mainMemory set_mainMemory].
  - destruct (user_mem_touched m F p t v true) as (_ & _ & p' & t' & Hp' & Hrest); try done. split; [done |]. split; [done |]. exists p', t'. done.
  - unfold vbyte. rewrite Hph. cbn. rewrite list_lookup_insert_eq by lia. done.
  - intros u Hu Huv. unfold vbyte. destruct (phys F u) as [i|] eqn:Ei; [|done]. cbn.
    apply list_lookup_insert_ne. intros <-. apply Huv. apply (phys_inj F u v j HF); [done | lia | done..].
  - intros i Hi. apply list_lookup_insert_ne. intros <-.
    destruct (phys_frame F v j HF Hph) as (f & Hf & _ & _ & Hfo). apply Hi. rewrite Hfo.
    by eapply list_elem_of_lookup_2.
Qed.

Lemma vbyte_mapped m F v : user_mem m F -> 0 <= v < Z.of_nat (length F) * PageSize ->
  exists b, vbyte F (mainMemory m) v = Some b /\ is_byte b.
Proof.
  intros ([Hl Hb] & HF & _) Hv.
  destruct (lookup_lt_is_Some_2 F (Z.to_nat (v / PageSize))) as [f Hf]; [unfold PageSize in *; dlia |].
  assert (phys F v = Some (Z.to_nat (f * PageSize + v mod PageSize))) as Hph by (unfold phys; by rewrite Hf).
  destruct (phys_frame F v _ HF Hph) as (f' & Hf' & Hfr & Hj & _). assert (f' = f) as -> by congruence.
  unfold vbyte. rewrite Hph. cbn.
  destruct (lookup_lt_is_Some_2 (mainMemory m) (Z.to_nat (f * PageSize + v mod PageSize))) as [b Hlb].
  { pose proof (Z.mod_pos_bound v PageSize ltac:(done)). unfold MemorySize, NumPhysPages, PageSize in *. lia. }
  exists b. split; [done |]. rewrite Forall_lookup in Hb. by eapply Hb.
Qed.

(** Outside the space: the machine traps. *)
Lemma user_translate_out n t F v w :
  frames_ok F -> n = Z.of_nat (length F) -> is_s32 v -> ~ 0 <= v < Z.of_nat (length F) * PageSize ->
  translate_spec t n v 1 w = Fault AddressErrorException.
Proof.
  intros HF -> Hs Hv. pose proof (frames_small F HF).
  unfold translate_spec, misaligned. rewrite Z.mod_1_r. cbn [negb Z.eqb].
  rewrite (proj2 (Z.leb_le _ _)); [done |].
  unfold page_of, is_s32, NumPhysPages, PageSize, u32 in *. destruct (Z.ltb_spec v 0).
  - rewrite <- (Z.mod_add v 1), Z.mod_small by lia. dlia.
  - rewrite Z.mod_small by lia. dlia.
Qed.

Lemma read_fault (k : K) m F v :
  user_mem m F -> is_s32 v -> ~ 0 <= v < Z.of_nat (length F) * PageSize ->
  ReadMem v 1 (k, m) = let! s := RaiseException AddressErrorException v (k, m) in Ok (None, s).
Proof.
  intros (_ & HF & p & t & Hp & Hok & Hn & _) Hs Hv. apply (ReadMem_fault k m p t); [done..|left; done|].
  by apply (user_translate_out _ t F).
Qed.

Lemma write_fault (k : K) m F v x :
  user_mem m F -> is_s32 v -> ~ 0 <= v < Z.of_nat (length F) * PageSize ->
  WriteMem v 1 x (k, m) = let! s := RaiseException AddressErrorException v (k, m) in Ok (false, s).
Proof.
  intros (_ & HF & p & t & Hp & Hok & Hn & _) Hs Hv. apply (WriteMem_fault k m p t); [done..|left; done|].
  by apply (user_translate_out _ t F).
Qed.

End UserMemory.

Section UserStrings.
Context {W : Type} `{HH : Host W}.
Notation Kdata := (Kdata W).
Implicit Types (k : Kdata) (m : Machine).

(** The characters at [v]. *)
Definition ubytes (F mem : list Z) (v : Z) (n : nat) : list Z :=
  (fun i : nat => s8 (default 0 (vbyte F mem (v + Z.of_nat i)))) <$> seq 0 n.

Lemma s8_idem b : s8 (s8 b) = s8 b.
Proof. unfold s8. dlia. Qed.

Lemma s8_u8 c : -128 <= c < 128 -> s8 (u8 c) = c.
Proof. intros. unfold s8, u8. dlia. Qed.

Lemma ubytes_S F mem v n :
  ubytes F mem v (Datatypes.S n) = s8 (default 0 (vbyte F mem v)) :: ubytes F mem (v + 1) n.
Proof.
  unfold ubytes. cbn [seq fmap list_fmap]. rewrite Z.add_0_r. f_equal.
  rewrite <- seq_shift. unfold fmap.
  change (list_fmap nat Z) with (fun f : nat -> Z => @map nat Z f). cbn beta. rewrite map_map.
  apply map_ext. intros i. do 3 f_equal. lia.
Qed.

(** Up to the first NUL, with it. *)
Fixpoint upto (b : list Z) : list Z :=
  match b with [] => [] | c :: b' => if c =? 0 then [0] else c :: upto b' end.

Lemma upto_padded b n : (length b < n)%nat ->
  upto b ++ replicate (n - length (upto b)) 0 = c_str b ++ replicate (n - length (c_str b)) 0.
Proof.
  revert n. induction b as [|c b IH]; intros n Hn; [done |]. cbn [upto c_str].
  destruct (c =? 0).
  - simpl. destruct n; [lia |]. simpl. by rewrite Nat.sub_0_r.
  - simpl in Hn |- *. destruct n; [lia |]. simpl. f_equal. apply IH. lia.
Qed.

Lemma space_small m F : user_mem m F -> Z.of_nat (length F) * PageSize <= 2 ^ 14.
Proof. intros (_ & HF & _). pose proof (frames_small F HF). unfold NumPhysPages, PageSize in *. lia. Qed.

Lemma User2System_copyin k m va limit : 0 <= limit < 2 ^ 31 - 1 ->
  User2System va limit (k, m) =
    let! ' (l, s) := copyin (Z.to_nat limit) va (k, m) in
    Ok (l ++ replicate (Z.to_nat (limit + 1) - length l) 0, s).
Proof.
  intros Hl. unfold User2System. by rewrite (proj2 (Z.ltb_ge _ _)), (proj2 (Z.leb_gt _ _)) by lia.
Qed.

Lemma copyin_spec n k m F v :
  user_mem m F -> 0 <= v -> v + Z.of_nat n <= Z.of_nat (length F) * PageSize ->
  exists m', copyin n v (k, m) = Ok (upto (ubytes F (mainMemory m) v n), (k, m')) /\
    user_mem m' F /\ same_cpu m m' /\ mainMemory m' = mainMemory m.
Proof.
  revert m v. induction n as [|n IH]; intros m v Hm Hv Hn; [exists m; done |].
  cbn [copyin]. destruct (vbyte_mapped m F v Hm) as (b & Hb & Hbyte); [lia |].
  destruct (read_user k m F v b Hm ltac:(lia) Hb) as (m1 & -> & Hm1 & Hc1 & Hmem1). cbn [obind].
  rewrite ubytes_S, Hb. cbn [default from_option id upto].
  destruct (s8 b =? 0) eqn:Eb; [eauto |].
  assert (s32 (v + 1) = v + 1) as ->.
  { pose proof (frames_small F (proj1 (proj2 Hm))). apply s32_id. unfold is_s32, NumPhysPages, PageSize in *. lia. }
  destruct (IH m1 (v + 1) Hm1) as (m2 & -> & Hm2 & Hc2 & Hmem2); [lia | lia |]. cbn [obind].
  rewrite s8_idem by done. rewrite Hmem1 in *. exists m2. split; [done |]. split; [done |].
  split; [by eapply same_cpu_trans | done].
Qed.

Lemma copyout_spec str k m F v rest n :
  user_mem m F -> 0 <= v -> v + Z.of_nat (length str) + 1 <= Z.of_nat (length F) * PageSize ->
  (length str < n)%nat -> Forall (fun c => c <> 0) str ->
  exists m', copyout n v (str ++ 0 :: rest) (k, m) = Ok (Z.of_nat (length str) + 1, (k, m')) /\
    user_mem m' F /\ same_cpu m m' /\
    (forall i : nat, (i <= length str)%nat ->
       vbyte F (mainMemory m') (v + Z.of_nat i) = Some (u8 (default 0 (str !! i)))) /\
    (forall u, 0 <= u -> ~ v <= u <= v + Z.of_nat (length str) ->
       vbyte F (mainMemory m') u = vbyte F (mainMemory m) u) /\
    (forall j : nat, frame_of j ∉ F -> mainMemory m' !! j = mainMemory m !! j).
Proof.
  revert m v n. induction str as [|c str IH]; intros m v n Hm Hv Hn Hl Hz; (destruct n as [|n]; [simpl in Hl; lia |]);
    cbn [app copyout].
  - destruct (write_user k m F v 0 Hm) as (m1 & -> & Hm1 & Hc1 & Hb1 & Ho1 & Hf1); [simpl in Hn; lia |].
    cbn [obind Z.eqb]. exists m1. split; [done |]. split; [done |]. split; [done |]. split_and!; [|intros u Hu Hne; apply Ho1; simpl in *; lia | done].
    intros i Hi. simpl in Hi. assert (i = 0)%nat as -> by lia. by rewrite Z.add_0_r.
  - simpl in Hn, Hl. apply Forall_cons in Hz as [Hc Hz].
    destruct (write_user k m F v c Hm) as (m1 & -> & Hm1 & Hc1 & Hb1 & Ho1 & Hf1); [lia |].
    cbn [obind]. rewrite (proj2 (Z.eqb_neq c 0)) by done.
    assert (s32 (v + 1) = v + 1) as ->.
    { pose proof (frames_small F (proj1 (proj2 Hm))). apply s32_id. unfold is_s32, NumPhysPages, PageSize in *. lia. }
    destruct (IH m1 (v + 1) n Hm1) as (m2 & -> & Hm2 & Hc2 & Hb2 & Ho2 & Hf2); [lia | lia | lia | done |].
    cbn [obind]. exists m2. split; [do 2 f_equal; cbn [length]; lia |]. split; [done |]. split; [by eapply same_cpu_trans |].
    split_and!.
    + intros [|i] Hi; [replace (v + Z.of_nat 0) with v by lia; rewrite Ho2 by lia; exact Hb1 |]. simpl in Hi |- *.
      rewrite <- Hb2 by lia. f_equal. lia.
    + intros u Hu Hne. simpl in Hne. rewrite Ho2 by lia. apply Ho1; lia.
    + intros j Hj. by rewrite Hf2, Hf1.
Qed.

Lemma c_str_ubytes F mem v str n :
  (length str < n)%nat -> Forall (fun c => c <> 0 /\ -128 <= c < 128) str ->
  (forall i : nat, (i <= length str)%nat -> vbyte F mem (v + Z.of_nat i) = Some (u8 (default 0 (str !! i)))) ->
  c_str (ubytes F mem v n) = str.
Proof.
  revert v n. induction str as [|c str IH]; intros v n Hn Hs Hb; (destruct n as [|n]; [simpl in Hn; lia |]);
    rewrite ubytes_S; pose proof (Hb 0%nat ltac:(lia)) as H0; rewrite Z.add_0_r in H0; rewrite H0; cbn [default from_option id].
  - done.
  - apply Forall_cons in Hs as [[Hc Hr] Hs]. cbn [lookup list_lookup default from_option id] in *.
    rewrite s8_u8 by done. cbn [c_str]. rewrite (proj2 (Z.eqb_neq c 0)) by done. f_equal.
    apply IH; [simpl in Hn; lia | done |]. intros i Hi. specialize (Hb (Datatypes.S i) ltac:(simpl; lia)).
    rewrite <- Z.add_assoc. replace (1 + Z.of_nat i) with (Z.of_nat (Datatypes.S i)) by lia. exact Hb.
Qed.

(** ** Properties *)

(** C30.  Strings come in whole or not at all: [User2System] of a range of
    the running program gives the program's bytes up to the first NUL,
    padded with zeros to [limit + 1], and changes neither memory nor
    registers; a pointer outside the address space halts the machine; a
    [limit] whose [limit + 1] is no [int] overflows. *)
Theorem User2System_spec k m F va limit :
  user_mem m F -> 0 <= limit -> is_s32 va ->
  (0 <= va -> va + limit <= Z.of_nat (length F) * PageSize ->
   let str := c_str (ubytes F (mainMemory m) va (Z.to_nat limit)) in
   exists m', User2System va limit (k, m) =
       Ok (str ++ replicate (Z.to_nat (limit + 1) - length str) 0, (k, m')) /\
     user_mem m' F /\ same_cpu m m' /\ mainMemory m' = mainMemory m) /\
  (0 < limit < 2 ^ 31 - 1 -> ~ 0 <= va < Z.of_nat (length F) * PageSize ->
   length (registers m) = Z.to_nat NumTotalRegs -> 0 <= reg m LoadReg < NumTotalRegs ->
   User2System va limit (k, m) = Trap Halted) /\
  (2 ^ 31 - 1 <= limit -> User2System va limit (k, m) = Trap Undefined).
Proof.
  intros Hm Hl Hva. split; [|split].
  - intros Hv Hr. cbn zeta. rewrite User2System_copyin by (pose proof (space_small m F Hm); lia). destruct (copyin_spec (Z.to_nat limit) k m F va Hm Hv) as (m' & -> & Hrest); [lia |].
    cbn [obind]. exists m'. split; [|done]. do 2 f_equal. rewrite upto_padded; [done |].
    unfold ubytes. rewrite length_fmap, length_seq. lia.
  - intros Hpos Hout Hlen Hreg. rewrite User2System_copyin by lia. destruct (Z.to_nat limit) as [|n] eqn:En; [lia |]. cbn [copyin].
    rewrite (read_fault k m F va) by done. unfold RaiseException, DelayedLoad.
    rewrite arr_set_Ok. 2:{ cbn [registers set_reg set_registers]. rewrite length_insert, Hlen.
      unfold reg in *. cbn [registers set_reg set_registers].
      rewrite list_lookup_insert_ne by (unfold BadVAddrReg, LoadReg; lia). unfold NumTotalRegs in *. lia. }
    done.
  - intros Hov. unfold User2System. by rewrite (proj2 (Z.leb_le _ _)), orb_true_r by lia.
Qed.

(** C31.  Round trip through user memory: a string written by
    [System2User] is read back by [User2System], its length is reported,
    and no byte outside it, in this program or in any other frame,
    changes. *)
Theorem System2User_User2System k m F va str rest limit :
  user_mem m F -> 0 <= va -> va + limit <= Z.of_nat (length F) * PageSize ->
  Z.of_nat (length str) < limit -> Forall (fun c => c <> 0 /\ -128 <= c < 128) str ->
  exists m', System2User va limit (str ++ 0 :: rest) (k, m) = Ok (Z.of_nat (length str) + 1, (k, m')) /\
    user_mem m' F /\ same_cpu m m' /\
    (forall u, 0 <= u -> ~ va <= u <= va + Z.of_nat (length str) ->
       vbyte F (mainMemory m') u = vbyte F (mainMemory m) u) /\
    (forall j : nat, frame_of j ∉ F -> mainMemory m' !! j = mainMemory m !! j) /\
    exists m'', User2System va limit (k, m') =
      Ok (str ++ replicate (Z.to_nat (limit + 1) - length str) 0, (k, m'')) /\ same_cpu m m''.
Proof.
  intros Hm Hv Hr Hl Hs. unfold System2User.
  rewrite (proj2 (Z.ltb_ge _ _)), (proj2 (Z.eqb_neq _ _)) by lia.
  destruct (copyout_spec str k m F va rest (Z.to_nat limit) Hm Hv) as (m' & -> & Hm' & Hc & Hb & Ho & Hf);
    [lia | lia | by eapply Forall_impl; [exact Hs | intros ? []] |].
  exists m'. split; [done |]. split; [done |]. split; [done |]. split; [done |]. split; [done |].
  rewrite User2System_copyin by (pose proof (space_small m F Hm); lia).
  destruct (copyin_spec (Z.to_nat limit) k m' F va Hm' Hv) as (m'' & -> & _ & Hc' & _); [lia |].
  cbn [obind]. exists m''. split; [|by eapply same_cpu_trans]. do 2 f_equal.
  rewrite upto_padded by (unfold ubytes; rewrite length_fmap, length_seq; lia).
  rewrite (c_str_ubytes F (mainMemory m') va str); [done | lia | done | done].
Qed.

End UserStrings.

End Syscalls.

(** ** Witnesses: the machine with one page, at frame 3 *)

Module SyscallsWitness.
Import Machine Stub AddrSpace ProcTable Syscalls OneFileHost.

(** Everything free, over the disk with one file. *)
Definition kernel0 : Kdata fsys :=
  mkKdata {| bytes := [1; 2; 3]; offs := ∅ |} FileTable.new_Table SystemMode false
    (mkPTable 10 (Bitmap.mkBitmap 10 1 [0]) (replicate 10 None) 0)
    (mkSTable (Bitmap.mkBitmap 10 1 [0]) (replicate 10 None))
    (Bitmap.mkBitmap 128 4 [0; 0; 0; 0]) 1 (mkConsole 0 2 EOF 0 1 3 false 1).

Lemma one_page_user : user_mem MachineWitness.one_page [3].
Proof.
  split; [apply MachineWitness.one_page_mem |]. split; [split; [apply NoDup_singleton | by constructor] |].
  exists 1%positive, [MachineWitness.page0]. split; [apply MachineWitness.one_page_paged |].
  split; [apply MachineWitness.one_page_entries |]. split; [done |].
  intros [|i] f Hf; [|done]. injection Hf as <-. by eexists.
Qed.

End SyscallsWitness.
Import Machine Syscalls SyscallsWitness.

Lemma User2System_spec_witness :
  (exists m', User2System 10 4 (kernel0, MachineWitness.one_page) = Ok ([0; 0; 0; 0; 0], (kernel0, m'))) /\
  User2System 128 4 (kernel0, MachineWitness.one_page) = Trap Halted.
Proof.
  split.
  - destruct (User2System_spec kernel0 MachineWitness.one_page [3] 10 4 one_page_user ltac:(lia) ltac:(done))
      as [H _].
    destruct (H ltac:(lia) ltac:(vm_compute; discriminate)) as (m' & E & _). exists m'. exact E.
  - destruct (User2System_spec kernel0 MachineWitness.one_page [3] 128 4 one_page_user ltac:(lia) ltac:(done))
      as [_ H].
    apply H; [lia | vm_compute; intros [_ F]; discriminate F | vm_compute; reflexivity | vm_compute; split; [discriminate | reflexivity]].
Defined.

Lemma System2User_User2System_witness : exists m' m'',
  System2User 10 8 [72; 105; 0] (kernel0, MachineWitness.one_page) = Ok (3, (kernel0, m')) /\
  User2System 10 8 (kernel0, m') = Ok ([72; 105; 0; 0; 0; 0; 0; 0; 0], (kernel0, m'')).
Proof.
  destruct (System2User_User2System kernel0 MachineWitness.one_page [3] 10 [72; 105] [] 8 one_page_user
    ltac:(lia) ltac:(vm_compute; discriminate) ltac:(reflexivity) ltac:(repeat constructor; done))
    as (m' & E & _ & _ & _ & _ & m'' & E' & _).
  exists m', m''. split; [exact E | exact E'].
Defined.
