(* ===== verification/SyscallsProofs.v ===== *)
(** * What the system calls on files and sockets keep, and what they do with bad ids

    The calls of ksyscall.h that do not block, as one type [fcall]; they
    preserve the invariants of the running program's memory, of the table
    of open files and of the rest of the kernel. *)

From S2P Require Import Prelude Bitmap Machine Mips FileTable AddrSpace ProcTable Syscalls.

Module SyscallsProofs.
Import Machine Stub FileTable AddrSpace ProcTable Syscalls.

(** ** User memory, whatever the pointer *)

Section Frames.
Context {W : Type} `{HH : Host W}.
Notation Kdata := (Kdata W).
Implicit Types (k : Kdata) (m : Machine).

Lemma s32_is z : is_s32 (s32 z).
Proof. unfold is_s32, s32. dlia. Qed.

(** The handler of a memory fault does not return. *)
Lemma fault_halts k m va s : RaiseException AddressErrorException va (k, m) <> Ok s.
Proof. unfold RaiseException. by destruct (DelayedLoad _ 0 0). Qed.

Lemma copyin_keeps n k m F v l k' m' :
  user_mem m F -> is_s32 v -> copyin n v (k, m) = Ok (l, (k', m')) ->
  k' = k /\ user_mem m' F /\ same_cpu m m' /\ mainMemory m' = mainMemory m /\ (length l <= n)%nat.
Proof.
  revert m v l. induction n as [|n IH]; intros m v l Hm Hv; cbn [copyin].
  { intros [= <- <- <-]. done. }
  destruct (decide (0 <= v < Z.of_nat (length F) * PageSize)) as [Hin|Hout].
  2:{ rewrite (read_fault k m F v) by done. destruct (RaiseException _ _ _) eqn:E; [by apply fault_halts in E | done]. }
  destruct (vbyte_mapped m F v Hm Hin) as (b & Hb & _).
  destruct (read_user k m F v b Hm Hin Hb) as (m1 & -> & Hm1 & Hc1 & Hmem1). cbn [obind].
  destruct (s8 b =? 0); [intros [= <- <- <-]; split_and!; [done..|cbn; lia] |].
  destruct (copyin n (s32 (v + 1)) (k, m1)) as [[l1 [k1 m2]]|] eqn:E; [|done]. cbn [obind]. intros [= <- <- <-].
  destruct (IH _ _ _ Hm1 (s32_is _) E) as (-> & Hm2 & Hc2 & Hmem2 & Hl). split; [done |]. split; [done |].
  split; [by eapply same_cpu_trans |]. split; [congruence | cbn; lia].
Qed.

(** Memory seen by the program outside [[lo, hi)], and outside its pages. *)
Definition only_between (lo hi : Z) (F : list Z) (m m' : Machine) : Prop :=
  (forall u, 0 <= u -> ~ lo <= u < hi -> vbyte F (mainMemory m') u = vbyte F (mainMemory m) u) /\
  (forall j : nat, frame_of j ∉ F -> mainMemory m' !! j = mainMemory m !! j).

Lemma only_between_same lo hi F m m' : mainMemory m' = mainMemory m -> only_between lo hi F m m'.
Proof. intros E. unfold only_between. by rewrite E. Qed.

Lemma only_between_l lo hi F m m1 m2 :
  mainMemory m1 = mainMemory m -> only_between lo hi F m1 m2 -> only_between lo hi F m m2.
Proof. intros E. unfold only_between. by rewrite E. Qed.

Lemma copyout_keeps n k m F v buf i k' m' :
  user_mem m F -> is_s32 v -> copyout n v buf (k, m) = Ok (i, (k', m')) ->
  k' = k /\ user_mem m' F /\ same_cpu m m' /\ only_between v (v + Z.of_nat n) F m m'.
Proof.
  revert m v buf i. induction n as [|n IH]; intros m v buf i Hm Hv; cbn [copyout].
  { intros [= <- <- <-]. by split_and!. }
  destruct buf as [|c buf]; [done |].
  destruct (decide (0 <= v < Z.of_nat (length F) * PageSize)) as [Hin|Hout].
  2:{ rewrite (write_fault k m F v) by done. destruct (RaiseException _ _ _) eqn:E; [by apply fault_halts in E | done]. }
  destruct (write_user k m F v c Hm Hin) as (m1 & -> & Hm1 & Hc1 & _ & Ho & Hf). cbn [obind].
  destruct (c =? 0).
  { intros [= <- <- <-]. split; [done |]. split; [done |]. split; [done |].
    split; [|exact Hf]. intros u Hu Hne. apply Ho; lia. }
  assert (s32 (v + 1) = v + 1) as Hv1.
  { pose proof (frames_small F (proj1 (proj2 Hm))). apply s32_id. unfold is_s32, NumPhysPages, PageSize in *. lia. }
  destruct (copyout n (s32 (v + 1)) buf (k, m1)) as [[i1 [k1 m2]]|] eqn:E; [|done]. cbn [obind]. intros [= <- <- <-].
  destruct (IH _ _ _ _ Hm1 (s32_is _) E) as (-> & Hm2 & Hc2 & Ho2 & Hf2). rewrite Hv1 in Ho2.
  split; [done |]. split; [done |]. split; [by eapply same_cpu_trans |]. split.
  - intros u Hu Hne. rewrite Ho2 by lia. apply Ho; lia.
  - intros j Hj. by rewrite Hf2, Hf.
Qed.

Lemma User2System_keeps va limit k m F l k' m' :
  user_mem m F -> is_s32 va -> User2System va limit (k, m) = Ok (l, (k', m')) ->
  k' = k /\ user_mem m' F /\ same_cpu m m' /\ mainMemory m' = mainMemory m /\ Z.of_nat (length l) = limit + 1.
Proof.
  intros Hm Hva. unfold User2System. destruct (_ || _) eqn:Hlim; [done |].
  apply orb_false_iff in Hlim as [?%Z.ltb_ge _].
  destruct (copyin _ va (k, m)) as [[b [k1 m1]]|] eqn:E; [|done]. cbn [obind]. intros [= <- <- <-].
  destruct (copyin_keeps _ _ _ _ _ _ _ _ Hm Hva E) as (-> & Hm1 & Hc & Hmem & Hl).
  split_and!; [done..|]. rewrite length_app, length_replicate. lia.
Qed.

Lemma System2User_keeps va len buf k m F i k' m' :
  user_mem m F -> is_s32 va -> System2User va len buf (k, m) = Ok (i, (k', m')) ->
  k' = k /\ user_mem m' F /\ same_cpu m m' /\ only_between va (va + len) F m m'.
Proof.
  intros Hm Hva. unfold System2User.
  destruct (Z.ltb_spec len 0); [intros [= <- <- <-]; by split_and! |].
  destruct (Z.eqb_spec len 0) as [->|]; [intros [= <- <- <-]; by split_and! |]. intros E.
  destruct (copyout_keeps _ _ _ _ _ _ _ _ _ Hm Hva E) as (-> & Hm1 & Hc & Ho).
  rewrite Z2Nat.id in Ho by lia. done.
Qed.

End Frames.

(** ** The table of open files *)

Section Files.
Context {W : Type} `{HW : Host W} `{HV : !HostView W} `{HL : !HostLaws W}.
Notation Kdata := (Kdata W).
Notation state := (Kdata * Machine)%type.
Implicit Types (k : Kdata) (m : Machine).

Definition call_args (op : fop) : Prop :=
  match op with
  | FRead id buf n | FWrite id buf n =>
      0 <= id /\ (0 <= n <= Z.of_nat (length buf) /\ n < 2 ^ 31 \/ n = -1 /\ buf = [])
  | FSeek id pos => 0 <= id /\ is_s32 pos
  | _ => True
  end.

(** An id that is not open is not found: the code goes on with NULL. *)
Lemma GetFileDescriptor_unopened t (w : W) a id : rep t w a -> id <> -1 -> a !! id = None ->
  IsOpening t id = Ok (-1) /\ (let! p := GetFileDescriptor t id in deref p) = Trap Undefined.
Proof.
  intros Hrep Hid Ha. pose proof (IsOpening_rep t w a id Hrep) as H. rewrite Ha in H.
  destruct H as [E|[? _]]; [|done]. split; [done |]. unfold GetFileDescriptor. by rewrite E.
Qed.

Lemma GetFileDescriptor_open t (w : W) a id x : rep t w a -> a !! id = Some x ->
  exists i d, IsOpening t id = Ok i /\ GetFileDescriptor t id = Ok (Some i) /\ slot t i d /\
    slot_ok w d /\ slot_abs w d = Some (id, x).
Proof.
  intros Hrep Ha. pose proof (IsOpening_rep t w a id Hrep) as H. rewrite Ha in H.
  destruct H as (i & d & E & Hi & Hs & _ & Hok & _ & Hab). exists i, d. split_and!; [done | | done..].
  unfold GetFileDescriptor. rewrite E. cbn [obind]. by rewrite (proj2 (Z.eqb_neq _ _)).
Qed.

(** A size of -1 on the buffer of no bytes [User2System] gives for it. *)
Definition no_room (op : fop) : Prop :=
  match op with FRead _ buf n | FWrite _ buf n => n = -1 /\ buf = [] | _ => False end.

#[export] Instance no_room_dec op : Decision (no_room op).
Proof. destruct op; cbn; apply _. Defined.

Lemma no_room_rep op t (w : W) a r out t' w' :
  rep t w a -> call_args op -> no_room op -> run_op op t w = Ok (r, out, t', w') -> exists a', rep t' w' a'.
Proof.
  intros Hrep Hargs Hno E.
  destruct op as [| |id buf n|id buf n| | |]; try done; destruct Hno as [-> ->], Hargs as [Hid _];
    (destruct (a !! id) as [x|] eqn:Ea; [|
      exfalso; destruct (GetFileDescriptor_unopened t w a id Hrep ltac:(lia) Ea) as [Ei _];
      cbn [run_op] in E; unfold GetFileDescriptor in E; rewrite Ei in E; discriminate E]).
  - by apply (Read_empty t w a id (-1) r out t' w').
  - destruct (Write_empty t w a id (-1) r out t' w') as (_ & -> & ->); [lia | done.. |]. by exists a.
Qed.

(** Whatever the id, an operation that returns keeps the table. *)
Lemma run_op_rep op t (w : W) a r out t' w' :
  rep t w a -> call_args op -> run_op op t w = Ok (r, out, t', w') -> exists a', rep t' w' a'.
Proof.
  intros Hrep Hargs E. destruct (decide (no_room op)) as [Hno|Hroom]; [by eapply no_room_rep |].
  assert (op_ok op (abs_state a w) -> exists a', rep t' w' a') as Hgood.
  { intros Hok. pose proof (run_op_refines op t w a Hrep Hok) as H. unfold refines in H. rewrite E in H.
    destruct H as (a' & _ & H). by exists a'. }
  destruct op as [n ty|id|id buf n|id buf n|id pos| |id]; try (by apply Hgood); cbn [call_args no_room] in Hargs, Hroom;
    (destruct (a !! id) as [[ino md o|]|] eqn:Ea;
     [apply Hgood; cbn [op_ok abs_state f_open]; repeat (split; [tauto |]); by eauto | |
      exfalso; destruct (GetFileDescriptor_unopened t w a id Hrep ltac:(lia) Ea) as [Ei _];
      cbn [run_op] in E; unfold GetFileDescriptor in E; rewrite Ei in E; discriminate E]);
    destruct (GetFileDescriptor_open t w a id _ Hrep Ea) as (i & d & _ & Eg & Hs & Hok & Hab);
    destruct (socket_slot w d id Hok Hab) as [Hf Hmd]; cbn [run_op] in E; rewrite Eg in E; cbn [obind deref] in E;
    destruct (arr_slot t w a i d Hrep Hs) as [Hget Hset]; unfold on_slot in E; rewrite Hget in E.
  - unfold Read, the_file in E. cbn [obind] in E. by rewrite Hf in E.
  - unfold Write in E. cbn [obind] in E. rewrite Hmd in E. cbn in E.
    rewrite Hset in E. injection E as _ _ <- <-.
    destruct Hs as [_ Hs]. rewrite list_insert_id by done. by exists a.
  - unfold Seek, the_file in E. cbn [obind] in E. by rewrite Hf in E.
Qed.

(** The host is called, the open files stay. *)
Definition same_opens (w w' : W) : Prop := opens w' = opens w /\ fds w' = fds w.

Lemma same_files_opens w w' : same_files w w' -> same_opens w w'.
Proof. by intros (_ & _ & ? & ?). Qed.

Lemma same_opens_trans w1 w2 w3 : same_opens w1 w2 -> same_opens w2 w3 -> same_opens w1 w3.
Proof. intros [] []. split; congruence. Qed.

Lemma FileSystem_Create_opens n (w : W) b w' : FileSystem_Create n w = Ok (b, w') -> same_opens w w'.
Proof.
  unfold FileSystem_Create, OpenForWrite. destruct (open n O_RDWR_CREAT_TRUNC w) as [r w1] eqn:Eo.
  destruct (Z.leb_spec 0 r) as [Hr|]; [|done]. cbn [obind assert_]. rewrite (proj2 (Z.eqb_neq r (-1))) by lia.
  apply open_creat in Eo as [[? _]|(_ & Hfd & ino & _ & _ & _ & _ & Ho & Hf)]; [lia |].
  unfold Close. destruct (close r w1) as [c w2] eqn:Ec.
  apply close_ok in Ec as (_ & _ & _ & Ho' & Hf'); [|set_solver].
  destruct (0 <=? c); [|done]. cbn [obind assert_]. intros [= <- <-]. split.
  - rewrite Ho', Ho. apply delete_insert_id. destruct (opens w !! r) eqn:E; [|done]. by apply opens_fds in E.
  - rewrite Hf', Hf. set_solver.
Qed.

Lemma FileSystem_Remove_opens n (w : W) b w' : FileSystem_Remove n w = (b, w') -> same_opens w w'.
Proof.
  unfold FileSystem_Remove, Unlink. destruct (unlink n w) as [r w1] eqn:E. intros [= _ <-].
  apply unlink_ok in E as [[_ H]|(_ & _ & _ & ? & ? & _)]; [by apply same_files_opens | done].
Qed.

Lemma Table_Connect_opens t sid h p (w : W) r w' : Table_Connect t sid h p w = Ok (r, w') -> same_opens w w'.
Proof.
  unfold Table_Connect. destruct (IsOpening t sid) as [i|]; [|done]. cbn [obind].
  destruct (negb _); [|by intros [= <- <-]]. unfold Connect. destruct (connect _ _ _ w) as [c w1] eqn:E.
  intros [= <- <-]. by apply connect_ok in E as ?%same_files_opens.
Qed.

Lemma Table_Send_opens t sid b n (w : W) r w' : Table_Send t sid b n w = Ok (r, w') -> same_opens w w'.
Proof.
  unfold Table_Send. destruct (IsOpening t sid) as [i|]; [|done]. cbn [obind].
  destruct (negb _); [|by intros [= <- <-]]. unfold Send. destruct (_ <=? _); [|done].
  destruct (send _ _ _) as [c w1] eqn:E. apply send_ok in E as E%same_files_opens.
  pose proof (same_files_opens _ _ (set_timeout_ok sid true 10 w)) as E'.
  pose proof (same_opens_trans _ _ _ E' E) as Hs.
  destruct (c <? 0); [by intros [= <- <-] |]. destruct (strcmp_eq b exit_str); [|done]. by intros [= <- <-].
Qed.

Lemma Table_Receive_opens t sid b n (w : W) r b' w' : Table_Receive t sid b n w = Ok (r, b', w') -> same_opens w w'.
Proof.
  unfold Table_Receive. destruct (IsOpening t sid) as [i|]; [|done]. cbn [obind].
  destruct (negb _); [|by intros [= <- <- <-]]. unfold Receive.
  destruct (recv _ _ _) as [[c d] w1] eqn:E. apply recv_ok in E as E%same_files_opens.
  pose proof (same_files_opens _ _ (set_timeout_ok sid false 10 w)) as E'.
  pose proof (same_opens_trans _ _ _ E' E) as Hs. destruct (buf_fill b d) as [b1|]; [|done]. cbn [obind].
  destruct (c <? 0); [by intros [= <- <- <-] |]. destruct (strcmp_eq b1 exit_str); [|done]. by intros [= <- <- <-].
Qed.

(** ** The calls *)

(** The calls of ksyscall.h on files and sockets, for a file id or not;
    the console and the blocking calls are in Process.v. *)
Inductive fcall :=
| KCreate (virtAddr : Z)
| KOpen (virtAddr type : Z)
| KClose (id : Z)
| KSeek (pos id : Z)
| KRemove (virtAddr : Z)
| KRead (virtAddr size id : Z)
| KWrite (virtAddr size id : Z)
| KSocketTCP
| KConnect (socketid ipvirtual port : Z)
| KSend (socketid virtbuffer length : Z)
| KReceive (socketid virtbuffer length : Z)
| KCloseSocket (socketid : Z).

Definition run_call (c : fcall) (s : state) : outcome (Z * state) :=
  match c with
  | KCreate va => SysCreate va s
  | KOpen va ty => SysOpen va ty s
  | KClose id => SysClose id s
  | KSeek pos id => SysSeek pos id s
  | KRemove va => SysRemove va s
  | KRead va size id =>
      let! ok := valid_id id consoleOutputID s.1 in
      if negb ok then Ok (-1, s) else SysRead_file va size id s
  | KWrite va size id =>
      let! ok := valid_id id consoleInputID s.1 in
      if negb ok then Ok (-1, s) else SysWrite_file va size id s
  | KSocketTCP => SysSocketTCP s
  | KConnect sid va port => SysConnect sid va port s
  | KSend sid va len => SysSend sid va len s
  | KReceive sid va len => SysReceive sid va len s
  | KCloseSocket sid => SysCloseSocket sid s
  end.

(** The arguments are registers of the program. *)
Definition call_ok (c : fcall) : Prop :=
  match c with
  | KCreate va | KOpen va _ | KRemove va | KConnect _ va _ | KSend _ va _ | KReceive _ va _ => is_s32 va
  | KSeek pos _ => is_s32 pos
  | KRead va size _ | KWrite va size _ => is_s32 va /\ is_s32 size
  | KClose _ | KSocketTCP | KCloseSocket _ => True
  end.

(** The user memory a call may write: from, and how much. *)
Definition written (c : fcall) : Z * Z :=
  match c with
  | KRead va size _ | KWrite va size _ => (va, size)
  | KReceive _ va len => (va, len)
  | _ => (0, 0)
  end.

(** The running program has the frames [F], the table the files [a]. *)
Definition state_ok (F : list Z) (a : gmap Z ainfo) (s : state) : Prop :=
  user_mem s.2 F /\ rep (table s.1) (host s.1) a.

(** The memory side, and the kernel side, of a call. *)
Definition mem_kept (lo n : Z) (F : list Z) (m m' : Machine) : Prop :=
  user_mem m' F /\ same_cpu m m' /\ only_between lo (lo + n) F m m'.
Definition kernel_kept (k k' : Kdata) : Prop :=
  exists t w a, k' = set_host w t k /\ rep t w a.

Lemma kernel_kept_opens k a w : rep (table k) (host k) a -> same_opens (host k) w ->
  kernel_kept k (set_host w (table k) k).
Proof. intros Hrep [Ho Hf]. exists (table k), w, a. split; [done |]. by apply (rep_same _ (host k)). Qed.

Lemma kernel_kept_refl k a : rep (table k) (host k) a -> kernel_kept k k.
Proof. intros Hrep. exists (table k), (host k), a. by destruct k. Qed.

Lemma kernel_kept_op op k a r out t w :
  rep (table k) (host k) a -> call_args op -> run_op op (table k) (host k) = Ok (r, out, t, w) ->
  kernel_kept k (set_host w t k).
Proof. intros Hrep Hargs E. destruct (run_op_rep _ _ _ _ _ _ _ _ Hrep Hargs E) as [a' ?]. by exists t, w, a'. Qed.

Lemma mem_kept_refl lo n F m : user_mem m F -> mem_kept lo n F m m.
Proof. done. Qed.

(** [SysRead] and [SysWrite] of files and [SysSeek] are operations of the
    table. *)
Lemma read_file_run id buf n k :
  read_file id buf n k =
  let! ' (r, out, t, w) := run_op (FRead id buf n) (table k) (host k) in Ok (r, out, set_host w t k).
Proof.
  unfold read_file, run_op. destruct (GetFileDescriptor _ id) as [p|]; [|done]. cbn [obind].
  destruct (deref p) as [i|]; [|done]. cbn [obind]. destruct (arr_get _ i) as [d|]; [|done]. cbn [obind].
  destruct (FileTable.Read d buf n (host k)) as [[[[r out] d'] w']|]; [|done]. cbn [obind]. by destruct (arr_set _ i d').
Qed.

Lemma write_file_run id buf n k :
  write_file id buf n k =
  let! ' (r, _, t, w) := run_op (FWrite id buf n) (table k) (host k) in Ok (r, set_host w t k).
Proof.
  unfold write_file, run_op. destruct (GetFileDescriptor _ id) as [p|]; [|done]. cbn [obind].
  destruct (deref p) as [i|]; [|done]. cbn [obind]. by destruct (on_slot _ i _) as [[[r t'] w']|].
Qed.

(** The first step of every call with a buffer. *)
Lemma User2System_bind {A} va limit (f : list Z * state -> outcome A) k m F x :
  user_mem m F -> is_s32 va -> obind (User2System va limit (k, m)) f = Ok x ->
  exists l m1, f (l, (k, m1)) = Ok x /\ user_mem m1 F /\ same_cpu m m1 /\ mainMemory m1 = mainMemory m /\
    Z.of_nat (length l) = limit + 1.
Proof.
  intros Hm Hva. destruct (User2System va limit (k, m)) as [[l [k1 m1]]|] eqn:E; [|done]. cbn [obind]. intros Hx.
  destruct (User2System_keeps _ _ _ _ _ _ _ _ Hm Hva E) as (-> & ? & ? & ? & ?). by exists l, m1.
Qed.

Lemma mem_kept_in lo n F m m1 : user_mem m1 F -> same_cpu m m1 -> mainMemory m1 = mainMemory m ->
  mem_kept lo n F m m1.
Proof. intros. split; [done |]. split; [done |]. by apply only_between_same. Qed.

(** The last step of a call that fills a buffer. *)
Lemma System2User_bind va len buf (r : Z) k m m1 F (x : Z * state) :
  user_mem m1 F -> same_cpu m m1 -> mainMemory m1 = mainMemory m -> is_s32 va ->
  (let! ' (_, s) := System2User va len buf (k, m1) in Ok (r, s)) = Ok x ->
  exists m', x = (r, (k, m')) /\ mem_kept va len F m m'.
Proof.
  intros Hm Hc Hmem Hva. destruct (System2User va len buf (k, m1)) as [[i [k2 m2]]|] eqn:E; [|done].
  destruct (System2User_keeps _ _ _ _ _ _ _ _ _ Hm Hva E) as (-> & Hm2 & Hc2 & Ho). cbn [obind]. intros [= <-].
  exists m2. split; [done |]. split; [done |]. split; [by eapply same_cpu_trans |]. by eapply only_between_l.
Qed.

Definition call_kept (c : fcall) (F : list Z) (s s' : state) : Prop :=
  mem_kept (written c).1 (written c).2 F s.2 s'.2 /\ kernel_kept s.1 s'.1.

Ltac copied_in E :=
  eapply User2System_bind in E as (l & m1 & E & Hm1 & Hc & Hmem & Hl); [|done..]; cbn beta iota in E.

(** Calls without user memory. *)
Lemma table_call op k m F a r k' m' :
  user_mem m F -> rep (table k) (host k) a -> call_args op ->
  (let! ' (r, _, t, w) := run_op op (table k) (host k) in Ok (r, (set_host w t k, m))) = Ok (r, (k', m')) ->
  mem_kept 0 0 F m m' /\ kernel_kept k k'.
Proof.
  intros Hm Hrep Hargs E. destruct (run_op op _ _) as [[[[r1 out] t] w]|] eqn:Eop; [|done].
  injection E as _ <- <-. split; [by apply mem_kept_refl | by eapply kernel_kept_op].
Qed.

Lemma name_calls c k m F a r k' m' :
  user_mem m F -> rep (table k) (host k) a -> call_ok c ->
  run_call c (k, m) = Ok (r, (k', m')) ->
  match c with KCreate _ | KOpen _ _ | KRemove _ => True | _ => False end ->
mem_kept 0 0 F m m' /\ kernel_kept k k'.
Proof.
  intros Hm Hrep Hok E Hc0. destruct c as [va|va ty| | |va| | | | | | |]; try done; cbn [run_call call_ok] in *.
  - unfold SysCreate in E. copied_in E. destruct (no_name l).
    { injection E as _ <- <-. split; [by apply mem_kept_in | by eapply kernel_kept_refl]. }
    destruct (FileSystem_Create _ _) as [[ok w]|] eqn:Ef; [|done]. injection E as _ <- <-.
    split; [by apply mem_kept_in | by eapply kernel_kept_opens, FileSystem_Create_opens].
  - unfold SysOpen in E. destruct (_ && _); [injection E as _ <- <-; split; [done | by eapply kernel_kept_refl] |].
    copied_in E. destruct (no_name l).
    { injection E as _ <- <-. split; [by apply mem_kept_in | by eapply kernel_kept_refl]. }
    destruct (Table_Open _ _ _ _) as [[[id t] w]|] eqn:Ef; [|done]. injection E as _ <- <-.
    split; [by apply mem_kept_in |].
    apply (kernel_kept_op (FOpen (c_str l) ty) k a id [] t w); [done..|]. cbn [run_op]. by rewrite Ef.
  - unfold SysRemove in E. copied_in E. destruct (IsOpeningWithName _ _) as [o|]; [|done]. cbn [obind] in E.
    destruct (negb _); [injection E as _ <- <-; split; [by apply mem_kept_in | by eapply kernel_kept_refl] |].
    destruct (FileSystem_Remove _ _) as [ok w] eqn:Ef. injection E as _ <- <-.
    split; [by apply mem_kept_in | by eapply kernel_kept_opens, FileSystem_Remove_opens].
Qed.

Lemma id_calls c k m F a r k' m' :
  user_mem m F -> rep (table k) (host k) a -> call_ok c ->
  run_call c (k, m) = Ok (r, (k', m')) ->
  match c with KClose _ | KSeek _ _ | KSocketTCP | KCloseSocket _ => True | _ => False end ->
mem_kept 0 0 F m m' /\ kernel_kept k k'.
Proof.
  intros Hm Hrep Hok E Hc0. destruct c as [| |id|pos id| | | | | | | |id]; try done; cbn [run_call call_ok] in *.
  - unfold SysClose in E. destruct (Table_Close _ _ _) as [[[x t] w]|] eqn:Ef; [|done]. injection E as _ <- <-.
    split; [done |]. apply (kernel_kept_op (FClose id) k a x [] t w); [done..|]. cbn [run_op]. by rewrite Ef.
  - unfold SysSeek in E. destruct (Z.ltb_spec id 0); [injection E as _ <- <-; split; [done | by eapply kernel_kept_refl] |].
    destruct (_ =? _); [injection E as _ <- <-; split; [done | by eapply kernel_kept_refl] |].
    destruct (_ =? _); [injection E as _ <- <-; split; [done | by eapply kernel_kept_refl] |].
    destruct (IsOpening _ id) as [o|]; [|done]. cbn [obind] in E.
    destruct (negb _); [injection E as _ <- <-; split; [done | by eapply kernel_kept_refl] |].
    apply (table_call (FSeek id pos) k m F a r); [done.. | |].
    { cbn [call_args]. split; [lia | done]. }
    rewrite <- E. cbn [run_op]. destruct (GetFileDescriptor _ id) as [p|]; [|done]. cbn [obind].
    destruct (deref p) as [i|]; [|done]. cbn [obind]. by destruct (on_slot _ i _) as [[[x t] w]|].
  - unfold SysSocketTCP in E. destruct (Table_SocketTCP _ _) as [[[x t] w]|] eqn:Ef; [|done]. injection E as _ <- <-.
    split; [done |]. apply (kernel_kept_op FSocket k a x [] t w); [done..|]. cbn [run_op]. by rewrite Ef.
  - unfold SysCloseSocket in E. destruct (Table_Close_Socket _ _ _) as [[[x t] w]|] eqn:Ef; [|done]. injection E as _ <- <-.
    split; [done |]. apply (kernel_kept_op (FCloseSocket id) k a x [] t w); [done..|]. cbn [run_op]. by rewrite Ef.
Qed.

Lemma net_calls c k m F a r k' m' :
  user_mem m F -> rep (table k) (host k) a -> call_ok c ->
  run_call c (k, m) = Ok (r, (k', m')) ->
  match c with KConnect _ _ _ | KSend _ _ _ | KReceive _ _ _ => True | _ => False end ->
mem_kept (written c).1 (written c).2 F m m' /\ kernel_kept k k'.
Proof.
  intros Hm Hrep Hok E Hc0. destruct c as [| | | | | | | |id va port|id va n|id va n|]; try done; cbn [run_call call_ok written fst snd] in *.
  - unfold SysConnect in E. copied_in E. destruct (no_name l).
    { injection E as _ <- <-. split; [by apply mem_kept_in | by eapply kernel_kept_refl]. }
    destruct (Table_Connect _ _ _ _ _) as [[x w]|] eqn:Ef; [|done]. injection E as _ <- <-.
    split; [by apply mem_kept_in | by eapply kernel_kept_opens, Table_Connect_opens].
  - unfold SysSend in E. copied_in E. destruct (Table_Send _ _ _ _ _) as [[x w]|] eqn:Ef; [|done]. injection E as _ <- <-.
    split; [by apply mem_kept_in | by eapply kernel_kept_opens, Table_Send_opens].
  - unfold SysReceive in E. copied_in E. destruct (Table_Receive _ _ _ _ _) as [[[x buf] w]|] eqn:Ef; [|done].
    eapply System2User_bind in E as (m2 & [= -> -> ->] & Hk); [|done..].
    split; [done | by eapply kernel_kept_opens, Table_Receive_opens].
Qed.

(** The buffer of [User2System] has room for the size, unless that is -1. *)
Lemma buffer_args id (l : list Z) n : 0 <= id -> is_s32 n -> Z.of_nat (length l) = n + 1 ->
  0 <= id /\ (0 <= n <= Z.of_nat (length l) /\ n < 2 ^ 31 \/ n = -1 /\ l = []).
Proof.
  intros Hid Hn Hl. split; [done |]. unfold is_s32 in Hn.
  destruct (decide (n = -1)) as [->|]; [right | left; lia]. split; [done |]. destruct l; [done |]. cbn in Hl. lia.
Qed.

Lemma file_calls c k m F a r k' m' :
  user_mem m F -> rep (table k) (host k) a -> call_ok c ->
  run_call c (k, m) = Ok (r, (k', m')) ->
  match c with KRead _ _ _ | KWrite _ _ _ => True | _ => False end ->
mem_kept (written c).1 (written c).2 F m m' /\ kernel_kept k k'.
Proof.
  intros Hm Hrep Hok E Hc0. destruct c as [| | | | |va n id|va n id| | | | |]; try done;
    cbn [run_call call_ok written fst snd] in *; destruct Hok as [Hva Hn];
    unfold valid_id in E; (destruct (Z.ltb_spec id 0); [injection E as _ <- <-; split; [done | by eapply kernel_kept_refl] |]);
    (destruct (_ =? _); [injection E as _ <- <-; split; [done | by eapply kernel_kept_refl] |]);
    (destruct (IsOpening _ id) as [o|]; [|done]); cbn [obind] in E;
    (destruct (negb _); [injection E as _ <- <-; split; [done | by eapply kernel_kept_refl] |]).
  - unfold SysRead_file in E. copied_in E. rewrite read_file_run in E.
    destruct (run_op _ _ _) as [[[[x out] t] w]|] eqn:Ef; [|done].
    eapply System2User_bind in E as (m2 & [= -> -> ->] & Hk); [|done..].
    split; [done |]. eapply kernel_kept_op; [done | | exact Ef]. by apply buffer_args.
  - unfold SysWrite_file in E. copied_in E. rewrite write_file_run in E.
    destruct (run_op _ _ _) as [[[[x out] t] w]|] eqn:Ef; [|done].
    eapply System2User_bind in E as (m2 & [= -> -> ->] & Hk); [|done..].
    split; [done |]. eapply kernel_kept_op; [done | | exact Ef]. by apply buffer_args.
Qed.

(** A file read of size -1 (a buffer of no bytes, [read] asked for
    [SIZE_MAX]) that returns has read nothing: one that delivers a byte
    writes past the buffer, which is undefined. *)
Lemma read_size_minus_one k a id r out k' :
  rep (table k) (host k) a -> is_Some (a !! id) -> read_file id [] (-1) k = Ok (r, out, k') -> r <= 0.
Proof.
  intros Hrep Ha. rewrite read_file_run.
  destruct (run_op _ _ _) as [[[[x b] t] w]|] eqn:E; [|done]. cbn [obind]. intros [= <- _ _].
  by eapply Read_empty in E as [? _].
Qed.

Lemma SysRead_minus_one k m F a va id r s' :
  user_mem m F -> rep (table k) (host k) a -> is_s32 va ->
  run_call (KRead va (-1) id) (k, m) = Ok (r, s') -> r <= 0.
Proof.
  intros Hm Hrep Hva E. cbn [run_call fst] in E. unfold valid_id in E.
  destruct (Z.ltb_spec id 0); [by injection E as <- _ |]. destruct (_ =? _); [by injection E as <- _ |].
  destruct (IsOpening _ id) as [o|] eqn:Ei; [|done]. cbn [obind] in E.
  destruct (negb _); [by injection E as <- _ |]. unfold SysRead_file in E. copied_in E.
  destruct l; [|cbn in Hl; lia]. destruct (read_file id [] (-1) k) as [[[x b] k1]|] eqn:Er; [|done]. cbn [obind] in E.
  injection E as <- _. destruct (a !! id) as [y|] eqn:Ea; [by apply (read_size_minus_one k a id x b k1) |].
  destruct (GetFileDescriptor_unopened _ _ _ id Hrep ltac:(lia) Ea) as [Ei' _].
  unfold read_file, GetFileDescriptor in Er. by rewrite Ei' in Er.
Qed.

(** ** Properties *)

(** C34.  Type soundness of the system calls on files and sockets: with
    any arguments registers can hold, sizes that are negative or too large
    among them, a call that returns leaves the running program its
    registers, page table and frames, the table of open files in a
    consistent state with the host, and everything else of the kernel as
    it was; of user memory it writes at most the buffer it was given, and
    never a byte of another program.  A read of size -1, which passes every
    test of the code, returns only when no byte was delivered (any byte
    would be written past its buffer). *)
Theorem system_calls_keep_invariants c k m F a r k' m' :
  user_mem m F -> rep (table k) (host k) a -> call_ok c ->
  run_call c (k, m) = Ok (r, (k', m')) ->
  user_mem m' F /\ same_cpu m m' /\
  (forall u, 0 <= u -> ~ (written c).1 <= u < (written c).1 + (written c).2 ->
     vbyte F (mainMemory m') u = vbyte F (mainMemory m) u) /\
  (forall j : nat, frame_of j ∉ F -> mainMemory m' !! j = mainMemory m !! j) /\
  (exists t w a', k' = set_host w t k /\ rep t w a') /\
  (forall va id, c = KRead va (-1) id -> r <= 0).
Proof.
  intros Hm Hrep Hok E.
  assert (forall va id, c = KRead va (-1) id -> r <= 0) as Hread.
  { intros va id ->. eapply (SysRead_minus_one k m F a); [done | done | apply Hok | exact E]. }
  assert (mem_kept (written c).1 (written c).2 F m m' /\ kernel_kept k k') as [(? & ? & ? & ?) ?]; [|by split_and!].
  destruct c; first [exact (name_calls _ _ _ _ _ _ _ _ Hm Hrep Hok E I) | exact (id_calls _ _ _ _ _ _ _ _ Hm Hrep Hok E I)
    | exact (net_calls _ _ _ _ _ _ _ _ Hm Hrep Hok E I) | exact (file_calls _ _ _ _ _ _ _ _ Hm Hrep Hok E I)].
Qed.

(** C35.  An id that is not open: the guard of [SysRead], [SysWrite] and
    [SysSeek] lets it through ([IsOpening] returns -1, which is true), and
    the call dereferences NULL; [SysClose] and [SysCloseSocket] refuse it,
    with nothing changed. *)
Theorem unopened_ids k m F a id pos n buf va :
  user_mem m F -> rep (table k) (host k) a -> is_s32 va -> 2 <= id -> a !! id = None ->
  valid_id id consoleOutputID k = Ok true /\ valid_id id consoleInputID k = Ok true /\
  read_file id buf n k = Trap Undefined /\ write_file id buf n k = Trap Undefined /\
  SysSeek pos id (k, m) = Trap Undefined /\
  (forall x, run_call (KRead va n id) (k, m) <> Ok x) /\ (forall x, run_call (KWrite va n id) (k, m) <> Ok x) /\
  SysClose id (k, m) = Ok (-1, (k, m)) /\ SysCloseSocket id (k, m) = Ok (-1, (k, m)).
Proof.
  intros Hm Hrep Hva Hid Ha. destruct (GetFileDescriptor_unopened _ _ _ id Hrep ltac:(lia) Ha) as [Ei Eg].
  assert (forall o, 0 <= o < 2 -> valid_id id o k = Ok true) as Hv.
  { intros o Hlt. unfold valid_id. by rewrite (proj2 (Z.ltb_ge _ _)), (proj2 (Z.eqb_neq _ _)), Ei by lia. }
  assert (GetFileDescriptor (table k) id = Ok None) as Eg' by (unfold GetFileDescriptor; by rewrite Ei).
  assert (forall b, read_file id b n k = Trap Undefined) as Hr by (intros b; unfold read_file; by rewrite Eg').
  assert (forall b, write_file id b n k = Trap Undefined) as Hw by (intros b; unfold write_file; by rewrite Eg').
  split; [by apply Hv |]. split; [by apply Hv |]. split; [done |]. split; [done |].
  split; [|split; [|split; [|split]]].
  - unfold SysSeek, consoleOutputID, consoleInputID. rewrite (proj2 (Z.ltb_ge _ _)), !(proj2 (Z.eqb_neq _ _)) by lia.
    by rewrite Ei, Eg'.
  - intros x E. cbn [run_call fst] in E. rewrite Hv in E by done. cbn [obind negb] in E.
    unfold SysRead_file in E. copied_in E. by rewrite Hr in E.
  - intros x E. cbn [run_call fst] in E. rewrite Hv in E by done. cbn [obind negb] in E.
    unfold SysWrite_file in E. copied_in E. by rewrite Hw in E.
  - unfold SysClose, Table_Close. rewrite Ei. by destruct k.
  - unfold SysCloseSocket, Table_Close_Socket. rewrite Ei. by destruct k.
Qed.

End Files.
End SyscallsProofs.
Import Machine FileTable Syscalls SyscallsProofs SyscallsWitness.

(** ** Witnesses *)

Lemma system_calls_keep_invariants_witness : exists r k' m',
  run_call (KOpen 10 1) (kernel0, MachineWitness.one_page) = Ok (r, (k', m')) /\ user_mem m' [3].
Proof.
  destruct (run_call (KOpen 10 1) (kernel0, MachineWitness.one_page)) as [[r [k' m']]|] eqn:E.
  - exists r, k', m'. split; [reflexivity |].
    destruct (system_calls_keep_invariants (KOpen 10 1) kernel0 MachineWitness.one_page [3] ∅ r k' m'
      one_page_user (rep_new_Table _) ltac:(done) E) as (Hm & _). exact Hm.
  - exfalso. assert (match run_call (KOpen 10 1) (kernel0, MachineWitness.one_page) with Ok _ => true | Trap _ => false end = true) as H
      by (vm_compute; reflexivity). rewrite E in H. discriminate H.
Defined.

Lemma unopened_ids_witness :
  SysSeek 0 5 (kernel0, MachineWitness.one_page) = Trap Undefined /\
  SysClose 5 (kernel0, MachineWitness.one_page) = Ok (-1, (kernel0, MachineWitness.one_page)).
Proof.
  destruct (unopened_ids kernel0 MachineWitness.one_page [3] ∅ 5 0 0 [] 0 one_page_user (rep_new_Table _)
    ltac:(done) ltac:(done) ltac:(done)) as (_ & _ & _ & _ & Hs & _ & _ & Hc & _).
  split; [exact Hs | exact Hc].
Defined.
