(* ===== verification/Process.v ===== *)
(** * Processes and blocking system calls, up to the booted machine

    Programs over the thread model of Threads.v whose data is [Kdata]: the
    synchronous console (synchconsole.cc, console.cc), [AddrSpace::Load]
    and [Execute], [PCB] and [PTable] (pcb.cc, ptable.cc), [STable]
    (stable.cc), the system calls that may block (ksyscall.h), the system
    call switch of [ExceptionHandler] (exception.cc), [Machine::Run] as the
    loop at label 0, and [main] with [-x]. *)

From S2P Require Import Prelude Bitmap Machine Mips FileTable AddrSpace Threads ThreadsProofs Synch ProcTable Syscalls.

Module Process.
Import Machine Stub AddrSpace Threads Synch ProcTable Syscalls.

Section Process.
Context {W : Type} `{HH : Host W}.
Notation E := (Kdata W).
Notation P := (@prog E).
Notation call := (@call E).

(** Code that also reads who runs it. *)
Definition go_as (f : tid -> list Z -> E -> outcome (E * call)) : P :=
  Code (fun cur nm m e => let! ' (e', c) := f cur nm e in Ok (m, e', c)).

(** Code of a system call on kernel data and machine, with its result. *)
Definition on_state (f : E * Machine -> outcome (Z * (E * Machine))) (k : Z -> P) : P :=
  Code (fun _ _ m e => let! ' (r, (e', m')) := f (e, m) in Ok (m', e', CGo (k r))).

(** [kernel->pTab] and [kernel->semTab] in place. *)
Definition on_pTab (f : PTable -> outcome PTable) (e : E) : outcome E :=
  let! t := f (pTab e) in Ok (set_pTab t e).

(** ** Console *)

Definition upd_console (f : Console -> Console) (e : E) : E := set_console (f (console e)) e.
Definition set_incoming (c : Z) (x : Console) : Console :=
  mkConsole (in_lock x) (in_waitFor x) c (readFileNo x) (out_lock x) (out_waitFor x) (putBusy x) (writeFileNo x).
Definition set_putBusy (b : bool) (x : Console) : Console :=
  mkConsole (in_lock x) (in_waitFor x) (incoming x) (readFileNo x) (out_lock x) (out_waitFor x) b (writeFileNo x).

(** What the devices do to the data: the handlers, when there is something
    to read and when a character is out, before their [waitFor->V()]; and
    the calls, but for the scheduling of the next interrupt, which is an
    event here and simulated time in Interrupt.v. *)
Definition ConsoleInput_CallBack (e : E) : outcome E :=
  let c := console e in
  assert! (incoming c =? EOF);
  let! ' (readCount, buf, w) := ReadPartial (readFileNo c) [0] 1 (host e) in
  let e := set_host w (table e) e in
  if readCount =? 0 then Ok e
  else
    assert! (readCount =? 1);
    let! ch := arr_get buf 0 in
    Ok (upd_console (set_incoming ch) e).

Definition ConsoleOutput_CallBack (e : E) : outcome E := Ok (upd_console (set_putBusy false) e).

Definition ConsoleInput_GetChar (e : E) : Z * E :=
  (incoming (console e), upd_console (set_incoming EOF) e).

Definition ConsoleOutput_PutChar (ch : Z) (e : E) : outcome E :=
  assert! negb (putBusy (console e));
  let! w := WriteFile (writeFileNo (console e)) [ch] 1 (host e) in
  Ok (upd_console (set_putBusy true) (set_host w (table e) e)).

Definition GetChar (k : Z -> P) : P :=
  go (fun e => Ok (e, CAcquire (in_lock (console e)) (go (fun e => Ok (e, CP (in_waitFor (console e))
    (go (fun e =>
      let '(ch, e) := ConsoleInput_GetChar e in
      Ok (e, CRelease (in_lock (console e)) (k ch))))))))).

Definition PutChar (ch : Z) (k : P) : P :=
  go (fun e => Ok (e, CAcquire (out_lock (console e)) (go (fun e =>
    let! e := ConsoleOutput_PutChar ch e in
    Ok (e, CP (out_waitFor (console e)) (go (fun e => Ok (e, CRelease (out_lock (console e)) k)))))))).

(** ** AddrSpace::Load and Execute *)

(** What [noffH] holds before it is read. *)
Context (garbage : list Z).

(** [Load]: the space, or FALSE. *)
Definition Load (fileName : list Z) (k : option AddrSpace -> P) : P :=
  go (fun e =>
    let! ' (r, w) := Load_header fileName garbage (host e) in
    let e := set_host w (table e) e in
    match r with
    | None => Ok (e, CGo (k None))
    | Some (executable, noffH, n) =>
        Ok (e, CP (addrLock e) (Code (fun _ _ m e =>
          let! ' (s, b, m, w) := Load_memory (gPhysPageBitMap e) m executable noffH n (host e) in
          let e := set_frames b (set_host w (table e) e) in
          Ok (m, e, CV (addrLock e) (go (fun e =>
            let! w := delete_OpenFile executable (host e) in
            Ok (set_host w (table e) e, CGo (k s))))))))
    end).

Definition user_label : nat := 0.

(** [Execute], up to the first instruction. *)
Definition Execute (s : AddrSpace) : P :=
  do_ (CSetSpace s (Code (fun _ _ m e =>
    let! m := InitRegisters s m in
    Ok (RestoreState s m, set_status UserMode e, CJump user_label)))).

(** ** PCB *)

Definition IncNumWait (i : Z) (k : P) : P :=
  go (fun e => let! p := the_pcb (pTab e) i in
    Ok (e, CP (mutex p) (go (fun e =>
      let! e := on_pTab (upd_pcb i (fun p => set_numwait (s32 (numwait p + 1)) p)) e in
      Ok (e, CV (mutex p) k))))).
Definition DecNumWait (i : Z) (k : P) : P :=
  go (fun e => let! p := the_pcb (pTab e) i in
    Ok (e, CP (mutex p) (go (fun e =>
      let! e := on_pTab (upd_pcb i (fun p => set_numwait (s32 (numwait p - 1)) p)) e in
      Ok (e, CV (mutex p) k))))).

Definition on_pcb (i : Z) (f : PCB -> call) : P :=
  go (fun e => let! p := the_pcb (pTab e) i in Ok (e, f p)).
Definition JoinWait (i : Z) (k : P) : P := on_pcb i (fun p => CP (joinsem p) k).
Definition ExitWait (i : Z) (k : P) : P := on_pcb i (fun p => CP (exitsem p) k).
Definition JoinRelease (i : Z) (k : P) : P := on_pcb i (fun p => CV (joinsem p) k).
Definition ExitRelease (i : Z) (k : P) : P := on_pcb i (fun p => CV (exitsem p) k).

(** [RunProcess(filename)]. *)
Definition RunProcess (filename : list Z) : P :=
  Load filename (fun s =>
    match s with
    | Some s => Execute s
    | None => go (fun _ => Trap AssertFail)
    end).

(** [pcb[i] = p] for an index in the array. *)
Definition store_pcb (i : Z) (p : PCB) (e : E) : E :=
  set_pTab (set_pcbs (<[Z.to_nat i := Some p]> (pcb (pTab e))) (pTab e)) e.

(** [Exec(fileName, pid)] of [pcb[i]]. *)
Definition PCB_Exec (i : Z) (fileName : list Z) (pid : Z) (k : Z -> P) : P :=
  on_pcb i (fun p => CP (mutex p) (go (fun e =>
    let! e := on_pTab (upd_pcb i (set_exec pid fileName)) e in
    let! p := the_pcb (pTab e) i in
    Ok (e, CFork fileName (RunProcess fileName) (fun t => store_pcb i (set_thread t p))
             (fun _ => do_ (CV (mutex p) (k pid))))))).

(** [new PCB] with its three semaphores, stored by the last step. *)
Definition new_PCB_in (mk : nat -> nat -> nat -> PCB) (i : Z) (k : P) : P :=
  do_ (CNewSem 0 (fun _ e => e) (fun js => do_ (CNewSem 0 (fun _ e => e) (fun es =>
    do_ (CNewSem 1 (fun mx => store_pcb i (mk js es mx)) (fun _ => k)))))).

(** [delete pcb[i]]: [Finish] of its thread, if it has one, does not
    return. *)
Definition delete_PCB (i : Z) (k : P) : P :=
  go_as (fun cur _ e =>
    let! p := the_pcb (pTab e) i in
    match _thread p with
    | Some t => assert! bool_decide (t = cur); Ok (e, CFinish)
    | None => Ok (e, CDelSem (joinsem p) (do_ (CDelSem (exitsem p) (do_ (CDelSem (mutex p) k)))))
    end).

(** ** PTable *)

Definition Remove (pid : Z) (k : P) : P :=
  go (fun e =>
    let! ex := IsExist (pTab e) pid in
    if (ex : bool) then
      let! b := Bitmap.Clear (bm (pTab e)) pid in
      Ok (set_pTab (set_bm b (pTab e)) e, CGo (delete_PCB pid (go (fun e =>
        let! e := on_pTab (put_pcb pid None) e in
        Ok (set_pTab (set_psize (psize (pTab e) - 1) (pTab e)) e, CGo k)))))
    else Ok (e, CGo k)).

(** [ExecUpdate] from [bmsem->P()] to the new PCB: the slot and the
    parent, or -1. *)
Definition Exec_check (name : list Z) (nm : list Z) (e : E) : outcome (option (Z * Z) * E) :=
  let! ' (fo, w) := FileSystem_Open name (host e) in
  let e := set_host w (table e) e in
  match fo with
  | None => Ok (None, e)
  | Some executable =>
      let! w := delete_OpenFile executable (host e) in
      let e := set_host w (table e) e in
      let! currentThreadId := GetCurrentThreadId (pTab e) nm in
      let! self := the_pcb (pTab e) currentThreadId in
      let! fn := GetFileName self in
      if bool_decide (fn = name) then Ok (None, e)
      else
        let! ' (freeSlot, t) := GetFreeSlot (pTab e) in
        let e := set_pTab t e in
        Ok (if freeSlot =? -1 then None else Some (freeSlot, currentThreadId), e)
  end.

Definition ExecUpdate (name : list Z) (k : Z -> P) : P :=
  go (fun e => Ok (e, CP (bmsem (pTab e)) (go_as (fun _ nm e =>
    let! ' (r, e) := Exec_check name nm e in
    match r with
    | None => Ok (e, CV (bmsem (pTab e)) (k (-1)))
    | Some (freeSlot, currentThreadId) =>
        Ok (e, CGo (new_PCB_in (fun js es mx => set_parent currentThreadId (new_PCB freeSlot js es mx)) freeSlot
          (PCB_Exec freeSlot name freeSlot (fun result => go (fun e =>
            Ok (set_pTab (set_psize (psize (pTab e) + 1) (pTab e)) e,
                CV (bmsem (pTab e)) (k result)))))))
    end)))).

Definition JoinUpdate (id : Z) (k : Z -> P) : P :=
  go_as (fun _ nm e =>
    let! currentThreadId := GetCurrentThreadId (pTab e) nm in
    let! ex := IsExist (pTab e) id in
    if negb ex then Ok (e, CGo (k (-1)))
    else if id =? currentThreadId then Ok (e, CGo (k (-1)))
    else
      let! p := the_pcb (pTab e) id in
      if negb (parentID p =? currentThreadId) then Ok (e, CGo (k (-1)))
      else
        Ok (e, CGo (IncNumWait currentThreadId (JoinWait id (DecNumWait currentThreadId (ExitRelease id
          (go (fun e => let! p := the_pcb (pTab e) id in Ok (e, CGo (k (GetExitCode p)))))))))) ).

Definition ExitUpdate (code : Z) (k : Z -> P) : P :=
  go_as (fun _ nm e =>
    let! currentThreadId := GetCurrentThreadId (pTab e) nm in
    if currentThreadId =? 0 then Ok (e, CHalt)
    else
      let! e := on_pTab (upd_pcb currentThreadId (SetExitCode code)) e in
      Ok (e, CGo (JoinRelease currentThreadId (ExitWait currentThreadId (Remove currentThreadId (k code)))))).

(** ** STable *)

Definition ST_Create (name : list Z) (value : Z) (k : Z -> P) : P :=
  go (fun e =>
    let! ' (freeSlot, t) := Create_slot (semTab_ e) name in
    let e := set_semTab t e in
    if freeSlot =? -1 then Ok (e, CGo (k (-1)))
    else
      let! _ := new_Sem name 0 in
      Ok (e, CNewSem value
        (fun s e => set_semTab (mkSTable (st_bm (semTab_ e))
                      (<[Z.to_nat freeSlot := Some (mkSem name s)]> (semTab (semTab_ e)))) e)
        (fun _ => k 0))).

Definition ST_Wait (name : list Z) (k : Z -> P) : P :=
  go (fun e => let! f := find_sem (semTab_ e) name in
    Ok (e, match f with Some s => CP (sem s) (k 0) | None => CGo (k (-1)) end)).
Definition ST_Signal (name : list Z) (k : Z -> P) : P :=
  go (fun e => let! f := find_sem (semTab_ e) name in
    Ok (e, match f with Some s => CV (sem s) (k 0) | None => CGo (k (-1)) end)).

(** ** The system calls *)

(** Code that copies a buffer from user memory first. *)
Definition with_user (virtAddr limit : Z) (k : list Z -> P) : P :=
  Code (fun _ _ m e => let! ' (b, (e, m)) := User2System virtAddr limit (e, m) in Ok (m, e, CGo (k b))).
Definition to_user (virtAddr len : Z) (buffer : list Z) (k : P) : P :=
  on_state (System2User virtAddr len buffer) (fun _ => k).

Definition SysExec (virtAddr : Z) (k : Z -> P) : P :=
  with_user virtAddr MaxFileLength (fun exec_name =>
    if no_name exec_name then do_ (CGo (k (-1))) else ExecUpdate (c_str exec_name) k).
Definition SysJoin (id : Z) (k : Z -> P) : P := JoinUpdate id k.
Definition SysExit (code : Z) (k : Z -> P) : P := ExitUpdate code k.

(** The result of [Create] is overwritten by the test [result=-1]. *)
Definition SysCreateSemaphore (virtAddr semval : Z) (k : Z -> P) : P :=
  with_user virtAddr MaxFileLength (fun name =>
    if no_name name then do_ (CGo (k (-1))) else ST_Create (c_str name) semval (fun _ => k (-1))).
Definition SysWait (virtAddr : Z) (k : Z -> P) : P :=
  with_user virtAddr MaxFileLength (fun name => ST_Wait (c_str name) k).
Definition SysSignal (virtAddr : Z) (k : Z -> P) : P :=
  with_user virtAddr MaxFileLength (fun name => ST_Signal (c_str name) k).

(** The loop of [SysRead] from the console, [n] characters to go. *)
Fixpoint read_console (n : nat) (i : Z) (buffer : list Z) (k : list Z -> Z -> P) : P :=
  match n with
  | O => k buffer i
  | Datatypes.S n' =>
      GetChar (fun c => go (fun e =>
        if (c =? EOF) || (c =? 10) then
          let! b := arr_set buffer i 0 in Ok (e, CGo (k b i))
        else
          let! b := arr_set buffer i c in Ok (e, CGo (read_console n' (i + 1) b k))))
  end.

Definition SysRead (virtAddr size id : Z) (k : Z -> P) : P :=
  go (fun e =>
    let! ok := valid_id id consoleOutputID e in
    if negb ok then Ok (e, CGo (k (-1)))
    else if id =? consoleInputID then
      Ok (e, CGo (with_user virtAddr size (fun buffer =>
        read_console (Z.to_nat size) 0 buffer (fun b i => to_user virtAddr size b (k i)))))
    else Ok (e, CGo (on_state (SysRead_file virtAddr size id) k))).

(** The loop of [SysWrite] to the console: [buffer[i]] is read before
    [i < size] is tested. *)
Fixpoint write_console (n : nat) (i : Z) (buffer : list Z) (k : Z -> P) : P :=
  match buffer with
  | [] => go (fun _ => Trap Undefined)
  | c :: b =>
      if c =? 0 then k i
      else
        match n with
        | O => k i
        | Datatypes.S n' => PutChar c (write_console n' (i + 1) b k)
        end
  end.

Definition SysWrite (virtAddr size id : Z) (k : Z -> P) : P :=
  go (fun e =>
    let! ok := valid_id id consoleInputID e in
    if negb ok then Ok (e, CGo (k (-1)))
    else if id =? consoleOutputID then
      Ok (e, CGo (with_user virtAddr size (fun buffer =>
        write_console (Z.to_nat size) 0 buffer (fun i => to_user virtAddr size buffer (k i)))))
    else Ok (e, CGo (on_state (SysWrite_file virtAddr size id) k))).

(** ** ExceptionHandler *)

(** Back to the user program. *)
Definition resume_user : P := go (fun e => Ok (set_status UserMode e, CJump user_label)).

(** [WriteRegister(2, result); IncreasePC(); return;] *)
Definition sys_return (result : Z) : P :=
  Code (fun _ _ m e =>
    let! m := WriteRegister m 2 result in
    let! m := IncreasePC m in
    Ok (m, e, CGo resume_user)).

(** The switch on the system call, for its code and arguments. *)
Definition SyscallException_switch (type r4 r5 r6 : Z) : P :=
  if type =? SC_Halt then SysExit 0 (fun _ => go (fun _ => Trap AssertFail))
  else if type =? SC_Create then on_state (SysCreate r4) sys_return
  else if type =? SC_Open then on_state (SysOpen r4 r5) sys_return
  else if type =? SC_Close then on_state (SysClose r4) sys_return
  else if type =? SC_Read then SysRead r4 r5 r6 sys_return
  else if type =? SC_Write then SysWrite r4 r5 r6 sys_return
  else if type =? SC_Remove then on_state (SysRemove r4) sys_return
  else if type =? SC_SocketTCP then on_state SysSocketTCP sys_return
  else if type =? SC_Connect then on_state (SysConnect r4 r5 r6) sys_return
  else if type =? SC_Seek then on_state (SysSeek r4 r5) sys_return
  else if type =? SC_Send then on_state (SysSend r4 r5 r6) sys_return
  else if type =? SC_Receive then on_state (SysReceive r4 r5 r6) sys_return
  else if type =? SC_CloseSocket then on_state (SysCloseSocket r4) sys_return
  else if type =? SC_Exec then SysExec r4 sys_return
  else if type =? SC_Join then SysJoin r4 sys_return
  else if type =? SC_Exit then SysExit r4 sys_return
  else if type =? SC_CreateSemaphore then SysCreateSemaphore r4 r5 sys_return
  else if type =? SC_Wait then SysWait r4 sys_return
  else if type =? SC_Signal then SysSignal r4 sys_return
  else resume_user.

Definition ExceptionHandler_syscall : P :=
  Code (fun _ _ m e =>
    let! type := ReadRegister m 2 in
    let! r4 := ReadRegister m 4 in
    let! r5 := ReadRegister m 5 in
    let! r6 := ReadRegister m 6 in
    Ok (m, e, CGo (SyscallException_switch type r4 r5 r6))).

(** The loop of [Machine::Run]. *)
Definition user_step : P :=
  Code (fun _ _ m e =>
    let! ' (e, m) := Mips.OneInstruction (e, m) in
    if trapped e then Ok (m, set_status SystemMode (set_trapped false e), CGo ExceptionHandler_syscall)
    else Ok (m, e, CJump user_label)).

#[export] Instance kernel_labels : Procs E := fun _ => user_step.

(** ** Boot *)

(** [Kernel::Initialize]: the consoles, [addrLock] and the two tables. *)
Definition Initialize (k : P) : P :=
  do_ (CNewLock (fun li => do_ (CNewSem 0 (fun _ e => e) (fun wi =>
  do_ (CNewLock (fun lo => do_ (CNewSem 0 (fun _ e => e) (fun wo =>
  do_ (CNewSem 1 (fun _ e => e) (fun al => do_ (CNewSem 1 (fun _ e => e) (fun bs => go (fun e =>
    let! frames := Bitmap.new_Bitmap NumPhysPages in
    let! pt := new_PTable MAX_PROCESS bs in
    let! st := new_STable in
    Ok (mkKdata (host e) FileTable.new_Table SystemMode false pt st frames al
          (mkConsole li wi EOF 0 lo wo false 1), CGo k)))))))))))))).

(** [main] with [-x userProgName]. *)
Definition main (userProgName : list Z) : P :=
  Initialize (go_as (fun cur _ e => Ok (e, CGo (new_PCB_in (new_PCB_main userProgName cur) 0
    (go (fun e =>
      let! t := (let! p := the_pcb (pTab e) 0 in LoadMainThread p (pTab e)) in
      Ok (set_pTab t e, CGo (Load userProgName (fun s =>
        match s with
        | Some s => Execute s
        | None => do_ CHalt
        end))))))))).

End Process.
End Process.
