(* ===== verification/Confine.v ===== *)
(** * A running program is confined to its frames

    What user code and the kernel code that works on its behalf can do to
    the machine: [runs p F m] says that the page table at [p], whose pages
    are the frames [F], is the machine's, and [confined] that a step leaves
    every byte outside [F] and every other page table as it was.  Every
    instruction and every non-blocking system call is confined, whatever
    the registers and the arguments; loading a program, whatever the file
    holds, writes only to frames that were free.  System.v puts these
    together for the whole kernel. *)

From S2P Require Import Prelude Bitmap Machine Mips FileTable AddrSpace ProcTable Syscalls.

Module Confine.
Import Machine Mips Stub FileTable AddrSpace ProcTable Syscalls.

(** ** Page tables *)

Definition frames (t : list TranslationEntry) : list Z := physicalPage <$> t.

(** Tables as [Load] makes them. *)
Definition table_ok (t : list TranslationEntry) : Prop :=
  frames_ok (frames t) /\ Forall (fun e => valid e = true /\ readOnly e = false) t.

Lemma table_entries_ok t : table_ok t -> page_entries_ok t.
Proof.
  intros [[_ Hr] _]. unfold page_entries_ok. rewrite !Forall_lookup in *. intros i e He.
  assert (0 <= physicalPage e < NumPhysPages) by (apply (Hr i); unfold frames; by rewrite list_lookup_fmap, He).
  unfold is_s32, NumPhysPages in *. lia.
Qed.

Lemma frames_touch w i t : frames (alter (touch w) i t) = frames t.
Proof.
  unfold frames. apply list_eq. intros j. rewrite !list_lookup_fmap, lookup_touch.
  destruct (decide (i = j)); by destruct (t !! j).
Qed.

Lemma table_ok_touch w i t : table_ok t -> table_ok (alter (touch w) i t).
Proof.
  intros [Hf Hv]. split; [by rewrite frames_touch |]. rewrite !Forall_lookup in *. intros j e.
  rewrite lookup_touch. intros (e' & He & ->)%fmap_Some. specialize (Hv j e' He). by destruct (decide (i = j)).
Qed.

Lemma table_of_ok F : frames_ok F -> table_ok (table_of F) /\ frames (table_of F) = F.
Proof.
  intros HF. assert (frames (table_of F) = F) as E.
  { apply list_eq. intros i. unfold frames. rewrite list_lookup_fmap, lookup_table_of. by destruct (F !! i). }
  split; [split; [by rewrite E |] | done]. apply Forall_lookup. intros i e. rewrite lookup_table_of.
  by intros (f & _ & ->)%fmap_Some.
Qed.

(** ** Confinement *)

Record runs (p : positive) (F : list Z) (m : Machine) : Prop := {
  runs_tlb : tlb m = None;
  runs_table : pageTable m = Some p;
  runs_size : pageTableSize m = Z.of_nat (length F);
  runs_mem : mem_wf m;
  runs_frames : exists t, tables m !! p = Some t /\ table_ok t /\ frames t = F
}.

Record confined (p : positive) (F : list Z) (m m' : Machine) : Prop := {
  con_runs : runs p F m';
  con_tables : forall q, q <> p -> tables m' !! q = tables m !! q;
  con_memory : forall j : nat, frame_of j ∉ F -> mainMemory m' !! j = mainMemory m !! j
}.

Lemma confined_refl p F m : runs p F m -> confined p F m m.
Proof. by split. Qed.

Lemma confined_trans p F m1 m2 m3 : confined p F m1 m2 -> confined p F m2 m3 -> confined p F m1 m3.
Proof.
  intros [_ Ht1 Hm1] [Hr Ht2 Hm2]. split; [done | |].
  - intros q Hq. by rewrite Ht2, Ht1.
  - intros j Hj. by rewrite Hm2, Hm1.
Qed.

Lemma runs_paged p F m : runs p F m -> exists t, paged m p t /\ page_entries_ok t /\ table_ok t /\ frames t = F.
Proof.
  intros [Htlb Hp Hs _ (t & Ht & Hok & HF)]. exists t. split; [|split; [by apply table_entries_ok | done]].
  split; [done |]. split; [done |]. split; [done |]. rewrite Hs, <- HF. unfold frames. rewrite length_fmap. lia.
Qed.

(** Registers are the thread's own. *)
Lemma confined_registers p F m m' r : confined p F m m' -> confined p F m (set_registers m' r).
Proof. intros [[] ? ?]. split; [by split | done | done]. Qed.

Lemma confined_set_reg p F m m' i v : confined p F m m' -> confined p F m (set_reg m' i v).
Proof. apply confined_registers. Qed.

Lemma confined_touched p F m t va w : runs p F m -> tables m !! p = Some t -> confined p F m (touched m p t va w).
Proof.
  intros [Htlb Hp Hs Hw (t' & Ht & Hok & HF)] Ht'. rewrite Ht in Ht'. injection Ht' as ->.
  split; [split; try done |  | done].
  - exists (alter (touch w) (Z.to_nat (page_of va)) t). cbn [touched tables set_tables].
    rewrite lookup_insert_eq, frames_touch. split; [done |]. split; [by apply table_ok_touch | done].
  - intros q Hq. cbn. by rewrite lookup_insert_ne.
Qed.

(** Assigning a register. *)
Lemma WriteRegister_registers m i v m' : WriteRegister m i v = Ok m' -> exists r, m' = set_registers m r.
Proof.
  unfold WriteRegister. destruct (_ && _); [|done]. cbn [assert_ obind]. intros E1.
  apply obind_Ok in E1 as (rs & _ & E1). injection E1 as <-. by exists rs.
Qed.

(** A store of [size] bytes inside the frame of entry [e]. *)
Lemma confined_store p F m t e pa size v mem' :
  runs p F m -> tables m !! p = Some t -> e ∈ t -> 0 < size ->
  physicalPage e * PageSize <= pa -> 0 <= pa -> pa + size <= (physicalPage e + 1) * PageSize ->
  pa + size <= MemorySize ->
  store_le (mainMemory m) pa (Z.to_nat size) v = Ok mem' -> confined p F m (set_mainMemory m mem').
Proof.
  intros [Htlb Hp Hs Hw (t' & Ht & Hok & HF)] Ht' He Hsz Hlo Hpa Hhi Hmax Est. rewrite Ht in Ht'. injection Ht' as ->.
  destruct (store_le_Ok (mainMemory m) pa (Z.to_nat size) v) as (mem2 & E2 & Hl & Hb & Hsame);
    [lia | rewrite (proj1 Hw); lia |].
  rewrite Est in E2. injection E2 as <-.
  split; [split; try done | done |].
  - destruct Hw as [Hlen Hby]. split; [cbn; by rewrite Hl | by apply Hb].
  - by exists t.
  - intros j Hj. cbn. apply Hsame.
    assert (frame_of j <> physicalPage e) as Hne.
    { intros E. apply Hj. rewrite E, <- HF. unfold frames. by apply list_elem_of_fmap_2. }
    unfold frame_of, PageSize in *. clear - Hne Hlo Hhi Hsz. dlia.
Qed.

(** ** Kernel code on a machine state *)

Section Confined.
Context {W : Type} `{HH : Host W}.
Notation Kdata := (Kdata W).
Notation state := (Kdata * Machine)%type.

(** What may happen to the kernel's data: [R]. *)
Class StepRel (R : Kdata -> Kdata -> Prop) : Prop := {
  rel_preorder :: PreOrder R;
  rel_status st k : R k (set_status st k);
  rel_trapped b k : R k (set_trapped b k);
  rel_host w t k : R k (set_host w t k)
}.

Context (R : Kdata -> Kdata -> Prop) `{SR : !StepRel R}.
Context (p : positive) (F : list Z).

Definition kept (s s' : state) : Prop := R s.1 s'.1 /\ confined p F s.2 s'.2.

(** If it returns, it was confined; a result comes with the state. *)
Definition stays {A} (s : state) (o : outcome (A * state)) : Prop :=
  forall x s', o = Ok (x, s') -> kept s s'.
Definition stays_ (s : state) (o : outcome state) : Prop := forall s', o = Ok s' -> kept s s'.

Lemma kept_trans_ s1 s2 s3 : kept s1 s2 -> kept s2 s3 -> kept s1 s3.
Proof. intros [H1 H2] [H3 H4]. split; [by etrans | by eapply confined_trans]. Qed.

Lemma kept_runs s s' : kept s s' -> runs p F s'.2.
Proof. intros [_ H]. apply H. Qed.

Lemma stays_ret {A} (x : A) s s' : kept s s' -> stays s (Ok (x, s')).
Proof. by intros H y s'' [= <- <-]. Qed.

Lemma stays_trap {A} s t : stays s (Trap t : outcome (A * state)).
Proof. by intros x s'. Qed.

Lemma stays_bind {A B} s (o : outcome (A * state)) (f : A * state -> outcome (B * state)) :
  stays s o -> (forall x s', kept s s' -> stays s' (f (x, s'))) -> stays s (obind o f).
Proof.
  intros Ho Hf y s''. destruct o as [[x s']|]; [|done]. cbn [obind]. intros E.
  pose proof (Ho x s' eq_refl) as H1. exact (kept_trans_ _ _ _ H1 (Hf x s' H1 y s'' E)).
Qed.

Lemma stays_bind_ s (o : outcome state) {B} (f : state -> outcome (B * state)) :
  stays_ s o -> (forall s', kept s s' -> stays s' (f s')) -> stays s (obind o f).
Proof.
  intros Ho Hf y s''. destruct o as [s'|]; [|done]. cbn [obind]. intros E.
  pose proof (Ho s' eq_refl) as H1. exact (kept_trans_ _ _ _ H1 (Hf s' H1 y s'' E)).
Qed.

(** A step that computes a value only. *)
Lemma stays_pure {A B} s (o : outcome A) (f : A -> outcome (B * state)) :
  (forall x, o = Ok x -> stays s (f x)) -> stays s (obind o f).
Proof. intros Hf. destruct o as [x|]; [by apply Hf | apply stays_trap]. Qed.

Lemma stays_ok {A} s (o : outcome (A * state)) x s' : stays s o -> o = Ok (x, s') -> kept s s'.
Proof. intros H. apply H. Qed.

Lemma kept_refl_ (k : Kdata) m : runs p F m -> kept (k, m) (k, m).
Proof. intros H. split; [done | by apply confined_refl]. Qed.

Lemma kept_set_reg s (k : Kdata) m i v : kept s (k, m) -> kept s (k, set_reg m i v).
Proof. intros [H1 H2]. split; [done | by apply confined_set_reg]. Qed.

Lemma kept_kernel s (k k' : Kdata) m : kept s (k, m) -> R k k' -> kept s (k', m).
Proof. intros [H1 H2] HR. split; [by etrans | done]. Qed.

(** ** Memory access *)

Lemma DelayedLoad_kept s (k : Kdata) m r v m' : kept s (k, m) -> DelayedLoad m r v = Ok m' -> kept s (k, m').
Proof.
  intros Hs. unfold DelayedLoad. destruct (arr_set _ _ _) as [rs|]; [|done]. cbn [obind]. intros [= <-].
  do 3 apply kept_set_reg. destruct Hs as [H1 H2]. split; [done | by apply confined_registers].
Qed.

(** Only a system call returns from the handler. *)
Lemma RaiseException_stays which addr (k : Kdata) m : runs p F m -> stays_ (k, m) (RaiseException which addr (k, m)).
Proof.
  intros Hm s'. unfold RaiseException. destruct (DelayedLoad _ 0 0) as [m1|] eqn:E; [|done]. cbn [obind].
  apply (DelayedLoad_kept (k, m) k) in E; [|by apply kept_set_reg, kept_refl_].
  unfold ExceptionHandler, kernel, handle. cbn [setStatus].
  destruct which; cbn [obind fst snd]; try done; intros [= <-];
    (eapply kept_kernel; [exact E |]); repeat (etrans; [|apply rel_status || apply rel_trapped]); done.
Qed.

Lemma ReadMem_stays va size (k : Kdata) m : runs p F m -> legal_size size ->
  stays (k, m) (ReadMem va size (k, m)).
Proof.
  intros Hm Hs. destruct (runs_paged p F m Hm) as (t & Hp & Hok & Htab & HF).
  destruct (translate_spec t (pageTableSize m) va size false) as [e|pa] eqn:E.
  - rewrite (ReadMem_fault k m p t va size e) by done. apply stays_bind_.
    + by apply RaiseException_stays.
    + intros s' H'. apply stays_ret. destruct s'. by apply kept_refl_, (kept_runs _ _ H').
  - destruct (ReadMem_ok k m p t va size pa) as (d & _ & _ & ->); try done; [apply Hm |].
    apply stays_ret. split; [done |]. apply confined_touched; [done | apply Hp].
Qed.

Lemma WriteMem_stays va size v (k : Kdata) m : runs p F m -> legal_size size ->
  stays (k, m) (WriteMem va size v (k, m)).
Proof.
  intros Hm Hs. destruct (runs_paged p F m Hm) as (t & Hp & Hok & Htab & HF).
  destruct (translate_spec t (pageTableSize m) va size true) as [e|pa] eqn:E.
  - rewrite (WriteMem_fault k m p t va size v e) by done. apply stays_bind_.
    + by apply RaiseException_stays.
    + intros s' H'. apply stays_ret. destruct s'. by apply kept_refl_, (kept_runs _ _ H').
  - destruct (WriteMem_ok k m p t va size v pa) as (mem' & Est & ->); try done; [apply Hm |].
    apply stays_ret. split; [done |]. cbn [snd].
    destruct (translate_spec_phys _ _ _ _ _ _ E Hs) as (_ & _ & e & He & _ & _ & Hr & Hpa & H0 & Hfit & Hmax).
    assert (confined p F m (touched m p t va true)) as Ht by (apply confined_touched; [done | apply Hp]).
    eapply confined_trans; [exact Ht |].
    pose proof (paged_touched m p t va true Hp) as (_ & _ & Ht' & _).
    pose proof (offset_of_range va).
    apply (confined_store p F _ _ (touch true e) pa size v mem' (con_runs _ _ _ _ Ht) Ht'); try done; try lia.
    + apply (list_elem_of_lookup_2 _ (Z.to_nat (page_of va))). rewrite lookup_touch, He. cbn.
      by rewrite decide_True by done.
    + destruct Hs as [-> | [-> | ->]]; lia.
    + cbn [touch physicalPage]. lia.
Qed.

(** ** Instructions *)

Lemma trap_return_stays e addr (k : Kdata) m : runs p F m -> stays (k, m) (trap_return e addr (k, m)).
Proof.
  intros Hm. unfold trap_return. apply stays_bind_; [by apply RaiseException_stays |].
  intros [k' m'] H'. apply stays_ret. apply kept_refl_. exact (kept_runs _ _ H').
Qed.

(** A memory access followed by code that is confined. *)
Lemma read_then {A} va size (k : Kdata) m (f : option Z * state -> outcome (A * state)) :
  runs p F m -> legal_size size ->
  (forall x k' m', runs p F m' -> stays (k', m') (f (x, (k', m')))) ->
  stays (k, m) (obind (ReadMem va size (k, m)) f).
Proof.
  intros Hm Hs Hf. apply stays_bind; [by apply ReadMem_stays |]. intros x [k' m'] H'.
  exact (Hf x k' m' (kept_runs _ _ H')).
Qed.

Lemma write_then {A} va size v (k : Kdata) m (f : bool * state -> outcome (A * state)) :
  runs p F m -> legal_size size ->
  (forall x k' m', runs p F m' -> stays (k', m') (f (x, (k', m')))) ->
  stays (k, m) (obind (WriteMem va size v (k, m)) f).
Proof.
  intros Hm Hs Hf. apply stays_bind; [by apply WriteMem_stays |]. intros x [k' m'] H'.
  exact (Hf x k' m' (kept_runs _ _ H')).
Qed.

(** What a case of the switch that only computes ends with. *)
Ltac computes :=
  repeat match goal with
  | |- context [if ?b then _ else _] => destruct b
  | |- stays _ (obind (Mult _ _ _) _) => apply stays_pure; intros [? ?] _
  end;
  first [ apply stays_trap | by apply trap_return_stays
        | apply stays_ret; repeat apply kept_set_reg; by apply kept_refl_ ].
Ltac sizes := first [by left | by right; left | by right; right].

Lemma exec_computes_stays i pc (k : Kdata) m : runs p F m ->
  stays (k, m) (exec_add i pc (k, m)) /\ stays (k, m) (exec_branch i pc (k, m)) /\
  stays (k, m) (exec_div_jump i pc (k, m)) /\ stays (k, m) (exec_move_logic i pc (k, m)) /\
  stays (k, m) (exec_shift_slt i pc (k, m)) /\ stays (k, m) (exec_trap i pc (k, m)).
Proof.
  intros Hm. unfold exec_add, exec_branch, exec_div_jump, exec_move_logic, exec_shift_slt, exec_trap.
  split_and!; destruct (opCode i); cbv zeta; computes.
Qed.

Lemma exec_load_stays i pc (k : Kdata) m : runs p F m -> stays (k, m) (exec_load i pc (k, m)).
Proof.
  intros Hm. unfold exec_load. cbv zeta.
  destruct (opCode i); try computes;
    try (match goal with |- context [if ?b then trap_return _ _ _ else _] => destruct b end; [computes |]);
    (apply read_then; [done | sizes |]); intros [v|] k' m' Hm'; computes.
Qed.

Lemma exec_store_stays i pc (k : Kdata) m : runs p F m -> stays (k, m) (exec_store i pc (k, m)).
Proof.
  intros Hm. unfold exec_store. cbv zeta.
  destruct (opCode i); try computes; (apply write_then; [done | sizes |]); intros [] k' m' Hm'; computes.
Qed.

Lemma exec_lr_stays i pc (k : Kdata) m : runs p F m ->
  stays (k, m) (exec_load_left i pc (k, m)) /\ stays (k, m) (exec_load_right i pc (k, m)) /\
  stays (k, m) (exec_store_left i pc (k, m)) /\ stays (k, m) (exec_store_right i pc (k, m)).
Proof.
  intros Hm. unfold exec_load_left, exec_load_right, exec_store_left, exec_store_right. cbv zeta.
  split_and!; (apply read_then; [done | sizes |]); intros [v|] k' m' Hm';
    try (apply stays_ret; by apply kept_refl_);
    (apply write_then; [done | sizes |]); intros [] k2 m2 Hm2; apply stays_ret; by apply kept_refl_.
Qed.

Lemma exec_stays i pc (k : Kdata) m : runs p F m -> stays (k, m) (exec i pc (k, m)).
Proof.
  intros Hm. destruct (exec_computes_stays i pc k m Hm) as (? & ? & ? & ? & ? & ?).
  destruct (exec_lr_stays i pc k m Hm) as (? & ? & ? & ?).
  pose proof (exec_load_stays i pc k m Hm). pose proof (exec_store_stays i pc k m Hm).
  unfold exec. destruct (opCode i); solve [assumption | apply stays_trap].
Qed.

Lemma OneInstruction_stays (k : Kdata) m : runs p F m -> stays_ (k, m) (OneInstruction (k, m)).
Proof.
  intros Hm s'. unfold OneInstruction.
  destruct (ReadMem _ 4 (k, m)) as [[[raw|] s1]|] eqn:E1; [| |done]; cbn [obind].
  2:{ intros [= <-]. exact (ReadMem_stays _ 4 _ _ Hm ltac:(sizes) _ _ E1). }
  pose proof (ReadMem_stays _ 4 _ _ Hm ltac:(sizes) _ _ E1) as H1. destruct s1 as [k1 m1].
  destruct (exec _ _ (k1, m1)) as [[f s2]|] eqn:E2; [|done]. cbn [obind].
  apply exec_stays in E2; [|exact (kept_runs _ _ H1)].
  assert (kept (k, m) s2) as H2 by (by eapply kept_trans_).
  destruct f as [|pc r v]; [by intros [= <-] |]. destruct s2 as [k2 m2]. unfold finish_instruction.
  destruct (DelayedLoad m2 r v) as [m3|] eqn:E3; [|done]. cbn [obind]. intros [= <-].
  do 3 apply kept_set_reg. by eapply DelayedLoad_kept.
Qed.

(** ** Copies between user and kernel memory *)

Lemma copyin_stays n v (k : Kdata) m : runs p F m -> stays (k, m) (copyin n v (k, m)).
Proof.
  revert v k m. induction n as [|n IH]; intros v k m Hm; cbn [copyin]; [by apply stays_ret, kept_refl_ |].
  apply read_then; [done | sizes |]. intros [c|] k' m' Hm'; [|apply stays_trap].
  destruct (c =? 0); [by apply stays_ret, kept_refl_ |].
  apply stays_bind; [by apply IH |]. intros l [k2 m2] H2. apply stays_ret, kept_refl_. exact (kept_runs _ _ H2).
Qed.

Lemma copyout_stays n v b (k : Kdata) m : runs p F m -> stays (k, m) (copyout n v b (k, m)).
Proof.
  revert v b k m. induction n as [|n IH]; intros v b k m Hm; cbn [copyout]; [by apply stays_ret, kept_refl_ |].
  destruct b as [|c b]; [apply stays_trap |].
  apply write_then; [done | sizes |]. intros _ k' m' Hm'.
  destruct (c =? 0); [by apply stays_ret, kept_refl_ |].
  apply stays_bind; [by apply IH |]. intros l [k2 m2] H2. apply stays_ret, kept_refl_. exact (kept_runs _ _ H2).
Qed.

Lemma User2System_stays va limit (k : Kdata) m : runs p F m -> stays (k, m) (User2System va limit (k, m)).
Proof.
  intros Hm. unfold User2System. destruct (_ || _); [apply stays_trap |].
  apply stays_bind; [by apply copyin_stays |]. intros l [k' m'] H'. apply stays_ret, kept_refl_. exact (kept_runs _ _ H').
Qed.

Lemma System2User_stays va len b (k : Kdata) m : runs p F m -> stays (k, m) (System2User va len b (k, m)).
Proof.
  intros Hm. unfold System2User. destruct (_ <? _); [by apply stays_ret, kept_refl_ |].
  destruct (_ =? _); [by apply stays_ret, kept_refl_ | by apply copyout_stays].
Qed.

(** ** The system calls that do not block *)

Lemma user_then {A} va limit (k : Kdata) m (f : list Z * state -> outcome (A * state)) :
  runs p F m -> (forall x k' m', runs p F m' -> stays (k', m') (f (x, (k', m')))) ->
  stays (k, m) (obind (User2System va limit (k, m)) f).
Proof.
  intros Hm Hf. apply stays_bind; [by apply User2System_stays |]. intros x [k' m'] H'.
  exact (Hf x k' m' (kept_runs _ _ H')).
Qed.

Lemma host_stays {A} (x : A) w t (k : Kdata) m : runs p F m -> stays (k, m) (Ok (x, (set_host w t k, m))).
Proof. intros Hm. apply stays_ret. eapply kept_kernel; [by apply kept_refl_ | apply rel_host]. Qed.

(** One step of such a call. *)
Ltac call_step :=
  first
  [ apply stays_trap
  | apply host_stays; assumption
  | apply stays_ret, kept_refl_; assumption
  | apply user_then; [assumption | intros ? ? ? ?]
  | apply System2User_stays; assumption
  | apply stays_pure; intros ? _
  | match goal with
    | |- stays _ (match ?x with _ => _ end) => destruct x
    | |- context [if ?b then _ else _] => destruct b
    end ].

Lemma name_calls_stay va ty (k : Kdata) m : runs p F m ->
  stays (k, m) (SysCreate va (k, m)) /\ stays (k, m) (SysOpen va ty (k, m)) /\ stays (k, m) (SysRemove va (k, m)).
Proof. intros Hm. unfold SysCreate, SysOpen, SysRemove. split_and!; repeat call_step. Qed.

Lemma id_calls_stay id pos (k : Kdata) m : runs p F m ->
  stays (k, m) (SysClose id (k, m)) /\ stays (k, m) (SysSeek pos id (k, m)) /\
  stays (k, m) (SysSocketTCP (k, m)) /\ stays (k, m) (SysCloseSocket id (k, m)).
Proof. intros Hm. unfold SysClose, SysSeek, SysSocketTCP, SysCloseSocket. split_and!; repeat call_step. Qed.

(** The result of a call is known when its buffer is written back. *)
Lemma copy_back va len b (r : Z) w t (k : Kdata) m : runs p F m ->
  stays (k, m) (let! ' (_, s) := System2User va len b (set_host w t k, m) in Ok (r, s)).
Proof.
  intros Hm x s' E. destruct (System2User _ _ _ _) as [[i [k1 m1]]|] eqn:E1; [|done]. injection E as _ <-.
  apply System2User_stays in E1; [|exact Hm].
  eapply kept_trans_; [|exact E1]. eapply kept_kernel; [by apply kept_refl_ | apply rel_host].
Qed.

Lemma read_file_host id b n (k : Kdata) r b' k' : read_file id b n k = Ok (r, b', k') -> exists w t, k' = set_host w t k.
Proof.
  unfold read_file. intros E. apply obind_Ok in E as (q & _ & E). apply obind_Ok in E as (i & _ & E).
  apply obind_Ok in E as (d & _ & E). apply obind_Ok in E as ([[[x y] d'] w] & _ & E).
  apply obind_Ok in E as (t & _ & E). injection E as _ _ <-. by exists w, t.
Qed.

Lemma write_file_host id b n (k : Kdata) r k' : write_file id b n k = Ok (r, k') -> exists w t, k' = set_host w t k.
Proof.
  unfold write_file. intros E. apply obind_Ok in E as (q & _ & E). apply obind_Ok in E as (i & _ & E).
  apply obind_Ok in E as ([[x t] w] & _ & E). injection E as _ <-. by exists w, t.
Qed.

Lemma file_calls_stay va n id (k : Kdata) m : runs p F m ->
  stays (k, m) (SysRead_file va n id (k, m)) /\ stays (k, m) (SysWrite_file va n id (k, m)).
Proof.
  intros Hm. unfold SysRead_file, SysWrite_file.
  split; (apply user_then; [done |]); intros b k1 m1 H1; apply stays_pure.
  - intros [[r b'] k'] (w & t & ->)%read_file_host. by apply copy_back.
  - intros [r k'] (w & t & ->)%write_file_host. by apply copy_back.
Qed.

Lemma net_calls_stay id va n (k : Kdata) m : runs p F m ->
  stays (k, m) (SysConnect id va n (k, m)) /\ stays (k, m) (SysSend id va n (k, m)) /\
  stays (k, m) (SysReceive id va n (k, m)).
Proof.
  intros Hm. unfold SysConnect, SysSend, SysReceive. split_and!; try (by repeat call_step).
  apply user_then; [done |]. intros b k1 m1 H1. apply stays_pure. intros [[r b'] w] _. by apply copy_back.
Qed.

End Confined.

(** ** Loading a program, whatever the file holds *)

Lemma blit_inv mem a data mem' : blit mem a data = Ok mem' ->
  0 <= a /\ a + Z.of_nat (length data) <= Z.of_nat (length mem).
Proof. unfold blit. intros E. destruct (_ && _) eqn:Eb; [|done]. apply andb_true_iff in Eb as [?%Z.leb_le ?%Z.leb_le]. done. Qed.

Lemma blit_bytes mem a data mem' : blit mem a data = Ok mem' -> Forall is_byte mem -> Forall is_byte data ->
  Forall is_byte mem'.
Proof.
  unfold blit. intros E Hm Hd. destruct (_ && _); [|done]. injection E as <-.
  apply Forall_app. split; [by apply Forall_take |]. apply Forall_app. split; [done | by apply Forall_drop].
Qed.

Lemma slice_inv mem a n data : slice mem a n = Ok data -> Forall is_byte mem ->
  Z.of_nat (length data) <= n /\ Forall is_byte data.
Proof.
  unfold slice. intros E Hm. destruct (_ && _) eqn:Eb; [|done]. injection E as <-.
  apply andb_true_iff in Eb as [[? ?%Z.leb_le]%andb_true_iff _].
  split; [rewrite length_take; lia |]. by apply Forall_take, Forall_drop.
Qed.

(** Bytes outside [F] stay; memory keeps its size. *)
Definition within (F mem mem' : list Z) : Prop :=
  length mem' = length mem /\ Forall is_byte mem' /\ forall j : nat, frame_of j ∉ F -> mem' !! j = mem !! j.

Lemma copy_page_within F buffer n mem i mem' : Forall is_byte mem -> Forall is_byte buffer ->
  copy_page (table_of F) buffer n mem i = Ok mem' -> within F mem mem'.
Proof.
  intros Hm Hb E. unfold copy_page in E.
  apply obind_Ok in E as (e & He & E). apply obind_Ok in E as (data & Hd & E).
  apply arr_get_Ok in He as [_ He]. rewrite lookup_table_of in He. apply fmap_Some in He as (f & Hf & ->).
  cbn [physicalPage] in E. apply slice_inv in Hd as [Hlen Hdb]; [|done].
  destruct (blit_inv _ _ _ _ E) as [Ha Hfit]. destruct (blit_Ok mem (f * PageSize) data Ha Hfit) as (mem2 & E2 & Hl & Hj).
  rewrite E in E2. injection E2 as <-. split; [done |]. split; [by eapply blit_bytes |].
  intros j Hnin. rewrite Hj, bool_decide_false; [done |]. intros Hr. apply Hnin.
  assert (Z.of_nat (length data) <= PageSize) as Hle.
  { etrans; [exact Hlen |]. destruct (Z.ltb_spec n (i * PageSize + PageSize)); lia. }
  assert (frame_of j = f) as -> by (unfold frame_of, PageSize in *; clear - Hr Hle; dlia).
  by eapply list_elem_of_lookup_2.
Qed.

Lemma copy_segments_within F buffer n mem mem' : Forall is_byte mem -> Forall is_byte buffer ->
  copy_segments (table_of F) mem buffer n = Ok mem' -> within F mem mem'.
Proof.
  intros Hm Hb. unfold copy_segments. generalize (seqZ 0 (divRoundUp n PageSize)) as l. intros l. revert mem Hm.
  induction l as [|i l IH]; intros mem Hm; cbn [ofold]; [by intros [= <-] |].
  destruct (copy_page _ _ _ _ _) as [mem1|] eqn:E1; [|done]. cbn [obind]. intros E.
  apply copy_page_within in E1 as (Hl1 & Hb1 & Ho1); [|done..]. apply IH in E as (Hl2 & Hb2 & Ho2); [|done].
  split; [congruence |]. split; [done |]. intros j Hj. by rewrite Ho2, Ho1.
Qed.

Lemma zeroed_within F mem mem' : Forall is_byte mem -> zeroed F mem mem' -> within F mem mem'.
Proof.
  intros Hm [Hl Hz]. split; [done |]. split.
  - apply Forall_lookup. intros j x Hj. pose proof (lookup_lt_Some _ _ _ Hj) as Hlt. rewrite Hz in Hj by lia.
    case_bool_decide; [injection Hj as <-; unfold is_byte; lia |]. rewrite Forall_lookup in Hm. by eapply Hm.
  - intros j Hj. destruct (decide (j < length mem)%nat).
    + rewrite Hz by done. by rewrite bool_decide_false.
    + rewrite !(proj2 (lookup_ge_None _ _)) by lia. done.
Qed.

(** The frames of a new program: [F]; its table: [p]. *)
Record loaded_at (p : positive) (F : list Z) (S0 : gset Z) (bm' : Bitmap.Bitmap) (m m' : Machine) : Prop := {
  la_frames : frames_ok F;
  la_new : Forall (.∉ S0) F;
  la_bitmap : Bitmap.bm_rep bm' NumPhysPages (list_to_set F ∪ S0);
  la_fresh : tables m !! p = None;
  la_tables : tables m' = <[p := table_of F]> (tables m);
  la_tlb : tlb m' = tlb m;
  la_mem : mem_wf m';
  la_outside : forall j : nat, frame_of j ∉ F -> mainMemory m' !! j = mainMemory m !! j
}.

Section Loading.
Context {W : Type} `{HH : Host W}.

Lemma Load_memory_loads bm m f h n (w : W) S0 so bm' m' w' :
  mem_wf m -> Bitmap.bm_rep bm NumPhysPages S0 -> 0 <= n ->
  Load_memory bm m f h n w = Ok (so, bm', m', w') ->
  (so = None /\ bm' = bm /\ m' = m) \/
  exists p F, so = Some (mkAddrSpace (Some p) (Z.of_nat (length F))) /\ loaded_at p F S0 bm' m m'.
Proof.
  intros [Hlen Hby] Hrep Hn. unfold Load_memory.
  rewrite (Bitmap.bm_NumClear (BitmapContract := Bitmap.bitmap_contract) bm NumPhysPages S0 Hrep). cbn [obind].
  destruct (Z.ltb_spec (NumPhysPages - Z.of_nat (base.size S0)) n) as [|Hle]; [intros [= <- <- <- _]; by left |].
  destruct (alloc_frames_spec (BC := Bitmap.bitmap_contract) S0 bm (mainMemory m) n Hrep Hlen ltac:(lia))
    as (bm1 & F & mem1 & -> & HF & Hok & Hnew & Hrep' & Hz).
  cbn [obind]. destruct (load_segments _ _ _) as [[buffer w1]|]; [|done]. cbn [obind].
  destruct (copy_segments _ _ _ _) as [mem2|] eqn:E; [|done]. cbn [obind]. intros [= <- <- <- _]. right.
  apply zeroed_within in Hz as (Hl1 & Hb1 & Ho1); [|done].
  apply copy_segments_within in E as (Hl2 & Hb2 & Ho2); [|done |].
  2:{ apply Forall_fmap, Forall_true. intros x. unfold compose, is_byte, u8. apply Z.mod_pos_bound. lia. }
  exists (fresh (dom (tables m))), F. split; [by rewrite HF |].
  split; try done.
  - apply not_elem_of_dom, is_fresh.
  - split; [cbn; congruence | done].
  - intros j Hj. cbn. by rewrite Ho2, Ho1.
Qed.

End Loading.
End Confine.
