(* ===== verification/System.v ===== *)
(** * The whole kernel keeps processes apart

    An invariant of the booted kernel (Process.v over Threads.v): all page
    tables of the machine map disjoint sets of frames that are marked in
    [gPhysPageBitMap], a thread with an address space has a table of its
    own, and while a thread that has started its program is current the
    machine translates with its table.  Programs are checked against it by
    [pok], a predicate on the code of a thread with the [phase] of the
    thread's life; the kernel's own moves (context switches, semaphores,
    [Fork]) keep it whatever the programs are. *)

From S2P Require Import Prelude Bitmap Machine Mips FileTable AddrSpace Threads ProcTable Syscalls Confine.

Module System.
Import Machine Stub AddrSpace Threads Syscalls Confine.

(** ** The machine's page tables *)

Record machine_ok (m : Machine) : Prop := {
  mo_tlb : tlb m = None;
  mo_mem : mem_wf m;
  mo_tables : forall q t, tables m !! q = Some t -> table_ok t;
  mo_disjoint : forall q r t u f, q <> r -> tables m !! q = Some t -> tables m !! r = Some u ->
    f ∈ frames t -> f ∉ frames u
}.

(** The frames in use are marked in the bitmap. *)
Definition marked (m : Machine) (b : Bitmap.Bitmap) : Prop :=
  exists S, Bitmap.bm_rep b NumPhysPages S /\ forall q t f, tables m !! q = Some t -> f ∈ frames t -> f ∈ S.

(** [s] has a page table. *)
Definition live (m : Machine) (s : AddrSpace) : Prop :=
  exists p t, as_pageTable s = Some p /\ tables m !! p = Some t /\ numPages s = Z.of_nat (length t).

(** The machine uses it. *)
Definition active (m : Machine) (s : AddrSpace) : Prop :=
  pageTable m = as_pageTable s /\ pageTableSize m = numPages s.

(** ** The life of a thread

    The thread that boots the kernel, before the tables exist; a thread
    without a program; one that has loaded a program; one that was given
    its address space; one that runs it. *)

Inductive phase := Boot | Plain | Holding (s : AddrSpace) | Ready (s : AddrSpace) | User (s : AddrSpace).

(** [currentThread->space], and the space the thread is responsible for. *)
Definition own (ph : phase) : option AddrSpace :=
  match ph with Ready s | User s => Some s | _ => None end.
Definition claims (ph : phase) : option AddrSpace :=
  match ph with Holding s | Ready s | User s => Some s | _ => None end.
Definition own_table (ph : phase) : option positive := own ph ≫= as_pageTable.

Section System.
Context {W : Type}.
Notation E := (Kdata W).
Notation P := (@prog E).
Notation call := (@call E).
Notation Kern := (@Kern E).
Context {PR : Procs E}.

(** What a thread in phase [ph] finds when it runs. *)
Record fits (ph : phase) (m : Machine) (e : E) : Prop := {
  fit_machine : machine_ok m;
  fit_marked : ph <> Boot -> marked m (gPhysPageBitMap e);
  fit_boot : ph = Boot -> tables m = ∅;
  fit_live : forall s, claims ph = Some s -> live m s;
  fit_active : forall s, ph = User s -> active m s
}.

(** Other tables, and the bytes of their frames, stay. *)
Definition untouched (mine : option positive) (m m' : Machine) : Prop :=
  forall q t, tables m !! q = Some t -> mine <> Some q ->
    tables m' !! q = Some t /\ forall j : nat, frame_of j ∈ frames t -> mainMemory m' !! j = mainMemory m !! j.
Definition persists (m m' : Machine) : Prop :=
  forall q t, tables m !! q = Some t -> exists t', tables m' !! q = Some t' /\ frames t' = frames t.

(** What the code of a thread may do in one go, from phase [ph] to [ph']. *)
Record guar (ph ph' : phase) (m : Machine) (e : E) (m' : Machine) (e' : E) : Prop := {
  g_fits : fits ph' m' e';
  g_untouched : untouched (own_table ph) m m';
  g_persists : persists m m';
  g_own : own ph' = own ph;
  g_claims : claims ph' = claims ph \/
    (claims ph = None /\ exists s p, claims ph' = Some s /\ as_pageTable s = Some p /\ tables m !! p = None);
  g_boot : ph' = Boot -> ph = Boot
}.

Definition keeps_frames (f : E -> E) : Prop := forall e, gPhysPageBitMap (f e) = gPhysPageBitMap e.

(** Code that keeps to it, and the calls it makes. *)
Fixpoint pok (ph : phase) (p : P) : Prop :=
  match p with
  | Return => True
  | Code f => forall cur nm m e, fits ph m e ->
      match f cur nm m e with
      | Ok (m', e', c) => exists ph', guar ph ph' m e m' e' /\ cok ph' c
      | Trap _ => True
      end
  end
with cok (ph : phase) (c : call) : Prop :=
  match c with
  | CGo p | CP _ p | CV _ p | CYield p | CDelSem _ p | CAcquire _ p | CRelease _ p | CHeld _ p | CDelLock _ p => pok ph p
  | CJump _ => exists s, ph = User s
  | CFork _ func created k =>
      ph <> Boot /\ pok Plain func /\ (forall t, pok ph (k t)) /\ forall t, keeps_frames (created t)
  | CFinish | CHalt => True
  | CNewSem _ created k => (forall s, pok ph (k s)) /\ forall s, keeps_frames (created s)
  | CNewLock k => forall lk, pok ph (k lk)
  | CSetSpace s p => ph = Holding s /\ pok (Ready s) p
  end.

(** ** The invariant *)

Fixpoint stk_ok (ph : phase) (st : list (@frame E)) : Prop :=
  match st with
  | [] => True
  | FProg p :: st' => st' = [] /\ pok ph p
  | FRoot p :: st' => st' = [] /\ ph = Plain /\ pok Plain p
  | _ :: st' => stk_ok ph st'
  end.

Definition thread_ok (ph : phase) (th : Thread) : Prop := space th = own ph /\ stk_ok ph (stack th).

Definition exists_ (k : Kern) (t : tid) : Prop := is_Some (threads k !! t).

Definition threads_ok (ph : tid -> phase) (k : Kern) : Prop :=
  forall t th, threads k !! t = Some th -> thread_ok (ph t) th.

Definition active_ok (ph : tid -> phase) (k : Kern) : Prop :=
  exists_ k (currentThread k) /\ forall s, ph (currentThread k) = User s -> active (machine k) s.

(** The page tables and who has them, for the threads [D]. *)
Record base (ph : tid -> phase) (D : tid -> Prop) (m : Machine) (b : Bitmap.Bitmap) : Prop := {
  b_machine : machine_ok m;
  b_marked : forall t, D t -> ph t <> Boot -> marked m b;
  b_live : forall t s, D t -> claims (ph t) = Some s -> live m s;
  b_distinct : forall t u s s', D t -> D u -> t <> u -> claims (ph t) = Some s -> claims (ph u) = Some s' ->
    as_pageTable s <> as_pageTable s';
  b_boot : forall t, D t -> ph t = Boot -> tables m = ∅ /\ forall u, D u -> u = t
}.

Record sys (ph : tid -> phase) (k : Kern) : Prop := {
  sys_threads : threads_ok ph k;
  sys_active : active_ok ph k;
  sys_base : base ph (exists_ k) (machine k) (gPhysPageBitMap (extra k))
}.

(** ** The kernel's own moves

    [moves c ph k k']: no code has run; [c] is the thread whose registers
    may have been saved. *)

Definition same_user (th th' : @Thread E) : Prop :=
  userRegisters th' = userRegisters th /\ space th' = space th.

#[export] Instance same_user_preorder : PreOrder same_user.
Proof. split; [done |]. intros x y z [] []. split; congruence. Qed.

Record moves (c : tid) (ph : tid -> phase) (k k' : Kern) : Prop := {
  mv_exists : forall t, exists_ k' t -> exists_ k t;
  mv_memory : mainMemory (machine k') = mainMemory (machine k);
  mv_tables : tables (machine k') = tables (machine k);
  mv_tlb : tlb (machine k') = tlb (machine k);
  mv_frames : gPhysPageBitMap (extra k') = gPhysPageBitMap (extra k);
  mv_user : forall t th th', t <> c -> threads k !! t = Some th -> threads k' !! t = Some th' -> same_user th th';
  mv_threads : threads_ok ph k -> threads_ok ph k'
}.

Lemma moves_refl c ph k : moves c ph k k.
Proof. split; naive_solver. Qed.

Lemma moves_trans c ph k1 k2 k3 : moves c ph k1 k2 -> moves c ph k2 k3 -> moves c ph k1 k3.
Proof.
  intros [A1 A2 A3 A4 A5 A6 A7] [B1 B2 B3 B4 B5 B6 B7]. split; try congruence; [by eauto | | by eauto].
  intros t th th' Ht H1 H3. destruct (A1 t) as [th1 _]; [apply B1; by exists th' |].
  destruct (B1 t (mk_is_Some _ _ H3)) as [th2 H2]. etrans; [by apply (A6 t) | by apply (B6 t)].
Qed.

(** Also the page table registers, and who is current. *)
Definition stands (c : tid) (ph : tid -> phase) (k k' : Kern) : Prop :=
  moves c ph k k' /\ machine k' = machine k /\ currentThread k' = currentThread k /\
  (exists_ k (currentThread k) -> exists_ k' (currentThread k)).

Lemma stands_trans c ph k1 k2 k3 : stands c ph k1 k2 -> stands c ph k2 k3 -> stands c ph k1 k3.
Proof.
  intros (?&?&Hc1&H1) (?&?&Hc2&H2). split; [by eapply moves_trans |]. split; [congruence |]. split; [congruence |].
  rewrite Hc1 in H2. auto.
Qed.

Lemma stands_active c ph k k' : stands c ph k k' -> active_ok ph k -> active_ok ph k'.
Proof. intros (_ & Hm & Hc & He) [H1 H2]. unfold active_ok in *. rewrite Hm, Hc. auto. Qed.

(** A record update that leaves threads, machine and data alone. *)
Lemma stands_same c ph (k k' : Kern) : threads k' = threads k -> machine k' = machine k ->
  gPhysPageBitMap (extra k') = gPhysPageBitMap (extra k) -> currentThread k' = currentThread k -> stands c ph k k'.
Proof.
  intros Ht Hm He Hc. split; [|unfold exists_; by rewrite Ht]. split; unfold exists_, threads_ok; rewrite ?Ht, ?Hm; try done. naive_solver.
Qed.

Lemma stands_upd c ph t f (k k' : Kern) : upd_thread t f k = Ok k' ->
  (forall th, thread_ok (ph t) th -> thread_ok (ph t) (f th)) ->
  (t <> c -> forall th, same_user th (f th)) -> stands c ph k k'.
Proof.
  unfold upd_thread, get_thread. destruct (threads k !! t) as [th|] eqn:Et; [|done]. cbn [obind]. intros [= <-] Hf Hr.
  assert (forall u, exists_ k u -> exists_ (set_threads (<[t := f th]> (threads k)) k) u) as Hex.
  { intros u [x Hx]. unfold exists_. cbn [threads set_threads]. destruct (decide (t = u)) as [<-|Hne];
      [by rewrite lookup_insert_eq; eexists | rewrite lookup_insert_ne by done; by exists x]. }
  split; [|split_and!; [done | done | apply Hex]]. split; try done; cbn [threads set_threads].
  - intros u [th' Hu]. unfold exists_. cbn [threads set_threads] in Hu.
    destruct (decide (t = u)) as [<-|Hne]; [by exists th |]. rewrite lookup_insert_ne in Hu by done. by exists th'.
  - intros u th1 th2 Hu H1 H2. destruct (decide (t = u)) as [<-|Hne].
    + rewrite lookup_insert_eq in H2. injection H2 as <-. rewrite Et in H1. injection H1 as <-. by apply Hr.
    + rewrite lookup_insert_ne in H2 by done. by simplify_eq.
  - intros H u th' Hu. cbn [threads set_threads] in Hu. destruct (decide (t = u)) as [<-|Hne].
    + rewrite lookup_insert_eq in Hu. injection Hu as <-. by apply Hf, H.
    + rewrite lookup_insert_ne in Hu by done. by apply H.
Qed.

Lemma setStatus_stands c ph st t (k k' : Kern) : setStatus st t k = Ok k' -> stands c ph k k'.
Proof. intros E. eapply stands_upd; [exact E | done | done]. Qed.

(** The stack of the current thread is replaced. *)
Lemma set_stack_stands c ph st (k k' : Kern) : set_stack st k = Ok k' -> stk_ok (ph (currentThread k)) st ->
  stands c ph k k'.
Proof. intros E Hst. eapply stands_upd; [exact E | intros th [Hs _]; done | done]. Qed.

Lemma ReadyToRun_stands c ph t (k k' : Kern) : ReadyToRun t k = Ok k' -> stands c ph k k'.
Proof.
  unfold ReadyToRun. intros E. destruct (is_off k); [|done]. cbn [assert_ obind] in E.
  apply obind_Ok in E as (k1 & E1 & E). apply obind_Ok in E as (l & _ & E). injection E as <-.
  eapply stands_trans; [by eapply setStatus_stands | by apply stands_same].
Qed.

Lemma FindNextToRun_stands c ph n (k k' : Kern) : FindNextToRun k = Ok (n, k') -> stands c ph k k'.
Proof.
  unfold FindNextToRun. intros E. destruct (is_off k); [|done]. cbn [assert_ obind] in E.
  destruct (readyList k) as [|r l]; [injection E as _ <-; by apply stands_same |].
  apply obind_Ok in E as ([t l'] & _ & E). injection E as _ <-. by apply stands_same.
Qed.

Lemma V_stands c ph s (k k' : Kern) : V s k = Ok k' -> stands c ph k k'.
Proof.
  unfold V. cbn [SetLevel]. intros E. apply obind_Ok in E as (x & _ & E). apply obind_Ok in E as (k1 & E1 & E).
  apply obind_Ok in E as (x1 & _ & E). injection E as <-.
  assert (stands c ph k k1) as H1.
  { destruct (queue x) as [|y q]; [injection E1 as <-; by apply stands_same |].
    apply obind_Ok in E1 as ([t q'] & _ & E1). eapply stands_trans; [|by eapply ReadyToRun_stands]. by apply stands_same. }
  eapply stands_trans; [exact H1 | by apply stands_same].
Qed.

Lemma Interrupt_V_stands c ph s (k k' : Kern) : Interrupt_V s k = Ok k' -> stands c ph k k'.
Proof.
  unfold Interrupt_V. intros E. apply obind_Ok in E as (k1 & E1 & E). injection E as <-.
  eapply stands_trans; [|eapply stands_trans; [by eapply V_stands |]]; by apply stands_same.
Qed.

(** ** The context switch *)

Lemma CheckToBeDestroyed_stands c ph (k k' : Kern) : CheckToBeDestroyed k = Ok k' -> stands c ph k k'.
Proof.
  unfold CheckToBeDestroyed. destruct (toBeDestroyed k) as [t|]; [|intros [= <-]; by apply stands_same].
  unfold delete_Thread. intros E. apply obind_Ok in E as (k1 & E1 & E). injection E as <-.
  apply obind_Ok in E1 as (th & _ & E1). destruct (negb _) eqn:Hne; [|done]. injection E1 as <-.
  apply negb_true_iff, bool_decide_eq_false in Hne.
  split; [|split_and!; [done | done | intros [x Hx]; exists x; cbn; by rewrite lookup_delete_ne]].
  split; try done; unfold exists_, threads_ok; cbn [threads set_threads set_tbd].
  - intros u [th' Hu]. apply lookup_delete_Some in Hu as [_ Hu]. by exists th'.
  - intros u th1 th2 _ H1 H2. apply lookup_delete_Some in H2 as [_ H2]. by simplify_eq.
  - intros H u th' Hu. apply lookup_delete_Some in Hu as [_ Hu]. by apply H.
Qed.

Lemma SaveUserState_stands ph t (k k' : Kern) : SaveUserState t k = Ok k' -> stands t ph k k'.
Proof.
  unfold SaveUserState. intros E. apply obind_Ok in E as (th & Et & E). apply obind_Ok in E as (r & _ & E).
  apply (stands_upd t ph t (with_regs r)); [|done | done]. unfold upd_thread. rewrite Et. exact E.
Qed.

(** [RestoreUserState] writes registers. *)
Lemma restored_registers (l : list Z) (regs : list Z) (m m' : Machine) :
  ofold (fun m i => let! v := arr_get regs i in WriteRegister m i v) m l = Ok m' ->
  exists r, m' = set_registers m r.
Proof.
  revert m. induction l as [|i l IH]; intros m; cbn [ofold]; [intros [= <-]; exists (registers m); by destruct m |].
  intros E. apply obind_Ok in E as (m1 & E1 & E). apply obind_Ok in E1 as (v & _ & E1).
  apply WriteRegister_registers in E1 as [r1 ->]. apply IH in E as [r ->]. by exists r.
Qed.

Lemma Run_after_moves c ph t (k k' : Kern) : Run_after t k = Ok k' ->
  moves c ph k k' /\ currentThread k' = currentThread k /\
  (threads_ok ph k -> t = currentThread k -> active_ok ph k').
Proof.
  unfold Run_after. intros E. destruct (is_off k); [|done]. cbn [assert_ obind] in E.
  apply obind_Ok in E as (k1 & E1 & E). apply obind_Ok in E as (th & Eth & E).
  apply (CheckToBeDestroyed_stands c ph) in E1 as (H1 & Hm1 & Hc1 & _).
  unfold get_thread in Eth. destruct (threads k1 !! t) as [th'|] eqn:Et; [|done]. injection Eth as ->.
  destruct (space th) as [s|] eqn:Es.
  - apply obind_Ok in E as (k2 & E2 & E). injection E as <-. unfold RestoreUserState in E2.
    apply obind_Ok in E2 as (th2 & _ & E2). apply obind_Ok in E2 as (m & Em & E2). injection E2 as <-.
    apply restored_registers in Em as [r ->]. split; [|split; [done |]].
    + eapply moves_trans; [exact H1 |]. split; try done. naive_solver.
    + intros Hok ->. split; [exists th; cbn [currentThread set_machine threads]; by rewrite Hc1 |].
      intros s' Hs'. destruct (mv_threads _ _ _ _ H1 Hok _ _ Et) as [Hsp _].
      cbn [currentThread set_machine] in Hs'. rewrite Hc1 in Hs'. rewrite Hs', Es in Hsp. injection Hsp as ->. done.
  - injection E as <-. split; [done |]. split; [done |]. intros Hok ->.
    split; [exists th; by rewrite Hc1 |]. intros s' Hs'. rewrite Hc1 in Hs'.
    destruct (mv_threads _ _ _ _ H1 Hok _ _ Et) as [Hsp _]. by rewrite Hs', Es in Hsp.
Qed.

(** In the new thread: the page table registers are its own. *)
Lemma resume_moves c ph (k k' : Kern) : threads_ok ph k -> resume k = Ok k' -> moves c ph k k' /\ active_ok ph k'.
Proof.
  intros Hok. unfold resume, get_thread. destruct (threads k !! currentThread k) as [th|] eqn:Et; [|done]. cbn [obind].
  destruct (Hok _ _ Et) as [Hsp Hst]. destruct (stack th) as [|[p|p|l|s l|lk|] st]; try done; cbn [stk_ok] in Hst.
  - destruct Hst as (-> & Hph & Hp). intros E. apply obind_Ok in E as (k1 & E1 & E). unfold Begin in E1.
    destruct (bool_decide _); [|done]. cbn [assert_ obind] in E1. apply obind_Ok in E1 as (k0 & E0 & E1). injection E1 as <-.
    apply (CheckToBeDestroyed_stands c ph) in E0 as (H0 & _ & Hc0 & He0).
    apply (set_stack_stands c ph) in E as (H2 & Hm2 & Hc2 & He2).
    2:{ cbn [SetLevel snd set_level currentThread stk_ok]. by rewrite Hc0, Hph. }
    split; [by eapply moves_trans; [|exact H2]; eapply moves_trans; [exact H0 |]; apply (stands_same c ph) |].
    cbn [SetLevel snd set_level currentThread] in Hc2, He2. split.
    + rewrite Hc2. apply He2. unfold exists_ in *. cbn [set_level threads]. rewrite Hc0. apply He0. by exists th.
    + intros s' Hs'. rewrite Hc2, Hc0, Hph in Hs'. discriminate Hs'.
  - intros E. apply obind_Ok in E as (k1 & E1 & E). apply obind_Ok in E as (k2 & E2 & E). injection E as <-.
    apply (Run_after_moves c ph) in E1 as (H1 & Hc1 & Ha). apply (set_stack_stands c ph) in E2.
    2:{ by rewrite Hc1. }
    assert (stands c ph k1 (set_level l k2)) as Hs by (eapply stands_trans; [exact E2 | by apply stands_same]).
    split; [by eapply moves_trans; [exact H1 | apply Hs] |]. eapply stands_active; [exact Hs | by apply Ha].
  - intros E. apply (Run_after_moves c ph) in E as (H1 & Hc1 & Ha). split; [done | by apply Ha].
Qed.

Lemma Run_moves ph n fin (k k' : Kern) : threads_ok ph k -> Run n fin k = Ok k' ->
  moves (currentThread k) ph k k' /\ active_ok ph k'.
Proof.
  intros Hok E. unfold Run in E. apply obind_Ok in E as (k3 & E3 & E). unfold Run_before in E3.
  destruct (is_off k); [|done]. cbn [assert_ obind] in E3.
  apply obind_Ok in E3 as (k1 & E1 & E3). apply obind_Ok in E3 as (th & Eth & E3). apply obind_Ok in E3 as (k2 & E2 & E3).
  assert (stands (currentThread k) ph k k1) as H1.
  { destruct fin; [|injection E1 as <-; by apply stands_same]. destruct (bool_decide _); [|done].
    injection E1 as <-. by apply stands_same. }
  assert (stands (currentThread k) ph k1 k2) as H2.
  { destruct (space th); [exact (SaveUserState_stands ph _ _ _ E2) | injection E2 as <-; by apply stands_same]. }
  apply (setStatus_stands (currentThread k) ph) in E3.
  assert (moves (currentThread k) ph k k3) as H3.
  { eapply moves_trans; [apply H1 |]. eapply moves_trans; [apply H2 |]. eapply moves_trans; [|apply E3].
    split; try done. naive_solver. }
  apply (resume_moves (currentThread k) ph) in E as [H4 Ha]; [|by apply (mv_threads _ _ _ _ H3)].
  split; [by eapply moves_trans | done].
Qed.

(** Any move ends with the invariant. *)
Definition switches (ph : tid -> phase) (k k' : Kern) : Prop :=
  moves (currentThread k) ph k k' /\ (active_ok ph k -> active_ok ph k').

Lemma stands_switches ph k k' : stands (currentThread k) ph k k' -> switches ph k k'.
Proof. intros H. split; [apply H | by eapply stands_active]. Qed.

Lemma switches_after ph k k1 k' : stands (currentThread k) ph k k1 -> switches ph k1 k' -> switches ph k k'.
Proof.
  intros Hst [H2 Ha]. pose proof Hst as (H1 & _ & Hc & _). unfold switches in *. rewrite Hc in H2.
  split; [by eapply moves_trans |]. intros H. by apply Ha, (stands_active _ _ _ _ Hst).
Qed.

Lemma Sleep_loop_switches ph fin (k k' : Kern) : threads_ok ph k -> Sleep_loop fin k = Ok k' -> switches ph k k'.
Proof.
  intros Hok. unfold Sleep_loop. intros E. apply obind_Ok in E as ([n k1] & E1 & E).
  apply (FindNextToRun_stands (currentThread k) ph) in E1. destruct n as [n|].
  - apply (switches_after ph k (set_mode Executing k1)).
    { eapply stands_trans; [exact E1 | by apply stands_same]. }
    apply (Run_moves ph) in E as [H Ha]; [by split |]. exact (mv_threads _ _ _ _ (proj1 E1) Hok).
  - injection E as <-. apply stands_switches. eapply stands_trans; [exact E1 | by apply stands_same].
Qed.

Lemma Sleep_switches ph t fin (k k' : Kern) : threads_ok ph k -> Sleep t fin k = Ok k' -> switches ph k k'.
Proof.
  intros Hok E. unfold Sleep in E. destruct (bool_decide _); [|done]. destruct (is_off k); [|done]. cbn [assert_ obind] in E.
  apply obind_Ok in E as (k1 & E1 & E). apply (setStatus_stands (currentThread k) ph) in E1.
  eapply switches_after; [exact E1 |]. eapply Sleep_loop_switches; [exact (mv_threads _ _ _ _ (proj1 E1) Hok) | exact E].
Qed.

Lemma Yield_switches ph (k k' : Kern) : threads_ok ph k -> Yield (currentThread k) k = Ok k' -> switches ph k k'.
Proof.
  intros Hok E. unfold Yield in E. cbn [SetLevel] in E. destruct (bool_decide _); [|done]. cbn [assert_ obind] in E.
  apply obind_Ok in E as ([n k1] & E1 & E). apply (FindNextToRun_stands (currentThread k) ph) in E1.
  assert (stands (currentThread k) ph k k1) as H1 by (eapply stands_trans; [|exact E1]; by apply stands_same).
  destruct n as [n|].
  2:{ injection E as <-. apply stands_switches. eapply stands_trans; [exact H1 | by apply stands_same]. }
  apply obind_Ok in E as (th & Eth & E). apply obind_Ok in E as (k2 & E2 & E). apply obind_Ok in E as (k3 & E3 & E).
  assert (threads_ok ph k1) as Hok1 by exact (mv_threads _ _ _ _ (proj1 H1) Hok).
  unfold get_thread in Eth. destruct (threads k1 !! currentThread k) as [th'|] eqn:Et; [|done]. injection Eth as ->.
  apply (set_stack_stands (currentThread k) ph) in E2.
  2:{ rewrite (proj1 (proj2 (proj2 H1))). apply (Hok1 _ _ Et). }
  apply (ReadyToRun_stands (currentThread k) ph) in E3.
  assert (stands (currentThread k) ph k k3) as H3 by (eapply stands_trans; [|exact E3]; by eapply stands_trans).
  eapply switches_after; [exact H3 |].
  apply (Run_moves ph) in E as [H Ha]; [by split | exact (mv_threads _ _ _ _ (proj1 H3) Hok)].
Qed.

Lemma P_loop_switches ph s l st (k k' : Kern) : threads_ok ph k -> stk_ok (ph (currentThread k)) st ->
  P_loop s l st k = Ok k' -> switches ph k k'.
Proof.
  intros Hok Hst E. unfold P_loop in E. apply obind_Ok in E as (x & _ & E). destruct (value x =? 0).
  - apply obind_Ok in E as (q & _ & E). eapply switches_after; [|eapply Sleep_switches; [|exact E]; done]. by apply stands_same.
  - apply obind_Ok in E as (k1 & E1 & E). injection E as <-. apply stands_switches.
    apply (set_stack_stands (currentThread k) ph) in E1; [|done].
    eapply stands_trans; [|eapply stands_trans; [exact E1 |]]; by apply stands_same.
Qed.

(** ** A call of the current thread *)

(** The invariant while the stack of the current thread is out of date. *)
Record between (ph : tid -> phase) (k : Kern) : Prop := {
  bt_threads : forall t th, threads k !! t = Some th ->
    space th = own (ph t) /\ (t <> currentThread k -> stk_ok (ph t) (stack th));
  bt_active : active_ok ph k;
  bt_base : base ph (exists_ k) (machine k) (gPhysPageBitMap (extra k))
}.

(** Memory, the tables and the registers saved for other threads. *)
Definition private (c : tid) (k k' : Kern) : Prop :=
  mainMemory (machine k') = mainMemory (machine k) /\ tables (machine k') = tables (machine k) /\
  forall t th th', t <> c -> threads k !! t = Some th -> threads k' !! t = Some th' -> same_user th th'.

Lemma moves_private c ph k k' : moves c ph k k' -> private c k k'.
Proof. by intros []. Qed.

Lemma base_moves c ph k k' : moves c ph k k' -> base ph (exists_ k) (machine k) (gPhysPageBitMap (extra k)) ->
  base ph (exists_ k') (machine k') (gPhysPageBitMap (extra k')).
Proof.
  intros [Hex Hmem Htab Htlb Hfr _ _] [[M1 M2 M3 M4] Hmk Hl Hd Hb]. rewrite Hfr. split; rewrite ?Htab.
  - split; rewrite ?Htab, ?Htlb; try done. unfold mem_wf in *. by rewrite Hmem.
  - intros t Ht Hph. unfold marked. rewrite Htab. by apply (Hmk t (Hex t Ht)).
  - intros t s Ht Hc. destruct (Hl t s (Hex t Ht) Hc) as (p & tb & ?). exists p, tb. by rewrite Htab.
  - intros t u s s' Ht Hu. apply (Hd t u); by apply Hex.
  - intros t Ht Hph. destruct (Hb t (Hex t Ht) Hph) as [Hemp Hall]. split; [done |]. intros u Hu. by apply Hall, Hex.
Qed.

Lemma sys_switches ph k k' : sys ph k -> switches ph k k' -> sys ph k' /\ private (currentThread k) k k'.
Proof.
  intros [H1 H2 H3] [Hm Ha]. split; [|by eapply moves_private].
  split; [exact (mv_threads _ _ _ _ Hm H1) | by apply Ha | by eapply base_moves].
Qed.

Lemma between_stack ph st (k k1 : Kern) : between ph k -> stk_ok (ph (currentThread k)) st -> set_stack st k = Ok k1 ->
  sys ph k1 /\ stands (currentThread k) ph k k1.
Proof.
  intros [Hth Ha Hb] Hst E. pose proof (set_stack_stands (currentThread k) ph st k k1 E Hst) as Hs.
  split; [|done]. split; [|by eapply stands_active | eapply base_moves; [apply Hs | done]].
  unfold set_stack, upd_thread, get_thread in E. destruct (threads k !! currentThread k) as [th|] eqn:Et; [|done].
  injection E as <-. intros t th' Ht. cbn [threads set_threads] in Ht.
  destruct (decide (t = currentThread k)) as [->|Hne].
  - rewrite lookup_insert_eq in Ht. injection Ht as <-. split; [apply (Hth _ _ Et) | done].
  - rewrite lookup_insert_ne in Ht by done. destruct (Hth _ _ Ht) as [? Hs']. split; [done | by apply Hs'].
Qed.

(** The stack is brought up to date, and then the kernel moves. *)
Lemma between_then ph st (k k' : Kern) (op : Kern -> outcome Kern) :
  between ph k -> stk_ok (ph (currentThread k)) st ->
  (forall k1 k2, sys ph k1 -> currentThread k1 = currentThread k -> op k1 = Ok k2 -> switches ph k1 k2) ->
  (let! k1 := set_stack st k in op k1) = Ok k' -> sys ph k' /\ private (currentThread k) k k'.
Proof.
  intros Hb Hst Hop E. apply obind_Ok in E as (k1 & E1 & E).
  destruct (between_stack ph st k k1 Hb Hst E1) as [Hs1 Hst1].
  pose proof (Hop k1 k' Hs1 (proj1 (proj2 (proj2 Hst1))) E) as Hsw.
  destruct (sys_switches ph k1 k' Hs1 Hsw) as [Hs _]. split; [done |].
  eapply moves_private. exact (proj1 (switches_after ph k k1 k' Hst1 Hsw)).
Qed.

(** The kernel's data may change, the frames stay. *)
Lemma between_same ph (k k1 : Kern) : between ph k -> threads k1 = threads k -> machine k1 = machine k ->
  gPhysPageBitMap (extra k1) = gPhysPageBitMap (extra k) -> currentThread k1 = currentThread k -> between ph k1.
Proof.
  intros [Hth Ha Hb] E1 E2 E3 E4.
  split; unfold active_ok, exists_ in *; rewrite ?E1, ?E2, ?E3, ?E4; done.
Qed.

Definition set_phase (ph : tid -> phase) (t : tid) (x : phase) : tid -> phase :=
  fun u => if decide (u = t) then x else ph u.

Lemma set_phase_eq ph t x : set_phase ph t x t = x.
Proof. unfold set_phase. by rewrite decide_True. Qed.
Lemma set_phase_ne ph t u x : u <> t -> set_phase ph t x u = ph u.
Proof. intros. unfold set_phase. by rewrite decide_False. Qed.

Lemma between_new_thread ph t nm (k : Kern) : between ph k -> threads k !! t = None -> ph (currentThread k) <> Boot ->
  between (set_phase ph t Plain) (set_threads (<[t := new_Thread nm]> (threads k)) k).
Proof.
  intros [Hth [Hc Ha] Hb] Ht Hboot.
  assert (currentThread k <> t) as Hct by (intros E; rewrite <- E in Ht; destruct Hc as [x Hc]; congruence).
  assert (forall u, exists_ (set_threads (<[t := new_Thread nm]> (threads k)) k) u -> u = t \/ u <> t /\ exists_ k u) as Hex.
  { intros u [th Hu]. cbn [threads set_threads] in Hu. destruct (decide (u = t)) as [->|Hne]; [by left |].
    rewrite lookup_insert_ne in Hu by done. right. split; [done | by exists th]. }
  split.
  - intros u th Hu. cbn [threads set_threads] in Hu. destruct (decide (u = t)) as [->|Hne].
    + rewrite lookup_insert_eq in Hu. injection Hu as <-. by rewrite set_phase_eq.
    + rewrite lookup_insert_ne in Hu by done. rewrite set_phase_ne by done. exact (Hth u th Hu).
  - split; [|intros s; cbn [currentThread set_threads machine]; rewrite set_phase_ne by done; apply Ha].
    destruct Hc as [x Hc]. exists x. cbn [threads set_threads currentThread]. by rewrite lookup_insert_ne.
  - destruct Hb as [HM Hmk Hl Hd Hbt]. split; [done | by intros _ _ _; apply (Hmk _ Hc) | | |].
    + intros u s [->|[Hne Hu]]%Hex; [by rewrite set_phase_eq | rewrite set_phase_ne by done; by apply Hl].
    + intros u v s s' [->|[Hne Hu]]%Hex [->|[Hne' Hv]]%Hex Huv; rewrite ?set_phase_eq by done; try done.
      rewrite !set_phase_ne by done. by apply Hd.
    + intros u [->|[Hne Hu]]%Hex; [by rewrite set_phase_eq |]. rewrite set_phase_ne by done. intros Hbo.
      exfalso. destruct (Hbt u Hu Hbo) as [_ Hall]. pose proof (Hall _ Hc) as Heq. rewrite Heq in Hboot. done.
Qed.

Lemma between_set_space ph s (k k1 : Kern) : between ph k -> ph (currentThread k) = Holding s ->
  upd_thread (currentThread k) (with_space (Some s)) k = Ok k1 ->
  between (set_phase ph (currentThread k) (Ready s)) k1 /\ private (currentThread k) k k1 /\
  currentThread k1 = currentThread k.
Proof.
  intros [Hth [Hc Ha] Hb] Hph E. unfold upd_thread, get_thread in E.
  destruct (threads k !! currentThread k) as [th|] eqn:Et; [|done]. injection E as <-.
  assert (forall u, exists_ (set_threads (<[currentThread k := with_space (Some s) th]> (threads k)) k) u -> exists_ k u) as Hex.
  { intros u [th' Hu]. cbn [threads set_threads] in Hu. destruct (decide (u = currentThread k)) as [->|Hne]; [done |].
    rewrite lookup_insert_ne in Hu by done. by exists th'. }
  assert (forall u, claims (set_phase ph (currentThread k) (Ready s) u) = claims (ph u)) as Hcl.
  { intros u. unfold set_phase. destruct (decide (u = currentThread k)) as [->|]; [by rewrite Hph | done]. }
  split; [split|split; [|done]].
  - intros u th' Hu. cbn [threads set_threads currentThread] in Hu |- *. destruct (decide (u = currentThread k)) as [->|Hne].
    + rewrite lookup_insert_eq in Hu. injection Hu as <-. by rewrite set_phase_eq.
    + rewrite lookup_insert_ne in Hu by done. rewrite set_phase_ne by done. exact (Hth u th' Hu).
  - split; [exists (with_space (Some s) th); apply lookup_insert_eq |].
    intros s'. cbn [currentThread set_threads]. by rewrite set_phase_eq.
  - destruct Hb as [HM Hmk Hl Hd Hbt]. split; [done | | | |].
    + intros u Hu. destruct (decide (u = currentThread k)) as [->|Hne]; [|rewrite set_phase_ne by done; apply Hmk, Hex, Hu].
      intros _. apply (Hmk _ Hc). by rewrite Hph.
    + intros u s' Hu. rewrite Hcl. apply Hl, Hex, Hu.
    + intros u v s1 s2 Hu Hv Huv. rewrite !Hcl. apply Hd; [apply Hex, Hu | apply Hex, Hv | done].
    + intros u Hu. destruct (decide (u = currentThread k)) as [->|Hne]; [by rewrite set_phase_eq |].
      rewrite set_phase_ne by done. intros Hbo. destruct (Hbt u (Hex u Hu) Hbo) as [Hemp Hall]. split; [done |].
      intros v Hv. by apply Hall, Hex.
  - split; [done |]. split; [done |]. intros t th1 th2 Hne H1 H2. cbn [threads set_threads] in H2.
    rewrite lookup_insert_ne in H2 by done. by simplify_eq.
Qed.

Lemma private_trans c (k1 k2 k3 : Kern) : (forall t, exists_ k1 t -> exists_ k3 t -> exists_ k2 t) ->
  private c k1 k2 -> private c k2 k3 -> private c k1 k3.
Proof.
  intros Hex (A1 & A2 & A3) (B1 & B2 & B3). split; [congruence |]. split; [congruence |].
  intros t th th' Ht H1 H3. destruct (Hex t) as [th2 H2]; [by exists th | by exists th' |].
  etrans; [by apply (A3 t) | by apply (B3 t)].
Qed.

(** Nothing after the stack is up to date. *)
Lemma between_done ph p (k k' : Kern) : between ph k -> pok (ph (currentThread k)) p ->
  set_stack [FProg p] k = Ok k' -> sys ph k' /\ private (currentThread k) k k'.
Proof.
  intros Hb Hp E. destruct (between_stack ph [FProg p] k k' Hb ltac:(by split) E) as [Hs Hst].
  split; [done |]. eapply moves_private, Hst.
Qed.

Lemma between_V ph p s (k k' : Kern) : between ph k -> pok (ph (currentThread k)) p ->
  (let! k1 := set_stack [FProg p] k in V s k1) = Ok k' -> sys ph k' /\ private (currentThread k) k k'.
Proof.
  intros Hb Hp. apply between_then; [done | by split |]. intros k1 k2 _ _ E.
  apply stands_switches. by eapply V_stands.
Qed.

Lemma between_Fork ph t func p (k k' : Kern) : between ph k -> pok (ph (currentThread k)) p ->
  ph t = Plain -> pok Plain func ->
  (let! k1 := set_stack [FProg p] k in Fork t func k1) = Ok k' -> sys ph k' /\ private (currentThread k) k k'.
Proof.
  intros Hb Hp Ht Hf. apply between_then; [done | by split |]. intros k1 k2 _ _ E. unfold Fork in E.
  apply obind_Ok in E as (k3 & E1 & E). cbn [SetLevel] in E. apply obind_Ok in E as (k4 & E2 & E). injection E as <-.
  apply stands_switches. eapply stands_trans.
  { eapply stands_upd; [exact E1 | | done]. intros th [Hsp _]. split; [done |]. cbn [stack with_stack stk_ok]. by rewrite Ht. }
  eapply stands_trans; [by apply (stands_same _ _ k3 (set_level IntOff k3)) |].
  eapply stands_trans; [by eapply ReadyToRun_stands | by apply stands_same].
Qed.

Lemma between_P ph s st (k k' : Kern) : between ph k -> stk_ok (ph (currentThread k)) st ->
  P_start s st k = Ok k' -> sys ph k' /\ private (currentThread k) k k'.
Proof.
  intros Hb Hst E. unfold P_start in E. cbn [SetLevel] in E.
  assert (between ph (set_level IntOff k)) as Hb' by (by apply (between_same ph k)).
  destruct (between_stack ph (FP s (level k) :: st) _ _ Hb' Hst E) as [Hs Hst']. split; [done |].
  exact (moves_private _ _ _ _ (proj1 Hst')).
Qed.

(** What a step leaves to the other threads. *)
Lemma do_call_sys ph c (k k' : Kern) : between ph k -> cok (ph (currentThread k)) c ->
  (forall l s, pok (User s) (procs l)) ->
  do_call c [] k = Ok k' -> exists ph', sys ph' k' /\ private (currentThread k) k k'.
Proof.
  intros Hb Hc Hlabels E.
  destruct c as [p|l|s p|s p|p|nm func created kont| | |v created kont|s p|kont|lk p|lk p|lk p|lk p|s p];
    cbn [do_call cok] in E, Hc.
  - exists ph. exact (between_done ph p k k' Hb Hc E).
  - exists ph. apply (between_done ph (procs l)); [done | | done]. destruct Hc as [s ->]. apply Hlabels.
  - exists ph. apply (between_P ph (SUser s) [FProg p]); [done | by split | done].
  - exists ph. exact (between_V ph p _ k k' Hb Hc E).
  - exists ph. apply (between_then ph [FProg p] k k' (Yield (currentThread k))); [done | by split | | done].
    intros k1 k2 Hs Hcur E1. rewrite <- Hcur in E1. by apply Yield_switches; [apply Hs |].
  - destruct Hc as (Hboot & Hf & Hk & Hcr). set (t := fresh (dom (threads k))) in *.
    assert (threads k !! t = None) as Ht by apply not_elem_of_dom, is_fresh.
    pose proof (between_new_thread ph t nm k Hb Ht Hboot) as Hb1.
    set (k1 := set_threads (<[t := new_Thread nm]> (threads k)) k) in *.
    assert (currentThread k <> t) as Hct.
    { intros Et. destruct (proj1 (bt_active _ _ Hb)) as [x Hx]. by rewrite Et, Ht in Hx. }
    exists (set_phase ph t Plain).
    apply (between_Fork (set_phase ph t Plain) t func (kont t) (set_extra (created t (extra k)) k1)) in E as [Hs Hp].
    + split; [done |]. destruct Hp as (A1 & A2 & A3). split; [done |]. split; [done |].
      intros u th th' Hu H1 H2. apply (A3 u th th'); [done | | done]. cbn [threads set_extra k1 set_threads].
      rewrite lookup_insert_ne; [done |]. intros ->. congruence.
    + apply (between_same _ k1); try done. apply Hcr.
    + cbn [currentThread set_extra k1 set_threads]. rewrite set_phase_ne by done. apply Hk.
    + apply set_phase_eq.
    + done.
  - exists ph. unfold Finish in E. cbn [SetLevel snd] in E. destruct (bool_decide _); [|done]. cbn [assert_ obind] in E.
    apply (between_then ph [FDead] (set_level IntOff k) k' (Sleep (currentThread k) true)) in E.
    + exact E.
    + by apply (between_same ph k).
    + done.
    + intros k1 k2 Hs _ E1. eapply Sleep_switches; [apply Hs | exact E1].
  - done.
  - exists ph. destruct Hc as [Hk Hcr]. eapply between_done in E as [Hs Hp]; [split; [exact Hs | exact Hp] | | apply Hk].
    apply (between_same ph k); try done. apply Hcr.
  - exists ph. apply obind_Ok in E as (x & _ & E).
    eapply between_done in E as [Hs Hp]; [split; [exact Hs | exact Hp] | | exact Hc]. by apply (between_same ph k).
  - exists ph. eapply between_done in E as [Hs Hp]; [split; [exact Hs | exact Hp] | | apply Hc]. by apply (between_same ph k).
  - exists ph. apply (between_P ph (SLock lk) [FAcquired lk; FProg p]); [done | by split | done].
  - exists ph. destruct (locks k !! lk) as [h|]; [|done]. destruct (bool_decide _); [|done]. cbn [assert_ obind] in E.
    eapply between_V in E as [Hs Hp]; [split; [exact Hs | exact Hp] | | exact Hc]. by apply (between_same ph k).
  - exists ph. destruct (locks k !! lk) as [h|]; [|done]. destruct (bool_decide _); [|done]. cbn [assert_ obind] in E.
    exact (between_done ph p k k' Hb Hc E).
  - exists ph. destruct (locks k !! lk) as [h|]; [|done]. apply obind_Ok in E as (x & _ & E).
    eapply between_done in E as [Hs Hp]; [split; [exact Hs | exact Hp] | | exact Hc]. by apply (between_same ph k).
  - destruct Hc as [Hph Hp]. apply obind_Ok in E as (k1 & E1 & E).
    destruct (between_set_space ph s k k1 Hb Hph E1) as (Hb1 & Hpr & Hcur).
    exists (set_phase ph (currentThread k) (Ready s)). eapply between_done in E as [Hs Hp1]; [|exact Hb1 |].
    2:{ by rewrite Hcur, set_phase_eq. }
    split; [done |]. rewrite Hcur in Hp1. eapply private_trans; [|exact Hpr | exact Hp1].
    intros t [th Ht] _. unfold upd_thread, get_thread in E1.
    destruct (threads k !! currentThread k) as [th0|] eqn:E0; [|done]. injection E1 as <-.
    destruct (decide (t = currentThread k)) as [->|Hne]; [by eexists; apply lookup_insert_eq |].
    exists th. cbn. by rewrite lookup_insert_ne.
Qed.

(** ** A step of the kernel *)

Lemma sys_fits ph (k : Kern) : sys ph k ->
  fits (ph (currentThread k)) (machine k) (extra k).
Proof.
  intros [Ht [Hc Ha] [HM Hmk Hl Hd Hb]]. split; [done | by apply (Hmk _ Hc) | | by intros s; apply (Hl _ s Hc) | exact Ha].
  intros Hboot. by apply (Hb _ Hc).
Qed.

Lemma persists_live m m' s : persists m m' -> live m s -> live m' s.
Proof.
  intros Hp (p & t & Hs & Ht & Hn). destruct (Hp p t Ht) as (t' & Ht' & Hf). exists p, t'.
  split; [done |]. split; [done |]. rewrite Hn. apply (f_equal length) in Hf. unfold frames in Hf.
  by rewrite !length_fmap in Hf; rewrite Hf.
Qed.

(** Code of the current thread has run. *)
Lemma between_code ph x (k : Kern) m e : sys ph k ->
  guar (ph (currentThread k)) x (machine k) (extra k) m e ->
  between (set_phase ph (currentThread k) x) (set_extra e (set_machine m k)).
Proof.
  intros [Ht [Hc Ha] [HM Hmk Hl Hd Hb]] [[G1 G5 G2 G3 G4] Gu Gp Go Gc Gb]. set (c := currentThread k) in *.
  assert (forall u, exists_ (set_extra e (set_machine m k)) u -> exists_ k u) as Hex by done.
  split.
  - intros u th Hu. destruct (Ht u th Hu) as [Hs Hst]. destruct (decide (u = c)) as [->|Hne].
    + rewrite set_phase_eq. split; [by rewrite Go |]. intros Hne. by destruct Hne.
    + rewrite set_phase_ne by done. done.
  - split; [exact Hc |]. intros s. change (currentThread (set_extra e (set_machine m k))) with c.
    rewrite set_phase_eq. apply G4.
  - split; [exact G1 | | | |].
    + intros u Hu. destruct (decide (u = c)) as [->|Hne]; [rewrite set_phase_eq; apply G5 |].
      rewrite set_phase_ne by done. intros Hbo. apply G5. intros ->. apply Hne. by apply (Hb c Hc (Gb eq_refl)).
    + intros u s Hu. destruct (decide (u = c)) as [->|Hne]; [rewrite set_phase_eq; apply G3 |].
      rewrite set_phase_ne by done. intros Hs. eapply persists_live; [exact Gp | by apply (Hl u)].
    + assert (forall u s s', u <> c -> exists_ k u -> claims x = Some s -> claims (ph u) = Some s' ->
        as_pageTable s <> as_pageTable s') as Hnew.
      { intros u s s' Hne Hu Hx Hs'. destruct Gc as [Gc|(Gc & s1 & p & Hs1 & Hp & Hfresh)].
        - rewrite Gc in Hx. apply (Hd c u); done.
        - rewrite Hs1 in Hx. injection Hx as <-. destruct (Hl u s' Hu Hs') as (p' & t & Hp' & Hlt & _). congruence. }
      intros u v s s' Hu Hv Huv. destruct (decide (u = c)) as [->|Hne].
      { rewrite set_phase_eq, set_phase_ne by done. by apply Hnew. }
      rewrite (set_phase_ne _ _ u) by done. destruct (decide (v = c)) as [->|Hne'].
      { rewrite set_phase_eq. intros H1 H2 Heq. by apply (Hnew u s' s). }
      rewrite set_phase_ne by done. by apply Hd.
    + intros u Hu. destruct (decide (u = c)) as [->|Hne].
      * rewrite set_phase_eq. intros ->. split; [by apply G2 |]. intros v Hv. by apply (Hb c Hc (Gb eq_refl)).
      * rewrite set_phase_ne by done. intros Hbo. exfalso. apply Hne. symmetry. by apply (Hb u Hu Hbo).
Qed.

(** A step leaves to every thread but the current one its registers, its
    page table and the bytes in its frames. *)
Record isolated (ph : tid -> phase) (k k' : Kern) : Prop := {
  iso_memory : untouched (own_table (ph (currentThread k))) (machine k) (machine k');
  iso_user : forall t th th', t <> currentThread k -> threads k !! t = Some th -> threads k' !! t = Some th' ->
    same_user th th'
}.

Lemma private_isolated ph (k k' : Kern) : private (currentThread k) k k' -> isolated ph k k'.
Proof. intros (Hm & Ht & Hr). split; [|done]. intros q t Hq _. rewrite Ht, Hm. done. Qed.

Lemma exec_top_sys ph (k k' : Kern) : (forall l s, pok (User s) (procs l)) ->
  sys ph k -> exec_top k = Ok k' -> exists ph', sys ph' k' /\ isolated ph k k'.
Proof.
  intros Hlabels Hsys E. unfold exec_top, get_thread in E.
  destruct (threads k !! currentThread k) as [th|] eqn:Et; [|done]. cbn [obind] in E.
  destruct (sys_threads _ _ Hsys _ _ Et) as [Hsp Hst].
  assert (forall k2, switches ph k k2 -> exists ph', sys ph' k2 /\ isolated ph k k2) as Hmove.
  { intros k2 Hsw. destruct (sys_switches ph k k2 Hsys Hsw) as [H1 H2]. exists ph. split; [done | by apply private_isolated]. }
  destruct (stack th) as [|[[|f]|p|l|s l|lk|] st]; try done; cbn [stk_ok] in Hst.
  - apply Hmove. unfold Finish in E. cbn [SetLevel snd] in E. destruct (bool_decide _); [|done]. cbn [assert_ obind] in E.
    apply obind_Ok in E as (k1 & E1 & E). eapply switches_after.
    { eapply stands_trans; [by apply (stands_same _ _ k (set_level IntOff k)) |]. by eapply set_stack_stands. }
    eapply Sleep_switches; [|exact E]. apply (set_stack_stands (currentThread k) ph) in E1 as [H1 _]; [|done].
    apply (mv_threads _ _ _ _ H1). apply Hsys.
  - destruct Hst as [-> Hp]. destruct (f _ _ _ _) as [[[m e] c]|] eqn:Ef; [|done]. cbn [obind] in E.
    cbn [pok] in Hp. specialize (Hp (currentThread k) (name th) _ _ (sys_fits ph k Hsys)). rewrite Ef in Hp. destruct Hp as (x & Hg & Hcok).
    pose proof (between_code ph x k m e Hsys Hg) as Hb.
    destruct (do_call_sys (set_phase ph (currentThread k) x) c _ k' Hb) as (ph' & Hs & Hpr); [|done|done|].
    { cbn [currentThread set_extra set_machine]. by rewrite set_phase_eq. }
    exists ph'. split; [done |]. destruct Hpr as (Hm & Htb & Hr). split; [|exact Hr].
    intros q t Hq Hmine. destruct (g_untouched _ _ _ _ _ _ Hg q t Hq Hmine) as [H1 H2]. by rewrite Htb, Hm.
  - apply Hmove. by eapply P_loop_switches; [apply Hsys | | exact E].
  - apply Hmove. apply stands_switches. eapply stands_trans; [|by eapply set_stack_stands]. by apply stands_same.
Qed.

(** Events whose devices leave the frames alone. *)
Definition event_ok (ev : @event E) : Prop :=
  match ev with
  | EvIrq _ device => forall e e', device e = Ok e' -> gPhysPageBitMap e' = gPhysPageBitMap e
  | _ => True
  end.

Lemma step_sys ph ev (k k' : Kern) : (forall l s, pok (User s) (procs l)) -> event_ok ev ->
  sys ph k -> step ev k = Ok k' -> exists ph', sys ph' k' /\ isolated ph k k'.
Proof.
  intros Hlabels Hev Hsys E.
  assert (forall k2, switches ph k k2 -> exists ph', sys ph' k2 /\ isolated ph k k2) as Hmove.
  { intros k2 Hsw. destruct (sys_switches ph k k2 Hsys Hsw) as [H1 H2]. exists ph. split; [done | by apply private_isolated]. }
  destruct ev as [| |s device|]; cbn [step event_ok] in *.
  - by apply exec_top_sys.
  - apply Hmove. apply Yield_switches; [apply Hsys | done].
  - apply Hmove, stands_switches. apply obind_Ok in E as (x & Hx & E).
    eapply stands_trans; [|by eapply Interrupt_V_stands]. apply stands_same; [done | done | by apply Hev | done].
  - apply Hmove. destruct (mode k) as [|fin]; [done |]. by eapply Sleep_loop_switches; [apply Hsys |].
Qed.

Lemma run_sys es ph (k k' : Kern) : (forall l s, pok (User s) (procs l)) -> Forall event_ok es ->
  sys ph k -> run es k = Ok k' -> exists ph', sys ph' k'.
Proof.
  intros Hlabels. revert ph k. induction es as [|ev es IH]; intros ph k Hes Hsys; cbn [run]; [intros [= <-]; by exists ph |].
  apply Forall_cons in Hes as [Hev Hes]. destruct (step ev k) as [k1|] eqn:E1; [|done]. cbn [obind]. intros E.
  destruct (step_sys ph ev k k1 Hlabels Hev Hsys E1) as (ph1 & Hs1 & _). by eapply IH.
Qed.

(** A thread that boots the kernel on a machine without page tables. *)
Lemma boot_sys nm p m e : pok Boot p -> machine_ok m -> tables m = ∅ ->
  sys (fun _ => Boot) (initial nm p m e).
Proof.
  intros Hp HM Htab. split.
  - intros t th Ht. cbn [threads initial] in Ht. apply lookup_singleton_Some in Ht as [_ <-]. split; [done |]. by split.
  - split; [|done]. eexists. apply lookup_singleton_eq.
  - split; [done | done | done | |].
    { intros t u s s' [th Ht] [th' Hu] Hne. exfalso. apply Hne. cbn [threads initial] in Ht, Hu.
      apply lookup_singleton_Some in Ht as [<- _], Hu as [<- _]. done. }
    intros t [th Ht] _. split; [done |]. intros u [th' Hu].
    cbn [threads initial] in Ht, Hu. apply lookup_singleton_Some in Ht as [<- _], Hu as [<- _]. done.
Qed.

End System.
End System.
