(* ===== verification/Isolation.v ===== *)
(** * The booted kernel keeps its processes apart

    Every program of Process.v satisfies the predicate [pok] of System.v in
    the phase of the thread that runs it, whatever the files on the host
    hold, whatever the host answers and whatever the user programs do; so
    the invariant of System.v holds of every state that [main] reaches. *)

From S2P Require Import Prelude Bitmap Machine Mips FileTable AddrSpace Threads Synch ProcTable Syscalls Process Confine System.

Module Isolation.
Import Machine Stub AddrSpace Threads Synch ProcTable Syscalls Process Confine System.

Section Isolation.
Context {W : Type} `{HH : Host W}.
Notation E := (Kdata W).
Notation P := (@prog E).
Notation call := (@call E).
Implicit Types (e : E) (m : Machine).

(** ** Rules *)

Lemma guar_same ph m e e' : fits ph m e -> gPhysPageBitMap e' = gPhysPageBitMap e -> guar ph ph m e m e'.
Proof.
  intros [H1 H2 H3 H4 H5] He. split; [split; rewrite ?He; done | done | | done | by left | done].
  intros q t Hq. by exists t.
Qed.

(** Code on the kernel's data. *)
Lemma pok_go ph (f : E -> outcome (E * call)) :
  (forall e e' c, f e = Ok (e', c) -> gPhysPageBitMap e' = gPhysPageBitMap e /\ cok ph c) -> pok ph (go f).
Proof.
  intros Hf cur nm m e Hfit. cbn. destruct (f e) as [[e' c]|] eqn:E1; [|done]. cbn [obind].
  destruct (Hf e e' c E1). exists ph. split; [by apply guar_same | done].
Qed.

Lemma pok_go_as ph (f : tid -> list Z -> E -> outcome (E * call)) :
  (forall cur nm e e' c, f cur nm e = Ok (e', c) -> gPhysPageBitMap e' = gPhysPageBitMap e /\ cok ph c) ->
  pok ph (go_as f).
Proof.
  intros Hf cur nm m e Hfit. cbn. destruct (f cur nm e) as [[e' c]|] eqn:E1; [|done]. cbn [obind].
  destruct (Hf cur nm e e' c E1). exists ph. split; [by apply guar_same | done].
Qed.

Lemma pok_do ph (c : call) : cok ph c -> pok ph (do_ c).
Proof. intros Hc. apply pok_go. by intros e e' c' [= <- <-]. Qed.

(** The running program is confined to its frames. *)
Definition same_frames (e e' : E) : Prop := gPhysPageBitMap e' = gPhysPageBitMap e.

#[export] Instance same_frames_rel : StepRel same_frames.
Proof. split; [|done..]. split; [done |]. intros x y z H1 H2. unfold same_frames in *. congruence. Qed.

Lemma fits_runs s m e : fits (User s) m e ->
  exists p F, as_pageTable s = Some p /\ numPages s = Z.of_nat (length F) /\ runs p F m.
Proof.
  intros [[M1 M2 M3 M4] _ _ Hl Ha]. destruct (Hl s eq_refl) as (p & t & Hp & Ht & Hn).
  destruct (Ha s eq_refl) as [A1 A2]. exists p, (frames t). unfold frames. rewrite length_fmap.
  split; [done |]. split; [done |]. split; [done | congruence | rewrite length_fmap; congruence | done |].
  exists t. split; [done |]. split; [by apply (M3 p) | done].
Qed.

Lemma confined_guar s p F m m' e e' : fits (User s) m e -> as_pageTable s = Some p ->
  numPages s = Z.of_nat (length F) -> runs p F m ->
  confined p F m m' -> same_frames e e' -> guar (User s) (User s) m e m' e'.
Proof.
  intros [[M1 M2 M3 M4] Hmk _ Hl Ha] Hp Hn [R1 R2 R3 R4 (t & Ht & Hok & HF)] [[C1 C2 C3 C4 (t' & Ht' & Hok' & HF')] Ctab Cmem] He.
  assert (forall q u, tables m' !! q = Some u -> exists u0, tables m !! q = Some u0 /\ frames u = frames u0 /\ table_ok u) as Hold.
  { intros q u Hu. destruct (decide (q = p)) as [->|Hne].
    - exists t. split; [done |]. rewrite Ht' in Hu. injection Hu as <-. split; [congruence | done].
    - exists u. rewrite Ctab in Hu by done. split; [done |]. split; [done | by apply (M3 q)]. }
  assert (persists m m') as Hper.
  { intros q u Hu. destruct (decide (q = p)) as [->|Hne].
    - exists t'. split; [done |]. rewrite Ht in Hu. injection Hu as <-. congruence.
    - exists u. by rewrite Ctab. }
  split; [split | | done | done | by left | done].
  - split; [done | done | |].
    + intros q u Hu. by destruct (Hold q u Hu) as (? & _ & _ & ?).
    + intros q r u v f Hqr Hu Hv. destruct (Hold q u Hu) as (u0 & Hu0 & -> & _), (Hold r v Hv) as (v0 & Hv0 & -> & _).
      by apply (M4 q r).
  - intros _. destruct (Hmk ltac:(done)) as (S & HS & Hin). exists S. rewrite He. split; [done |].
    intros q u f Hu. destruct (Hold q u Hu) as (u0 & Hu0 & -> & _). by apply (Hin q).
  - done.
  - intros s' [= <-]. apply (persists_live m m'); [done | by apply Hl].
  - intros s' [= <-]. split; congruence.
  - intros q u Hu Hq. cbn in Hq. assert (q <> p) as Hne by congruence. rewrite Ctab by done. split; [done |].
    intros j Hj. apply Cmem. rewrite <- HF. intros Hin. by apply (M4 q p u t (frame_of j)).
Qed.

(** Code of the kernel for the running program. *)
Lemma pok_user s (f : tid -> list Z -> Machine -> E -> outcome (Machine * E * call)) :
  (forall p F cur nm m e m' e' c, runs p F m -> f cur nm m e = Ok (m', e', c) ->
     kept same_frames p F (e, m) (e', m') /\ cok (User s) c) -> pok (User s) (Code f).
Proof.
  intros Hf cur nm m e Hfit. destruct (f cur nm m e) as [[[m' e'] c]|] eqn:E1; [|done].
  destruct (fits_runs s m e Hfit) as (p & F & Hp & Hn & Hr).
  destruct (Hf p F cur nm m e m' e' c Hr E1) as [[H1 H2] Hc]. exists (User s).
  split; [by apply (confined_guar s p F) | done].
Qed.

Lemma pok_on_state s (f : E * Machine -> outcome (Z * (E * Machine))) (k : Z -> P) :
  (forall p F e m, runs p F m -> stays same_frames p F (e, m) (f (e, m))) ->
  (forall z, pok (User s) (k z)) -> pok (User s) (on_state f k).
Proof.
  intros Hf Hk. apply pok_user. intros p F cur nm m e m' e' c Hr E1.
  apply obind_Ok in E1 as ([r [e1 m1]] & E1 & E2). injection E2 as <- <- <-.
  split; [exact (Hf p F e m Hr r (e1, m1) E1) | apply Hk].
Qed.

Lemma pok_with_user s va limit (k : list Z -> P) : (forall b, pok (User s) (k b)) -> pok (User s) (with_user va limit k).
Proof.
  intros Hk. apply pok_user. intros p F cur nm m e m' e' c Hr E1.
  apply obind_Ok in E1 as ([r [e1 m1]] & E1 & E2). injection E2 as <- <- <-.
  split; [|apply Hk]. exact (User2System_stays same_frames p F va limit e m Hr r (e1, m1) E1).
Qed.

Lemma pok_to_user s va n b (k : P) : pok (User s) k -> pok (User s) (to_user va n b k).
Proof. intros Hk. apply pok_on_state; [|done]. intros p F e m Hr.
  exact (System2User_stays same_frames p F va n b e m Hr).
Qed.

(** Code that only writes registers. *)
Lemma kept_registers p F e m r : runs p F m -> kept same_frames p F (e, m) (e, set_registers m r).
Proof. intros Hr. split; [done |]. by apply confined_registers, confined_refl. Qed.

Lemma IncreasePC_registers m m' : IncreasePC m = Ok m' -> exists r, m' = set_registers m r.
Proof.
  unfold IncreasePC. intros E1. apply obind_Ok in E1 as (pc & _ & E1). apply obind_Ok in E1 as (m1 & H1 & E1).
  apply obind_Ok in E1 as (npc & _ & E1). apply obind_Ok in E1 as (m2 & H2 & E1). apply obind_Ok in E1 as (pc2 & _ & E1).
  apply WriteRegister_registers in H1 as [r1 ->], H2 as [r2 ->], E1 as [r3 ->]. by exists r3.
Qed.

Lemma InitRegisters_registers s m m' : InitRegisters s m = Ok m' -> exists r, m' = set_registers m r.
Proof.
  unfold InitRegisters. intros E1. apply obind_Ok in E1 as (m1 & H1 & E1). apply obind_Ok in E1 as (m2 & H2 & E1).
  apply obind_Ok in E1 as (m3 & H3 & E1).
  assert (exists r, m1 = set_registers m r) as [r ->].
  { revert m H1. induction (seqZ 0 NumTotalRegs) as [|i l IH]; intros m; cbn [ofold]; [intros [= <-]; exists (registers m); by destruct m |].
    intros H1. apply obind_Ok in H1 as (m0 & [r0 ->]%WriteRegister_registers & H1). apply IH in H1 as [r ->]. by exists r. }
  apply WriteRegister_registers in H2 as [r2 ->], H3 as [r3 ->], E1 as [r4 ->]. by exists r4.
Qed.

(** ** Loading and starting a program *)

Lemma Load_header_size fn g (w : W) x h n w' : Load_header fn g w = Ok (Some (x, h, n), w') -> 0 <= n.
Proof.
  unfold Load_header. intros E1. apply obind_Ok in E1 as ([[f|] w1] & _ & E1); [|done].
  apply obind_Ok in E1 as ([[r b] w2] & _ & E1). apply obind_Ok in E1 as (h1 & _ & E1). cbv zeta in E1.
  destruct (_ =? NOFFMAGIC) in E1; [|destruct (_ && _) in E1; try done].
  all: repeat match type of E1 with context [assert_ ?b] => destruct b; [cbn [assert_ obind] in E1|done] end;
    try (injection E1 as _ _ <- _; apply u32_range).
Qed.

(** The thread holds the address space it has loaded. *)
Definition after_load (s : option AddrSpace) : phase :=
  match s with Some s => Holding s | None => Plain end.

Lemma loaded_guar p F S m e m' e' :
  fits Plain m e -> Bitmap.bm_rep (gPhysPageBitMap e) NumPhysPages S ->
  (forall q t f, tables m !! q = Some t -> f ∈ frames t -> f ∈ S) ->
  loaded_at p F S (gPhysPageBitMap e') m m' ->
  guar Plain (Holding (mkAddrSpace (Some p) (Z.of_nat (length F)))) m e m' e'.
Proof.
  intros [[M1 M2 M3 M4] _ _ _ _] HS Hin [L1 L2 L3 L4 L5 L6 L7 L8].
  destruct (table_of_ok F L1) as [Htok HtF]. rewrite Forall_forall in L2.
  assert (untouched None m m') as Hun.
  { intros q t Hq _. split; [rewrite L5, lookup_insert_ne; [done | congruence] |].
    intros j Hj. apply L8. intros HjF. by apply (L2 _ HjF), (Hin q t). }
  assert (forall q u, tables m' !! q = Some u -> q = p /\ u = table_of F \/ q <> p /\ tables m !! q = Some u) as Hold.
  { intros q u Hu. rewrite L5 in Hu. apply lookup_insert_Some in Hu as [[<- <-]|[Hne Hu]]; [by left | by right]. }
  split; [split | exact Hun | | done | right; split; [done |] | done].
  - split; [congruence | done | |].
    + intros q u [[-> ->]|[_ Hu]]%Hold; [done | by apply (M3 q)].
    + intros q r u v f Hqr [[-> ->]|[Hne Hu]]%Hold [[-> ->]|[Hne' Hv]]%Hold; rewrite ?HtF; try done.
      * intros Hf Hf'. by apply (L2 f Hf), (Hin r v).
      * intros Hf Hf'. by apply (L2 f Hf'), (Hin q u).
      * by apply (M4 q r).
  - intros _. exists (list_to_set F ∪ S). split; [done |].
    intros q u f [[-> ->]|[_ Hu]]%Hold; [rewrite HtF; set_solver |]. intros Hf. apply elem_of_union_r. by apply (Hin q u).
  - done.
  - intros s [= <-]. exists p, (table_of F). split; [done |]. rewrite L5, lookup_insert_eq, length_table_of. done.
  - done.
  - intros q t Hq. exists t. by destruct (Hun q t Hq).
  - exists (mkAddrSpace (Some p) (Z.of_nat (length F))), p. done.
Qed.

Lemma pok_Load g fn (k : option AddrSpace -> P) : (forall s, pok (after_load s) (k s)) -> pok Plain (Load g fn k).
Proof.
  intros Hk. apply pok_go. intros e e' c E1. apply obind_Ok in E1 as ([r w] & E1 & E2).
  destruct r as [[[x h] n]|]; injection E2 as <- <-; (split; [done |]); [|exact (Hk None)].
  apply Load_header_size in E1. cbn [cok]. clear e w. intros cur nm m e Hfit.
  destruct (fit_marked _ _ _ Hfit ltac:(done)) as (S & HS & Hin).
  destruct (Load_memory _ _ _ _ _ _) as [[[[s b] m'] w]|] eqn:E2; [|done]. cbn [obind].
  assert (forall ph, pok ph (k s) -> cok ph (CV (addrLock e) (go (fun e =>
            let! w := delete_OpenFile x (host e) in Ok (set_host w (table e) e, CGo (k s)))))) as Hrest.
  { intros ph Hp. apply pok_go. intros e1 e2 c E3. apply obind_Ok in E3 as (w3 & _ & E3). injection E3 as <- <-. done. }
  destruct (Load_memory_loads _ _ _ _ _ _ S _ _ _ _ (mo_mem _ (fit_machine _ _ _ Hfit)) HS E1 E2)
    as [(-> & -> & ->)|(p & F & -> & HL)].
  - exists Plain. split; [by apply guar_same | apply Hrest, (Hk None)].
  - eexists. split; [by apply (loaded_guar p F S) | apply Hrest, (Hk (Some _))].
Qed.

Lemma pok_Execute s : pok (Holding s) (Execute s : P).
Proof.
  apply pok_do. split; [done |]. intros cur nm m e [[M1 M2 M3 M4] Hmk _ Hl _].
  destruct (InitRegisters s m) as [m1|] eqn:E1; [|done]. cbn [obind].
  apply InitRegisters_registers in E1 as [r ->]. exists (User s). split; [|by exists s].
  split; [|done | intros q t Hq; by exists t | done | by left | done].
  split; [done | by intros _; apply Hmk | done | | by intros s' [= <-]]. intros s' [= <-]. exact (Hl s eq_refl).
Qed.

Lemma pok_RunProcess g fn : pok Plain (RunProcess g fn : P).
Proof.
  apply pok_Load. intros [s|]; [apply pok_Execute |]. apply pok_go. intros e e' c E1. discriminate E1.
Qed.

(** ** The rest of the kernel works on its data *)

(** Split a successful step of code on the data. *)
Ltac step_inv E1 :=
  cbn beta iota in E1;
  lazymatch type of E1 with
  | obind _ _ = Ok _ => let x := fresh "x" in let H := fresh "Hx" in apply obind_Ok in E1 as (x & H & E1); step_inv E1
  | (match ?x with _ => _ end) = Ok _ => destruct x; step_inv E1
  | Trap _ = Ok _ => discriminate E1
  | Ok _ = Ok _ => injection E1 as <- <-
  | _ => idtac
  end.

Lemma on_pTab_frames f e e' : on_pTab f e = Ok e' -> gPhysPageBitMap e' = gPhysPageBitMap e.
Proof. unfold on_pTab. intros E1. apply obind_Ok in E1 as (t & _ & E1). by injection E1 as <-. Qed.

Lemma pok_on_pcb ph i (f : PCB -> call) : (forall p, cok ph (f p)) -> pok ph (on_pcb i f).
Proof. intros Hf. apply pok_go. intros e e' c E1. step_inv E1. by split. Qed.

(** [numwait] under its mutex, up or down. *)
Lemma pok_numwait ph i f (k : P) : pok ph k ->
  pok ph (go (fun e => let! p := the_pcb (pTab e) i in
    Ok (e, CP (mutex p) (go (fun e => let! e := on_pTab (upd_pcb i f) e in Ok (e, CV (mutex p) k)))))).
Proof.
  intros Hk. apply pok_go; intros e e' c E1; step_inv E1. split; [done |]. apply pok_go.
  intros e1 e2 c1 E2. step_inv E2. split; [by eapply on_pTab_frames | done].
Qed.

Lemma pok_GetChar ph (k : Z -> P) : (forall z, pok ph (k z)) -> pok ph (GetChar k).
Proof.
  intros Hk. do 3 (apply pok_go; intros ? ? ? [= <- <-]; split; [done |]; cbn [cok]). apply Hk.
Qed.

Lemma ConsoleOutput_PutChar_frames ch e e' : ConsoleOutput_PutChar ch e = Ok e' -> gPhysPageBitMap e' = gPhysPageBitMap e.
Proof.
  unfold ConsoleOutput_PutChar. destruct (negb _); [|done]. cbn [assert_ obind]. intros E1.
  apply obind_Ok in E1 as (w & _ & E1). by injection E1 as <-.
Qed.

Lemma pok_PutChar ph ch (k : P) : pok ph k -> pok ph (PutChar ch k).
Proof.
  intros Hk. apply pok_go; intros ? ? ? [= <- <-]; split; [done |]; cbn [cok].
  apply pok_go. intros e1 e2 c1 E1. step_inv E1. split; [by eapply ConsoleOutput_PutChar_frames |].
  apply pok_go; intros ? ? ? [= <- <-]; split; [done |]. exact Hk.
Qed.

Lemma pok_read_console ph n i b (k : list Z -> Z -> P) : (forall l z, pok ph (k l z)) -> pok ph (read_console n i b k).
Proof.
  intros Hk. revert i b. induction n as [|n IH]; intros i b; cbn [read_console]; [apply Hk |].
  apply pok_GetChar. intros c. apply pok_go. intros e e' c' E1. step_inv E1; (split; [done |]); [apply Hk | apply IH].
Qed.

Lemma pok_write_console ph n i b (k : Z -> P) : (forall z, pok ph (k z)) -> pok ph (write_console n i b k).
Proof.
  intros Hk. revert i b. induction n as [|n IH]; intros i [|c b]; cbn [write_console];
    try (by apply pok_go; intros ? ? ? ?); destruct (c =? 0); try apply Hk. by apply pok_PutChar.
Qed.

Lemma pok_new_PCB ph mk i (k : P) : pok ph k -> pok ph (new_PCB_in mk i k).
Proof.
  intros Hk. apply pok_do. split; [|done]. intros js. apply pok_do. split; [|done]. intros es.
  apply pok_do. by split.
Qed.

Lemma pok_delete_PCB ph i (k : P) : pok ph k -> pok ph (delete_PCB i k).
Proof.
  intros Hk. apply pok_go_as. intros cur nm e e' c E1. apply obind_Ok in E1 as (p & _ & E1).
  destruct (_thread p) as [t|].
  - destruct (bool_decide _); [|done]. injection E1 as <- <-. done.
  - injection E1 as <- <-. split; [done |]. do 2 apply pok_do. exact Hk.
Qed.

Lemma pok_Remove ph pid (k : P) : pok ph k -> pok ph (Remove pid k).
Proof.
  intros Hk. apply pok_go. intros e e' c E1. apply obind_Ok in E1 as ([] & _ & E1); [|by injection E1 as <- <-].
  apply obind_Ok in E1 as (b & _ & E1). injection E1 as <- <-. split; [done |]. apply pok_delete_PCB.
  apply pok_go. intros e1 e2 c1 E2. apply obind_Ok in E2 as (e3 & H3%on_pTab_frames & E2). by injection E2 as <- <-.
Qed.

Lemma Exec_check_frames name nm e r e' : Exec_check name nm e = Ok (r, e') -> gPhysPageBitMap e' = gPhysPageBitMap e.
Proof.
  unfold Exec_check. intros E1. apply obind_Ok in E1 as ([fo w] & _ & E1). destruct fo as [x|]; [|by injection E1 as _ <-].
  apply obind_Ok in E1 as (w1 & _ & E1). apply obind_Ok in E1 as (id & _ & E1). apply obind_Ok in E1 as (p & _ & E1).
  apply obind_Ok in E1 as (fn & _ & E1). destruct (bool_decide _); [by injection E1 as _ <- |].
  apply obind_Ok in E1 as ([sl t] & _ & E1). by injection E1 as _ <-.
Qed.

Lemma pok_PCB_Exec g ph i fn pid (k : Z -> P) : ph <> Boot -> (forall z, pok ph (k z)) -> pok ph (PCB_Exec g i fn pid k).
Proof.
  intros Hph Hk. apply pok_on_pcb. intros p. apply pok_go. intros e e' c E1.
  apply obind_Ok in E1 as (e1 & H1%on_pTab_frames & E1). apply obind_Ok in E1 as (q & _ & E1). injection E1 as <- <-.
  split; [done |]. split; [done |]. split; [apply pok_RunProcess |]. split; [|done]. intros t. by apply pok_do, Hk.
Qed.

Lemma pok_ExecUpdate g ph name (k : Z -> P) : ph <> Boot -> (forall z, pok ph (k z)) -> pok ph (ExecUpdate g name k).
Proof.
  intros Hph Hk. apply pok_go. intros ? ? ? [= <- <-]. split; [done |]. apply pok_go_as. intros cur nm e1 e2 c E1.
  apply obind_Ok in E1 as ([r e3] & H3%Exec_check_frames & E1). destruct r as [[sl id]|]; injection E1 as <- <-.
  - split; [done |]. apply pok_new_PCB. apply pok_PCB_Exec; [done |]. intros z. apply pok_go.
    intros ? ? ? [= <- <-]. split; [done | apply Hk].
  - split; [done | apply Hk].
Qed.

Lemma pok_JoinUpdate ph id (k : Z -> P) : (forall z, pok ph (k z)) -> pok ph (JoinUpdate id k).
Proof.
  intros Hk. apply pok_go_as. intros cur nm e e' c E1. step_inv E1; (split; [done |]); try apply Hk.
  apply pok_numwait. apply pok_on_pcb. intros p. apply pok_numwait. apply pok_on_pcb. intros q.
  apply pok_go. intros ? ? ? E2. step_inv E2. split; [done | apply Hk].
Qed.

Lemma pok_ExitUpdate ph code (k : Z -> P) : (forall z, pok ph (k z)) -> pok ph (ExitUpdate code k).
Proof.
  intros Hk. apply pok_go_as. intros cur nm e e' c E1. apply obind_Ok in E1 as (id & _ & E1).
  destruct (id =? 0); [by injection E1 as <- <- |]. apply obind_Ok in E1 as (e1 & H1%on_pTab_frames & E1).
  injection E1 as <- <-. split; [done |]. apply pok_on_pcb. intros p. apply pok_on_pcb. intros q.
  by apply pok_Remove, Hk.
Qed.

Lemma pok_semaphores ph name v (k : Z -> P) : (forall z, pok ph (k z)) ->
  pok ph (ST_Create name v k) /\ pok ph (ST_Wait name k) /\ pok ph (ST_Signal name k).
Proof.
  intros Hk. split_and!; apply pok_go; intros e e' c E1.
  - apply obind_Ok in E1 as ([sl t] & _ & E1). destruct (sl =? -1); [injection E1 as <- <-; by split; [|apply Hk] |].
    apply obind_Ok in E1 as (u & _ & E1). injection E1 as <- <-. split; [done |]. split; [intros _; apply Hk | done].
  - apply obind_Ok in E1 as ([f|] & _ & E1); injection E1 as <- <-; (split; [done |]); apply Hk.
  - apply obind_Ok in E1 as ([f|] & _ & E1); injection E1 as <- <-; (split; [done |]); apply Hk.
Qed.

(** ** The system calls, the loop of the machine, and main *)

Section Kernel.
Context (garbage : list Z).

Lemma pok_resume_user s : pok (User s) (resume_user : P).
Proof. apply pok_go. intros e e' c [= <- <-]. split; [done | by exists s]. Qed.

Lemma pok_sys_return s z : pok (User s) (sys_return z : P).
Proof.
  apply pok_user. intros p F cur nm m e m' e' c Hr E1.
  apply obind_Ok in E1 as (m1 & [r1 ->]%WriteRegister_registers & E1).
  apply obind_Ok in E1 as (m2 & [r2 ->]%IncreasePC_registers & E1). injection E1 as <- <- <-.
  split; [by apply (kept_registers p F e m r2) | apply pok_resume_user].
Qed.

Lemma pok_names s va sem (k : Z -> P) : (forall z, pok (User s) (k z)) ->
  pok (User s) (SysExec garbage va k) /\ pok (User s) (SysCreateSemaphore va sem k) /\
  pok (User s) (SysWait va k) /\ pok (User s) (SysSignal va k).
Proof.
  intros Hk. split_and!; apply pok_with_user; intros b;
    try (match goal with |- context [no_name b] => destruct (no_name b); [apply pok_do; apply Hk |] end).
  - by apply pok_ExecUpdate.
  - by apply (pok_semaphores _ _ sem (fun _ => k (-1))).
  - by apply (pok_semaphores _ _ sem k).
  - by apply (pok_semaphores _ _ sem k).
Qed.

Lemma pok_SysRead s va n id (k : Z -> P) : (forall z, pok (User s) (k z)) -> pok (User s) (SysRead va n id k).
Proof.
  intros Hk. apply pok_go. intros e e' c E1. apply obind_Ok in E1 as (ok & _ & E1).
  destruct (negb ok); [injection E1 as <- <-; split; [done | apply Hk] |].
  destruct (id =? consoleInputID); injection E1 as <- <-; (split; [done |]).
  - apply pok_with_user. intros b. apply pok_read_console. intros l z. by apply pok_to_user.
  - apply pok_on_state; [|done]. intros p F e1 m Hr. exact (proj1 (file_calls_stay same_frames p F va n id e1 m Hr)).
Qed.

Lemma pok_SysWrite s va n id (k : Z -> P) : (forall z, pok (User s) (k z)) -> pok (User s) (SysWrite va n id k).
Proof.
  intros Hk. apply pok_go. intros e e' c E1. apply obind_Ok in E1 as (ok & _ & E1).
  destruct (negb ok); [injection E1 as <- <-; split; [done | apply Hk] |].
  destruct (id =? consoleOutputID); injection E1 as <- <-; (split; [done |]).
  - apply pok_with_user. intros b. apply pok_write_console. intros z. by apply pok_to_user.
  - apply pok_on_state; [|done]. intros p F e1 m Hr. exact (proj2 (file_calls_stay same_frames p F va n id e1 m Hr)).
Qed.

(** The calls that do not block. *)
Lemma state_calls_stay r4 r5 r6 p F e m : runs p F m ->
  let stay f := stays same_frames p F (e, m) (f (e, m)) in
  (stay (SysCreate r4) /\ stay (SysOpen r4 r5) /\ stay (SysRemove r4)) /\
  (stay (SysClose r4) /\ stay (SysSeek r4 r5) /\ stay SysSocketTCP /\ stay (SysCloseSocket r4)) /\
  (stay (SysConnect r4 r5 r6) /\ stay (SysSend r4 r5 r6) /\ stay (SysReceive r4 r5 r6)).
Proof.
  intros Hr stay. subst stay. cbn beta. split.
  { exact (name_calls_stay same_frames p F r4 r5 e m Hr). }
  split; [|exact (net_calls_stay same_frames p F r4 r5 r6 e m Hr)].
  destruct (id_calls_stay same_frames p F r4 r5 e m Hr) as (? & _ & ?).
  destruct (id_calls_stay same_frames p F r5 r4 e m Hr) as (_ & ? & _). tauto.
Qed.

Lemma pok_switch s type r4 r5 r6 : pok (User s) (SyscallException_switch garbage type r4 r5 r6 : P).
Proof.
  destruct (pok_names s r4 r5 sys_return (pok_sys_return s)) as (H1 & H2 & H3 & H4).
  pose proof (pok_SysRead s r4 r5 r6 sys_return (pok_sys_return s)) as H5.
  pose proof (pok_SysWrite s r4 r5 r6 sys_return (pok_sys_return s)) as H6.
  unfold SyscallException_switch.
  repeat match goal with |- pok _ (if ?b then _ else _) => destruct b end; try assumption;
    try (apply pok_on_state; [intros p F e m Hr; 
        destruct (state_calls_stay r4 r5 r6 p F e m Hr) as ((? & ? & ?) & (? & ? & ? & ?) & ? & ? & ?); assumption
                             | apply pok_sys_return]).
  - apply pok_ExitUpdate. intros z. by apply pok_go.
  - apply pok_JoinUpdate, pok_sys_return.
  - apply pok_ExitUpdate, pok_sys_return.
  - apply pok_resume_user.
Qed.

Lemma pok_user_step s : pok (User s) (user_step garbage : P).
Proof.
  apply pok_user. intros p F cur nm m e m' e' c Hr E1. apply obind_Ok in E1 as ([e1 m1] & E1 & E2).
  pose proof (OneInstruction_stays same_frames p F e m Hr _ E1) as Hk.
  destruct (trapped e1); injection E2 as <- <- <-; [|split; [done | by exists s]].
  split; [by apply (kept_kernel _ p F (e, m) e1) |]. apply pok_user. clear. intros p F cur nm m e m' e' c Hr E1.
  apply obind_Ok in E1 as (x & _ & E1). apply obind_Ok in E1 as (r4 & _ & E1). apply obind_Ok in E1 as (r5 & _ & E1).
  apply obind_Ok in E1 as (r6 & _ & E1). injection E1 as <- <- <-.
  split; [by apply (kept_refl_ same_frames) | apply pok_switch].
Qed.

Lemma new_frames b : Bitmap.new_Bitmap NumPhysPages = Ok b -> Bitmap.bm_rep b NumPhysPages ∅.
Proof.
  destruct (Bitmap.bm_new (BitmapContract := Bitmap.bitmap_contract) NumPhysPages ltac:(done)) as (b' & -> & Hrep).
  by intros [= <-].
Qed.

Lemma pok_Initialize (k : P) : pok Plain k -> pok Boot (Initialize k).
Proof.
  intros Hk. apply pok_do; intros li. apply pok_do; (split; [|done]); intros wi. apply pok_do; intros lo.
  do 3 (apply pok_do; (split; [|done]); intros ?). intros cur nm m e [HM _ Htab _ _].
  destruct (Bitmap.new_Bitmap NumPhysPages) as [b|] eqn:Eb; [|exact I]. apply new_frames in Eb. cbn [obind].
  destruct (new_PTable _ _) as [pt|]; [|done]. destruct new_STable as [st|]; [|done]. cbn [obind]. exists Plain. split; [|done].
  specialize (Htab eq_refl).
  split; [split | | | done | by left | done]; try done.
  - intros _. exists ∅. split; [done |]. intros q t f Hq. by rewrite Htab in Hq.
  - intros q t Hq. by rewrite Htab in Hq.
Qed.

Lemma pok_main prog : pok Boot (main garbage prog : P).
Proof.
  apply pok_Initialize. apply pok_go_as. intros cur nm e e' c [= <- <-]. split; [done |].
  apply pok_new_PCB. apply pok_go. intros e1 e2 c1 E2. apply obind_Ok in E2 as (t & _ & E2). injection E2 as <- <-.
  split; [done |]. apply pok_Load. intros [s|]; [apply pok_Execute | by apply pok_do].
Qed.

End Kernel.

(** ** Properties *)

(** Thread [t] of the kernel runs in the address space [s]. *)
Definition has_space (k : @Kern E) (t : tid) (s : AddrSpace) : Prop :=
  exists th, threads k !! t = Some th /\ space th = Some s.

(** The frames of [s], and the byte a program in [s] sees at [v]. *)
Definition frames_of (m : Machine) (s : AddrSpace) : list Z :=
  default [] (p ← as_pageTable s; frames <$> tables m !! p).
Definition sees (m : Machine) (s : AddrSpace) (v : Z) : option Z := vbyte (frames_of m s) (mainMemory m) v.

(** Devices of the console, and none other than the clock besides. *)
Lemma console_events s : event_ok (EvIrq s (ConsoleInput_CallBack : E -> outcome E)) /\
  event_ok (EvIrq s (ConsoleOutput_CallBack : E -> outcome E)).
Proof.
  split; intros e e'; [|by intros [= <-]]. unfold ConsoleInput_CallBack. destruct (incoming _ =? EOF); [|done].
  cbn [assert_ obind]. intros E1. apply obind_Ok in E1 as ([[r b] w] & _ & E1). destruct (r =? 0); [by injection E1 as <- |].
  destruct (r =? 1); [|done]. cbn [assert_ obind] in E1. apply obind_Ok in E1 as (ch & _ & E1). by injection E1 as <-.
Qed.

Lemma space_facts ph (k : @Kern E) t s : sys ph k -> has_space k t s ->
  exists_ k t /\ own (ph t) = Some s /\ claims (ph t) = Some s /\
  exists p tb, as_pageTable s = Some p /\ tables (machine k) !! p = Some tb /\ numPages s = Z.of_nat (length tb) /\
    table_ok tb /\ frames_of (machine k) s = frames tb.
Proof.
  intros [Ht _ [[_ _ M3 _] _ Hl _ _]] (th & Hth & Hs). assert (exists_ k t) as Hex by by exists th.
  destruct (Ht t th Hth) as [Hown _]. rewrite Hs in Hown. symmetry in Hown.
  assert (claims (ph t) = Some s) as Hcl by by destruct (ph t).
  split; [done |]. split; [done |]. split; [done |]. destruct (Hl t s Hex Hcl) as (p & tb & Hp & Htb & Hn).
  exists p, tb. split_and!; try done; [by apply (M3 p) |]. unfold frames_of. rewrite Hp. cbn. by rewrite Htb.
Qed.

(** Every page is mapped to a frame that is marked. *)
Lemma space_mapped ph (k : @Kern E) t s v : sys ph k -> has_space k t s -> 0 <= v < numPages s * PageSize ->
  exists b f, sees (machine k) s v = Some b /\ frames_of (machine k) s !! Z.to_nat (v / PageSize) = Some f /\
    Bitmap.Test (gPhysPageBitMap (extra k)) f = Ok true.
Proof.
  intros Hsys Hsp Hv. destruct (space_facts ph k t s Hsys Hsp) as (Hex & Hown & Hcl & p & tb & Hp & Htb & Hn & [Hok Hval] & HF).
  unfold sees. rewrite HF. destruct Hsys as [_ _ [[_ Hmem _ _] Hmk _ _ _]].
  destruct (Hmk t Hex ltac:(by destruct (ph t))) as (S & HS & Hin).
  assert (length (frames tb) = length tb) as Hlen by (unfold frames; apply length_fmap).
  destruct (lookup_lt_is_Some_2 (frames tb) (Z.to_nat (v / PageSize))) as [f Hf]; [unfold PageSize in *; dlia |].
  assert (phys (frames tb) v = Some (Z.to_nat (f * PageSize + v mod PageSize))) as Hph by (unfold phys; by rewrite Hf).
  destruct (phys_frame _ v _ Hok Hph) as (f' & Hf' & Hfr & Hj & _). assert (f' = f) as -> by congruence.
  destruct (lookup_lt_is_Some_2 (mainMemory (machine k)) (Z.to_nat (f * PageSize + v mod PageSize))) as [b Hb].
  { destruct Hmem as [Hl _]. pose proof (Z.mod_pos_bound v PageSize ltac:(done)). unfold MemorySize, NumPhysPages, PageSize in *. lia. }
  exists b, f. split; [unfold vbyte; rewrite Hph; exact Hb |]. split; [done |].
  rewrite (Bitmap.bm_Test (BitmapContract := Bitmap.bitmap_contract) _ _ _ f HS Hfr). f_equal. apply bool_decide_eq_true.
  apply (Hin p tb f Htb). by eapply list_elem_of_lookup_2.
Qed.

Lemma spaces_disjoint ph (k : @Kern E) t u s s' f : sys ph k -> t <> u -> has_space k t s -> has_space k u s' ->
  f ∈ frames_of (machine k) s -> f ∉ frames_of (machine k) s'.
Proof.
  intros Hsys Htu Hs Hs'.
  destruct (space_facts ph k t s Hsys Hs) as (Hex & _ & Hcl & p & tb & Hp & Htb & _ & _ & ->).
  destruct (space_facts ph k u s' Hsys Hs') as (Hex' & _ & Hcl' & p' & tb' & Hp' & Htb' & _ & _ & ->).
  destruct Hsys as [_ _ [[_ _ _ M4] _ _ Hd _]]. intros Hf. apply (M4 p p' tb tb' f); [|done..].
  intros ->. apply (Hd t u s s'); congruence.
Qed.

(** A thread that is not current sees nothing of a step. *)
Lemma isolated_sees ph (k k' : @Kern E) t s v : sys ph k -> isolated ph k k' -> t <> currentThread k ->
  has_space k t s -> sees (machine k') s v = sees (machine k) s v.
Proof.
  intros Hsys [Hun _] Ht Hs. destruct (sys_active _ _ Hsys) as [Hc _].
  destruct (space_facts ph k t s Hsys Hs) as (Hex & _ & Hcl & p & tb & Hp & Htb & _ & [Hok _] & HF).
  destruct (Hun p tb Htb) as [Htb' Hmem].
  { unfold own_table. destruct (own (ph (currentThread k))) as [sc|] eqn:Ho; [|done]. cbn.
    assert (claims (ph (currentThread k)) = Some sc) as Hcc by by destruct (ph (currentThread k)).
    destruct Hsys as [_ _ [_ _ _ Hd _]]. intros E1. apply (Hd t (currentThread k) s sc); try done. congruence. }
  unfold sees. rewrite HF. replace (frames_of (machine k') s) with (frames tb)
    by (unfold frames_of; rewrite Hp; cbn; by rewrite Htb').
  unfold vbyte. destruct (phys (frames tb) v) as [i|] eqn:Ei; [|done]. cbn. apply Hmem.
  destruct (phys_frame _ v i Hok Ei) as (f & Hf & _ & _ & ->). by eapply list_elem_of_lookup_2.
Qed.

(** C7.  Processes are isolated in the whole kernel.  Boot it with [-x]
    and any program, on a host that answers anything, let the programs run
    any instructions and any system calls (Exec, Join and Exit included),
    with any interleaving of interrupts and time slices: in every state it
    reaches every address space is fully mapped to frames that are marked
    as used; two threads never have a frame in common; and one more step
    changes nothing that another thread's program can see, neither its
    memory nor its address space nor its saved registers. *)
Theorem processes_isolated garbage prog nm m0 (e0 : E) es k :
  mem_wf m0 -> tlb m0 = None -> tables m0 = ∅ -> Forall event_ok es ->
  run (PR := kernel_labels garbage) es (initial nm (main garbage prog) m0 e0) = Ok k ->
  (forall t s v, has_space k t s -> 0 <= v < numPages s * PageSize ->
     exists b f, sees (machine k) s v = Some b /\ frames_of (machine k) s !! Z.to_nat (v / PageSize) = Some f /\
       Bitmap.Test (gPhysPageBitMap (extra k)) f = Ok true) /\
  (forall t u s s' f, t <> u -> has_space k t s -> has_space k u s' ->
     f ∈ frames_of (machine k) s -> f ∉ frames_of (machine k) s') /\
  (forall ev k' t s, event_ok ev -> step (PR := kernel_labels garbage) ev k = Ok k' ->
     t <> currentThread k -> has_space k t s ->
     (forall v, sees (machine k') s v = sees (machine k) s v) /\
     forall th th', threads k !! t = Some th -> threads k' !! t = Some th' ->
       userRegisters th' = userRegisters th /\ space th' = Some s).
Proof.
  intros Hm Htlb Htab Hes E1.
  assert (forall l s, pok (User s) (kernel_labels garbage l)) as Hlabels by (intros l s; apply pok_user_step).
  destruct (run_sys (PR := kernel_labels garbage) es (fun _ => Boot) (initial nm (main garbage prog) m0 e0) k) as (ph & Hsys);
    [done | done | | done |].
  { apply boot_sys; [apply pok_main | | done]. split; [done | done | |]; intros q; intros *; by rewrite Htab. }
  split; [intros t s v; by apply (space_mapped ph) |]. split; [intros t u s s' f; by apply (spaces_disjoint ph) |].
  intros ev k' t s Hev E2 Ht Hs.
  destruct (step_sys (PR := kernel_labels garbage) ph ev k k' Hlabels Hev Hsys E2) as (_ & _ & Hiso).
  split; [intros v; by apply (isolated_sees ph k k' t) |]. intros th th' H1 H2.
  destruct (iso_user _ _ _ Hiso t th th' Ht H1 H2) as [Hr Hsp]. split; [done |]. destruct Hs as (th0 & H0 & Hs). congruence.
Qed.

End Isolation.
End Isolation.

(** ** A run: a program that executes another *)

Module TwoPrograms.
Import Machine Stub AddrSpace Threads ProcTable Syscalls Process Isolation.

#[export] Instance AddrSpace_eq_dec : EqDecision AddrSpace.
Proof. solve_decision. Defined.

(** A read-only disk with some files, and the open files with their
    offsets. *)
Record disk := mkDisk { files : list (list Z * list Z); opened : gmap nat (list Z * Z) }.

Definition descriptor (fd : Z) (w : disk) : option (list Z * Z) :=
  if fd <? 0 then None else opened w !! Z.to_nat fd.
Definition set_descriptor (fd : Z) (x : list Z * Z) (w : disk) : disk :=
  mkDisk (files w) (<[Z.to_nat fd := x]> (opened w)).

#[export] Instance disk_host : Host disk := {|
  open n _ w :=
    match list_find (fun p => p.1 = n) (files w) with
    | Some (_, (_, b)) => let fd := Z.of_nat (fresh (dom (opened w))) in (fd, set_descriptor fd (b, 0) w)
    | None => (-1, w)
    end;
  close fd w :=
    match descriptor fd w with
    | Some _ => (0, mkDisk (files w) (delete (Z.to_nat fd) (opened w)))
    | None => (-1, w)
    end;
  read fd n w :=
    match descriptor fd w with
    | Some (b, o) =>
        let d := take (Z.to_nat n) (drop (Z.to_nat o) b) in
        (Z.of_nat (length d), d, set_descriptor fd (b, o + Z.of_nat (length d)) w)
    | None => (-1, [], w)
    end;
  write _ _ w := (-1, w);
  lseek fd off whence w :=
    match descriptor fd w with
    | Some (b, o) => let t := seek_target o (Z.of_nat (length b)) off whence in (t, set_descriptor fd (b, t) w)
    | None => (-1, w)
    end;
  unlink _ w := (-1, w);
  socket w := (-1, w);
  inet_addr _ := 0;
  connect _ _ _ w := (-1, w);
  set_timeout _ _ _ w := w;
  send _ _ w := (-1, w);
  recv _ _ w := (-1, [], w)
|}.

(** Executables: the header, and instructions. *)
Definition word (z : Z) : list Z := [z mod 256; (z / 2 ^ 8) mod 256; (z / 2 ^ 16) mod 256; (z / 2 ^ 24) mod 256].
Definition addiu (rt rs imm : Z) : Z := 9 * 2 ^ 26 + rs * 2 ^ 21 + rt * 2 ^ 16 + imm.
Definition sw (rt rs imm : Z) : Z := 43 * 2 ^ 26 + rs * 2 ^ 21 + rt * 2 ^ 16 + imm.
Definition syscall : Z := 12.

Definition noff (instructions : list Z) : list Z :=
  let text := mjoin (word <$> instructions) in
  mjoin (word <$> [NOFFMAGIC; 0; 52; Z.of_nat (length text); 0; 0; 0; 0; 0; 0; 0; 0; 0]) ++ text.

(** [id = Exec("b"); Join(id); Halt();] and [*36 = sp; Exit(7);] *)
Definition program_a : list Z := noff
  [addiu 4 0 36; addiu 2 0 SC_Exec; syscall; addiu 4 2 0; addiu 2 0 SC_Join; syscall;
   addiu 2 0 SC_Halt; syscall; 0; 98].
Definition program_b : list Z := noff
  [sw 29 0 36; addiu 4 0 7; addiu 2 0 SC_Exit; syscall; 0; 0; 0; 0; 0; 0].

Definition kernel_data : Kdata disk :=
  mkKdata (mkDisk [([97], program_a); ([98], program_b)] ∅) FileTable.new_Table SystemMode false
    (mkPTable 10 (Bitmap.mkBitmap 10 1 [0]) (replicate 10 None) 0)
    (mkSTable (Bitmap.mkBitmap 10 1 [0]) (replicate 10 None))
    (Bitmap.mkBitmap 128 4 [0; 0; 0; 0]) 1 (mkConsole 0 2 EOF 0 1 3 false 1).

#[export] Instance labels : Procs (Kdata disk) := kernel_labels (replicate 52 0).
Definition booted : @Kern (Kdata disk) :=
  initial str_main (main (replicate 52 0) [97]) (new_Machine false) kernel_data.

Definition after (n : nat) : outcome (@Kern (Kdata disk)) := run (replicate n EvRun) booted.

(** The address spaces of the two programs. *)
Definition space_a : AddrSpace := mkAddrSpace (Some 1%positive) 9.
Definition space_b : AddrSpace := mkAddrSpace (Some 2%positive) 9.

Definition observe {A} (f : @Kern (Kdata disk) -> A) (n : nat) : outcome A := let! k := after n in Ok (f k).

(** A whole run of the kernel, from [main] on: the program [a] is
    loaded and started, its Exec makes a process that runs [b] (each has
    its own 9 pages: [b] has stored its stack pointer where [a] has the
    name of the program), its Join returns when [b] exits, with the exit
    code in its register 2, and its Halt stops the machine. *)
Theorem exec_join_halt :
  observe (fun k => (currentThread k, space <$> threads k !! 0%nat, space <$> threads k !! 1%nat,
      sees (machine k) space_a 36, sees (machine k) space_b 36)) 60
    = Ok (1%nat, Some (Some space_a), Some (Some space_b), Some 98, Some 112) /\
  observe (fun k => (currentThread k, reg (machine k) 2, reg (machine k) PCReg)) 68 = Ok (0%nat, 7, 24) /\
  after 73 = Trap Halted.
Proof. vm_compute. auto. Qed.

End TwoPrograms.
Import Machine AddrSpace Threads ProcTable Syscalls Process Isolation TwoPrograms.

Lemma processes_isolated_witness : exists k k', after 60 = Ok k /\ step EvRun k = Ok k' /\
  sees (machine k') space_a 36 = sees (machine k) space_a 36.
Proof.
  assert (match after 60 with
          | Ok k =>
              bool_decide (currentThread k = 1%nat /\ space <$> threads k !! 0%nat = Some (Some space_a)) &&
              match step EvRun k with Ok _ => true | Trap _ => false end
          | Trap _ => false
          end = true) as H by (vm_compute; reflexivity).
  destruct (after 60) as [k|] eqn:E; [|discriminate H].
  destruct (step EvRun k) as [k'|] eqn:E'; [|rewrite andb_false_r in H; discriminate H].
  rewrite andb_true_r in H. apply bool_decide_eq_true in H as [Ec Es].
  exists k, k'. split; [reflexivity |]. split; [exact E' |].
  assert (has_space k 0 space_a) as Hs.
  { destruct (threads k !! 0%nat) as [th|] eqn:Et; [|discriminate Es]. exists th. split; [exact Et |].
    injection Es as Es. exact Es. }
  destruct (processes_isolated (replicate 52 0) [97] str_main (new_Machine false) kernel_data (replicate 60 EvRun) k
    AddrSpaceWitness.new_Machine_wf eq_refl eq_refl ltac:(apply Forall_replicate; exact I) E) as (_ & _ & Hstep).
  destruct (Hstep EvRun k' 0%nat space_a I E' ltac:(rewrite Ec; discriminate) Hs) as [Hv _]. exact (Hv 36).
Defined.
